(** * SPACE PUSH — server session core

    A shallow embedding of [src/server/gameState.js], [src/server/constants.js]
    and the socket and timer layer of the server entry point, followed by the
    properties of the session store, the elimination and scoring engine and
    the match timers.

    Conventions of the embedding.
    - JavaScript numbers that hold millisecond timestamps or counters are [Z];
      numbers that hold seconds, coordinates, radii and scores are exact
      rationals [Q] (the idealisation of IEEE doubles: no rounding, no NaN).
      The boundary check of [updateBoundaryStatus] turns on comparisons of
      rounded quantities; it is embedded a second time over IEEE 754
      binary64 numbers, in module [Binary64], and its property is stated
      there.
    - [null]/[undefined] is [None]; JavaScript truthiness of a number is
      [truthy] ([null] and [0] are falsy), of a string [truthy_str].
    - The module-level [Map] of players is an association list in insertion
      order ([JsMap]); a player object is a record updated under its key.
    - Every call of [Date.now()] is an explicit argument of the function that
      makes it, one argument per call site; every call of [Math.random()] is
      an explicit argument as well.  [Math.cos], [Math.sin] and [Math.PI] are
      section variables. *)

From Stdlib Require Import Floats.
From Stdlib Require Import ZArith QArith Qminmax Qround Qabs List String Ascii Bool Lia.
From Stdlib Require Import DecimalString.
From Stdlib Require Import Sorted Permutation.
Import ListNotations.

Local Open Scope Z_scope.

(** ** JavaScript values *)

Definition truthy (o : option Z) : bool :=
  match o with
  | Some t => negb (t =? 0)
  | None => false
  end.

Definition truthy_str (o : option string) : bool :=
  match o with
  | Some s => negb (s =? "")%string
  | None => false
  end.

(** [o === s] for a nullable string [o] and a string [s]. *)
Definition strict_eq (o : option string) (s : string) : bool :=
  match o with
  | Some h => (h =? s)%string
  | None => false
  end.

Definition Qlt_bool (a b : Q) : bool := negb (Qle_bool b a).

Definition ms_to_seconds (ms : Z) : Q := (inject_Z ms / 1000)%Q.

Definition string_of_nat (n : nat) : string :=
  NilZero.string_of_uint (Nat.to_uint n).

(** ** The built-in [Map], in insertion order *)

Module JsMap.
Section Ops.
Context {V : Type}.

Definition t := list (string * V).

Fixpoint get (k : string) (m : t) : option V :=
  match m with
  | [] => None
  | (k', v) :: m' => if (k' =? k)%string then Some v else get k m'
  end.

(** [set] keeps the position of a key that is already present and appends
    a new key at the end. *)
Fixpoint set (k : string) (v : V) (m : t) : t :=
  match m with
  | [] => [(k, v)]
  | (k', v') :: m' =>
      if (k' =? k)%string then (k, v) :: m' else (k', v') :: set k v m'
  end.

Fixpoint delete (k : string) (m : t) : t :=
  match m with
  | [] => []
  | (k', v) :: m' =>
      if (k' =? k)%string then m' else (k', v) :: delete k m'
  end.

Definition values (m : t) : list V := List.map snd m.

Definition keys (m : t) : list string := List.map fst m.

Definition size (m : t) : nat := List.length m.

(** Assignment to fields of the object stored under [k]: the object is
    shared, so the map sees the new fields; nothing happens without it. *)
Fixpoint update (k : string) (f : V -> V) (m : t) : t :=
  match m with
  | [] => []
  | (k', v) :: m' =>
      if (k' =? k)%string then (k', f v) :: m' else (k', v) :: update k f m'
  end.

(** [forEach] with a callback that only assigns fields of its argument. *)
Definition forEach (f : V -> V) (m : t) : t :=
  List.map (fun kv => (fst kv, f (snd kv))) m.
End Ops.
Arguments t : clear implicits.
End JsMap.

(** ** constants.js *)

Definition PLAYER_COLORS : list string :=
  [ "#ff4444"; "#44ff44"; "#4444ff"; "#ffff44"; "#ff44ff"; "#44ffff";
    "#ff8844"; "#88ff44"; "#4488ff"; "#ff4488"; "#44ff88"; "#8844ff" ]%string.

Inductive GameState := LOBBY | COUNTDOWN | PLAYING | ENDED.

Definition GameState_eqb (a b : GameState) : bool :=
  match a, b with
  | LOBBY, LOBBY | COUNTDOWN, COUNTDOWN | PLAYING, PLAYING | ENDED, ENDED => true
  | _, _ => false
  end.

Module PLATFORM.
Definition INITIAL_RADIUS : Q := 10%Q.
Definition MIN_RADIUS : Q := 4%Q.
Definition SHRINK_INTERVAL : Z := 30000.
Definition SHRINK_AMOUNT : Q := 2%Q.
Definition SHRINK_WARNING_TIME : Z := 5000.
End PLATFORM.

Module SERVER.
Definition TICK_RATE : Z := 20.
Definition TICK_INTERVAL : Z := 50.
Definition FALL_THRESHOLD : Q := (-5)%Q.
End SERVER.

Module COUNTDOWN_CFG.
Definition DURATION : Z := 3.
End COUNTDOWN_CFG.

Module PLAYERS.
Definition MAX_PLAYERS : nat := 40.
End PLAYERS.

(** ** Player objects *)

Record Vec3 := { x : Q; y : Q; z : Q }.

Module Hit.
Record t := { id : string; name : string; timestamp : Z }.
End Hit.

Module Player.
Record t := {
  id : string;
  name : string;
  color : string;
  colorIndex : nat;
  position : Vec3;
  velocity : Vec3;
  isEliminated : bool;
  isReady : bool;
  score : Q;
  eliminations : Z;
  survivalTime : Q;
  outOfBoundsTime : Q;
  isOutOfBounds : bool;
  outOfBoundsStartTime : option Z;
  gameStartTime : option Z;
  lastHitBy : option Hit.t;
  joinedAt : Z;
  lastUpdate : option Z;
  eliminatedAt : option Z
}.

Definition set_position (v : Vec3) (p : t) : t :=
  {| id := id p; name := name p; color := color p; colorIndex := colorIndex p;
     position := v; velocity := velocity p;
     isEliminated := isEliminated p; isReady := isReady p; score := score p;
     eliminations := eliminations p; survivalTime := survivalTime p;
     outOfBoundsTime := outOfBoundsTime p; isOutOfBounds := isOutOfBounds p;
     outOfBoundsStartTime := outOfBoundsStartTime p;
     gameStartTime := gameStartTime p; lastHitBy := lastHitBy p;
     joinedAt := joinedAt p; lastUpdate := lastUpdate p;
     eliminatedAt := eliminatedAt p |}.

Definition set_velocity (v : Vec3) (p : t) : t :=
  {| id := id p; name := name p; color := color p; colorIndex := colorIndex p;
     position := position p; velocity := v;
     isEliminated := isEliminated p; isReady := isReady p; score := score p;
     eliminations := eliminations p; survivalTime := survivalTime p;
     outOfBoundsTime := outOfBoundsTime p; isOutOfBounds := isOutOfBounds p;
     outOfBoundsStartTime := outOfBoundsStartTime p;
     gameStartTime := gameStartTime p; lastHitBy := lastHitBy p;
     joinedAt := joinedAt p; lastUpdate := lastUpdate p;
     eliminatedAt := eliminatedAt p |}.

Definition set_isEliminated (b : bool) (p : t) : t :=
  {| id := id p; name := name p; color := color p; colorIndex := colorIndex p;
     position := position p; velocity := velocity p;
     isEliminated := b; isReady := isReady p; score := score p;
     eliminations := eliminations p; survivalTime := survivalTime p;
     outOfBoundsTime := outOfBoundsTime p; isOutOfBounds := isOutOfBounds p;
     outOfBoundsStartTime := outOfBoundsStartTime p;
     gameStartTime := gameStartTime p; lastHitBy := lastHitBy p;
     joinedAt := joinedAt p; lastUpdate := lastUpdate p;
     eliminatedAt := eliminatedAt p |}.

Definition set_isReady (b : bool) (p : t) : t :=
  {| id := id p; name := name p; color := color p; colorIndex := colorIndex p;
     position := position p; velocity := velocity p;
     isEliminated := isEliminated p; isReady := b; score := score p;
     eliminations := eliminations p; survivalTime := survivalTime p;
     outOfBoundsTime := outOfBoundsTime p; isOutOfBounds := isOutOfBounds p;
     outOfBoundsStartTime := outOfBoundsStartTime p;
     gameStartTime := gameStartTime p; lastHitBy := lastHitBy p;
     joinedAt := joinedAt p; lastUpdate := lastUpdate p;
     eliminatedAt := eliminatedAt p |}.

Definition set_score (q : Q) (p : t) : t :=
  {| id := id p; name := name p; color := color p; colorIndex := colorIndex p;
     position := position p; velocity := velocity p;
     isEliminated := isEliminated p; isReady := isReady p; score := q;
     eliminations := eliminations p; survivalTime := survivalTime p;
     outOfBoundsTime := outOfBoundsTime p; isOutOfBounds := isOutOfBounds p;
     outOfBoundsStartTime := outOfBoundsStartTime p;
     gameStartTime := gameStartTime p; lastHitBy := lastHitBy p;
     joinedAt := joinedAt p; lastUpdate := lastUpdate p;
     eliminatedAt := eliminatedAt p |}.

Definition set_eliminations (n : Z) (p : t) : t :=
  {| id := id p; name := name p; color := color p; colorIndex := colorIndex p;
     position := position p; velocity := velocity p;
     isEliminated := isEliminated p; isReady := isReady p; score := score p;
     eliminations := n; survivalTime := survivalTime p;
     outOfBoundsTime := outOfBoundsTime p; isOutOfBounds := isOutOfBounds p;
     outOfBoundsStartTime := outOfBoundsStartTime p;
     gameStartTime := gameStartTime p; lastHitBy := lastHitBy p;
     joinedAt := joinedAt p; lastUpdate := lastUpdate p;
     eliminatedAt := eliminatedAt p |}.

Definition set_survivalTime (q : Q) (p : t) : t :=
  {| id := id p; name := name p; color := color p; colorIndex := colorIndex p;
     position := position p; velocity := velocity p;
     isEliminated := isEliminated p; isReady := isReady p; score := score p;
     eliminations := eliminations p; survivalTime := q;
     outOfBoundsTime := outOfBoundsTime p; isOutOfBounds := isOutOfBounds p;
     outOfBoundsStartTime := outOfBoundsStartTime p;
     gameStartTime := gameStartTime p; lastHitBy := lastHitBy p;
     joinedAt := joinedAt p; lastUpdate := lastUpdate p;
     eliminatedAt := eliminatedAt p |}.

Definition set_outOfBoundsTime (q : Q) (p : t) : t :=
  {| id := id p; name := name p; color := color p; colorIndex := colorIndex p;
     position := position p; velocity := velocity p;
     isEliminated := isEliminated p; isReady := isReady p; score := score p;
     eliminations := eliminations p; survivalTime := survivalTime p;
     outOfBoundsTime := q; isOutOfBounds := isOutOfBounds p;
     outOfBoundsStartTime := outOfBoundsStartTime p;
     gameStartTime := gameStartTime p; lastHitBy := lastHitBy p;
     joinedAt := joinedAt p; lastUpdate := lastUpdate p;
     eliminatedAt := eliminatedAt p |}.

Definition set_isOutOfBounds (b : bool) (p : t) : t :=
  {| id := id p; name := name p; color := color p; colorIndex := colorIndex p;
     position := position p; velocity := velocity p;
     isEliminated := isEliminated p; isReady := isReady p; score := score p;
     eliminations := eliminations p; survivalTime := survivalTime p;
     outOfBoundsTime := outOfBoundsTime p; isOutOfBounds := b;
     outOfBoundsStartTime := outOfBoundsStartTime p;
     gameStartTime := gameStartTime p; lastHitBy := lastHitBy p;
     joinedAt := joinedAt p; lastUpdate := lastUpdate p;
     eliminatedAt := eliminatedAt p |}.

Definition set_outOfBoundsStartTime (o : option Z) (p : t) : t :=
  {| id := id p; name := name p; color := color p; colorIndex := colorIndex p;
     position := position p; velocity := velocity p;
     isEliminated := isEliminated p; isReady := isReady p; score := score p;
     eliminations := eliminations p; survivalTime := survivalTime p;
     outOfBoundsTime := outOfBoundsTime p; isOutOfBounds := isOutOfBounds p;
     outOfBoundsStartTime := o;
     gameStartTime := gameStartTime p; lastHitBy := lastHitBy p;
     joinedAt := joinedAt p; lastUpdate := lastUpdate p;
     eliminatedAt := eliminatedAt p |}.

Definition set_gameStartTime (o : option Z) (p : t) : t :=
  {| id := id p; name := name p; color := color p; colorIndex := colorIndex p;
     position := position p; velocity := velocity p;
     isEliminated := isEliminated p; isReady := isReady p; score := score p;
     eliminations := eliminations p; survivalTime := survivalTime p;
     outOfBoundsTime := outOfBoundsTime p; isOutOfBounds := isOutOfBounds p;
     outOfBoundsStartTime := outOfBoundsStartTime p;
     gameStartTime := o; lastHitBy := lastHitBy p;
     joinedAt := joinedAt p; lastUpdate := lastUpdate p;
     eliminatedAt := eliminatedAt p |}.

Definition set_lastHitBy (o : option Hit.t) (p : t) : t :=
  {| id := id p; name := name p; color := color p; colorIndex := colorIndex p;
     position := position p; velocity := velocity p;
     isEliminated := isEliminated p; isReady := isReady p; score := score p;
     eliminations := eliminations p; survivalTime := survivalTime p;
     outOfBoundsTime := outOfBoundsTime p; isOutOfBounds := isOutOfBounds p;
     outOfBoundsStartTime := outOfBoundsStartTime p;
     gameStartTime := gameStartTime p; lastHitBy := o;
     joinedAt := joinedAt p; lastUpdate := lastUpdate p;
     eliminatedAt := eliminatedAt p |}.

Definition set_lastUpdate (o : option Z) (p : t) : t :=
  {| id := id p; name := name p; color := color p; colorIndex := colorIndex p;
     position := position p; velocity := velocity p;
     isEliminated := isEliminated p; isReady := isReady p; score := score p;
     eliminations := eliminations p; survivalTime := survivalTime p;
     outOfBoundsTime := outOfBoundsTime p; isOutOfBounds := isOutOfBounds p;
     outOfBoundsStartTime := outOfBoundsStartTime p;
     gameStartTime := gameStartTime p; lastHitBy := lastHitBy p;
     joinedAt := joinedAt p; lastUpdate := o;
     eliminatedAt := eliminatedAt p |}.

Definition set_eliminatedAt (o : option Z) (p : t) : t :=
  {| id := id p; name := name p; color := color p; colorIndex := colorIndex p;
     position := position p; velocity := velocity p;
     isEliminated := isEliminated p; isReady := isReady p; score := score p;
     eliminations := eliminations p; survivalTime := survivalTime p;
     outOfBoundsTime := outOfBoundsTime p; isOutOfBounds := isOutOfBounds p;
     outOfBoundsStartTime := outOfBoundsStartTime p;
     gameStartTime := gameStartTime p; lastHitBy := lastHitBy p;
     joinedAt := joinedAt p; lastUpdate := lastUpdate p;
     eliminatedAt := o |}.
End Player.

(** ** The module state of gameState.js *)

Record Store := {
  gameState : GameState;
  players : JsMap.t Player.t;
  hostId : option string;
  platformRadius : Q;
  gameStartTime : option Z;
  lastShrinkTime : option Z
}.

Definition with_players (f : JsMap.t Player.t -> JsMap.t Player.t) (st : Store) : Store :=
  {| gameState := gameState st; players := f (players st); hostId := hostId st;
     platformRadius := platformRadius st; gameStartTime := gameStartTime st;
     lastShrinkTime := lastShrinkTime st |}.

Definition with_hostId (h : option string) (st : Store) : Store :=
  {| gameState := gameState st; players := players st; hostId := h;
     platformRadius := platformRadius st; gameStartTime := gameStartTime st;
     lastShrinkTime := lastShrinkTime st |}.

(** The state of a freshly loaded module. *)
Definition initialStore : Store :=
  {| gameState := LOBBY; players := []; hostId := None;
     platformRadius := PLATFORM.INITIAL_RADIUS; gameStartTime := None;
     lastShrinkTime := None |}.

(** [Number(v)] for a nullable timestamp used in arithmetic: [null] is [0]. *)
Definition time_of (o : option Z) : Z :=
  match o with
  | Some t => t
  | None => 0
  end.

(** [Math.sqrt(s) > b] over the exact rationals of the server model: the
    square root of a negative number is NaN, which compares false; otherwise
    the root exceeds a negative bound, and exceeds a non-negative bound
    exactly when [s] exceeds its square.  The comparison of rounded doubles
    that the code makes is [Binary64.isCurrentlyOutOfBounds]. *)
Definition sqrt_gt (s b : Q) : bool :=
  Qle_bool 0 s && (Qlt_bool b 0 || Qlt_bool (b * b) s).

(** [Math.round]: the nearest integer, halves rounded up. *)
Definition Math_round (q : Q) : Z := Qfloor (q + (1 # 2))%Q.

(** [Array.prototype.sort] is stable; with the comparator
    [(a, b) => a.joinedAt - b.joinedAt] it is this insertion sort. *)
Fixpoint insert_by_joinedAt (p : Player.t) (l : list Player.t) : list Player.t :=
  match l with
  | [] => [p]
  | q :: l' =>
      if Player.joinedAt p <=? Player.joinedAt q then p :: l
      else q :: insert_by_joinedAt p l'
  end.

Definition sort_by_joinedAt (l : list Player.t) : list Player.t :=
  List.fold_right insert_by_joinedAt [] l.

(** ** The boundary check over IEEE 754 doubles

    [updateBoundaryStatus] once more, with every number that the code holds
    in a double held in a binary64 [float] and every operation rounded to
    nearest, ties to even, as the engine does it.  The player object has
    the fields the function reads or assigns.  Clock readings stay [Z]:
    [Date.now()] is an integer below 2^53, and so is a difference of two
    readings, which [of_Z] converts without rounding. *)

Module Binary64.

Record Vec3 := { x : float; y : float; z : float }.

Record Player := {
  position : Vec3;
  isEliminated : bool;
  isOutOfBounds : bool;
  outOfBoundsStartTime : option Z;
  outOfBoundsTime : float;
  gameStartTime : option Z;
  survivalTime : float
}.

Definition set_position (v : Vec3) (p : Player) : Player :=
  {| position := v; isEliminated := isEliminated p;
     isOutOfBounds := isOutOfBounds p;
     outOfBoundsStartTime := outOfBoundsStartTime p;
     outOfBoundsTime := outOfBoundsTime p; gameStartTime := gameStartTime p;
     survivalTime := survivalTime p |}.

Definition set_isOutOfBounds (b : bool) (p : Player) : Player :=
  {| position := position p; isEliminated := isEliminated p;
     isOutOfBounds := b;
     outOfBoundsStartTime := outOfBoundsStartTime p;
     outOfBoundsTime := outOfBoundsTime p; gameStartTime := gameStartTime p;
     survivalTime := survivalTime p |}.

Definition set_outOfBoundsStartTime (o : option Z) (p : Player) : Player :=
  {| position := position p; isEliminated := isEliminated p;
     isOutOfBounds := isOutOfBounds p;
     outOfBoundsStartTime := o;
     outOfBoundsTime := outOfBoundsTime p; gameStartTime := gameStartTime p;
     survivalTime := survivalTime p |}.

Definition set_outOfBoundsTime (t : float) (p : Player) : Player :=
  {| position := position p; isEliminated := isEliminated p;
     isOutOfBounds := isOutOfBounds p;
     outOfBoundsStartTime := outOfBoundsStartTime p;
     outOfBoundsTime := t; gameStartTime := gameStartTime p;
     survivalTime := survivalTime p |}.

Definition set_survivalTime (t : float) (p : Player) : Player :=
  {| position := position p; isEliminated := isEliminated p;
     isOutOfBounds := isOutOfBounds p;
     outOfBoundsStartTime := outOfBoundsStartTime p;
     outOfBoundsTime := outOfBoundsTime p; gameStartTime := gameStartTime p;
     survivalTime := t |}.

(** The double that holds the integer [n]; exact for [|n| <= 2^53]. *)
Definition of_Z (n : Z) : float :=
  match n with
  | Z0 => 0%float
  | Zpos _ => PrimFloat.of_uint63 (Uint63.of_Z n)
  | Zneg m => (- PrimFloat.of_uint63 (Uint63.of_Z (Zpos m)))%float
  end.

(** [ms / 1000] for a difference [ms] of two clock readings. *)
Definition ms_to_seconds (ms : Z) : float := (of_Z ms / 1000)%float.

(** [distance > platformRadius + 1 || player.position.y < -1], where
    [distance] is [Math.sqrt(x ** 2 + z ** 2)]; the engine computes
    [v ** 2] as [v * v].  A comparison with NaN is false. *)
Definition isCurrentlyOutOfBounds (player : Player) (platformRadius : float) : bool :=
  let pos := position player in
  let distance := PrimFloat.sqrt (x pos * x pos + z pos * z pos)%float in
  (platformRadius + 1 <? distance)%float || (y pos <? -1)%float.

(** The [if / else if / else if] chain on the player object: the updated
    object, and whether the function returns [true] from inside the
    chain. *)
Definition boundaryTransition (now : Z) (isCurrentlyOutOfBounds : bool)
    (player : Player) : bool * Player :=
  if isCurrentlyOutOfBounds && negb (isOutOfBounds player) then
    (false, set_outOfBoundsStartTime (Some now) (set_isOutOfBounds true player))
  else if negb isCurrentlyOutOfBounds && isOutOfBounds player then
    let p := set_isOutOfBounds false player in
    let p :=
      if truthy (outOfBoundsStartTime p) then
        let timeOut := ms_to_seconds (now - time_of (outOfBoundsStartTime p)) in
        set_outOfBoundsTime (outOfBoundsTime p + timeOut)%float p
      else p in
    (false, set_outOfBoundsStartTime None p)
  else if isCurrentlyOutOfBounds && isOutOfBounds player then
    if truthy (outOfBoundsStartTime player) then
      let currentOutTime :=
        ms_to_seconds (now - time_of (outOfBoundsStartTime player)) in
      let totalOutTime := (outOfBoundsTime player + currentOutTime)%float in
      if (10 <=? totalOutTime)%float then
        (true, set_outOfBoundsStartTime None (set_outOfBoundsTime totalOutTime player))
      else (false, player)
    else (false, player)
  else (false, player).

Definition updateBoundaryStatus (now : Z) (id : string) (platformRadius : float)
    (players : JsMap.t Player) : bool * JsMap.t Player :=
  match JsMap.get id players with
  | None => (false, players)
  | Some player =>
      if isEliminated player then (false, players)
      else
        let (returned, p1) :=
          boundaryTransition now (isCurrentlyOutOfBounds player platformRadius) player in
        if returned then (true, JsMap.update id (fun _ => p1) players)
        else
          let p2 :=
            if negb (isEliminated p1) && negb (isOutOfBounds p1)
               && truthy (gameStartTime p1)
            then set_survivalTime (ms_to_seconds (now - time_of (gameStartTime p1))) p1
            else p1 in
          (false, JsMap.update id (fun _ => p2) players)
  end.

(** [player.position = position] of [updatePlayerPosition], for a player
    that is not eliminated. *)
Definition updatePlayerPosition (id : string) (position : Vec3)
    (players : JsMap.t Player) : JsMap.t Player :=
  match JsMap.get id players with
  | Some player =>
      if negb (isEliminated player) then JsMap.update id (set_position position) players
      else players
  | None => players
  end.

End Binary64.

(** ** gameState.js *)

Section GameStateJs.

Variables Math_cos Math_sin : Q -> Q.
Variable Math_PI : Q.

Definition spawnPosition (r1 r2 : Q) : Vec3 :=
  let spawnAngle := (r1 * Math_PI * 2)%Q in
  let spawnRadius := (r2 * 3 + 2)%Q in
  {| x := (Math_cos spawnAngle * spawnRadius)%Q;
     y := 1%Q;
     z := (Math_sin spawnAngle * spawnRadius)%Q |}.

Definition zeroVec : Vec3 := {| x := 0%Q; y := 0%Q; z := 0%Q |}.

Definition createPlayer (now : Z) (r1 r2 : Q) (id : string) (name : option string)
    (st : Store) : Player.t * Store :=
  let colorIndex := (JsMap.size (players st) mod List.length PLAYER_COLORS)%nat in
  let player :=
    {| Player.id := id;
       Player.name :=
         match name with
         | Some n =>
             if truthy_str name then n
             else ("Player" ++ string_of_nat (JsMap.size (players st) + 1))%string
         | None => ("Player" ++ string_of_nat (JsMap.size (players st) + 1))%string
         end;
       Player.color := List.nth colorIndex PLAYER_COLORS ""%string;
       Player.colorIndex := colorIndex;
       Player.position := spawnPosition r1 r2;
       Player.velocity := zeroVec;
       Player.isEliminated := false;
       Player.isReady := false;
       Player.score := 0%Q;
       Player.eliminations := 0;
       Player.survivalTime := 0%Q;
       Player.outOfBoundsTime := 0%Q;
       Player.isOutOfBounds := false;
       Player.outOfBoundsStartTime := None;
       Player.gameStartTime := None;
       Player.lastHitBy := None;
       Player.joinedAt := now;
       Player.lastUpdate := None;
       Player.eliminatedAt := None |} in
  let st1 := with_players (JsMap.set id player) st in
  let st2 := if negb (truthy_str (hostId st1)) then with_hostId (Some id) st1 else st1 in
  (player, st2).

Definition removePlayer (id : string) (st : Store) : option Player.t * Store :=
  match JsMap.get id (players st) with
  | Some player =>
      let st1 := with_players (JsMap.delete id) st in
      let st2 :=
        if strict_eq (hostId st1) id then
          if (0 <? JsMap.size (players st1))%nat then
            match sort_by_joinedAt (JsMap.values (players st1)) with
            | first :: _ => with_hostId (Some (Player.id first)) st1
            | [] => st1
            end
          else with_hostId None st1
        else st1 in
      (Some player, st2)
  | None => (None, st)
  end.

Definition getPlayer (id : string) (st : Store) : option Player.t :=
  JsMap.get id (players st).

Definition getAllPlayers (st : Store) : list Player.t :=
  JsMap.values (players st).

Definition getPlayerCount (st : Store) : nat := JsMap.size (players st).

Definition getHostId (st : Store) : option string := hostId st.

Definition isHost (id : string) (st : Store) : bool := strict_eq (hostId st) id.

Definition updatePlayerPosition (now : Z) (id : string) (position : Vec3)
    (velocity : option Vec3) (st : Store) : Store :=
  match JsMap.get id (players st) with
  | Some player =>
      if negb (Player.isEliminated player) then
        with_players
          (JsMap.update id (fun p =>
             let p1 := Player.set_position position p in
             let p2 := match velocity with
                       | Some v => Player.set_velocity v p1
                       | None => p1
                       end in
             Player.set_lastUpdate (Some now) p2))
          st
      else st
  | None => st
  end.

Definition eliminatePlayer (now : Z) (id : string) (st : Store) : bool * Store :=
  match JsMap.get id (players st) with
  | Some player =>
      if negb (Player.isEliminated player) then
        (true,
         with_players
           (JsMap.update id (fun p =>
              Player.set_eliminatedAt (Some now) (Player.set_isEliminated true p)))
           st)
      else (false, st)
  | None => (false, st)
  end.

Definition getAlivePlayers (st : Store) : list Player.t :=
  List.filter (fun p => negb (Player.isEliminated p)) (JsMap.values (players st)).

Definition getGameState (st : Store) : GameState := gameState st.

Definition setGameState (now : Z) (state : GameState) (st : Store) : Store :=
  if GameState_eqb state PLAYING then
    {| gameState := state; players := players st; hostId := hostId st;
       platformRadius := platformRadius st; gameStartTime := Some now;
       lastShrinkTime := Some now |}
  else
    {| gameState := state; players := players st; hostId := hostId st;
       platformRadius := platformRadius st; gameStartTime := gameStartTime st;
       lastShrinkTime := lastShrinkTime st |}.

Definition getPlatformRadius (st : Store) : Q := platformRadius st.

Definition shrinkPlatform (now : Z) (newRadius : Q) (st : Store) : Store :=
  {| gameState := gameState st; players := players st; hostId := hostId st;
     platformRadius := Qmax newRadius PLATFORM.MIN_RADIUS;
     gameStartTime := gameStartTime st; lastShrinkTime := Some now |}.

Definition getTimeSinceLastShrink (now : Z) (st : Store) : Z :=
  if negb (truthy (lastShrinkTime st)) then 0
  else now - time_of (lastShrinkTime st).

Definition shouldShrinkPlatform (now : Z) (shrinkInterval : Z) (st : Store) : bool :=
  if negb (truthy (lastShrinkTime st)) then false
  else
    let timeSinceLastShrink := now - time_of (lastShrinkTime st) in
    shrinkInterval <=? timeSinceLastShrink.

Definition getTimeUntilNextShrink (now : Z) (shrinkInterval : Z) (st : Store) : Z :=
  if negb (truthy (lastShrinkTime st)) then -1
  else
    let timeSinceLastShrink := now - time_of (lastShrinkTime st) in
    Z.max 0 (shrinkInterval - timeSinceLastShrink).

Record WarningState := { isWarning : bool; warningProgress : Q }.

Definition getShrinkWarningState (now : Z) (shrinkInterval warningTime : Z)
    (st : Store) : WarningState :=
  if negb (truthy (lastShrinkTime st))
     || Qle_bool (platformRadius st) PLATFORM.MIN_RADIUS
  then {| isWarning := false; warningProgress := 0%Q |}
  else
    let timeUntilShrink := getTimeUntilNextShrink now shrinkInterval st in
    let isWarning := (timeUntilShrink <=? warningTime) && (0 <? timeUntilShrink) in
    if isWarning then
      let warningProgress :=
        (1 - inject_Z timeUntilShrink / inject_Z warningTime)%Q in
      {| isWarning := isWarning; warningProgress := warningProgress |}
    else {| isWarning := false; warningProgress := 0%Q |}.

(** The callback of [resetGame], for the player visited with the two random
    draws [r1] and [r2]. *)
Definition resetPlayer (r1 r2 : Q) (player : Player.t) : Player.t :=
  let p := Player.set_position (spawnPosition r1 r2) player in
  let p := Player.set_velocity zeroVec p in
  let p := Player.set_isEliminated false p in
  let p := Player.set_isReady false p in
  let p := Player.set_score 0%Q p in
  let p := Player.set_eliminations 0 p in
  let p := Player.set_survivalTime 0%Q p in
  let p := Player.set_outOfBoundsTime 0%Q p in
  let p := Player.set_isOutOfBounds false p in
  let p := Player.set_outOfBoundsStartTime None p in
  let p := Player.set_gameStartTime None p in
  Player.set_lastHitBy None p.

(** [players.forEach] of [resetGame]: the player visited [i]-th consumes the
    draws [rand (2 i)] and [rand (2 i + 1)]. *)
Fixpoint resetPlayers (rand : nat -> Q) (i : nat) (m : JsMap.t Player.t)
    : JsMap.t Player.t :=
  match m with
  | [] => []
  | (k, player) :: m' =>
      (k, resetPlayer (rand (2 * i)%nat) (rand (2 * i + 1)%nat) player)
        :: resetPlayers rand (S i) m'
  end.

Definition resetGame (rand : nat -> Q) (st : Store) : Store :=
  {| gameState := LOBBY;
     players := resetPlayers rand 0 (players st);
     hostId := hostId st;
     platformRadius := PLATFORM.INITIAL_RADIUS;
     gameStartTime := None;
     lastShrinkTime := None |}.

Definition setPlayerReady (id : string) (ready : bool) (st : Store) : Store :=
  match JsMap.get id (players st) with
  | Some _ => with_players (JsMap.update id (Player.set_isReady ready)) st
  | None => st
  end.

Record StateSnapshot := {
  snap_gameState : GameState;
  snap_players : list Player.t;
  snap_hostId : option string;
  snap_platformRadius : Q;
  snap_timestamp : Z
}.

Definition getStateSnapshot (now : Z) (st : Store) : StateSnapshot :=
  {| snap_gameState := gameState st;
     snap_players := getAllPlayers st;
     snap_hostId := hostId st;
     snap_platformRadius := platformRadius st;
     snap_timestamp := now |}.

Record PositionSnapshot := {
  positions : list (string * (Vec3 * Vec3));
  pos_timestamp : Z
}.

Definition getPositionSnapshot (now : Z) (st : Store) : PositionSnapshot :=
  {| positions :=
       List.map (fun kv => (fst kv, (Player.position (snd kv), Player.velocity (snd kv))))
         (List.filter (fun kv => negb (Player.isEliminated (snd kv))) (players st));
     pos_timestamp := now |}.

Definition recordCollision (now : Z) (playerId hitterId : string) (st : Store) : Store :=
  match JsMap.get playerId (players st), JsMap.get hitterId (players st) with
  | Some player, Some hitter =>
      if negb (Player.isEliminated player) && negb (Player.isEliminated hitter) then
        with_players
          (JsMap.update playerId
             (Player.set_lastHitBy
                (Some {| Hit.id := Player.id hitter;
                         Hit.name := Player.name hitter;
                         Hit.timestamp := now |})))
          st
      else st
  | _, _ => st
  end.

(** The [if / else if / else if] chain of [updateBoundaryStatus] on the
    player object: the updated object, and whether the function returns
    [true] from inside the chain.  Seconds are exact rationals here; with
    the rounding of the code the chain is [Binary64.boundaryTransition]. *)
Definition boundaryTransition (now : Z) (isCurrentlyOutOfBounds : bool)
    (player : Player.t) : bool * Player.t :=
  if isCurrentlyOutOfBounds && negb (Player.isOutOfBounds player) then
    (false,
     Player.set_outOfBoundsStartTime (Some now)
       (Player.set_isOutOfBounds true player))
  else if negb isCurrentlyOutOfBounds && Player.isOutOfBounds player then
    let p := Player.set_isOutOfBounds false player in
    let p :=
      if truthy (Player.outOfBoundsStartTime p) then
        let timeOut := ms_to_seconds (now - time_of (Player.outOfBoundsStartTime p)) in
        Player.set_outOfBoundsTime (Player.outOfBoundsTime p + timeOut)%Q p
      else p in
    (false, Player.set_outOfBoundsStartTime None p)
  else if isCurrentlyOutOfBounds && Player.isOutOfBounds player then
    if truthy (Player.outOfBoundsStartTime player) then
      let currentOutTime :=
        ms_to_seconds (now - time_of (Player.outOfBoundsStartTime player)) in
      let totalOutTime := (Player.outOfBoundsTime player + currentOutTime)%Q in
      if Qle_bool 10 totalOutTime then
        (true,
         Player.set_outOfBoundsStartTime None
           (Player.set_outOfBoundsTime totalOutTime player))
      else (false, player)
    else (false, player)
  else (false, player).

Definition isCurrentlyOutOfBounds (player : Player.t) (platformRadius : Q) : bool :=
  let pos := Player.position player in
  sqrt_gt (x pos * x pos + z pos * z pos)%Q (platformRadius + 1)%Q
  || Qlt_bool (y pos) (-1)%Q.

Definition updateBoundaryStatus (now : Z) (id : string) (platformRadius : Q)
    (st : Store) : bool * Store :=
  match JsMap.get id (players st) with
  | None => (false, st)
  | Some player =>
      if Player.isEliminated player then (false, st)
      else
        let (returned, p1) :=
          boundaryTransition now (isCurrentlyOutOfBounds player platformRadius) player in
        if returned then (true, with_players (JsMap.update id (fun _ => p1)) st)
        else
          let p2 :=
            if negb (Player.isEliminated p1) && negb (Player.isOutOfBounds p1)
               && truthy (Player.gameStartTime p1)
            then Player.set_survivalTime
                   (ms_to_seconds (now - time_of (Player.gameStartTime p1))) p1
            else p1 in
          (false, with_players (JsMap.update id (fun _ => p2)) st)
  end.

Definition calculatePlayerScore (now : Z) (id : string) (st : Store) : Store :=
  match JsMap.get id (players st) with
  | None => st
  | Some player =>
      let totalOutTime :=
        if Player.isOutOfBounds player && truthy (Player.outOfBoundsStartTime player)
        then (Player.outOfBoundsTime player
              + ms_to_seconds (now - time_of (Player.outOfBoundsStartTime player)))%Q
        else Player.outOfBoundsTime player in
      let survivalTime :=
        if negb (Player.isEliminated player) && truthy (Player.gameStartTime player)
           && negb (Player.isOutOfBounds player)
        then ms_to_seconds (now - time_of (Player.gameStartTime player))
        else Player.survivalTime player in
      with_players
        (JsMap.update id
           (Player.set_score
              (Qmax 0 (inject_Z (Player.eliminations player) * 100
                       + survivalTime - totalOutTime * 10))%Q))
        st
  end.

(** The three clock readings of one call of [eliminatePlayerWithAttribution]:
    for [eliminatedAt], for [timeSinceHit], and inside [calculatePlayerScore]. *)
Record ElimClock := { tEliminatedAt : Z; tSinceHit : Z; tScore : Z }.

Record EliminationInfo := {
  playerId : string;
  playerName : string;
  reason : string;
  eliminatedBy : option (string * string);
  finalScore : Q
}.

(** The attribution block: the state after the victim has been marked is
    [st]; the result is the credit and the state with the hitter's counter
    incremented. *)
Definition attribute (now : Z) (reason : string) (player : Player.t) (st : Store)
    : option (string * string) * Store :=
  if (reason =? "pushed")%string then
    match Player.lastHitBy player with
    | Some hit =>
        let timeSinceHit := now - Hit.timestamp hit in
        if timeSinceHit <? 3000 then
          match JsMap.get (Hit.id hit) (players st) with
          | Some hitter =>
              if negb (Player.isEliminated hitter) then
                (Some (Player.id hitter, Player.name hitter),
                 with_players
                   (JsMap.update (Hit.id hit)
                      (fun h => Player.set_eliminations (Player.eliminations h + 1) h))
                   st)
              else (None, st)
          | None => (None, st)
          end
        else (None, st)
    | None => (None, st)
    end
  else (None, st).

Definition eliminatePlayerWithAttribution (clk : ElimClock) (id : string)
    (reason : string) (st : Store) : option EliminationInfo * Store :=
  match JsMap.get id (players st) with
  | None => (None, st)
  | Some player =>
      if Player.isEliminated player then (None, st)
      else
        let st1 :=
          with_players
            (JsMap.update id (fun p =>
               Player.set_eliminatedAt (Some (tEliminatedAt clk))
                 (Player.set_isEliminated true p)))
            st in
        let (eliminatedBy, st2) := attribute (tSinceHit clk) reason player st1 in
        let st3 := calculatePlayerScore (tScore clk) id st2 in
        (Some {| playerId := id;
                 playerName := Player.name player;
                 reason := reason;
                 eliminatedBy := eliminatedBy;
                 finalScore :=
                   match JsMap.get id (players st3) with
                   | Some p => Player.score p
                   | None => Player.score player
                   end |},
         st3)
  end.

(** The default value of the parameter [reason]. *)
Definition eliminatePlayerWithAttribution_default (clk : ElimClock) (id : string)
    (st : Store) : option EliminationInfo * Store :=
  eliminatePlayerWithAttribution clk id "boundary" st.

Record ScoreEntry := {
  se_id : string;
  se_name : string;
  se_color : string;
  se_score : Z;
  se_eliminations : Z;
  se_survivalTime : Q;
  se_outOfBoundsTime : Q;
  se_isEliminated : bool;
  se_isOutOfBounds : bool
}.

(** The clock readings of one iteration of [getScoreSnapshot]. *)
Record ScoreClock := { tCalc : Z; tOut : Z; tSurv : Z }.

Definition scoreEntry (clk : ScoreClock) (player : Player.t) : ScoreEntry :=
  let currentOutTime :=
    if Player.isOutOfBounds player && truthy (Player.outOfBoundsStartTime player)
    then (Player.outOfBoundsTime player
          + ms_to_seconds (tOut clk - time_of (Player.outOfBoundsStartTime player)))%Q
    else Player.outOfBoundsTime player in
  let survivalTime :=
    if negb (Player.isEliminated player) && truthy (Player.gameStartTime player)
       && negb (Player.isOutOfBounds player)
    then ms_to_seconds (tSurv clk - time_of (Player.gameStartTime player))
    else Player.survivalTime player in
  {| se_id := Player.id player;
     se_name := Player.name player;
     se_color := Player.color player;
     se_score := Math_round (Player.score player);
     se_eliminations := Player.eliminations player;
     se_survivalTime := (inject_Z (Math_round (survivalTime * 10)) / 10)%Q;
     se_outOfBoundsTime := (inject_Z (Math_round (currentOutTime * 10)) / 10)%Q;
     se_isEliminated := Player.isEliminated player;
     se_isOutOfBounds := Player.isOutOfBounds player |}.

(** [players.forEach] of [getScoreSnapshot], over the keys in map order. *)
Fixpoint scoreEntries (clk : string -> ScoreClock) (ks : list string) (st : Store)
    : list ScoreEntry * Store :=
  match ks with
  | [] => ([], st)
  | k :: ks' =>
      match JsMap.get k (players st) with
      | Some player =>
          let st1 := calculatePlayerScore (tCalc (clk k)) (Player.id player) st in
          let entry :=
            match JsMap.get k (players st1) with
            | Some p => scoreEntry (clk k) p
            | None => scoreEntry (clk k) player
            end in
          let (rest, st2) := scoreEntries clk ks' st1 in
          (entry :: rest, st2)
      | None => scoreEntries clk ks' st
      end
  end.

(** The stable sort with the comparator [(a, b) => b.score - a.score]. *)
Fixpoint insert_by_score (e : ScoreEntry) (l : list ScoreEntry) : list ScoreEntry :=
  match l with
  | [] => [e]
  | q :: l' =>
      if se_score q <=? se_score e then e :: l else q :: insert_by_score e l'
  end.

Definition getScoreSnapshot (clk : string -> ScoreClock) (st : Store)
    : list ScoreEntry * Store :=
  let (scores, st') := scoreEntries clk (JsMap.keys (players st)) st in
  (List.fold_right insert_by_score [] scores, st').

Definition initializeGameTimes (now : Z) (st : Store) : Store :=
  with_players
    (JsMap.forEach (fun player =>
       if negb (Player.isEliminated player) then
         Player.set_outOfBoundsStartTime None
           (Player.set_isOutOfBounds false
              (Player.set_outOfBoundsTime 0%Q
                 (Player.set_survivalTime 0%Q
                    (Player.set_gameStartTime (Some now) player))))
       else player))
    st.

(** ** The server entry point: timers, handlers and broadcasts *)

(** The callbacks given to [setInterval].  The countdown callback closes over
    the local variable [count] of the call of [startCountdown] that made it. *)
Inductive Callback :=
| GameLoopCallback
| ScoreCallback
| CountdownCallback (count : Z).

Inductive Target :=
| ToSocket (sid : string)       (* socket.emit *)
| ToOthers (sid : string)       (* socket.broadcast.emit *)
| ToAll.                        (* io.emit *)

Inductive Message :=
| playerCount (count maxPlayers : nat)
| joinError (message : string)
| joined (player : Player.t) (isHost : bool) (count maxPlayers : nat)
    (snapshot : StateSnapshot)
| playerJoined (player : Player.t) (hostId : option string)
| playerLeft (id name : string) (newHostId : option string)
| positionUpdate (snapshot : PositionSnapshot)
| countdown (count : Z)
| gameStart (snapshot : StateSnapshot)
| playerEliminated (id name : string) (reason : option string)
    (eliminatedBy : option (string * string))
| platformWarning (isWarning : bool) (warningProgress currentRadius : Q)
| platformShrink (radius : Q)
| konamiActivated (id name color : string)
| gameEnd (winner : option (string * string * string))
| gameReset (snapshot : StateSnapshot)
| playerReady (id : string) (ready : bool)
| scoreUpdate (scores : list ScoreEntry).

Definition Emitted := list (Target * Message).

(** The module state of the entry point, the store it imports, and the
    interval table of the runtime: [timers] holds the active intervals,
    [nextTimer] the next fresh handle, [cleared] every handle that was
    passed to [clearInterval], most recent first. *)
Record Server := {
  store : Store;
  gameLoopInterval : option nat;
  countdownInterval : option nat;
  scoreUpdateInterval : option nat;
  previousWarningState : WarningState;
  timers : list (nat * Callback);
  nextTimer : nat;
  cleared : list nat
}.

Definition initialServer : Server :=
  {| store := initialStore;
     gameLoopInterval := None;
     countdownInterval := None;
     scoreUpdateInterval := None;
     previousWarningState := {| isWarning := false; warningProgress := 0%Q |};
     timers := [];
     nextTimer := 1%nat;
     cleared := [] |}.

Definition with_store (st : Store) (s : Server) : Server :=
  {| store := st; gameLoopInterval := gameLoopInterval s;
     countdownInterval := countdownInterval s;
     scoreUpdateInterval := scoreUpdateInterval s;
     previousWarningState := previousWarningState s;
     timers := timers s; nextTimer := nextTimer s; cleared := cleared s |}.

Definition with_previousWarningState (w : WarningState) (s : Server) : Server :=
  {| store := store s; gameLoopInterval := gameLoopInterval s;
     countdownInterval := countdownInterval s;
     scoreUpdateInterval := scoreUpdateInterval s;
     previousWarningState := w;
     timers := timers s; nextTimer := nextTimer s; cleared := cleared s |}.

Definition with_gameLoopInterval (h : option nat) (s : Server) : Server :=
  {| store := store s; gameLoopInterval := h;
     countdownInterval := countdownInterval s;
     scoreUpdateInterval := scoreUpdateInterval s;
     previousWarningState := previousWarningState s;
     timers := timers s; nextTimer := nextTimer s; cleared := cleared s |}.

Definition with_countdownInterval (h : option nat) (s : Server) : Server :=
  {| store := store s; gameLoopInterval := gameLoopInterval s;
     countdownInterval := h;
     scoreUpdateInterval := scoreUpdateInterval s;
     previousWarningState := previousWarningState s;
     timers := timers s; nextTimer := nextTimer s; cleared := cleared s |}.

Definition with_scoreUpdateInterval (h : option nat) (s : Server) : Server :=
  {| store := store s; gameLoopInterval := gameLoopInterval s;
     countdownInterval := countdownInterval s;
     scoreUpdateInterval := h;
     previousWarningState := previousWarningState s;
     timers := timers s; nextTimer := nextTimer s; cleared := cleared s |}.

(** [setInterval(cb, _)]: a fresh handle, now active. *)
Definition setInterval (cb : Callback) (s : Server) : nat * Server :=
  (nextTimer s,
   {| store := store s; gameLoopInterval := gameLoopInterval s;
      countdownInterval := countdownInterval s;
      scoreUpdateInterval := scoreUpdateInterval s;
      previousWarningState := previousWarningState s;
      timers := timers s ++ [(nextTimer s, cb)];
      nextTimer := S (nextTimer s); cleared := cleared s |}).

(** [clearInterval(h)]: nothing for [null]. *)
Definition clearInterval (h : option nat) (s : Server) : Server :=
  match h with
  | None => s
  | Some n =>
      {| store := store s; gameLoopInterval := gameLoopInterval s;
         countdownInterval := countdownInterval s;
         scoreUpdateInterval := scoreUpdateInterval s;
         previousWarningState := previousWarningState s;
         timers := List.filter (fun e => negb (fst e =? n)%nat) (timers s);
         nextTimer := nextTimer s; cleared := n :: cleared s |}
  end.

(** The closure variable [count] of an active countdown callback. *)
Definition setCount (h : nat) (count : Z) (s : Server) : Server :=
  {| store := store s; gameLoopInterval := gameLoopInterval s;
     countdownInterval := countdownInterval s;
     scoreUpdateInterval := scoreUpdateInterval s;
     previousWarningState := previousWarningState s;
     timers := List.map (fun e => if (fst e =? h)%nat then (h, CountdownCallback count) else e)
                 (timers s);
     nextTimer := nextTimer s; cleared := cleared s |}.

Fixpoint callbackOf (h : nat) (l : list (nat * Callback)) : option Callback :=
  match l with
  | [] => None
  | (h', cb) :: l' => if (h' =? h)%nat then Some cb else callbackOf h l'
  end.

Definition startGameLoop (s : Server) : Server :=
  match gameLoopInterval s with
  | Some _ => s
  | None =>
      let (h, s1) := setInterval GameLoopCallback s in
      with_gameLoopInterval (Some h) s1
  end.

Definition startScoreUpdates (s : Server) : Server :=
  match scoreUpdateInterval s with
  | Some _ => s
  | None =>
      let (h, s1) := setInterval ScoreCallback s in
      with_scoreUpdateInterval (Some h) s1
  end.

(** [setGameState] away from [PLAYING] does not read the clock. *)
Definition setGameState_noclock (state : GameState) (st : Store) : Store :=
  setGameState 0 state st.

Definition handleGameEnd (winner : option Player.t) (s : Server) : Server * Emitted :=
  if GameState_eqb (getGameState (store s)) ENDED then (s, [])
  else
    let s1 := with_store (setGameState_noclock ENDED (store s)) s in
    let s2 :=
      match scoreUpdateInterval s1 with
      | Some h => with_scoreUpdateInterval None (clearInterval (Some h) s1)
      | None => s1
      end in
    match winner with
    | Some w =>
        (s2, [(ToAll, gameEnd (Some (Player.id w, Player.name w, Player.color w)))])
    | None => (s2, [(ToAll, gameEnd None)])
    end.

Definition startCountdown (s : Server) : Server * Emitted :=
  let s1 := with_store (setGameState_noclock COUNTDOWN (store s)) s in
  let count := COUNTDOWN_CFG.DURATION in
  let (h, s2) := setInterval (CountdownCallback count) s1 in
  (with_countdownInterval (Some h) s2, [(ToAll, countdown count)]).

(** The countdown callback, for the active interval [h] whose closure holds
    [count]; the three clock readings are for [setGameState],
    [initializeGameTimes] and [getStateSnapshot]. *)
Definition countdownCallback (h : nat) (count : Z) (nowState nowTimes nowSnapshot : Z)
    (s : Server) : Server * Emitted :=
  let count := count - 1 in
  let s := setCount h count s in
  if 0 <? count then (s, [(ToAll, countdown count)])
  else
    let s1 := with_countdownInterval None (clearInterval (countdownInterval s) s) in
    let s2 := with_store (setGameState nowState PLAYING (store s1)) s1 in
    let s3 := with_store (initializeGameTimes nowTimes (store s2)) s2 in
    let out := [(ToAll, gameStart (getStateSnapshot nowSnapshot (store s3)))] in
    (startScoreUpdates (startGameLoop s3), out).

(** The clock readings of one run of the game-loop callback; the readings
    made while a player is processed are indexed by the player's id. *)
Record TickClock := {
  tkPositions : Z;
  tkBoundary : string -> Z;
  tkElimBoundary : string -> ElimClock;
  tkElimPushed : string -> ElimClock;
  tkWarning : Z;
  tkShouldShrink : Z;
  tkShrink : Z
}.

Definition eliminationMessage (info : EliminationInfo) : Target * Message :=
  (ToAll,
   playerEliminated (playerId info) (playerName info) (Some (reason info))
     (eliminatedBy info)).

(** The body of [alivePlayers.forEach] in the game loop.  No function called
    here assigns [position], so [player.position.y] is read from [player]. *)
Definition tickPlayer (clk : TickClock) (currentRadius : Q)
    (acc : bool * Store * Emitted) (player : Player.t) : bool * Store * Emitted :=
  let '(anyEliminated, st, out) := acc in
  let id := Player.id player in
  let (shouldEliminate, st1) :=
    updateBoundaryStatus (tkBoundary clk id) id currentRadius st in
  let '(any1, st2, out1) :=
    if shouldEliminate then
      match eliminatePlayerWithAttribution (tkElimBoundary clk id) id "boundary" st1 with
      | (Some info, st2) => (true, st2, out ++ [eliminationMessage info])
      | (None, st2) => (anyEliminated, st2, out)
      end
    else (anyEliminated, st1, out) in
  if Qlt_bool (y (Player.position player)) SERVER.FALL_THRESHOLD then
    match eliminatePlayerWithAttribution (tkElimPushed clk id) id "pushed" st2 with
    | (Some info, st3) => (true, st3, out1 ++ [eliminationMessage info])
    | (None, st3) => (any1, st3, out1)
    end
  else (any1, st2, out1).

Definition warningChanged (previous current : WarningState) : bool :=
  negb (Bool.eqb (isWarning previous) (isWarning current))
  || (isWarning current
      && Qlt_bool (5 # 100)
           (Qabs (warningProgress previous - warningProgress current))).

Definition gameLoopCallback (clk : TickClock) (s : Server) : Server * Emitted :=
  if GameState_eqb (getGameState (store s)) PLAYING then
    let out0 := [(ToAll, positionUpdate (getPositionSnapshot (tkPositions clk) (store s)))] in
    let currentRadius := getPlatformRadius (store s) in
    let alivePlayers := getAlivePlayers (store s) in
    let '(anyEliminated, st1, out1) :=
      List.fold_left (tickPlayer clk currentRadius) alivePlayers (false, store s, out0) in
    let s1 := with_store st1 s in
    let (s2, out2) :=
      if anyEliminated then
        let remaining := getAlivePlayers (store s1) in
        if (List.length remaining <=? 1)%nat then
          let (s', o) := handleGameEnd (List.hd_error remaining) s1 in
          (s', out1 ++ o)
        else (s1, out1)
      else (s1, out1) in
    let warningState :=
      getShrinkWarningState (tkWarning clk) PLATFORM.SHRINK_INTERVAL
        PLATFORM.SHRINK_WARNING_TIME (store s2) in
    let (s3, out3) :=
      if warningChanged (previousWarningState s2) warningState then
        (with_previousWarningState
           {| isWarning := isWarning warningState;
              warningProgress := warningProgress warningState |} s2,
         out2 ++ [(ToAll, platformWarning (isWarning warningState)
                            (warningProgress warningState) currentRadius)])
      else (s2, out2) in
    if Qlt_bool PLATFORM.MIN_RADIUS currentRadius
       && shouldShrinkPlatform (tkShouldShrink clk) PLATFORM.SHRINK_INTERVAL (store s3)
    then
      let newRadius := (currentRadius - PLATFORM.SHRINK_AMOUNT)%Q in
      let s4 := with_store (shrinkPlatform (tkShrink clk) newRadius (store s3)) s3 in
      (s4, out3 ++ [(ToAll, platformShrink (getPlatformRadius (store s4)))])
    else (s3, out3)
  else (s, []).

Definition scoreCallback (clk : string -> ScoreClock) (s : Server) : Server * Emitted :=
  if GameState_eqb (getGameState (store s)) PLAYING then
    let (scores, st1) := getScoreSnapshot clk (store s) in
    (with_store st1 s, [(ToAll, scoreUpdate scores)])
  else (s, []).

(** *** Socket handlers; [sid] is [socket.id] *)

Definition onConnection (sid : string) (s : Server) : Server * Emitted :=
  (s, [(ToSocket sid, playerCount (getPlayerCount (store s)) PLAYERS.MAX_PLAYERS)]).

Definition onJoin (sid : string) (name : option string) (now : Z) (r1 r2 : Q)
    (nowSnapshot : Z) (s : Server) : Server * Emitted :=
  let currentCount := getPlayerCount (store s) in
  if (PLAYERS.MAX_PLAYERS <=? currentCount)%nat then
    (s, [(ToSocket sid, joinError "Server is full")])
  else
    let (player, st1) := createPlayer now r1 r2 sid name (store s) in
    let s1 := with_store st1 s in
    let isPlayerHost := isHost sid (store s1) in
    let newCount := getPlayerCount (store s1) in
    (startGameLoop s1,
     [ (ToSocket sid,
        joined player isPlayerHost newCount PLAYERS.MAX_PLAYERS
          (getStateSnapshot nowSnapshot (store s1)));
       (ToOthers sid, playerJoined player (getHostId (store s1)));
       (ToAll, playerCount newCount PLAYERS.MAX_PLAYERS) ]).

Definition onInput (sid : string) (position : Vec3) (velocity : option Vec3) (now : Z)
    (s : Server) : Server * Emitted :=
  if negb (GameState_eqb (getGameState (store s)) PLAYING) then (s, [])
  else
    match getPlayer sid (store s) with
    | Some player =>
        if negb (Player.isEliminated player) then
          (with_store (updatePlayerPosition now sid position velocity (store s)) s, [])
        else (s, [])
    | None => (s, [])
    end.

Definition onCollision (sid : string) (otherPlayerId : string) (now : Z)
    (s : Server) : Server * Emitted :=
  if negb (GameState_eqb (getGameState (store s)) PLAYING) then (s, [])
  else
    match getPlayer sid (store s), getPlayer otherPlayerId (store s) with
    | Some player, Some otherPlayer =>
        if negb (Player.isEliminated player) && negb (Player.isEliminated otherPlayer)
        then (with_store (recordCollision now otherPlayerId sid (store s)) s, [])
        else (s, [])
    | _, _ => (s, [])
    end.

Definition onStartGame (sid : string) (s : Server) : Server * Emitted :=
  if negb (isHost sid (store s)) then (s, [])
  else if negb (GameState_eqb (getGameState (store s)) LOBBY) then (s, [])
  else if (List.length (getAllPlayers (store s)) <? 1)%nat then (s, [])
  else startCountdown s.

Definition onReady (sid : string) (ready : bool) (s : Server) : Server * Emitted :=
  (with_store (setPlayerReady sid ready (store s)) s,
   [(ToAll, playerReady sid ready)]).

(** The body of [players.forEach] in the Konami handler. *)
Definition konamiPlayer (sid : string) (clk : string -> Z) (acc : Store * Emitted)
    (player : Player.t) : Store * Emitted :=
  let (st, out) := acc in
  if negb (Player.id player =? sid)%string then
    let (_, st1) := eliminatePlayer (clk (Player.id player)) (Player.id player) st in
    (st1, out ++ [(ToAll, playerEliminated (Player.id player) (Player.name player) None None)])
  else (st, out).

Definition onKonamiCode (sid : string) (clk : string -> Z) (s : Server)
    : Server * Emitted :=
  if negb (GameState_eqb (getGameState (store s)) PLAYING) then (s, [])
  else
    match getPlayer sid (store s) with
    | None => (s, [])
    | Some activator =>
        if Player.isEliminated activator then (s, [])
        else
          let (st1, out1) :=
            List.fold_left (konamiPlayer sid clk) (getAlivePlayers (store s)) (store s, []) in
          let out2 :=
            out1 ++ [(ToAll, konamiActivated (Player.id activator) (Player.name activator)
                               (Player.color activator))] in
          let (s2, out3) := handleGameEnd (Some activator) (with_store st1 s) in
          (s2, out2 ++ out3)
    end.

Definition onPlayAgain (sid : string) (rand : nat -> Q) (nowSnapshot : Z) (s : Server)
    : Server * Emitted :=
  if negb (isHost sid (store s)) then (s, [])
  else if negb (GameState_eqb (getGameState (store s)) ENDED) then (s, [])
  else
    let s1 := with_store (resetGame rand (store s)) s in
    let s2 :=
      with_previousWarningState {| isWarning := false; warningProgress := 0%Q |} s1 in
    (s2, [(ToAll, gameReset (getStateSnapshot nowSnapshot (store s2)))]).

Definition onDisconnect (sid : string) (s : Server) : Server * Emitted :=
  match removePlayer sid (store s) with
  | (Some player, st1) =>
      let s1 := with_store st1 s in
      let newCount := getPlayerCount (store s1) in
      let out :=
        [ (ToAll, playerLeft sid (Player.name player) (getHostId (store s1)));
          (ToAll, playerCount newCount PLAYERS.MAX_PLAYERS) ] in
      if GameState_eqb (getGameState (store s1)) PLAYING then
        let remaining := getAlivePlayers (store s1) in
        if (List.length remaining <=? 1)%nat then
          let (s2, o) := handleGameEnd (List.hd_error remaining) s1 in
          (s2, out ++ o)
        else (s1, out)
      else (s1, out)
  | (None, _) => (s, [])
  end.

(** *** Events of the single-threaded event loop *)

Inductive Event :=
| Connection (sid : string)
| Join (sid : string) (name : option string) (now : Z) (r1 r2 : Q) (nowSnapshot : Z)
| Input (sid : string) (position : Vec3) (velocity : option Vec3) (now : Z)
| Collision (sid otherPlayerId : string) (now : Z)
| StartGame (sid : string)
| Ready (sid : string) (ready : bool)
| KonamiCode (sid : string) (clk : string -> Z)
| PlayAgain (sid : string) (rand : nat -> Q) (nowSnapshot : Z)
| Disconnect (sid : string)
| GameLoopFires (h : nat) (clk : TickClock)
| ScoreFires (h : nat) (clk : string -> ScoreClock)
| CountdownFires (h : nat) (nowState nowTimes nowSnapshot : Z).

(** An interval fires only while its handle is active, and runs the callback
    it was created with. *)
Definition step (e : Event) (s : Server) : Server * Emitted :=
  match e with
  | Connection sid => onConnection sid s
  | Join sid name now r1 r2 nowSnapshot => onJoin sid name now r1 r2 nowSnapshot s
  | Input sid position velocity now => onInput sid position velocity now s
  | Collision sid other now => onCollision sid other now s
  | StartGame sid => onStartGame sid s
  | Ready sid ready => onReady sid ready s
  | KonamiCode sid clk => onKonamiCode sid clk s
  | PlayAgain sid rand nowSnapshot => onPlayAgain sid rand nowSnapshot s
  | Disconnect sid => onDisconnect sid s
  | GameLoopFires h clk =>
      match callbackOf h (timers s) with
      | Some GameLoopCallback => gameLoopCallback clk s
      | _ => (s, [])
      end
  | ScoreFires h clk =>
      match callbackOf h (timers s) with
      | Some ScoreCallback => scoreCallback clk s
      | _ => (s, [])
      end
  | CountdownFires h nowState nowTimes nowSnapshot =>
      match callbackOf h (timers s) with
      | Some (CountdownCallback count) =>
          countdownCallback h count nowState nowTimes nowSnapshot s
      | _ => (s, [])
      end
  end.

Fixpoint run (es : list Event) (s : Server) : Server * Emitted :=
  match es with
  | [] => (s, [])
  | e :: es' =>
      let (s1, out1) := step e s in
      let (s2, out2) := run es' s1 in
      (s2, out1 ++ out2)
  end.

Definition reachable (s : Server) : Prop :=
  exists es, fst (run es initialServer) = s.

(** ** Properties *)

(** *** The [Map] model *)

Lemma get_update_same {V : Type} (k : string) (f : V -> V) (m : JsMap.t V) :
  JsMap.get k (JsMap.update k f m) = option_map f (JsMap.get k m).
Proof.
  induction m as [|[k' v] m IH]; simpl; [reflexivity|].
  destruct (String.eqb k' k) eqn:E; simpl; rewrite E; auto.
Qed.

Lemma get_update_other {V : Type} (k k' : string) (f : V -> V) (m : JsMap.t V) :
  k <> k' -> JsMap.get k' (JsMap.update k f m) = JsMap.get k' m.
Proof.
  intros Hne. induction m as [|[k0 v] m IH]; simpl; [reflexivity|].
  destruct (String.eqb k0 k) eqn:E; simpl.
  - apply String.eqb_eq in E. subst k0.
    destruct (String.eqb k k') eqn:E'; [apply String.eqb_eq in E'; contradiction | reflexivity].
  - destruct (String.eqb k0 k'); auto.
Qed.

Lemma keys_update {V : Type} (k : string) (f : V -> V) (m : JsMap.t V) :
  JsMap.keys (JsMap.update k f m) = JsMap.keys m.
Proof.
  induction m as [|[k' v] m IH]; simpl; [reflexivity|].
  destruct (String.eqb k' k); simpl; [reflexivity|].
  f_equal. exact IH.
Qed.

Lemma update_id_noop {V : Type} (k : string) (f : V -> V) (m : JsMap.t V) :
  (forall v, JsMap.get k m = Some v -> f v = v) -> JsMap.update k f m = m.
Proof.
  induction m as [|[k' v] m IH]; simpl; intros H; [reflexivity|].
  destruct (String.eqb k' k) eqn:E.
  - rewrite H; reflexivity.
  - rewrite IH; auto.
Qed.

Lemma get_forEach {V : Type} (f : V -> V) (k : string) (m : JsMap.t V) :
  JsMap.get k (JsMap.forEach f m) = option_map f (JsMap.get k m).
Proof.
  induction m as [|[k' v] m IH]; simpl; [reflexivity|].
  destruct (String.eqb k' k); auto.
Qed.

Lemma get_In {V : Type} (k : string) (v : V) (m : JsMap.t V) :
  JsMap.get k m = Some v -> In (k, v) m.
Proof.
  induction m as [|[k' v'] m IH]; simpl; [discriminate|].
  destruct (String.eqb k' k) eqn:E; intros H.
  - apply String.eqb_eq in E. inversion H; subst. now left.
  - right. auto.
Qed.

Lemma players_with_players (f : JsMap.t Player.t -> JsMap.t Player.t) (st : Store) :
  players (with_players f st) = f (players st).
Proof. reflexivity. Qed.

(** The module variables other than the player map. *)
Definition globals (st : Store) : GameState * option string * Q * option Z * option Z :=
  (gameState st, hostId st, platformRadius st, gameStartTime st, lastShrinkTime st).

Lemma globals_with_players f st : globals (with_players f st) = globals st.
Proof. reflexivity. Qed.

Lemma with_players_id st : with_players (fun m => m) st = st.
Proof. destruct st; reflexivity. Qed.

Lemma store_eq st st' :
  globals st = globals st' -> players st = players st' -> st = st'.
Proof.
  destruct st, st'; unfold globals; simpl. intros H1 H2. inversion H1. subst. reflexivity.
Qed.

(** *** Shrink warning (C10) *)

Definition noWarning : WarningState := {| isWarning := false; warningProgress := 0%Q |}.

Lemma getShrinkWarningState_minimum now shrinkInterval warningTime st :
  lastShrinkTime st = None \/ (platformRadius st <= PLATFORM.MIN_RADIUS)%Q ->
  getShrinkWarningState now shrinkInterval warningTime st = noWarning.
Proof.
  intros [H | H]; unfold getShrinkWarningState.
  - rewrite H. reflexivity.
  - apply Qle_bool_iff in H. rewrite H, orb_true_r. reflexivity.
Qed.

(** *** Relating the players before and after an operation *)

(** Every player present before is present after, related by [R]. *)
Definition maps_to (R : Player.t -> Player.t -> Prop) (st st' : Store) : Prop :=
  forall k p, JsMap.get k (players st) = Some p ->
    exists p', JsMap.get k (players st') = Some p' /\ R p p'.

Lemma maps_to_refl (R : Player.t -> Player.t -> Prop) st :
  (forall p, R p p) -> maps_to R st st.
Proof. intros HR k p H. exists p. auto. Qed.

Lemma maps_to_trans (R : Player.t -> Player.t -> Prop) st1 st2 st3 :
  (forall a b c, R a b -> R b c -> R a c) ->
  maps_to R st1 st2 -> maps_to R st2 st3 -> maps_to R st1 st3.
Proof.
  intros HT H12 H23 k p H.
  destruct (H12 k p H) as [p2 [G2 R2]].
  destruct (H23 k p2 G2) as [p3 [G3 R3]].
  exists p3. eauto.
Qed.

Lemma maps_to_update (R : Player.t -> Player.t -> Prop) k f st :
  (forall p, R p p) ->
  (forall p, JsMap.get k (players st) = Some p -> R p (f p)) ->
  maps_to R st (with_players (JsMap.update k f) st).
Proof.
  intros Hrefl Hf k' p H. rewrite players_with_players.
  destruct (String.eqb k k') eqn:E.
  - apply String.eqb_eq in E. subst k'. rewrite get_update_same, H. simpl.
    eexists; split; [reflexivity|]. auto.
  - apply String.eqb_neq in E. rewrite get_update_other by assumption.
    exists p. auto.
Qed.

Lemma keys_with_update k f st :
  JsMap.keys (players (with_players (JsMap.update k f) st)) = JsMap.keys (players st).
Proof. apply keys_update. Qed.

Lemma calculatePlayerScore_shape now id st :
  exists s, calculatePlayerScore now id st
            = with_players (JsMap.update id (Player.set_score s)) st.
Proof.
  unfold calculatePlayerScore. destruct (JsMap.get id (players st)) eqn:E.
  - eexists. reflexivity.
  - exists 0%Q. symmetry. apply store_eq; [reflexivity|].
    rewrite players_with_players. apply update_id_noop. intros v Hv. congruence.
Qed.

Lemma calculatePlayerScore_maps_to (R : Player.t -> Player.t -> Prop) now id st :
  (forall p, R p p) -> (forall p s, R p (Player.set_score s p)) ->
  maps_to R st (calculatePlayerScore now id st).
Proof.
  intros H1 H2. destruct (calculatePlayerScore_shape now id st) as [s ->].
  apply maps_to_update; auto.
Qed.

(** *** Attribution (C1) *)

Definition markEliminated (now : Z) (p : Player.t) : Player.t :=
  Player.set_eliminatedAt (Some now) (Player.set_isEliminated true p).

Definition creditHitter (h : Player.t) : Player.t :=
  Player.set_eliminations (Player.eliminations h + 1) h.

Lemma attribute_cases (now : Z) (reason : string) (victim : Player.t) (st : Store) :
  (exists hit hitter,
      reason = "pushed"%string
      /\ Player.lastHitBy victim = Some hit
      /\ now - Hit.timestamp hit < 3000
      /\ JsMap.get (Hit.id hit) (players st) = Some hitter
      /\ Player.isEliminated hitter = false
      /\ attribute now reason victim st
         = (Some (Player.id hitter, Player.name hitter),
            with_players (JsMap.update (Hit.id hit) creditHitter) st))
  \/ (attribute now reason victim st = (None, st)
      /\ forall hit hitter,
           ~ (reason = "pushed"%string
              /\ Player.lastHitBy victim = Some hit
              /\ now - Hit.timestamp hit < 3000
              /\ JsMap.get (Hit.id hit) (players st) = Some hitter
              /\ Player.isEliminated hitter = false)).
Proof.
  unfold attribute.
  destruct (String.eqb reason "pushed") eqn:Er.
  2:{ right. split; [reflexivity|]. intros hit hitter (H & _).
      apply String.eqb_neq in Er. contradiction. }
  apply String.eqb_eq in Er.
  destruct (Player.lastHitBy victim) as [hit|] eqn:Eh.
  2:{ right. split; [reflexivity|]. intros hit hitter (_ & H & _). discriminate. }
  destruct (now - Hit.timestamp hit <? 3000) eqn:Et.
  2:{ right. split; [reflexivity|]. intros hit' hitter (_ & H & Hlt & _).
      inversion H; subst hit'. apply Z.ltb_ge in Et. lia. }
  apply Z.ltb_lt in Et.
  destruct (JsMap.get (Hit.id hit) (players st)) as [hitter|] eqn:Eg.
  2:{ right. split; [reflexivity|]. intros hit' hitter (_ & H & _ & Hg & _).
      inversion H; subst hit'. congruence. }
  destruct (Player.isEliminated hitter) eqn:Ee; simpl.
  - right. split; [reflexivity|]. intros hit' hitter' (_ & H & _ & Hg & He).
    inversion H; subst hit'. congruence.
  - left. exists hit, hitter. repeat split; auto.
Qed.

(** The recorded hit [hit] by [hitter] earns the credit for the elimination
    of the participant [victim] stored under [id]: the reason is [pushed],
    the hit is the victim's [lastHitBy], less than 3000 ms lie between its
    timestamp and the clock reading of the elimination, and the hitter is a
    participant that is not eliminated at credit time.  The victim is already
    marked eliminated by then, so the hitter is another participant. *)
Definition attribution_due (clk : ElimClock) (id reason : string)
    (victim : Player.t) (st : Store) (hit : Hit.t) (hitter : Player.t) : Prop :=
  reason = "pushed"%string
  /\ Player.lastHitBy victim = Some hit
  /\ tSinceHit clk - Hit.timestamp hit < 3000
  /\ Hit.id hit <> id
  /\ JsMap.get (Hit.id hit) (players st) = Some hitter
  /\ Player.isEliminated hitter = false.

Definition same_eliminations (q q' : Player.t) : Prop :=
  Player.eliminations q' = Player.eliminations q.

(** C1.  Eliminating a present, not yet eliminated participant through
    [eliminatePlayerWithAttribution] returns an attribution if and only if
    the reason is [pushed], [lastHitBy] is set, the hit is less than 3000 ms
    old and the recorded hitter is not eliminated at credit time; then the
    attribution is the hitter's id and name and the hitter's [eliminations]
    grows by one, every other counter staying as it was.  Without attribution
    no counter changes, and the reason [boundary] never has attribution. *)
Theorem eliminatePlayerWithAttribution_attribution
    (clk : ElimClock) (id reason : string) (st : Store) (victim : Player.t) :
  JsMap.get id (players st) = Some victim ->
  Player.isEliminated victim = false ->
  exists info st',
    eliminatePlayerWithAttribution clk id reason st = (Some info, st')
    /\ (eliminatedBy info <> None
        <-> exists hit hitter, attribution_due clk id reason victim st hit hitter)
    /\ (forall hit hitter,
          attribution_due clk id reason victim st hit hitter ->
          eliminatedBy info = Some (Player.id hitter, Player.name hitter)
          /\ (exists h', JsMap.get (Hit.id hit) (players st') = Some h'
                         /\ Player.eliminations h' = Player.eliminations hitter + 1)
          /\ (forall k q, k <> Hit.id hit ->
                JsMap.get k (players st) = Some q ->
                exists q', JsMap.get k (players st') = Some q'
                           /\ same_eliminations q q'))
    /\ (eliminatedBy info = None -> maps_to same_eliminations st st')
    /\ (reason = "boundary"%string ->
        eliminatedBy info = None /\ maps_to same_eliminations st st').
Proof.
  intros Hget Halive. unfold eliminatePlayerWithAttribution.
  rewrite Hget, Halive.
  set (st1 := with_players (JsMap.update id _) st).
  assert (Hmark : maps_to same_eliminations st st1).
  { apply maps_to_update; unfold same_eliminations; auto. }
  assert (Hself : JsMap.get id (players st1)
                  = Some (markEliminated (tEliminatedAt clk) victim)).
  { unfold st1. rewrite players_with_players, get_update_same, Hget. reflexivity. }
  assert (Hother : forall k, k <> id ->
            JsMap.get k (players st1) = JsMap.get k (players st)).
  { intros k Hk. unfold st1. rewrite players_with_players.
    apply get_update_other. congruence. }
  assert (Htrans : forall a b c, same_eliminations a b -> same_eliminations b c ->
                                 same_eliminations a c).
  { unfold same_eliminations. intros. congruence. }
  destruct (attribute_cases (tSinceHit clk) reason victim st1)
    as [(hit & hitter & Hr & Hh & Ht & Hg & He & ->) | (-> & Hno)].
  - (* credit *)
    assert (Hne : Hit.id hit <> id).
    { intros Heq. rewrite Heq, Hself in Hg. inversion Hg; subst hitter.
      discriminate. }
    rewrite Hother in Hg by assumption.
    eexists. eexists. split; [reflexivity|]. simpl.
    assert (Huniq : forall hit' hitter',
              attribution_due clk id reason victim st hit' hitter' ->
              hit' = hit /\ hitter' = hitter).
    { intros hit' hitter' (_ & Hh' & _ & _ & Hg' & _).
      assert (hit' = hit) by congruence. subst hit'. split; congruence. }
    split; [|split; [|split]].
    + split; [|discriminate]. intros _. exists hit, hitter.
      unfold attribution_due. auto 10.
    + intros hit' hitter' Hdue. destruct (Huniq _ _ Hdue); subst hit' hitter'.
      split; [reflexivity|]. split.
      * destruct (calculatePlayerScore_shape (tScore clk) id
                    (with_players (JsMap.update (Hit.id hit) creditHitter) st1))
          as [s ->].
        rewrite !players_with_players.
        rewrite get_update_other by congruence.
        rewrite get_update_same, Hother, Hg by assumption. simpl.
        eexists. split; reflexivity.
      * intros k q Hk Hq.
        destruct (Hmark k q Hq) as [q1 [Hq1 R1]].
        destruct (calculatePlayerScore_maps_to same_eliminations (tScore clk) id
                    (with_players (JsMap.update (Hit.id hit) creditHitter) st1))
          with (k := k) (p := q1) as [q2 [Hq2 R2]];
          try (unfold same_eliminations; reflexivity).
        { rewrite players_with_players, get_update_other by congruence. exact Hq1. }
        exists q2. split; [exact Hq2|]. eapply Htrans; eauto.
    + discriminate.
    + intros Hb. rewrite Hb in Hr. discriminate.
  - (* no credit *)
    eexists. eexists. split; [reflexivity|]. simpl.
    split; [|split; [|split]].
    + split; [congruence|]. intros (hit & hitter & Hr & Hh & Ht & Hne & Hg & He).
      exfalso. apply (Hno hit hitter). rewrite Hother by assumption. auto.
    + intros hit hitter (Hr & Hh & Ht & Hne & Hg & He).
      exfalso. apply (Hno hit hitter). rewrite Hother by assumption. auto.
    + intros _. eapply maps_to_trans; [exact Htrans | exact Hmark |].
      apply calculatePlayerScore_maps_to; unfold same_eliminations; reflexivity.
    + intros _. split; [reflexivity|].
      eapply maps_to_trans; [exact Htrans | exact Hmark |].
      apply calculatePlayerScore_maps_to; unfold same_eliminations; reflexivity.
Qed.

(** *** Idempotence of elimination (C6) *)

Definition stays_eliminated (p p' : Player.t) : Prop :=
  Player.isEliminated p = true -> Player.isEliminated p' = true.

Lemma attribute_maps_to (R : Player.t -> Player.t -> Prop) now reason victim st :
  (forall p, R p p) -> (forall p, R p (creditHitter p)) ->
  maps_to R st (snd (attribute now reason victim st)).
Proof.
  intros H1 H2.
  destruct (attribute_cases now reason victim st)
    as [(hit & hitter & _ & _ & _ & _ & _ & ->) | (-> & _)]; simpl.
  - apply maps_to_update; auto.
  - apply maps_to_refl; auto.
Qed.

Lemma eliminatePlayerWithAttribution_eliminates clk id reason st p' :
  JsMap.get id (players (snd (eliminatePlayerWithAttribution clk id reason st))) = Some p' ->
  Player.isEliminated p' = true.
Proof.
  unfold eliminatePlayerWithAttribution.
  destruct (JsMap.get id (players st)) as [p|] eqn:Hget; simpl; [|congruence].
  destruct (Player.isEliminated p) eqn:He; simpl; [congruence|].
  set (st1 := with_players (JsMap.update id _) st).
  destruct (attribute (tSinceHit clk) reason p st1) as [by_ st2] eqn:Ea. simpl.
  assert (H1 : JsMap.get id (players st1)
               = Some (markEliminated (tEliminatedAt clk) p)).
  { unfold st1. rewrite players_with_players, get_update_same, Hget. reflexivity. }
  assert (H2 : maps_to stays_eliminated st1 st2).
  { replace st2 with (snd (attribute (tSinceHit clk) reason p st1)) by (rewrite Ea; reflexivity).
    apply attribute_maps_to; unfold stays_eliminated; auto. }
  assert (H3 : maps_to stays_eliminated st2 (calculatePlayerScore (tScore clk) id st2)).
  { apply calculatePlayerScore_maps_to; unfold stays_eliminated; auto. }
  destruct (H2 _ _ H1) as [q2 [G2 R2]].
  destruct (H3 _ _ G2) as [q3 [G3 R3]].
  intros Hp'. rewrite G3 in Hp'. inversion Hp'; subst q3.
  apply R3, R2. reflexivity.
Qed.

Lemma eliminatePlayer_eliminates now id st p' :
  JsMap.get id (players (snd (eliminatePlayer now id st))) = Some p' ->
  Player.isEliminated p' = true.
Proof.
  unfold eliminatePlayer.
  destruct (JsMap.get id (players st)) as [p|] eqn:Hget; simpl; [|congruence].
  destruct (Player.isEliminated p) eqn:He; simpl; [congruence|].
  rewrite get_update_same, Hget. simpl. intros H. inversion H. reflexivity.
Qed.

Lemma eliminatePlayerWithAttribution_noop clk id reason st :
  (forall p, JsMap.get id (players st) = Some p -> Player.isEliminated p = true) ->
  eliminatePlayerWithAttribution clk id reason st = (None, st).
Proof.
  intros H. unfold eliminatePlayerWithAttribution.
  destruct (JsMap.get id (players st)) as [p|]; [|reflexivity].
  rewrite (H p eq_refl). reflexivity.
Qed.

Lemma eliminatePlayer_noop now id st :
  (forall p, JsMap.get id (players st) = Some p -> Player.isEliminated p = true) ->
  eliminatePlayer now id st = (false, st).
Proof.
  intros H. unfold eliminatePlayer.
  destruct (JsMap.get id (players st)) as [p|]; [|reflexivity].
  rewrite (H p eq_refl). reflexivity.
Qed.

(** C6.  After a first call of [eliminatePlayerWithAttribution] or of
    [eliminatePlayer] for [id], a second call of either returns [null]
    (respectively [false]) and leaves the whole store as it was; so no
    [eliminations] counter is incremented a second time for that
    participant. *)
Theorem elimination_idempotent
    (clk1 clk2 : ElimClock) (now1 now2 : Z) (id reason1 reason2 : string) (st : Store) :
  let st1 := snd (eliminatePlayerWithAttribution clk1 id reason1 st) in
  let st2 := snd (eliminatePlayer now1 id st) in
  eliminatePlayerWithAttribution clk2 id reason2 st1 = (None, st1)
  /\ eliminatePlayer now2 id st1 = (false, st1)
  /\ eliminatePlayerWithAttribution clk2 id reason2 st2 = (None, st2)
  /\ eliminatePlayer now2 id st2 = (false, st2).
Proof.
  intros st1 st2. repeat split.
  - apply eliminatePlayerWithAttribution_noop.
    intros p. apply eliminatePlayerWithAttribution_eliminates.
  - apply eliminatePlayer_noop.
    intros p. apply eliminatePlayerWithAttribution_eliminates.
  - apply eliminatePlayerWithAttribution_noop.
    intros p. apply eliminatePlayer_eliminates.
  - apply eliminatePlayer_noop.
    intros p. apply eliminatePlayer_eliminates.
Qed.

(** *** Boundary status (C3) *)

Lemma Qlt_bool_iff (a b : Q) : Qlt_bool a b = true <-> (a < b)%Q.
Proof.
  unfold Qlt_bool. rewrite negb_true_iff. split; intros H.
  - apply Qnot_le_lt. intros Hle. apply Qle_bool_iff in Hle. congruence.
  - destruct (Qle_bool b a) eqn:E; [|reflexivity].
    apply Qle_bool_iff in E. exfalso. exact (Qlt_not_le _ _ H E).
Qed.

(** C3, as the code has it, in double precision.  For a present, not
    eliminated participant [p], with the distance [sqrt(x*x + z*z)], the
    bound [platformRadius + 1] and the cumulative time
    [outOfBoundsTime + (now - outOfBoundsStartTime) / 1000] each rounded as
    the code computes them: the stored flag becomes the classification,
    out of bounds exactly when the distance exceeds the bound or [y] is
    below [-1]; [updateBoundaryStatus] returns [true] exactly when [p] was
    already flagged out of bounds, is still classified out of bounds, has
    its excursion marker set, and the cumulative time is at least 10; then
    that time becomes [outOfBoundsTime] and the marker is cleared.  On the
    way out the marker is set to [now]; on the way back in the excursion is
    added to [outOfBoundsTime], the marker is cleared and the function
    returns [false], whatever the cumulative time. *)
Theorem updateBoundaryStatus_spec
    (now : Z) (id : string) (radius : float) (players : JsMap.t Binary64.Player)
    (p : Binary64.Player) :
  JsMap.get id players = Some p ->
  Binary64.isEliminated p = false ->
  let pos := Binary64.position p in
  let distance :=
    PrimFloat.sqrt (Binary64.x pos * Binary64.x pos
                    + Binary64.z pos * Binary64.z pos)%float in
  let out := ((radius + 1 <? distance)%float || (Binary64.y pos <? -1)%float) in
  let total :=
    (Binary64.outOfBoundsTime p
     + Binary64.of_Z (now - time_of (Binary64.outOfBoundsStartTime p)) / 1000)%float in
  let r := Binary64.updateBoundaryStatus now id radius players in
  (exists p', JsMap.get id (snd r) = Some p'
              /\ Binary64.isOutOfBounds p' = out)
  /\ (fst r = true
      <-> Binary64.isOutOfBounds p = true
          /\ out = true
          /\ truthy (Binary64.outOfBoundsStartTime p) = true
          /\ (10 <=? total)%float = true)
  /\ (fst r = true ->
      exists p', JsMap.get id (snd r) = Some p'
                 /\ Binary64.outOfBoundsTime p' = total
                 /\ Binary64.outOfBoundsStartTime p' = None)
  /\ (Binary64.isOutOfBounds p = false -> out = true ->
      exists p', JsMap.get id (snd r) = Some p'
                 /\ Binary64.outOfBoundsStartTime p' = Some now
                 /\ Binary64.outOfBoundsTime p' = Binary64.outOfBoundsTime p)
  /\ (Binary64.isOutOfBounds p = true -> out = false ->
      truthy (Binary64.outOfBoundsStartTime p) = true ->
      fst r = false
      /\ exists p', JsMap.get id (snd r) = Some p'
                    /\ Binary64.outOfBoundsTime p' = total
                    /\ Binary64.outOfBoundsStartTime p' = None).
Proof.
  intros Hget Halive pos distance out total r.
  assert (Hout : Binary64.isCurrentlyOutOfBounds p radius = out) by reflexivity.
  subst r. unfold Binary64.updateBoundaryStatus. rewrite Hget, Halive, Hout.
  unfold Binary64.boundaryTransition.
  assert (Htot : (Binary64.outOfBoundsTime p
                  + Binary64.ms_to_seconds
                      (now - time_of (Binary64.outOfBoundsStartTime p)))%float = total)
    by reflexivity.
  rewrite Htot.
  clearbody total. clear Hout. clearbody out. clear pos distance.
  destruct out, (Binary64.isOutOfBounds p) eqn:Eflag; cbn [andb negb].
  - (* still out of bounds *)
    destruct (truthy (Binary64.outOfBoundsStartTime p)) eqn:Et.
    + destruct (10 <=? total)%float eqn:Eq; cbv beta iota zeta; cbn [fst snd].
      * rewrite get_update_same, Hget. cbn [option_map].
        split; [eexists; split; [reflexivity|exact Eflag]|].
        split; [split; auto|].
        split; [intros _; eexists; split; [reflexivity|split; reflexivity]|].
        split; intros; discriminate.
      * rewrite Halive, Eflag. cbn [andb negb fst snd].
        rewrite get_update_same, Hget. cbn [option_map].
        split; [eexists; split; [reflexivity|exact Eflag]|].
        split; [split; [discriminate|intros (_ & _ & _ & H); discriminate]|].
        split; [discriminate|]. split; intros; discriminate.
    + cbv beta iota zeta. rewrite Halive, Eflag. cbn [andb negb fst snd].
      rewrite get_update_same, Hget. cbn [option_map].
      split; [eexists; split; [reflexivity|exact Eflag]|].
      split; [split; [discriminate|intros (_ & _ & H & _); discriminate]|].
      split; [discriminate|]. split; intros; discriminate.
  - (* went out of bounds *)
    cbv beta iota zeta.
    cbn [Binary64.isEliminated Binary64.isOutOfBounds Binary64.set_outOfBoundsStartTime
         Binary64.set_isOutOfBounds].
    rewrite Halive. cbn [andb negb fst snd].
    rewrite get_update_same, Hget. cbn [option_map].
    split; [eexists; split; reflexivity|].
    split; [split; [discriminate|intros (H & _); discriminate]|].
    split; [discriminate|].
    split; [intros _ _; eexists; split; [reflexivity|split; reflexivity]|].
    intros; discriminate.
  - (* came back in bounds *)
    cbv beta iota zeta.
    cbn [Binary64.isEliminated Binary64.isOutOfBounds Binary64.outOfBoundsStartTime
         Binary64.outOfBoundsTime Binary64.gameStartTime
         Binary64.set_outOfBoundsStartTime Binary64.set_outOfBoundsTime
         Binary64.set_isOutOfBounds].
    destruct (truthy (Binary64.outOfBoundsStartTime p)) eqn:Et;
      cbn [Binary64.isEliminated Binary64.isOutOfBounds Binary64.outOfBoundsStartTime
           Binary64.outOfBoundsTime Binary64.gameStartTime
           Binary64.set_outOfBoundsStartTime Binary64.set_outOfBoundsTime
           Binary64.set_isOutOfBounds];
      rewrite ?Htot; rewrite Halive; cbn [andb negb];
      destruct (truthy (Binary64.gameStartTime p)); cbn [fst snd];
      rewrite get_update_same, Hget; cbn [option_map];
      (split; [eexists; split; reflexivity|]);
      (split; [split; [discriminate|intros (_ & H & _); discriminate]|]);
      (split; [discriminate|]);
      (split; [intros; discriminate|]);
      intros _ _ H; try discriminate H;
      (split; [reflexivity|eexists; split; [reflexivity|split; reflexivity]]).
  - (* stays in bounds *)
    cbv beta iota zeta. rewrite Halive, Eflag. cbn [andb negb].
    destruct (truthy (Binary64.gameStartTime p)); cbn [fst snd];
      rewrite get_update_same, Hget; cbn [option_map];
      (split; [eexists; split; [reflexivity|exact Eflag]|]);
      (split; [split; [discriminate|intros (H & _); discriminate]|]);
      (split; [discriminate|]); split; intros; discriminate.
Qed.

(** *** Host succession (C4) *)

Lemma insert_by_joinedAt_not_nil p l : insert_by_joinedAt p l <> [].
Proof.
  destruct l as [|q l]; simpl; [discriminate|].
  destruct (Player.joinedAt p <=? Player.joinedAt q); discriminate.
Qed.

Lemma sort_by_joinedAt_nil l : sort_by_joinedAt l = [] -> l = [].
Proof.
  destruct l as [|a l]; [reflexivity|]. unfold sort_by_joinedAt. simpl.
  intros H. exfalso. exact (insert_by_joinedAt_not_nil _ _ H).
Qed.

(** The first element of the sorted array is an element of the array with
    the smallest [joinedAt]. *)
Lemma sort_by_joinedAt_head (l : list Player.t) (first : Player.t) (rest : list Player.t) :
  sort_by_joinedAt l = first :: rest ->
  In first l /\ forall q, In q l -> Player.joinedAt first <= Player.joinedAt q.
Proof.
  revert first rest. induction l as [|a l IH]; intros first rest H.
  - discriminate.
  - unfold sort_by_joinedAt in H. simpl in H. fold (sort_by_joinedAt l) in H.
    destruct (sort_by_joinedAt l) as [|q0 r] eqn:Es.
    + apply sort_by_joinedAt_nil in Es. subst l. simpl in H.
      inversion H; subst. split; [now left|].
      intros q [<- | []]. lia.
    + destruct (IH q0 r eq_refl) as [Hin Hmin]. simpl in H.
      destruct (Player.joinedAt a <=? Player.joinedAt q0) eqn:E.
      * inversion H; subst. apply Z.leb_le in E. split; [now left|].
        intros q [<- | Hq]; [lia|]. specialize (Hmin q Hq). lia.
      * inversion H; subst. apply Z.leb_gt in E. split; [now right|].
        intros q [<- | Hq]; [lia|]. exact (Hmin q Hq).
Qed.

Lemma removePlayer_host (id : string) (st : Store) (p : Player.t) :
  JsMap.get id (players st) = Some p ->
  let st' := snd (removePlayer id st) in
  let remaining := JsMap.values (players st') in
  fst (removePlayer id st) = Some p
  /\ players st' = JsMap.delete id (players st)
  /\ (hostId st = Some id ->
      (remaining = [] -> hostId st' = None)
      /\ (remaining <> [] ->
          exists q, In q remaining
                    /\ hostId st' = Some (Player.id q)
                    /\ forall r, In r remaining ->
                         Player.joinedAt q <= Player.joinedAt r))
  /\ (hostId st <> Some id -> hostId st' = hostId st).
Proof.
  intros Hget. unfold removePlayer. rewrite Hget. cbn zeta.
  set (st1 := with_players (JsMap.delete id) st).
  assert (Hh : hostId st1 = hostId st) by reflexivity.
  destruct (strict_eq (hostId st1) id) eqn:Eh.
  - assert (Hhost : hostId st = Some id).
    { rewrite Hh in Eh. destruct (hostId st) as [h|]; simpl in Eh; [|discriminate].
      apply String.eqb_eq in Eh. congruence. }
    destruct (0 <? JsMap.size (players st1))%nat eqn:Esz.
    + destruct (sort_by_joinedAt (JsMap.values (players st1))) as [|first rest] eqn:Es.
      * apply sort_by_joinedAt_nil in Es. apply Nat.ltb_lt in Esz.
        unfold JsMap.size in Esz. unfold JsMap.values in Es.
        apply (f_equal (@List.length _)) in Es. rewrite length_map in Es.
        rewrite Es in Esz. simpl in Esz. lia.
      * destruct (sort_by_joinedAt_head _ _ _ Es) as [Hin Hmin]. cbn [fst snd].
        split; [reflexivity|]. split; [reflexivity|]. split; [|congruence].
        intros _. split.
        -- intros Hnil. change (JsMap.values (players st1) = []) in Hnil.
           rewrite Hnil in Hin. destruct Hin.
        -- intros _. exists first. split; [exact Hin|]. split; [reflexivity|exact Hmin].
    + cbn [fst snd]. split; [reflexivity|]. split; [reflexivity|]. split; [|congruence].
      intros _. split; [reflexivity|].
      intros Hne. exfalso. apply Hne. apply Nat.ltb_ge in Esz.
      change (JsMap.values (players st1) = []).
      unfold JsMap.size in Esz. unfold JsMap.values.
      destruct (players st1); [reflexivity | simpl in Esz; lia].
  - cbn [fst snd]. split; [reflexivity|]. split; [reflexivity|]. split; [|auto].
    intros Hhost. rewrite Hh, Hhost in Eh. simpl in Eh.
    rewrite String.eqb_refl in Eh. discriminate.
Qed.

Lemma removePlayer_absent (id : string) (st : Store) :
  JsMap.get id (players st) = None -> removePlayer id st = (None, st).
Proof. intros H. unfold removePlayer. rewrite H. reflexivity. Qed.

Lemma createPlayer_store now r1 r2 id name st :
  exists p,
    fst (createPlayer now r1 r2 id name st) = p
    /\ Player.id p = id
    /\ Player.joinedAt p = now
    /\ players (snd (createPlayer now r1 r2 id name st)) = JsMap.set id p (players st)
    /\ hostId (snd (createPlayer now r1 r2 id name st))
       = if truthy_str (hostId st) then hostId st else Some id.
Proof.
  exists (fst (createPlayer now r1 r2 id name st)).
  split; [reflexivity|]. split; [reflexivity|]. split; [reflexivity|].
  unfold createPlayer. cbv zeta. cbn [fst snd].
  change (hostId (with_players _ st)) with (hostId st).
  destruct (truthy_str (hostId st)); split; reflexivity.
Qed.

Lemma host_succession_three
    (ta tb tc : Z) (ra1 ra2 rb1 rb2 rc1 rc2 : Q) (a b c : string)
    (na nb nc : option string) :
  a <> b -> a <> c -> b <> c -> tb <= tc ->
  let s1 := snd (createPlayer ta ra1 ra2 a na initialStore) in
  let s2 := snd (createPlayer tb rb1 rb2 b nb s1) in
  let s3 := snd (createPlayer tc rc1 rc2 c nc s2) in
  let s4 := snd (removePlayer a s3) in
  let s5 := snd (removePlayer b s4) in
  hostId s4 = Some b /\ hostId s5 = Some c.
Proof.
  intros Hab Hac Hbc Ht s1 s2 s3 s4 s5.
  assert (Eab : (a =? b)%string = false) by (apply String.eqb_neq; assumption).
  assert (Eac : (a =? c)%string = false) by (apply String.eqb_neq; assumption).
  assert (Ebc : (b =? c)%string = false) by (apply String.eqb_neq; assumption).
  assert (Eba : (b =? a)%string = false) by (apply String.eqb_neq; congruence).
  assert (Et : (tb <=? tc) = true) by (apply Z.leb_le; assumption).
  destruct (createPlayer_store ta ra1 ra2 a na initialStore)
    as (pa & _ & Ia & Ja & Pa & Ha).
  destruct (createPlayer_store tb rb1 rb2 b nb s1) as (pb & _ & Ib & Jb & Pb & Hb).
  destruct (createPlayer_store tc rc1 rc2 c nc s2) as (pc & _ & Ic & Jc & Pc & Hc).
  fold s1 in Pa, Ha. fold s2 in Pb, Hb. fold s3 in Pc, Hc.
  clearbody s1 s2 s3. clear Ia.
  simpl in Pa, Ha. rewrite Pa in Pb. simpl in Pb. rewrite Eab in Pb.
  rewrite Pb in Pc. simpl in Pc. rewrite Eac, Ebc in Pc.
  rewrite Ha in Hb. rewrite Hb in Hc.
  assert (G4 : players s4 = [(b, pb); (c, pc)]
               /\ hostId s4 = Some b).
  { subst s4. unfold removePlayer. rewrite Pc. simpl. rewrite String.eqb_refl.
    unfold with_players at 1 2. cbn [hostId players].
    rewrite Pc. simpl. rewrite String.eqb_refl. rewrite Hc.
    simpl. destruct (a =? "")%string eqn:Ea; simpl.
    - apply String.eqb_eq in Ea. subst a. rewrite Eba. simpl. rewrite Eba.
      simpl. rewrite Pc. simpl. split; [reflexivity|].
      rewrite Hc. simpl. rewrite Eba. reflexivity.
    - rewrite Ea. simpl. rewrite String.eqb_refl. rewrite Jb, Jc, Et. simpl.
      rewrite Ib. auto. }
  destruct G4 as [P4 H4]. split; [exact H4|].
  subst s5. unfold removePlayer. rewrite P4. simpl. rewrite String.eqb_refl.
  unfold with_players at 1 2. cbn [hostId players].
  rewrite P4, H4. simpl. rewrite !String.eqb_refl. simpl. rewrite Ic. reflexivity.
Qed.

(** C4.  Removing the participant that holds [hostId] makes host a remaining
    participant whose [joinedAt] is the smallest, or clears [hostId] when
    nobody remains; removing any other participant leaves [hostId] as it
    was.  And when A, B and C join an empty session in this order (the clock
    not running backwards between B and C), removing A makes B host and
    removing B then makes C host. *)
Theorem removePlayer_host_succession :
  (forall (id : string) (st : Store) (p : Player.t),
      JsMap.get id (players st) = Some p ->
      let st' := snd (removePlayer id st) in
      let remaining := JsMap.values (players st') in
      fst (removePlayer id st) = Some p
      /\ players st' = JsMap.delete id (players st)
      /\ (hostId st = Some id ->
          (remaining = [] -> hostId st' = None)
          /\ (remaining <> [] ->
              exists q, In q remaining
                        /\ hostId st' = Some (Player.id q)
                        /\ forall r, In r remaining ->
                             Player.joinedAt q <= Player.joinedAt r))
      /\ (hostId st <> Some id -> hostId st' = hostId st))
  /\ (forall (ta tb tc : Z) (ra1 ra2 rb1 rb2 rc1 rc2 : Q) (a b c : string)
             (na nb nc : option string),
        a <> b -> a <> c -> b <> c -> tb <= tc ->
        let s1 := snd (createPlayer ta ra1 ra2 a na initialStore) in
        let s2 := snd (createPlayer tb rb1 rb2 b nb s1) in
        let s3 := snd (createPlayer tc rc1 rc2 c nc s2) in
        let s4 := snd (removePlayer a s3) in
        let s5 := snd (removePlayer b s4) in
        hostId s4 = Some b /\ hostId s5 = Some c).
Proof.
  split.
  - exact removePlayer_host.
  - exact host_succession_three.
Qed.

(** *** Capacity (C7) *)

(** C7.  A join that arrives when the participant count has reached
    [MAX_PLAYERS] (40) is answered by [joinError] to the requesting socket
    only, and the whole server state — the store with its participant map,
    [hostId], phase and platform radius, and the timers — is unchanged. *)
Theorem join_rejected_at_capacity
    (sid : string) (name : option string) (now : Z) (r1 r2 : Q) (nowSnapshot : Z)
    (s : Server) :
  (PLAYERS.MAX_PLAYERS <= getPlayerCount (store s))%nat ->
  step (Join sid name now r1 r2 nowSnapshot) s
  = (s, [(ToSocket sid, joinError "Server is full")])
  /\ PLAYERS.MAX_PLAYERS = 40%nat.
Proof.
  intros H. split; [|reflexivity]. cbn [step]. unfold onJoin.
  apply Nat.leb_le in H. rewrite H. reflexivity.
Qed.

(** *** Reset and restart (C8) *)

Lemma keys_resetPlayers rand i m :
  JsMap.keys (resetPlayers rand i m) = JsMap.keys m.
Proof.
  revert i. induction m as [|[k p] m IH]; intros i; simpl; [reflexivity|].
  f_equal. apply IH.
Qed.

Lemma get_resetPlayers rand i m k :
  JsMap.get k (resetPlayers rand i m) = None /\ JsMap.get k m = None
  \/ exists p r1 r2,
       JsMap.get k m = Some p
       /\ JsMap.get k (resetPlayers rand i m) = Some (resetPlayer r1 r2 p).
Proof.
  revert i. induction m as [|[k' p] m IH]; intros i; simpl; [left; auto|].
  destruct (String.eqb k' k).
  - right. eauto.
  - apply IH.
Qed.

Lemma keys_forEach {V : Type} (f : V -> V) (m : JsMap.t V) :
  JsMap.keys (JsMap.forEach f m) = JsMap.keys m.
Proof.
  induction m as [|[k v] m IH]; simpl; [reflexivity|]. f_equal. exact IH.
Qed.

(** The transition into [PLAYING] made by the countdown: [startCountdown]
    sets [COUNTDOWN], its last tick sets [PLAYING] and runs
    [initializeGameTimes]. *)
Definition enterPlaying (nowState nowTimes : Z) (st : Store) : Store :=
  initializeGameTimes nowTimes
    (setGameState nowState PLAYING (setGameState_noclock COUNTDOWN st)).

(** The fields of a participant that a reset followed by a restart clears. *)
Definition cleared_for_round (p : Player.t) : Prop :=
  Player.eliminations p = 0
  /\ Player.survivalTime p = 0%Q
  /\ Player.outOfBoundsTime p = 0%Q
  /\ Player.isEliminated p = false
  /\ Player.lastHitBy p = None.

(** The fields that identify a participant across rounds. *)
Definition same_participant (p p' : Player.t) : Prop :=
  Player.id p' = Player.id p
  /\ Player.name p' = Player.name p
  /\ Player.color p' = Player.color p
  /\ Player.colorIndex p' = Player.colorIndex p
  /\ Player.joinedAt p' = Player.joinedAt p.

(** A reset followed by the transition into [PLAYING], on the store. *)
Lemma reset_then_enterPlaying
    (rand : nat -> Q) (nowState nowTimes : Z) (st : Store) :
  let st1 := resetGame rand st in
  let st2 := enterPlaying nowState nowTimes st1 in
  gameState st1 = LOBBY
  /\ platformRadius st1 = PLATFORM.INITIAL_RADIUS
  /\ gameState st2 = PLAYING
  /\ platformRadius st2 = PLATFORM.INITIAL_RADIUS
  /\ JsMap.keys (players st2) = JsMap.keys (players st)
  /\ forall k,
       match JsMap.get k (players st), JsMap.get k (players st2) with
       | Some p, Some p2 => cleared_for_round p2 /\ same_participant p p2
       | None, None => True
       | _, _ => False
       end.
Proof.
  intros st1 st2.
  assert (Hp : players st2
               = JsMap.forEach
                   (fun player =>
                      if negb (Player.isEliminated player) then
                        Player.set_outOfBoundsStartTime None
                          (Player.set_isOutOfBounds false
                             (Player.set_outOfBoundsTime 0%Q
                                (Player.set_survivalTime 0%Q
                                   (Player.set_gameStartTime (Some nowTimes) player))))
                      else player)
                   (resetPlayers rand 0 (players st))) by reflexivity.
  split; [reflexivity|]. split; [reflexivity|].
  split; [reflexivity|]. split; [reflexivity|].
  rewrite Hp. split.
  - rewrite keys_forEach. apply keys_resetPlayers.
  - intros k. rewrite get_forEach.
    destruct (get_resetPlayers rand 0 (players st) k)
      as [[-> ->] | (p & r1 & r2 & -> & ->)]; cbn [option_map]; [exact I|].
    unfold cleared_for_round, same_participant.
    cbn. auto 10.
Qed.

(** *** Elimination is terminal (C5) *)

(** Every exported function of gameState.js that writes the module state. *)
Inductive StoreOp :=
| OpCreatePlayer (now : Z) (r1 r2 : Q) (id : string) (name : option string)
| OpRemovePlayer (id : string)
| OpUpdatePlayerPosition (now : Z) (id : string) (position : Vec3) (velocity : option Vec3)
| OpEliminatePlayer (now : Z) (id : string)
| OpSetGameState (now : Z) (state : GameState)
| OpShrinkPlatform (now : Z) (newRadius : Q)
| OpResetGame (rand : nat -> Q)
| OpSetPlayerReady (id : string) (ready : bool)
| OpRecordCollision (now : Z) (playerId hitterId : string)
| OpUpdateBoundaryStatus (now : Z) (id : string) (platformRadius : Q)
| OpEliminatePlayerWithAttribution (clk : ElimClock) (id reason : string)
| OpCalculatePlayerScore (now : Z) (id : string)
| OpGetScoreSnapshot (clk : string -> ScoreClock)
| OpInitializeGameTimes (now : Z).

Definition applyOp (op : StoreOp) (st : Store) : Store :=
  match op with
  | OpCreatePlayer now r1 r2 id name => snd (createPlayer now r1 r2 id name st)
  | OpRemovePlayer id => snd (removePlayer id st)
  | OpUpdatePlayerPosition now id position velocity =>
      updatePlayerPosition now id position velocity st
  | OpEliminatePlayer now id => snd (eliminatePlayer now id st)
  | OpSetGameState now state => setGameState now state st
  | OpShrinkPlatform now newRadius => shrinkPlatform now newRadius st
  | OpResetGame rand => resetGame rand st
  | OpSetPlayerReady id ready => setPlayerReady id ready st
  | OpRecordCollision now playerId hitterId => recordCollision now playerId hitterId st
  | OpUpdateBoundaryStatus now id radius => snd (updateBoundaryStatus now id radius st)
  | OpEliminatePlayerWithAttribution clk id reason =>
      snd (eliminatePlayerWithAttribution clk id reason st)
  | OpCalculatePlayerScore now id => calculatePlayerScore now id st
  | OpGetScoreSnapshot clk => snd (getScoreSnapshot clk st)
  | OpInitializeGameTimes now => initializeGameTimes now st
  end.

(** The full round reset. *)
Definition isReset (op : StoreOp) : bool :=
  match op with
  | OpResetGame _ => true
  | _ => false
  end.

(** The operations that do not assign fields of the record under [id] but
    put a new record under that key, or take the record away. *)
Definition replacesRecord (op : StoreOp) (id : string) : bool :=
  match op with
  | OpCreatePlayer _ _ _ id' _ => (id' =? id)%string
  | OpRemovePlayer id' => (id' =? id)%string
  | _ => false
  end.

(** The kinematic state and the scoring-accrual state of a participant. *)
Definition frozen (p p' : Player.t) : Prop :=
  Player.position p' = Player.position p
  /\ Player.velocity p' = Player.velocity p
  /\ Player.lastUpdate p' = Player.lastUpdate p
  /\ Player.isEliminated p' = Player.isEliminated p
  /\ Player.eliminatedAt p' = Player.eliminatedAt p
  /\ Player.eliminations p' = Player.eliminations p
  /\ Player.survivalTime p' = Player.survivalTime p
  /\ Player.outOfBoundsTime p' = Player.outOfBoundsTime p
  /\ Player.isOutOfBounds p' = Player.isOutOfBounds p
  /\ Player.outOfBoundsStartTime p' = Player.outOfBoundsStartTime p
  /\ Player.gameStartTime p' = Player.gameStartTime p
  /\ Player.lastHitBy p' = Player.lastHitBy p.

Definition terminal (p p' : Player.t) : Prop :=
  Player.isEliminated p = true -> frozen p p'.

Lemma frozen_refl p : frozen p p.
Proof. unfold frozen. auto 15. Qed.

Lemma terminal_refl p : terminal p p.
Proof. intros _. apply frozen_refl. Qed.

Lemma terminal_trans a b c : terminal a b -> terminal b c -> terminal a c.
Proof.
  unfold terminal, frozen. intros Hab Hbc Ha.
  specialize (Hab Ha). destruct Hab as (? & ? & ? & He & ? & ? & ? & ? & ? & ? & ? & ?).
  assert (Hb : Player.isEliminated b = true) by congruence.
  specialize (Hbc Hb). destruct Hbc as (? & ? & ? & ? & ? & ? & ? & ? & ? & ? & ? & ?).
  repeat split; congruence.
Qed.

Lemma terminal_alive p p' : Player.isEliminated p = false -> terminal p p'.
Proof. intros H H'. congruence. Qed.

Lemma maps_to_same_players (R : Player.t -> Player.t -> Prop) st st' :
  (forall p, R p p) -> players st' = players st -> maps_to R st st'.
Proof. intros HR Hp k p H. rewrite Hp. exists p. auto. Qed.

Lemma maps_to_forEach (R : Player.t -> Player.t -> Prop) f st :
  (forall p, R p (f p)) -> maps_to R st (with_players (JsMap.forEach f) st).
Proof.
  intros Hf k p H. rewrite players_with_players, get_forEach, H. simpl. eauto.
Qed.

Lemma get_set_other {V : Type} (k k' : string) (v : V) (m : JsMap.t V) :
  k <> k' -> JsMap.get k' (JsMap.set k v m) = JsMap.get k' m.
Proof.
  intros Hne. induction m as [|[k0 v0] m IH]; simpl.
  - destruct (String.eqb k k') eqn:E; [apply String.eqb_eq in E; contradiction|reflexivity].
  - destruct (String.eqb k0 k) eqn:E; simpl.
    + apply String.eqb_eq in E. subst k0.
      destruct (String.eqb k k') eqn:E'; [apply String.eqb_eq in E'; contradiction|reflexivity].
    + destruct (String.eqb k0 k'); auto.
Qed.

Lemma get_delete_other {V : Type} (k k' : string) (m : JsMap.t V) :
  k <> k' -> JsMap.get k' (JsMap.delete k m) = JsMap.get k' m.
Proof.
  intros Hne. induction m as [|[k0 v0] m IH]; simpl; [reflexivity|].
  destruct (String.eqb k0 k) eqn:E; simpl.
  - apply String.eqb_eq in E. subst k0.
    destruct (String.eqb k k') eqn:E'; [apply String.eqb_eq in E'; contradiction|reflexivity].
  - destruct (String.eqb k0 k'); auto.
Qed.

Lemma updatePlayerPosition_terminal now id position velocity st :
  maps_to terminal st (updatePlayerPosition now id position velocity st).
Proof.
  unfold updatePlayerPosition.
  destruct (JsMap.get id (players st)) as [p|] eqn:E;
    [|apply maps_to_refl, terminal_refl].
  destruct (Player.isEliminated p) eqn:Ee; simpl;
    [apply maps_to_refl, terminal_refl|].
  apply maps_to_update; [apply terminal_refl|].
  intros q Hq. apply terminal_alive. congruence.
Qed.

Lemma eliminatePlayer_terminal now id st :
  maps_to terminal st (snd (eliminatePlayer now id st)).
Proof.
  unfold eliminatePlayer.
  destruct (JsMap.get id (players st)) as [p|] eqn:E;
    [|apply maps_to_refl, terminal_refl].
  destruct (Player.isEliminated p) eqn:Ee; simpl;
    [apply maps_to_refl, terminal_refl|].
  apply maps_to_update; [apply terminal_refl|].
  intros q Hq. apply terminal_alive. congruence.
Qed.

Lemma setPlayerReady_terminal id ready st :
  maps_to terminal st (setPlayerReady id ready st).
Proof.
  unfold setPlayerReady.
  destruct (JsMap.get id (players st)); [|apply maps_to_refl, terminal_refl].
  apply maps_to_update; [apply terminal_refl|].
  intros q _ _. unfold frozen. simpl. auto 15.
Qed.

Lemma recordCollision_terminal now playerId hitterId st :
  maps_to terminal st (recordCollision now playerId hitterId st).
Proof.
  unfold recordCollision.
  destruct (JsMap.get playerId (players st)) as [p|] eqn:E;
    [|apply maps_to_refl, terminal_refl].
  destruct (JsMap.get hitterId (players st)) as [h|];
    [|apply maps_to_refl, terminal_refl].
  destruct (Player.isEliminated p) eqn:Ee; simpl;
    [apply maps_to_refl, terminal_refl|].
  destruct (Player.isEliminated h); simpl; [apply maps_to_refl, terminal_refl|].
  apply maps_to_update; [apply terminal_refl|].
  intros q Hq. apply terminal_alive. congruence.
Qed.

Lemma updateBoundaryStatus_terminal now id radius st :
  maps_to terminal st (snd (updateBoundaryStatus now id radius st)).
Proof.
  unfold updateBoundaryStatus.
  destruct (JsMap.get id (players st)) as [p|] eqn:E;
    [|apply maps_to_refl, terminal_refl].
  destruct (Player.isEliminated p) eqn:Ee; simpl;
    [apply maps_to_refl, terminal_refl|].
  destruct (boundaryTransition now (isCurrentlyOutOfBounds p radius) p) as [ret p1].
  destruct ret; simpl; (apply maps_to_update; [apply terminal_refl|]);
    intros q Hq; apply terminal_alive; congruence.
Qed.

Lemma calculatePlayerScore_terminal now id st :
  maps_to terminal st (calculatePlayerScore now id st).
Proof.
  apply calculatePlayerScore_maps_to; [apply terminal_refl|].
  intros p s _. unfold frozen. simpl. auto 15.
Qed.

Lemma eliminatePlayerWithAttribution_terminal clk id reason st :
  maps_to terminal st (snd (eliminatePlayerWithAttribution clk id reason st)).
Proof.
  unfold eliminatePlayerWithAttribution.
  destruct (JsMap.get id (players st)) as [p|] eqn:E;
    [|apply maps_to_refl, terminal_refl].
  destruct (Player.isEliminated p) eqn:Ee; simpl;
    [apply maps_to_refl, terminal_refl|].
  set (st1 := with_players (JsMap.update id _) st).
  assert (H1 : maps_to terminal st st1).
  { apply maps_to_update; [apply terminal_refl|].
    intros q Hq. apply terminal_alive. congruence. }
  destruct (attribute_cases (tSinceHit clk) reason p st1)
    as [(hit & hitter & _ & _ & _ & Hg & He & ->) | (-> & _)]; simpl.
  - eapply maps_to_trans; [exact terminal_trans | exact H1 |].
    eapply maps_to_trans; [exact terminal_trans | | apply calculatePlayerScore_terminal].
    apply maps_to_update; [apply terminal_refl|].
    intros q Hq. apply terminal_alive. congruence.
  - eapply maps_to_trans; [exact terminal_trans | exact H1 |].
    apply calculatePlayerScore_terminal.
Qed.

Lemma scoreEntries_terminal clk ks st :
  maps_to terminal st (snd (scoreEntries clk ks st)).
Proof.
  revert st. induction ks as [|k ks IH]; intros st; simpl.
  - apply maps_to_refl, terminal_refl.
  - destruct (JsMap.get k (players st)) as [p|]; [|apply IH].
    specialize (IH (calculatePlayerScore (tCalc (clk k)) (Player.id p) st)).
    destruct (scoreEntries clk ks _) as [rest st2]. simpl in *.
    eapply maps_to_trans; [exact terminal_trans | | exact IH].
    apply calculatePlayerScore_terminal.
Qed.

Lemma getScoreSnapshot_terminal clk st :
  maps_to terminal st (snd (getScoreSnapshot clk st)).
Proof.
  unfold getScoreSnapshot.
  pose proof (scoreEntries_terminal clk (JsMap.keys (players st)) st) as H.
  destruct (scoreEntries clk _ st) as [scores st']. exact H.
Qed.

Lemma initializeGameTimes_terminal now st :
  maps_to terminal st (initializeGameTimes now st).
Proof.
  apply maps_to_forEach. intros p.
  destruct (Player.isEliminated p) eqn:E; simpl.
  - apply terminal_refl.
  - apply terminal_alive. exact E.
Qed.

Lemma applyOp_terminal (op : StoreOp) (st : Store) (id : string) (p : Player.t) :
  JsMap.get id (players st) = Some p ->
  isReset op = false ->
  replacesRecord op id = false ->
  exists p', JsMap.get id (players (applyOp op st)) = Some p' /\ terminal p p'.
Proof.
  intros Hget Hreset Hrep.
  destruct op; simpl in Hreset, Hrep; try discriminate; cbn [applyOp].
  - (* createPlayer under another key *)
    apply String.eqb_neq in Hrep.
    destruct (createPlayer_store now r1 r2 id0 name st) as (q & _ & _ & _ & -> & _).
    rewrite get_set_other by assumption. exists p. split; [assumption|apply terminal_refl].
  - (* removePlayer of another key *)
    apply String.eqb_neq in Hrep.
    destruct (JsMap.get id0 (players st)) as [q|] eqn:E.
    + destruct (removePlayer_host id0 st q E) as (_ & -> & _).
      rewrite get_delete_other by assumption. exists p. split; [assumption|apply terminal_refl].
    + rewrite removePlayer_absent by assumption. exists p. split; [assumption|apply terminal_refl].
  - exact (updatePlayerPosition_terminal _ _ _ _ _ _ _ Hget).
  - exact (eliminatePlayer_terminal _ _ _ _ _ Hget).
  - refine (maps_to_same_players terminal _ _ terminal_refl _ _ _ Hget).
    unfold setGameState. destruct (GameState_eqb state PLAYING); reflexivity.
  - exact (maps_to_same_players terminal _ _ terminal_refl eq_refl _ _ Hget).
  - exact (setPlayerReady_terminal _ _ _ _ _ Hget).
  - exact (recordCollision_terminal _ _ _ _ _ _ Hget).
  - exact (updateBoundaryStatus_terminal _ _ _ _ _ _ Hget).
  - exact (eliminatePlayerWithAttribution_terminal _ _ _ _ _ _ Hget).
  - exact (calculatePlayerScore_terminal _ _ _ _ _ Hget).
  - exact (getScoreSnapshot_terminal _ _ _ _ Hget).
  - exact (initializeGameTimes_terminal _ _ _ _ Hget).
Qed.


(** *** The functions of the engine write nothing but the player map *)

Lemma globals_calculatePlayerScore now id st :
  globals (calculatePlayerScore now id st) = globals st.
Proof. destruct (calculatePlayerScore_shape now id st) as [s ->]. reflexivity. Qed.

Lemma globals_attribute now reason victim st :
  globals (snd (attribute now reason victim st)) = globals st.
Proof.
  destruct (attribute_cases now reason victim st)
    as [(hit & hitter & _ & _ & _ & _ & _ & ->) | (-> & _)]; reflexivity.
Qed.

Lemma globals_eliminatePlayerWithAttribution clk id reason st :
  globals (snd (eliminatePlayerWithAttribution clk id reason st)) = globals st.
Proof.
  unfold eliminatePlayerWithAttribution.
  destruct (JsMap.get id (players st)) as [p|]; [|reflexivity].
  destruct (Player.isEliminated p); [reflexivity|].
  set (st1 := with_players (JsMap.update id _) st).
  pose proof (globals_attribute (tSinceHit clk) reason p st1) as H.
  destruct (attribute (tSinceHit clk) reason p st1) as [by_ st2]. simpl in *.
  rewrite globals_calculatePlayerScore. exact H.
Qed.

Lemma globals_updateBoundaryStatus now id radius st :
  globals (snd (updateBoundaryStatus now id radius st)) = globals st.
Proof.
  unfold updateBoundaryStatus.
  destruct (JsMap.get id (players st)) as [p|]; [|reflexivity].
  destruct (Player.isEliminated p); [reflexivity|].
  destruct (boundaryTransition now (isCurrentlyOutOfBounds p radius) p) as [ret p1].
  destruct ret; reflexivity.
Qed.

Lemma globals_eliminatePlayer now id st :
  globals (snd (eliminatePlayer now id st)) = globals st.
Proof.
  unfold eliminatePlayer.
  destruct (JsMap.get id (players st)) as [p|]; [|reflexivity].
  destruct (Player.isEliminated p); reflexivity.
Qed.

Lemma globals_scoreEntries clk ks st :
  globals (snd (scoreEntries clk ks st)) = globals st.
Proof.
  revert st. induction ks as [|k ks IH]; intros st; simpl; [reflexivity|].
  destruct (JsMap.get k (players st)) as [p|]; [|apply IH].
  specialize (IH (calculatePlayerScore (tCalc (clk k)) (Player.id p) st)).
  destruct (scoreEntries clk ks _) as [rest st2]. simpl in *.
  rewrite IH. apply globals_calculatePlayerScore.
Qed.

Lemma globals_getScoreSnapshot clk st :
  globals (snd (getScoreSnapshot clk st)) = globals st.
Proof.
  unfold getScoreSnapshot.
  pose proof (globals_scoreEntries clk (JsMap.keys (players st)) st) as H.
  destruct (scoreEntries clk _ st) as [scores st']. exact H.
Qed.

Lemma globals_updatePlayerPosition now id position velocity st :
  globals (updatePlayerPosition now id position velocity st) = globals st.
Proof.
  unfold updatePlayerPosition.
  destruct (JsMap.get id (players st)) as [p|]; [|reflexivity].
  destruct (Player.isEliminated p); reflexivity.
Qed.

Lemma globals_recordCollision now a b st :
  globals (recordCollision now a b st) = globals st.
Proof.
  unfold recordCollision.
  destruct (JsMap.get a (players st)) as [p|]; [|reflexivity].
  destruct (JsMap.get b (players st)) as [q|]; [|reflexivity].
  destruct (negb (Player.isEliminated p) && negb (Player.isEliminated q)); reflexivity.
Qed.

Lemma globals_setPlayerReady id ready st :
  globals (setPlayerReady id ready st) = globals st.
Proof.
  unfold setPlayerReady. destruct (JsMap.get id (players st)); reflexivity.
Qed.

Lemma globals_gameState st st' : globals st' = globals st -> gameState st' = gameState st.
Proof. unfold globals. intros H. inversion H. reflexivity. Qed.

Lemma globals_platformRadius st st' :
  globals st' = globals st -> platformRadius st' = platformRadius st.
Proof. unfold globals. intros H. inversion H. reflexivity. Qed.

Lemma globals_lastShrinkTime st st' :
  globals st' = globals st -> lastShrinkTime st' = lastShrinkTime st.
Proof. unfold globals. intros H. inversion H. reflexivity. Qed.

(** The messages of the per-player loops are elimination notices. *)
Definition isEliminationNotice (m : Target * Message) : Prop :=
  match snd m with
  | playerEliminated _ _ _ _ => True
  | _ => False
  end.

Lemma tickPlayer_frame clk radius any st out player :
  exists extra,
    snd (tickPlayer clk radius (any, st, out) player) = out ++ extra
    /\ Forall isEliminationNotice extra
    /\ globals (snd (fst (tickPlayer clk radius (any, st, out) player))) = globals st.
Proof.
  unfold tickPlayer.
  pose proof (globals_updateBoundaryStatus (tkBoundary clk (Player.id player))
                (Player.id player) radius st) as G1.
  destruct (updateBoundaryStatus _ _ radius st) as [should st1]. simpl in G1.
  assert (H2 : exists any1 st2 extra1,
             (if should then
                match eliminatePlayerWithAttribution
                        (tkElimBoundary clk (Player.id player)) (Player.id player)
                        "boundary" st1 with
                | (Some info, st2) => (true, st2, out ++ [eliminationMessage info])
                | (None, st2) => (any, st2, out)
                end
              else (any, st1, out)) = (any1, st2, out ++ extra1)
             /\ Forall isEliminationNotice extra1
             /\ globals st2 = globals st).
  { destruct should.
    - pose proof (globals_eliminatePlayerWithAttribution
                    (tkElimBoundary clk (Player.id player)) (Player.id player)
                    "boundary" st1) as G2.
      destruct (eliminatePlayerWithAttribution _ _ "boundary" st1) as [[info|] st2];
        simpl in G2.
      + exists true, st2, [eliminationMessage info].
        split; [reflexivity|]. split; [|congruence].
        constructor; [exact I|constructor].
      + exists any, st2, []. rewrite app_nil_r.
        split; [reflexivity|]. split; [constructor|congruence].
    - exists any, st1, []. rewrite app_nil_r.
      split; [reflexivity|]. split; [constructor|congruence]. }
  destruct H2 as (any1 & st2 & extra1 & -> & F1 & G2).
  destruct (Qlt_bool _ SERVER.FALL_THRESHOLD).
  - pose proof (globals_eliminatePlayerWithAttribution
                  (tkElimPushed clk (Player.id player)) (Player.id player)
                  "pushed" st2) as G3.
    destruct (eliminatePlayerWithAttribution _ _ "pushed" st2) as [[info|] st3];
      simpl in G3; simpl.
    + exists (extra1 ++ [eliminationMessage info]). rewrite app_assoc.
      split; [reflexivity|]. split; [|congruence].
      apply Forall_app. split; [exact F1|]. constructor; [exact I|constructor].
    + exists extra1. split; [reflexivity|]. split; [exact F1|congruence].
  - simpl. exists extra1. split; [reflexivity|]. split; [exact F1|exact G2].
Qed.

Lemma tickPlayers_frame clk radius l any st out :
  exists extra,
    snd (fold_left (tickPlayer clk radius) l (any, st, out)) = out ++ extra
    /\ Forall isEliminationNotice extra
    /\ globals (snd (fst (fold_left (tickPlayer clk radius) l (any, st, out))))
       = globals st.
Proof.
  revert any st out. induction l as [|p l IH]; intros any st out; cbn [fold_left].
  - exists []. rewrite app_nil_r. split; [reflexivity|]. split; [constructor|reflexivity].
  - destruct (tickPlayer_frame clk radius any st out p) as (e1 & H1 & F1 & G1).
    destruct (tickPlayer clk radius (any, st, out) p) as [[any1 st1] out1].
    simpl in H1, G1. subst out1.
    destruct (IH any1 st1 (out ++ e1)) as (e2 & H2 & F2 & G2).
    exists (e1 ++ e2). rewrite app_assoc. split; [exact H2|].
    split; [apply Forall_app; auto | congruence].
Qed.

Lemma konamiPlayer_frame sid clk st out p :
  exists extra,
    snd (konamiPlayer sid clk (st, out) p) = out ++ extra
    /\ Forall isEliminationNotice extra
    /\ globals (fst (konamiPlayer sid clk (st, out) p)) = globals st.
Proof.
  unfold konamiPlayer.
  destruct (negb (Player.id p =? sid)%string).
  - pose proof (globals_eliminatePlayer (clk (Player.id p)) (Player.id p) st) as G1.
    destruct (eliminatePlayer (clk (Player.id p)) (Player.id p) st) as [b st1].
    simpl in G1. eexists. split; [reflexivity|].
    split; [constructor; [exact I|constructor] | exact G1].
  - exists []. rewrite app_nil_r. split; [reflexivity|]. split; [constructor|reflexivity].
Qed.

Lemma konamiPlayers_frame sid clk l st out :
  exists extra,
    snd (fold_left (konamiPlayer sid clk) l (st, out)) = out ++ extra
    /\ Forall isEliminationNotice extra
    /\ globals (fst (fold_left (konamiPlayer sid clk) l (st, out))) = globals st.
Proof.
  revert st out. induction l as [|p l IH]; intros st out; cbn [fold_left].
  - exists []. rewrite app_nil_r. split; [reflexivity|]. split; [constructor|reflexivity].
  - destruct (konamiPlayer_frame sid clk st out p) as (e1 & H1 & F1 & G1).
    destruct (konamiPlayer sid clk (st, out) p) as [st1 out1].
    simpl in H1, G1. subst out1.
    destruct (IH st1 (out ++ e1)) as (e2 & H2 & F2 & G2).
    exists (e1 ++ e2). rewrite app_assoc. split; [exact H2|].
    split; [apply Forall_app; auto | congruence].
Qed.

(** *** Match timers (C9) *)

Definition phase (s : Server) : GameState := gameState (store s).

(** What the timer discipline depends on. *)
Definition timerView (s : Server)
    : GameState * option nat * option nat * option nat
      * list (nat * Callback) * nat * list nat :=
  (phase s, gameLoopInterval s, countdownInterval s, scoreUpdateInterval s,
   timers s, nextTimer s, cleared s).

(** The timer discipline of the server.  Structure: handles are allocated
    in order; a handle that was started is either active or was cleared,
    once; the three module variables hold exactly the active intervals,
    each with its own callback. *)
Record timers_struct (lp cd sc : option nat)
    (tm : list (nat * Callback)) (nx : nat) (cl : list nat) : Prop := {
  ok_next : (1 <= nx)%nat;
  ok_alloc : forall h cb, callbackOf h tm = Some cb -> (1 <= h < nx)%nat;
  ok_cleared : forall h, In h cl -> (1 <= h < nx)%nat /\ callbackOf h tm = None;
  ok_once : NoDup cl;
  ok_total : forall h, (1 <= h < nx)%nat -> callbackOf h tm <> None \/ In h cl;
  ok_loop : forall h, lp = Some h <-> callbackOf h tm = Some GameLoopCallback;
  ok_countdown :
    forall h, cd = Some h <-> exists c, callbackOf h tm = Some (CountdownCallback c);
  ok_score : forall h, sc = Some h <-> callbackOf h tm = Some ScoreCallback
}.

(** Phases: the countdown interval is active exactly in phase [COUNTDOWN]
    and the score interval exactly in phase [PLAYING]. *)
Definition timers_ok_on (ph : GameState) (lp cd sc : option nat)
    (tm : list (nat * Callback)) (nx : nat) (cl : list nat) : Prop :=
  timers_struct lp cd sc tm nx cl
  /\ (cd <> None <-> ph = COUNTDOWN)
  /\ (sc <> None <-> ph = PLAYING).

Definition timers_ok (s : Server) : Prop :=
  timers_ok_on (phase s) (gameLoopInterval s) (countdownInterval s)
    (scoreUpdateInterval s) (timers s) (nextTimer s) (cleared s).

Lemma timers_ok_view s s' : timerView s' = timerView s -> timers_ok s -> timers_ok s'.
Proof.
  unfold timerView, timers_ok. intros H. inversion H as [[H1 H2 H3 H4 H5 H6 H7]].
  rewrite H1, H2, H3, H4, H5, H6, H7. auto.
Qed.

Lemma callbackOf_app h l n cb :
  callbackOf h (l ++ [(n, cb)])
  = match callbackOf h l with
    | Some c => Some c
    | None => if (n =? h)%nat then Some cb else None
    end.
Proof.
  induction l as [|[h' c'] l IH]; simpl; [reflexivity|].
  destruct (h' =? h)%nat; auto.
Qed.

Lemma callbackOf_filter h l n :
  callbackOf h (List.filter (fun e => negb (fst e =? n)%nat) l)
  = if (h =? n)%nat then None else callbackOf h l.
Proof.
  induction l as [|[h' c'] l IH]; simpl.
  - destruct (h =? n)%nat; reflexivity.
  - destruct (h' =? n)%nat eqn:E1; simpl.
    + rewrite IH. destruct (h =? n)%nat eqn:E2; [reflexivity|].
      apply Nat.eqb_eq in E1. subst h'.
      rewrite Nat.eqb_sym, E2. reflexivity.
    + destruct (h' =? h)%nat eqn:E3.
      * apply Nat.eqb_eq in E3. subst h'. rewrite E1. reflexivity.
      * exact IH.
Qed.

Lemma callbackOf_setCount h l h0 c :
  callbackOf h
    (List.map (fun e => if (fst e =? h0)%nat then (h0, CountdownCallback c) else e) l)
  = if (h =? h0)%nat then
      match callbackOf h l with
      | Some _ => Some (CountdownCallback c)
      | None => None
      end
    else callbackOf h l.
Proof.
  induction l as [|[h' c'] l IH]; simpl.
  - destruct (h =? h0)%nat; reflexivity.
  - destruct (h' =? h0)%nat eqn:E1; simpl.
    + apply Nat.eqb_eq in E1. subst h'.
      destruct (h0 =? h)%nat eqn:E2.
      * rewrite Nat.eqb_sym, E2. reflexivity.
      * rewrite IH. reflexivity.
    + destruct (h' =? h)%nat eqn:E3.
      * apply Nat.eqb_eq in E3. subst h'. rewrite E1. reflexivity.
      * exact IH.
Qed.

(** Starting an interval: the new handle is fresh. *)
Lemma callbackOf_fresh lp cd sc tm nx cl :
  timers_struct lp cd sc tm nx cl -> callbackOf nx tm = None.
Proof.
  intros H. destruct (callbackOf nx tm) as [cb|] eqn:E; [|reflexivity].
  apply (ok_alloc _ _ _ _ _ _ H) in E. lia.
Qed.

Lemma callbackOf_started lp cd sc tm nx cl cb h :
  timers_struct lp cd sc tm nx cl ->
  callbackOf h (tm ++ [(nx, cb)])
  = if (h =? nx)%nat then Some cb else callbackOf h tm.
Proof.
  intros H. rewrite callbackOf_app.
  destruct (h =? nx)%nat eqn:E.
  - apply Nat.eqb_eq in E. subst h. rewrite (callbackOf_fresh _ _ _ _ _ _ H).
    rewrite Nat.eqb_refl. reflexivity.
  - rewrite Nat.eqb_sym, E. destruct (callbackOf h tm); reflexivity.
Qed.

(** The common part of starting an interval. *)
Lemma started_common lp cd sc tm nx cl cb :
  timers_struct lp cd sc tm nx cl ->
  (1 <= S nx)%nat
  /\ (forall h cb', callbackOf h (tm ++ [(nx, cb)]) = Some cb' -> (1 <= h < S nx)%nat)
  /\ (forall h, In h cl ->
        (1 <= h < S nx)%nat /\ callbackOf h (tm ++ [(nx, cb)]) = None)
  /\ (forall h, (1 <= h < S nx)%nat ->
        callbackOf h (tm ++ [(nx, cb)]) <> None \/ In h cl).
Proof.
  intros H. pose proof (ok_next _ _ _ _ _ _ H) as Hn.
  split; [lia|]. split; [|split].
  - intros h cb'. rewrite (callbackOf_started _ _ _ _ _ _ cb h H).
    destruct (Nat.eqb_spec h nx); [intros _; lia|].
    intros E. apply (ok_alloc _ _ _ _ _ _ H) in E. lia.
  - intros h Hin. destruct (ok_cleared _ _ _ _ _ _ H h Hin) as [Hr Hc].
    split; [lia|]. rewrite (callbackOf_started _ _ _ _ _ _ cb h H).
    destruct (Nat.eqb_spec h nx); [lia|exact Hc].
  - intros h Hr. rewrite (callbackOf_started _ _ _ _ _ _ cb h H).
    destruct (Nat.eqb_spec h nx); [left; discriminate|].
    apply (ok_total _ _ _ _ _ _ H). lia.
Qed.

Lemma started_loop cd sc tm nx cl :
  timers_struct None cd sc tm nx cl ->
  timers_struct (Some nx) cd sc (tm ++ [(nx, GameLoopCallback)]) (S nx) cl.
Proof.
  intros H. destruct (started_common _ _ _ _ _ _ GameLoopCallback H) as (A & B & C & D).
  pose proof (callbackOf_fresh _ _ _ _ _ _ H) as Hf.
  constructor; auto; try exact (ok_once _ _ _ _ _ _ H);
    intros h; rewrite (callbackOf_started _ _ _ _ _ _ GameLoopCallback h H);
    destruct (Nat.eqb_spec h nx) as [->|Hne].
  - split; reflexivity.
  - rewrite <- (ok_loop _ _ _ _ _ _ H). split; [congruence|discriminate].
  - split; [|intros [c E]; discriminate].
    intros E. apply (ok_countdown _ _ _ _ _ _ H) in E. destruct E as [c E]. congruence.
  - apply (ok_countdown _ _ _ _ _ _ H).
  - split; [|discriminate].
    intros E. apply (ok_score _ _ _ _ _ _ H) in E. congruence.
  - apply (ok_score _ _ _ _ _ _ H).
Qed.

Lemma started_countdown lp sc tm nx cl count :
  timers_struct lp None sc tm nx cl ->
  timers_struct lp (Some nx) sc (tm ++ [(nx, CountdownCallback count)]) (S nx) cl.
Proof.
  intros H.
  destruct (started_common _ _ _ _ _ _ (CountdownCallback count) H) as (A & B & C & D).
  pose proof (callbackOf_fresh _ _ _ _ _ _ H) as Hf.
  constructor; auto; try exact (ok_once _ _ _ _ _ _ H);
    intros h; rewrite (callbackOf_started _ _ _ _ _ _ (CountdownCallback count) h H);
    destruct (Nat.eqb_spec h nx) as [->|Hne].
  - split; [|discriminate].
    intros E. apply (ok_loop _ _ _ _ _ _ H) in E. congruence.
  - apply (ok_loop _ _ _ _ _ _ H).
  - split; [eauto|reflexivity].
  - rewrite <- (ok_countdown _ _ _ _ _ _ H). split; [congruence|discriminate].
  - split; [|discriminate].
    intros E. apply (ok_score _ _ _ _ _ _ H) in E. congruence.
  - apply (ok_score _ _ _ _ _ _ H).
Qed.

Lemma started_score lp cd tm nx cl :
  timers_struct lp cd None tm nx cl ->
  timers_struct lp cd (Some nx) (tm ++ [(nx, ScoreCallback)]) (S nx) cl.
Proof.
  intros H. destruct (started_common _ _ _ _ _ _ ScoreCallback H) as (A & B & C & D).
  pose proof (callbackOf_fresh _ _ _ _ _ _ H) as Hf.
  constructor; auto; try exact (ok_once _ _ _ _ _ _ H);
    intros h; rewrite (callbackOf_started _ _ _ _ _ _ ScoreCallback h H);
    destruct (Nat.eqb_spec h nx) as [->|Hne].
  - split; [|discriminate].
    intros E. apply (ok_loop _ _ _ _ _ _ H) in E. congruence.
  - apply (ok_loop _ _ _ _ _ _ H).
  - split; [|intros [c E]; discriminate].
    intros E. apply (ok_countdown _ _ _ _ _ _ H) in E. destruct E as [c E]. congruence.
  - apply (ok_countdown _ _ _ _ _ _ H).
  - split; reflexivity.
  - rewrite <- (ok_score _ _ _ _ _ _ H). split; [congruence|discriminate].
Qed.

(** The common part of clearing an active interval. *)
Lemma cleared_common lp cd sc tm nx cl n cb :
  timers_struct lp cd sc tm nx cl ->
  callbackOf n tm = Some cb ->
  (forall h cb', callbackOf h (List.filter (fun e => negb (fst e =? n)%nat) tm) = Some cb' ->
      (1 <= h < nx)%nat)
  /\ (forall h, In h (n :: cl) ->
        (1 <= h < nx)%nat
        /\ callbackOf h (List.filter (fun e => negb (fst e =? n)%nat) tm) = None)
  /\ NoDup (n :: cl)
  /\ (forall h, (1 <= h < nx)%nat ->
        callbackOf h (List.filter (fun e => negb (fst e =? n)%nat) tm) <> None
        \/ In h (n :: cl)).
Proof.
  intros H Hn. split; [|split; [|split]].
  - intros h cb'. rewrite callbackOf_filter.
    destruct (Nat.eqb_spec h n); [discriminate|]. apply (ok_alloc _ _ _ _ _ _ H).
  - intros h [<- | Hin]; rewrite callbackOf_filter.
    + rewrite Nat.eqb_refl. split; [|reflexivity]. exact (ok_alloc _ _ _ _ _ _ H _ _ Hn).
    + destruct (ok_cleared _ _ _ _ _ _ H h Hin) as [Hr Hc]. split; [exact Hr|].
      destruct (h =? n)%nat; [reflexivity|exact Hc].
  - constructor; [|exact (ok_once _ _ _ _ _ _ H)].
    intros Hin. destruct (ok_cleared _ _ _ _ _ _ H n Hin) as [_ Hc]. congruence.
  - intros h Hr. rewrite callbackOf_filter.
    destruct (Nat.eqb_spec h n) as [->|Hne]; [right; now left|].
    destruct (ok_total _ _ _ _ _ _ H h Hr); [left; assumption|right; now right].
Qed.

Lemma cleared_countdown lp sc tm nx cl n :
  timers_struct lp (Some n) sc tm nx cl ->
  timers_struct lp None sc (List.filter (fun e => negb (fst e =? n)%nat) tm) nx (n :: cl).
Proof.
  intros H.
  destruct (proj1 (ok_countdown _ _ _ _ _ _ H n) eq_refl) as [c Hc].
  destruct (cleared_common _ _ _ _ _ _ n _ H Hc) as (A & B & C & D).
  constructor; auto; try exact (ok_next _ _ _ _ _ _ H);
    intros h; rewrite callbackOf_filter;
    destruct (Nat.eqb_spec h n) as [->|Hne].
  - split; [|discriminate].
    intros E. apply (ok_loop _ _ _ _ _ _ H) in E. congruence.
  - apply (ok_loop _ _ _ _ _ _ H).
  - split; [discriminate|intros [c' E]; discriminate].
  - rewrite <- (ok_countdown _ _ _ _ _ _ H). split; [discriminate|congruence].
  - split; [|discriminate].
    intros E. apply (ok_score _ _ _ _ _ _ H) in E. congruence.
  - apply (ok_score _ _ _ _ _ _ H).
Qed.

Lemma cleared_score lp cd tm nx cl n :
  timers_struct lp cd (Some n) tm nx cl ->
  timers_struct lp cd None (List.filter (fun e => negb (fst e =? n)%nat) tm) nx (n :: cl).
Proof.
  intros H.
  pose proof (proj1 (ok_score _ _ _ _ _ _ H n) eq_refl) as Hc.
  destruct (cleared_common _ _ _ _ _ _ n _ H Hc) as (A & B & C & D).
  constructor; auto; try exact (ok_next _ _ _ _ _ _ H);
    intros h; rewrite callbackOf_filter;
    destruct (Nat.eqb_spec h n) as [->|Hne].
  - split; [|discriminate].
    intros E. apply (ok_loop _ _ _ _ _ _ H) in E. congruence.
  - apply (ok_loop _ _ _ _ _ _ H).
  - split; [|intros [c' E]; discriminate].
    intros E. apply (ok_countdown _ _ _ _ _ _ H) in E. destruct E as [c E]. congruence.
  - apply (ok_countdown _ _ _ _ _ _ H).
  - split; discriminate.
  - rewrite <- (ok_score _ _ _ _ _ _ H). split; [discriminate|congruence].
Qed.

Lemma counted_down lp cd sc tm nx cl n c c' :
  timers_struct lp cd sc tm nx cl ->
  callbackOf n tm = Some (CountdownCallback c) ->
  timers_struct lp cd sc
    (List.map (fun e => if (fst e =? n)%nat then (n, CountdownCallback c') else e) tm)
    nx cl.
Proof.
  intros H Hc.
  constructor; try exact (ok_next _ _ _ _ _ _ H); try exact (ok_once _ _ _ _ _ _ H).
  - intros h cb. rewrite callbackOf_setCount.
    destruct (Nat.eqb_spec h n) as [->|Hne].
    + intros _. exact (ok_alloc _ _ _ _ _ _ H _ _ Hc).
    + apply (ok_alloc _ _ _ _ _ _ H).
  - intros h Hin. destruct (ok_cleared _ _ _ _ _ _ H h Hin) as [Hr Hn].
    split; [exact Hr|]. rewrite callbackOf_setCount, Hn.
    destruct (h =? n)%nat; reflexivity.
  - intros h Hr. rewrite callbackOf_setCount.
    destruct (Nat.eqb_spec h n) as [->|Hne].
    + rewrite Hc. left. discriminate.
    + apply (ok_total _ _ _ _ _ _ H h Hr).
  - intros h. rewrite callbackOf_setCount.
    destruct (Nat.eqb_spec h n) as [->|Hne]; [|apply (ok_loop _ _ _ _ _ _ H)].
    rewrite Hc. split; [|discriminate].
    intros E. apply (ok_loop _ _ _ _ _ _ H) in E. congruence.
  - intros h. rewrite callbackOf_setCount.
    destruct (Nat.eqb_spec h n) as [->|Hne]; [|apply (ok_countdown _ _ _ _ _ _ H)].
    rewrite Hc. split; [eauto|].
    intros _. apply (ok_countdown _ _ _ _ _ _ H). eauto.
  - intros h. rewrite callbackOf_setCount.
    destruct (Nat.eqb_spec h n) as [->|Hne]; [|apply (ok_score _ _ _ _ _ _ H)].
    rewrite Hc. split; [|discriminate].
    intros E. apply (ok_score _ _ _ _ _ _ H) in E. congruence.
Qed.

Lemma timers_ok_with_store s st :
  gameState st = gameState (store s) -> timers_ok s -> timers_ok (with_store st s).
Proof.
  intros H. apply timers_ok_view. unfold timerView, phase. simpl. rewrite H. reflexivity.
Qed.

Lemma timers_ok_with_previousWarningState s w :
  timers_ok s -> timers_ok (with_previousWarningState w s).
Proof. apply timers_ok_view. reflexivity. Qed.

Lemma timers_ok_initial : timers_ok initialServer.
Proof.
  unfold timers_ok, timers_ok_on. simpl. split; [|split].
  - constructor; simpl.
    + lia.
    + discriminate.
    + intros h [].
    + constructor.
    + intros h Hr. lia.
    + intros h. split; discriminate.
    + intros h. split; [discriminate|intros [c E]; discriminate].
    + intros h. split; discriminate.
  - unfold phase. simpl. split; [congruence|discriminate].
  - unfold phase. simpl. split; [congruence|discriminate].
Qed.

Lemma timers_ok_startGameLoop s :
  timers_ok s -> timers_ok (startGameLoop s) /\ phase (startGameLoop s) = phase s.
Proof.
  intros H. unfold startGameLoop.
  destruct (gameLoopInterval s) as [h|] eqn:E; [auto|].
  split; [|reflexivity].
  destruct H as (Hs & Hc & Hp). rewrite E in Hs.
  split; [|split]; [apply started_loop; exact Hs | exact Hc | exact Hp].
Qed.

Lemma timers_ok_startCountdown s :
  timers_ok s -> phase s = LOBBY ->
  timers_ok (fst (startCountdown s)) /\ phase (fst (startCountdown s)) = COUNTDOWN.
Proof.
  intros (Hs & Hc & Hp) Hph. unfold startCountdown. simpl. split; [|reflexivity].
  assert (Ecd : countdownInterval s = None).
  { destruct (countdownInterval s); [|reflexivity].
    assert (phase s = COUNTDOWN) by (apply Hc; discriminate). congruence. }
  assert (Esc : scoreUpdateInterval s = None).
  { destruct (scoreUpdateInterval s); [|reflexivity].
    assert (phase s = PLAYING) by (apply Hp; discriminate). congruence. }
  rewrite Ecd in Hs.
  split; [|split].
  - apply started_countdown. exact Hs.
  - split; [reflexivity|discriminate].
  - simpl. rewrite Esc. unfold phase. simpl. split; [congruence|discriminate].
Qed.

Lemma timers_ok_handleGameEnd winner s :
  timers_ok s -> phase s = PLAYING ->
  timers_ok (fst (handleGameEnd winner s))
  /\ phase (fst (handleGameEnd winner s)) = ENDED
  /\ scoreUpdateInterval (fst (handleGameEnd winner s)) = None.
Proof.
  intros (Hs & Hc & Hp) Hph. unfold handleGameEnd, getGameState.
  unfold phase in Hph. rewrite Hph. simpl.
  assert (Ecd : countdownInterval s = None).
  { destruct (countdownInterval s); [|reflexivity].
    assert (phase s = COUNTDOWN) by (apply Hc; discriminate).
    unfold phase in *. congruence. }
  destruct (scoreUpdateInterval s) as [h|] eqn:Esc.
  - assert (G : timers_ok
                  (with_scoreUpdateInterval None
                     (clearInterval (Some h)
                        (with_store (setGameState_noclock ENDED (store s)) s)))
                /\ phase
                     (with_scoreUpdateInterval None
                        (clearInterval (Some h)
                           (with_store (setGameState_noclock ENDED (store s)) s)))
                   = ENDED).
    { split; [|reflexivity]. split; [|split]; simpl.
      - apply cleared_score. exact Hs.
      - rewrite Ecd. unfold phase. simpl. split; [congruence|discriminate].
      - unfold phase. simpl. split; [congruence|discriminate]. }
    destruct winner; simpl; (split; [apply G|split; [apply G|reflexivity]]).
  - exfalso. assert (E : @None nat <> None) by (apply Hp; exact Hph).
    congruence.
Qed.

Lemma timers_ok_countdownCallback h count nowState nowTimes nowSnapshot s :
  timers_ok s ->
  callbackOf h (timers s) = Some (CountdownCallback count) ->
  timers_ok (fst (countdownCallback h count nowState nowTimes nowSnapshot s)).
Proof.
  intros (Hs & Hc & Hp) Hcb. unfold countdownCallback.
  assert (Ecd : countdownInterval s = Some h).
  { apply (ok_countdown _ _ _ _ _ _ Hs). eauto. }
  assert (Eph : phase s = COUNTDOWN) by (apply Hc; congruence).
  assert (Esc : scoreUpdateInterval s = None).
  { destruct (scoreUpdateInterval s); [|reflexivity].
    assert (phase s = PLAYING) by (apply Hp; discriminate). congruence. }
  pose proof (counted_down _ _ _ _ _ _ h count (count - 1) Hs Hcb) as Hs1.
  destruct (0 <? count - 1).
  - simpl. split; [exact Hs1|]. split; [exact Hc|exact Hp].
  - cbn [fst].
    set (s3 := with_store _ (with_store _ (with_countdownInterval None _))).
    assert (H3 : timers_struct (gameLoopInterval s3) (countdownInterval s3) None
                   (timers s3) (nextTimer s3) (cleared s3)).
    { unfold s3. simpl. rewrite Ecd. simpl.
      rewrite Ecd, Esc in Hs1. apply cleared_countdown in Hs1. exact Hs1. }
    assert (E3 : countdownInterval s3 = None) by reflexivity.
    assert (S3 : scoreUpdateInterval s3 = None) by (unfold s3; simpl; rewrite Ecd; simpl; exact Esc).
    assert (P3 : phase s3 = PLAYING) by reflexivity.
    clearbody s3.
    assert (H4 : let s4 := startGameLoop s3 in
                 timers_struct (gameLoopInterval s4) (countdownInterval s4) None
                   (timers s4) (nextTimer s4) (cleared s4)
                 /\ countdownInterval s4 = None /\ scoreUpdateInterval s4 = None
                 /\ phase s4 = PLAYING).
    { unfold startGameLoop. destruct (gameLoopInterval s3) as [g|] eqn:Eg; simpl.
      - rewrite ?Eg. auto.
      - split; [apply started_loop; exact H3|auto]. }
    cbv zeta in H4. destruct H4 as (H4 & E4 & S4 & P4).
    set (s4 := startGameLoop s3) in *. clearbody s4.
    unfold startScoreUpdates. rewrite S4. simpl.
    split; [|split].
    + apply started_score. exact H4.
    + rewrite E4. unfold phase in *. simpl. rewrite P4. split; [congruence|discriminate].
    + unfold phase in *. simpl. rewrite P4. split; [reflexivity|discriminate].
Qed.

Lemma timers_ok_reset rand s :
  timers_ok s -> phase s = ENDED ->
  timers_ok (with_store (resetGame rand (store s)) s).
Proof.
  intros (Hs & Hc & Hp) Hph. split; [exact Hs|]. simpl. unfold phase. simpl.
  split.
  - split; [|discriminate]. intros H. apply Hc in H. congruence.
  - split; [|discriminate]. intros H. apply Hp in H. congruence.
Qed.

Lemma GameState_eqb_eq a b : GameState_eqb a b = true <-> a = b.
Proof. destruct a, b; simpl; split; congruence. Qed.

Lemma gameState_createPlayer now r1 r2 id name st :
  gameState (snd (createPlayer now r1 r2 id name st)) = gameState st.
Proof.
  unfold createPlayer. cbv zeta. cbn [snd].
  match goal with |- context [if ?c then _ else _] => destruct c end; reflexivity.
Qed.

Lemma gameState_removePlayer id st :
  gameState (snd (removePlayer id st)) = gameState st.
Proof.
  unfold removePlayer. destruct (JsMap.get id (players st)); [|reflexivity].
  cbv zeta. cbn [snd].
  destruct (strict_eq _ id); [|reflexivity].
  destruct (0 <? _)%nat; [|reflexivity].
  destruct (sort_by_joinedAt _); reflexivity.
Qed.

Ltac view_ok :=
  repeat first
    [ assumption
    | apply timers_ok_with_previousWarningState
    | apply timers_ok_with_store; [reflexivity|] ].

Lemma timers_ok_gameLoopCallback clk s :
  timers_ok s -> timers_ok (fst (gameLoopCallback clk s)).
Proof.
  intros H. unfold gameLoopCallback, getGameState.
  destruct (GameState_eqb (gameState (store s)) PLAYING) eqn:Eph; [|exact H].
  apply GameState_eqb_eq in Eph.
  destruct (tickPlayers_frame clk (getPlatformRadius (store s))
              (getAlivePlayers (store s)) false (store s)
              [(ToAll, positionUpdate (getPositionSnapshot (tkPositions clk) (store s)))])
    as (extra & Hout & F & G).
  destruct (fold_left _ _ _) as [[any st1] out1]. simpl in Hout, G.
  apply globals_gameState in G.
  assert (H1 : timers_ok (with_store st1 s)).
  { apply timers_ok_with_store; [exact G|exact H]. }
  assert (P1 : phase (with_store st1 s) = PLAYING).
  { unfold phase. simpl. congruence. }
  set (s1 := with_store st1 s) in *. clearbody s1.
  destruct any.
  - destruct (List.length (getAlivePlayers (store s1)) <=? 1)%nat.
    + destruct (timers_ok_handleGameEnd (hd_error (getAlivePlayers (store s1))) s1 H1 P1)
        as (K1 & _ & _).
      destruct (handleGameEnd _ s1) as [s2 o2]. simpl in K1.
      destruct (warningChanged _ _);
        destruct (Qlt_bool _ _ && shouldShrinkPlatform _ _ _); simpl; view_ok.
    + destruct (warningChanged _ _);
        destruct (Qlt_bool _ _ && shouldShrinkPlatform _ _ _); simpl; view_ok.
  - destruct (warningChanged _ _);
      destruct (Qlt_bool _ _ && shouldShrinkPlatform _ _ _); simpl; view_ok.
Qed.

Lemma timers_ok_onKonamiCode sid clk s :
  timers_ok s -> timers_ok (fst (onKonamiCode sid clk s)).
Proof.
  intros H. unfold onKonamiCode, getGameState.
  destruct (GameState_eqb (gameState (store s)) PLAYING) eqn:Eph; simpl; [|exact H].
  apply GameState_eqb_eq in Eph.
  destruct (getPlayer sid (store s)) as [activator|]; [|exact H].
  destruct (Player.isEliminated activator); [exact H|].
  destruct (konamiPlayers_frame sid clk (getAlivePlayers (store s)) (store s) [])
    as (extra & Hout & F & G).
  destruct (fold_left _ _ _) as [st1 out1]. simpl in Hout, G.
  apply globals_gameState in G.
  assert (H1 : timers_ok (with_store st1 s)).
  { apply timers_ok_with_store; [exact G|exact H]. }
  assert (P1 : phase (with_store st1 s) = PLAYING).
  { unfold phase. simpl. congruence. }
  destruct (timers_ok_handleGameEnd (Some activator) _ H1 P1) as (K1 & _ & _).
  destruct (handleGameEnd _ _) as [s2 o2]. exact K1.
Qed.

Lemma timers_ok_onDisconnect sid s :
  timers_ok s -> timers_ok (fst (onDisconnect sid s)).
Proof.
  intros H. unfold onDisconnect, getGameState.
  pose proof (gameState_removePlayer sid (store s)) as G.
  destruct (removePlayer sid (store s)) as [[player|] st1]; [|exact H].
  simpl in G.
  assert (H1 : timers_ok (with_store st1 s)).
  { apply timers_ok_with_store; [exact G|exact H]. }
  set (s1 := with_store st1 s) in *.
  destruct (GameState_eqb (gameState (store s1)) PLAYING) eqn:Eph; [|exact H1].
  apply GameState_eqb_eq in Eph.
  destruct (List.length (getAlivePlayers (store s1)) <=? 1)%nat; [|exact H1].
  destruct (timers_ok_handleGameEnd (hd_error (getAlivePlayers (store s1))) s1 H1 Eph)
    as (K1 & _ & _).
  destruct (handleGameEnd _ s1) as [s2 o2]. exact K1.
Qed.

(** The timer discipline is an invariant of the event loop. *)
Lemma timers_ok_step e s : timers_ok s -> timers_ok (fst (step e s)).
Proof.
  intros H. destruct e; cbn [step].
  - exact H.
  - unfold onJoin. destruct (PLAYERS.MAX_PLAYERS <=? _)%nat; [exact H|].
    pose proof (gameState_createPlayer now r1 r2 sid name (store s)) as G.
    destruct (createPlayer now r1 r2 sid name (store s)) as [player st1].
    simpl in G. cbn [fst].
    apply timers_ok_startGameLoop. apply timers_ok_with_store; assumption.
  - unfold onInput. destruct (negb _); [exact H|].
    destruct (getPlayer sid (store s)) as [p|]; [|exact H].
    destruct (negb _); [|exact H]. cbn [fst].
    apply timers_ok_with_store; [|exact H].
    apply globals_gameState, globals_updatePlayerPosition.
  - unfold onCollision. destruct (negb _); [exact H|].
    destruct (getPlayer sid (store s)) as [p|]; [|exact H].
    destruct (getPlayer otherPlayerId (store s)) as [q|]; [|exact H].
    destruct (negb _ && negb _); [|exact H]. cbn [fst].
    apply timers_ok_with_store; [|exact H].
    apply globals_gameState, globals_recordCollision.
  - unfold onStartGame. destruct (negb (isHost sid (store s))); [exact H|].
    destruct (GameState_eqb (getGameState (store s)) LOBBY) eqn:Eph; simpl; [|exact H].
    apply GameState_eqb_eq in Eph.
    destruct (List.length _ <? 1)%nat; [exact H|].
    apply timers_ok_startCountdown; assumption.
  - unfold onReady. cbn [fst]. apply timers_ok_with_store; [|exact H].
    apply globals_gameState, globals_setPlayerReady.
  - apply timers_ok_onKonamiCode. exact H.
  - unfold onPlayAgain. destruct (negb (isHost sid (store s))); [exact H|].
    destruct (GameState_eqb (getGameState (store s)) ENDED) eqn:Eph; simpl; [|exact H].
    apply GameState_eqb_eq in Eph.
    apply timers_ok_with_previousWarningState. apply timers_ok_reset; assumption.
  - apply timers_ok_onDisconnect. exact H.
  - destruct (callbackOf h (timers s)) as [[| |]|]; try exact H.
    apply timers_ok_gameLoopCallback. exact H.
  - destruct (callbackOf h (timers s)) as [[| |]|]; try exact H.
    unfold scoreCallback. destruct (GameState_eqb _ PLAYING); [|exact H].
    pose proof (globals_getScoreSnapshot clk (store s)) as G.
    destruct (getScoreSnapshot clk (store s)) as [scores st1]. simpl in G. cbn [fst].
    apply timers_ok_with_store; [|exact H]. apply globals_gameState. exact G.
  - destruct (callbackOf h (timers s)) as [[| |count]|] eqn:E; try exact H.
    apply timers_ok_countdownCallback; assumption.
Qed.

Lemma run_app es1 es2 s :
  fst (run (es1 ++ es2) s) = fst (run es2 (fst (run es1 s))).
Proof.
  revert s. induction es1 as [|e es1 IH]; intros s; simpl; [reflexivity|].
  destruct (step e s) as [s1 o1]. specialize (IH s1).
  destruct (run (es1 ++ es2) s1) as [s2 o2].
  destruct (run es1 s1) as [s3 o3]. simpl in *. exact IH.
Qed.

Lemma timers_ok_run es s : timers_ok s -> timers_ok (fst (run es s)).
Proof.
  revert s. induction es as [|e es IH]; intros s H; simpl; [exact H|].
  pose proof (timers_ok_step e s H) as H1.
  destruct (step e s) as [s1 o1]. specialize (IH s1 H1).
  destruct (run es s1) as [s2 o2]. exact IH.
Qed.

Lemma timers_ok_reachable s : reachable s -> timers_ok s.
Proof. intros [es <-]. apply timers_ok_run, timers_ok_initial. Qed.

(** *** No shrink warning at the minimum radius (C10, broadcasts) *)

(** A broadcast that is not a shrink warning switched on. *)
Definition quiet (m : Target * Message) : Prop :=
  match snd m with
  | platformWarning w _ _ => w = false
  | _ => True
  end.

Lemma notices_quiet l : Forall isEliminationNotice l -> Forall quiet l.
Proof.
  apply Forall_impl. intros [t m]. unfold isEliminationNotice, quiet. simpl.
  destruct m; auto; intros [].
Qed.

Lemma handleGameEnd_quiet winner s :
  Forall quiet (snd (handleGameEnd winner s))
  /\ platformRadius (store (fst (handleGameEnd winner s))) = platformRadius (store s).
Proof.
  unfold handleGameEnd.
  destruct (GameState_eqb _ ENDED); [split; [constructor|reflexivity]|].
  destruct (scoreUpdateInterval _); destruct winner; simpl;
    (split; [repeat constructor|reflexivity]).
Qed.

Lemma gameLoopCallback_quiet clk s :
  (platformRadius (store s) <= PLATFORM.MIN_RADIUS)%Q ->
  Forall quiet (snd (gameLoopCallback clk s)).
Proof.
  intros Hr. unfold gameLoopCallback, getGameState.
  destruct (GameState_eqb (gameState (store s)) PLAYING); [|constructor].
  destruct (tickPlayers_frame clk (getPlatformRadius (store s))
              (getAlivePlayers (store s)) false (store s)
              [(ToAll, positionUpdate (getPositionSnapshot (tkPositions clk) (store s)))])
    as (extra & Hout & F & G).
  destruct (fold_left _ _ _) as [[any st1] out1]. simpl in Hout, G.
  apply globals_platformRadius in G.
  assert (Q1 : Forall quiet out1).
  { subst out1. constructor; [exact I|]. apply notices_quiet. exact F. }
  assert (R1 : platformRadius (store (with_store st1 s)) = platformRadius (store s))
    by exact G.
  set (s1 := with_store st1 s) in *. clearbody s1.
  assert (H2 : forall s2 out2,
             Forall quiet out2 ->
             platformRadius (store s2) = platformRadius (store s) ->
             Forall quiet
               (snd
                  (let warningState :=
                     getShrinkWarningState (tkWarning clk) PLATFORM.SHRINK_INTERVAL
                       PLATFORM.SHRINK_WARNING_TIME (store s2) in
                   let (s3, out3) :=
                     if warningChanged (previousWarningState s2) warningState then
                       (with_previousWarningState
                          {| isWarning := isWarning warningState;
                             warningProgress := warningProgress warningState |} s2,
                        out2 ++ [(ToAll, platformWarning (isWarning warningState)
                                           (warningProgress warningState)
                                           (getPlatformRadius (store s)))])
                     else (s2, out2) in
                   if Qlt_bool PLATFORM.MIN_RADIUS (getPlatformRadius (store s))
                      && shouldShrinkPlatform (tkShouldShrink clk)
                           PLATFORM.SHRINK_INTERVAL (store s3)
                   then
                     let newRadius :=
                       (getPlatformRadius (store s) - PLATFORM.SHRINK_AMOUNT)%Q in
                     let s4 :=
                       with_store (shrinkPlatform (tkShrink clk) newRadius (store s3)) s3 in
                     (s4, out3 ++ [(ToAll, platformShrink (getPlatformRadius (store s4)))])
                   else (s3, out3)))).
  { intros s2 out2 Q2 R2. cbv zeta.
    rewrite getShrinkWarningState_minimum by (right; rewrite R2; exact Hr).
    destruct (warningChanged _ _);
      destruct (Qlt_bool _ _ && shouldShrinkPlatform _ _ _); simpl;
      repeat (apply Forall_app; split); auto; repeat constructor. }
  destruct any.
  - destruct (List.length (getAlivePlayers (store s1)) <=? 1)%nat.
    + destruct (handleGameEnd_quiet (hd_error (getAlivePlayers (store s1))) s1)
        as [Q3 R3].
      destruct (handleGameEnd _ s1) as [s2 o2]. simpl in Q3, R3.
      apply H2; [apply Forall_app; auto|congruence].
    + apply H2; assumption.
  - apply H2; assumption.
Qed.

Lemma step_quiet e s :
  (platformRadius (store s) <= PLATFORM.MIN_RADIUS)%Q ->
  Forall quiet (snd (step e s)).
Proof.
  intros Hr. destruct e; cbn [step].
  - repeat constructor.
  - unfold onJoin. destruct (PLAYERS.MAX_PLAYERS <=? _)%nat; [repeat constructor|].
    destruct (createPlayer _ _ _ _ _ _). repeat constructor.
  - unfold onInput. destruct (negb _); [constructor|].
    destruct (getPlayer _ _); [|constructor]. destruct (negb _); constructor.
  - unfold onCollision. destruct (negb _); [constructor|].
    destruct (getPlayer sid _); [|constructor].
    destruct (getPlayer otherPlayerId _); [|constructor].
    destruct (negb _ && negb _); constructor.
  - unfold onStartGame. destruct (negb (isHost _ _)); [constructor|].
    destruct (negb _); [constructor|].
    destruct (List.length _ <? 1)%nat; repeat constructor.
  - repeat constructor.
  - unfold onKonamiCode. destruct (negb _); [constructor|].
    destruct (getPlayer _ _) as [activator|]; [|constructor].
    destruct (Player.isEliminated activator); [constructor|].
    destruct (konamiPlayers_frame sid clk (getAlivePlayers (store s)) (store s) [])
      as (extra & Hout & F & G).
    destruct (fold_left _ _ _) as [st1 out1]. simpl in Hout, G. subst out1.
    destruct (handleGameEnd_quiet (Some activator) (with_store st1 s)) as [Q3 _].
    destruct (handleGameEnd _ _) as [s2 o2]. simpl in *.
    repeat (apply Forall_app; split); auto; [apply notices_quiet; exact F|].
    repeat constructor.
  - unfold onPlayAgain. destruct (negb (isHost _ _)); [constructor|].
    destruct (negb _); repeat constructor.
  - unfold onDisconnect.
    destruct (removePlayer sid (store s)) as [[player|] st1]; [|constructor].
    destruct (GameState_eqb _ PLAYING); [|repeat constructor].
    destruct (List.length _ <=? 1)%nat; [|repeat constructor].
    destruct (handleGameEnd_quiet (hd_error (getAlivePlayers (store (with_store st1 s))))
                (with_store st1 s)) as [Q3 _].
    destruct (handleGameEnd _ _) as [s2 o2]. simpl in *.
    repeat constructor. exact Q3.
  - destruct (callbackOf h (timers s)) as [[| |]|]; try constructor.
    apply gameLoopCallback_quiet. exact Hr.
  - destruct (callbackOf h (timers s)) as [[| |]|]; try constructor.
    unfold scoreCallback. destruct (GameState_eqb _ PLAYING); [|constructor].
    destruct (getScoreSnapshot _ _). repeat constructor.
  - destruct (callbackOf h (timers s)) as [[| |count]|]; try constructor.
    unfold countdownCallback. destruct (0 <? count - 1); repeat constructor.
Qed.

(** C10.  While the platform radius is at or below [MIN_RADIUS] (4), or
    while there is no [lastShrinkTime], [getShrinkWarningState] returns
    [isWarning = false] and [warningProgress = 0]; and in a state whose
    radius is at or below the minimum no event of the server broadcasts a
    [platformWarning] with [isWarning] set. *)
Theorem shrink_warning_silent_at_minimum :
  (forall (now shrinkInterval warningTime : Z) (st : Store),
      lastShrinkTime st = None \/ (platformRadius st <= PLATFORM.MIN_RADIUS)%Q ->
      getShrinkWarningState now shrinkInterval warningTime st
      = {| isWarning := false; warningProgress := 0%Q |})
  /\ (forall (e : Event) (s : Server) (t : Target) (w : bool) (progress radius : Q),
        (platformRadius (store s) <= PLATFORM.MIN_RADIUS)%Q ->
        In (t, platformWarning w progress radius) (snd (step e s)) ->
        w = false)
  /\ PLATFORM.MIN_RADIUS = 4%Q.
Proof.
  split; [exact getShrinkWarningState_minimum|]. split; [|reflexivity].
  intros e s t w progress radius Hr Hin.
  pose proof (step_quiet e s Hr) as HQ.
  rewrite Forall_forall in HQ. exact (HQ _ Hin).
Qed.

(** *** The game-loop interval is never cleared *)

Lemma gameLoopInterval_handleGameEnd winner s :
  gameLoopInterval (fst (handleGameEnd winner s)) = gameLoopInterval s.
Proof.
  unfold handleGameEnd. destruct (GameState_eqb _ ENDED); [reflexivity|].
  destruct (scoreUpdateInterval _); destruct winner; reflexivity.
Qed.

Lemma gameLoopInterval_startGameLoop s h :
  gameLoopInterval s = Some h -> gameLoopInterval (startGameLoop s) = Some h.
Proof. intros H. unfold startGameLoop. rewrite H. exact H. Qed.

Lemma gameLoopInterval_startScoreUpdates s :
  gameLoopInterval (startScoreUpdates s) = gameLoopInterval s.
Proof. unfold startScoreUpdates. destruct (scoreUpdateInterval s); reflexivity. Qed.

Lemma gameLoopInterval_gameLoopCallback clk s :
  gameLoopInterval (fst (gameLoopCallback clk s)) = gameLoopInterval s.
Proof.
  unfold gameLoopCallback.
  destruct (GameState_eqb _ PLAYING); [|reflexivity].
  destruct (fold_left _ _ _) as [[any st1] out1].
  destruct any.
  - destruct (List.length _ <=? 1)%nat.
    + pose proof (gameLoopInterval_handleGameEnd
                    (hd_error (getAlivePlayers (store (with_store st1 s))))
                    (with_store st1 s)) as K.
      destruct (handleGameEnd _ _) as [s2 o2]. simpl in K.
      destruct (warningChanged _ _);
        destruct (Qlt_bool _ _ && shouldShrinkPlatform _ _ _); simpl; exact K.
    + destruct (warningChanged _ _);
        destruct (Qlt_bool _ _ && shouldShrinkPlatform _ _ _); reflexivity.
  - destruct (warningChanged _ _);
      destruct (Qlt_bool _ _ && shouldShrinkPlatform _ _ _); reflexivity.
Qed.

Lemma gameLoopInterval_step e s h :
  gameLoopInterval s = Some h -> gameLoopInterval (fst (step e s)) = Some h.
Proof.
  intros H. destruct e; cbn [step].
  - exact H.
  - unfold onJoin. destruct (PLAYERS.MAX_PLAYERS <=? _)%nat; [exact H|].
    destruct (createPlayer _ _ _ _ _ _) as [player st1]. cbn [fst].
    apply gameLoopInterval_startGameLoop. exact H.
  - unfold onInput. destruct (negb _); [exact H|].
    destruct (getPlayer _ _); [|exact H]. destruct (negb _); exact H.
  - unfold onCollision. destruct (negb _); [exact H|].
    destruct (getPlayer sid _); [|exact H].
    destruct (getPlayer otherPlayerId _); [|exact H].
    destruct (negb _ && negb _); exact H.
  - unfold onStartGame. destruct (negb (isHost _ _)); [exact H|].
    destruct (negb _); [exact H|].
    destruct (List.length _ <? 1)%nat; exact H.
  - exact H.
  - unfold onKonamiCode. destruct (negb _); [exact H|].
    destruct (getPlayer _ _) as [activator|]; [|exact H].
    destruct (Player.isEliminated activator); [exact H|].
    destruct (fold_left _ _ _) as [st1 out1].
    pose proof (gameLoopInterval_handleGameEnd (Some activator) (with_store st1 s)) as K.
    destruct (handleGameEnd _ _) as [s2 o2]. simpl in *. congruence.
  - unfold onPlayAgain. destruct (negb (isHost _ _)); [exact H|].
    destruct (negb _); exact H.
  - unfold onDisconnect.
    destruct (removePlayer sid (store s)) as [[player|] st1]; [|exact H].
    destruct (GameState_eqb _ PLAYING); [|exact H].
    destruct (List.length _ <=? 1)%nat; [|exact H].
    pose proof (gameLoopInterval_handleGameEnd
                  (hd_error (getAlivePlayers (store (with_store st1 s))))
                  (with_store st1 s)) as K.
    destruct (handleGameEnd _ _) as [s2 o2]. simpl in *. congruence.
  - destruct (callbackOf h0 (timers s)) as [[| |]|]; try exact H.
    rewrite gameLoopInterval_gameLoopCallback. exact H.
  - destruct (callbackOf h0 (timers s)) as [[| |]|]; try exact H.
    unfold scoreCallback. destruct (GameState_eqb _ PLAYING); [|exact H].
    destruct (getScoreSnapshot _ _). exact H.
  - destruct (callbackOf h0 (timers s)) as [[| |count]|]; try exact H.
    unfold countdownCallback. destruct (0 <? count - 1); [exact H|].
    cbn [fst]. rewrite gameLoopInterval_startScoreUpdates.
    apply gameLoopInterval_startGameLoop. simpl.
    destruct (countdownInterval s); exact H.
Qed.

Lemma gameLoopInterval_run es s h :
  gameLoopInterval s = Some h -> gameLoopInterval (fst (run es s)) = Some h.
Proof.
  revert s. induction es as [|e es IH]; intros s H; simpl; [exact H|].
  pose proof (gameLoopInterval_step e s h H) as H1.
  destruct (step e s) as [s1 o1]. specialize (IH s1 H1).
  destruct (run es s1) as [s2 o2]. exact IH.
Qed.

Lemma reachable_run es s : reachable s -> reachable (fst (run es s)).
Proof.
  intros [es0 <-]. exists (es0 ++ es). apply run_app.
Qed.

(** C9, as the code has it.  In every reachable state of the server: each
    interval that was started is either still active or was cleared, exactly
    once; a countdown interval is active only in phase [COUNTDOWN] and a
    score interval only in phase [PLAYING], so neither runs after the match
    has ended or the round was reset; [handleGameEnd] ends a running match
    with the score interval cleared; the game-loop interval, once started,
    is never cleared — it stays active and in [gameLoopInterval] whatever
    events follow — and its callback does nothing unless the phase is
    [PLAYING]. *)
Theorem timers_discipline (s : Server) :
  reachable s ->
  NoDup (cleared s)
  /\ (forall h, (1 <= h < nextTimer s)%nat ->
        (callbackOf h (timers s) <> None /\ ~ In h (cleared s))
        \/ (callbackOf h (timers s) = None /\ In h (cleared s)))
  /\ (forall h c, callbackOf h (timers s) = Some (CountdownCallback c) ->
        phase s = COUNTDOWN /\ countdownInterval s = Some h)
  /\ (forall h, callbackOf h (timers s) = Some ScoreCallback ->
        phase s = PLAYING /\ scoreUpdateInterval s = Some h)
  /\ (forall winner, phase s = PLAYING ->
        let s' := fst (handleGameEnd winner s) in
        phase s' = ENDED
        /\ scoreUpdateInterval s' = None
        /\ forall h, callbackOf h (timers s') <> Some ScoreCallback)
  /\ (forall h es, gameLoopInterval s = Some h ->
        let s' := fst (run es s) in
        gameLoopInterval s' = Some h
        /\ callbackOf h (timers s') = Some GameLoopCallback
        /\ ~ In h (cleared s'))
  /\ (forall h clk, phase s <> PLAYING -> step (GameLoopFires h clk) s = (s, [])).
Proof.
  intros Hreach. pose proof (timers_ok_reachable s Hreach) as (Hs & Hc & Hp).
  split; [exact (ok_once _ _ _ _ _ _ Hs)|].
  split; [|split; [|split; [|split; [|split]]]].
  - intros h Hr. destruct (ok_total _ _ _ _ _ _ Hs h Hr) as [Ha | Hin].
    + left. split; [exact Ha|]. intros Hin.
      destruct (ok_cleared _ _ _ _ _ _ Hs h Hin) as [_ Hn]. contradiction.
    + right. split; [|exact Hin].
      exact (proj2 (ok_cleared _ _ _ _ _ _ Hs h Hin)).
  - intros h c Hcb.
    assert (E : countdownInterval s = Some h).
    { apply (ok_countdown _ _ _ _ _ _ Hs). eauto. }
    split; [apply Hc; congruence|exact E].
  - intros h Hcb.
    assert (E : scoreUpdateInterval s = Some h).
    { apply (ok_score _ _ _ _ _ _ Hs). exact Hcb. }
    split; [apply Hp; congruence|exact E].
  - intros winner Hph s'.
    destruct (timers_ok_handleGameEnd winner s (conj Hs (conj Hc Hp)) Hph)
      as ((Hs' & _ & _) & Hph' & Hsc').
    fold s' in Hs', Hph', Hsc'. split; [exact Hph'|]. split; [exact Hsc'|].
    intros h Hcb. apply (ok_score _ _ _ _ _ _ Hs') in Hcb. congruence.
  - intros h es Hl s'.
    pose proof (gameLoopInterval_run es s h Hl) as Hl'. fold s' in Hl'.
    pose proof (timers_ok_reachable s' (reachable_run es s Hreach)) as (Hs' & _ & _).
    split; [exact Hl'|].
    pose proof (proj1 (ok_loop _ _ _ _ _ _ Hs' h) Hl') as Hcb.
    split; [exact Hcb|]. intros Hin.
    destruct (ok_cleared _ _ _ _ _ _ Hs' h Hin) as [_ Hn]. congruence.
  - intros h clk Hph. cbn [step].
    destruct (callbackOf h (timers s)) as [[| |]|]; try reflexivity.
    unfold gameLoopCallback, getGameState.
    destruct (GameState_eqb (gameState (store s)) PLAYING) eqn:E; [|reflexivity].
    apply GameState_eqb_eq in E. contradiction.
Qed.

(** *** Every event acts on the store through the store's functions *)

Definition applyOps (ops : list StoreOp) (st : Store) : Store :=
  List.fold_left (fun st op => applyOp op st) ops st.

Lemma applyOps_app ops1 ops2 st :
  applyOps (ops1 ++ ops2) st = applyOps ops2 (applyOps ops1 st).
Proof. unfold applyOps. apply fold_left_app. Qed.

(** The events that reset the round, and those that replace or remove the
    record under [id]. *)
Definition eventResets (e : Event) : bool :=
  match e with
  | PlayAgain _ _ _ => true
  | _ => false
  end.

Definition eventReplaces (e : Event) (id : string) : bool :=
  match e with
  | Join sid _ _ _ _ _ => (sid =? id)%string
  | Disconnect sid => (sid =? id)%string
  | _ => false
  end.

Definition plain (op : StoreOp) : Prop :=
  isReset op = false /\ forall id, replacesRecord op id = false.

Definition permitted (e : Event) (op : StoreOp) : Prop :=
  (isReset op = true -> eventResets e = true)
  /\ (forall id, replacesRecord op id = true -> eventReplaces e id = true).

Lemma plain_permitted e op : plain op -> permitted e op.
Proof.
  intros [H1 H2]. split.
  - intros H. congruence.
  - intros id H. rewrite H2 in H. discriminate.
Qed.

Lemma plain_all_permitted e ops : Forall plain ops -> Forall (permitted e) ops.
Proof. apply Forall_impl. intros op. apply plain_permitted. Qed.

Ltac plain_ops :=
  repeat (constructor; [split; [reflexivity | intros ?; reflexivity]|]);
  try constructor.

Lemma handleGameEnd_ops winner s :
  exists ops,
    store (fst (handleGameEnd winner s)) = applyOps ops (store s) /\ Forall plain ops.
Proof.
  unfold handleGameEnd.
  destruct (GameState_eqb _ ENDED).
  - exists []. split; [reflexivity|constructor].
  - exists [OpSetGameState 0 ENDED]. split; [|plain_ops].
    destruct (scoreUpdateInterval _); destruct winner; reflexivity.
Qed.

Lemma tickPlayer_ops clk radius any st out player :
  exists ops,
    snd (fst (tickPlayer clk radius (any, st, out) player)) = applyOps ops st
    /\ Forall plain ops.
Proof.
  unfold tickPlayer.
  set (id := Player.id player).
  destruct (updateBoundaryStatus (tkBoundary clk id) id radius st) as [should st1] eqn:E1.
  assert (A1 : st1 = applyOp (OpUpdateBoundaryStatus (tkBoundary clk id) id radius) st)
    by (simpl; rewrite E1; reflexivity).
  assert (H2 : exists any1 st2 out1 ops,
             (if should then
                match eliminatePlayerWithAttribution (tkElimBoundary clk id) id
                        "boundary" st1 with
                | (Some info, st2) => (true, st2, out ++ [eliminationMessage info])
                | (None, st2) => (any, st2, out)
                end
              else (any, st1, out)) = (any1, st2, out1)
             /\ st2 = applyOps ops st /\ Forall plain ops).
  { destruct should.
    - destruct (eliminatePlayerWithAttribution (tkElimBoundary clk id) id "boundary" st1)
        as [[info|] st2] eqn:E2;
        do 3 eexists;
        exists [OpUpdateBoundaryStatus (tkBoundary clk id) id radius;
                OpEliminatePlayerWithAttribution (tkElimBoundary clk id) id "boundary"];
        (split; [reflexivity|]); (split; [|plain_ops]);
        simpl; rewrite E1; simpl; rewrite E2; reflexivity.
    - do 3 eexists. exists [OpUpdateBoundaryStatus (tkBoundary clk id) id radius].
      split; [reflexivity|]. split; [exact A1|plain_ops]. }
  destruct H2 as (any1 & st2 & out1 & ops & -> & A2 & P2).
  destruct (Qlt_bool _ SERVER.FALL_THRESHOLD).
  - destruct (eliminatePlayerWithAttribution (tkElimPushed clk id) id "pushed" st2)
      as [[info|] st3] eqn:E3;
      exists (ops ++ [OpEliminatePlayerWithAttribution (tkElimPushed clk id) id "pushed"]);
      (split; [|apply Forall_app; split; [exact P2|plain_ops]]);
      rewrite applyOps_app, <- A2; simpl; rewrite E3; reflexivity.
  - exists ops. split; [exact A2|exact P2].
Qed.

Lemma tickPlayers_ops clk radius l any st out :
  exists ops,
    snd (fst (fold_left (tickPlayer clk radius) l (any, st, out))) = applyOps ops st
    /\ Forall plain ops.
Proof.
  revert any st out. induction l as [|p l IH]; intros any st out; cbn [fold_left].
  - exists []. split; [reflexivity|constructor].
  - destruct (tickPlayer_ops clk radius any st out p) as (ops1 & A1 & P1).
    destruct (tickPlayer clk radius (any, st, out) p) as [[any1 st1] out1].
    simpl in A1. subst st1.
    destruct (IH any1 (applyOps ops1 st) out1) as (ops2 & A2 & P2).
    exists (ops1 ++ ops2). rewrite applyOps_app.
    split; [exact A2|apply Forall_app; auto].
Qed.

Lemma konamiPlayers_ops sid clk l st out :
  exists ops,
    fst (fold_left (konamiPlayer sid clk) l (st, out)) = applyOps ops st
    /\ Forall plain ops.
Proof.
  revert st out. induction l as [|p l IH]; intros st out; cbn [fold_left].
  - exists []. split; [reflexivity|constructor].
  - assert (H1 : exists ops1,
               fst (konamiPlayer sid clk (st, out) p) = applyOps ops1 st
               /\ Forall plain ops1).
    { unfold konamiPlayer. destruct (negb (Player.id p =? sid)%string).
      - exists [OpEliminatePlayer (clk (Player.id p)) (Player.id p)].
        split; [|plain_ops]. simpl.
        destruct (eliminatePlayer (clk (Player.id p)) (Player.id p) st). reflexivity.
      - exists []. split; [reflexivity|constructor]. }
    destruct H1 as (ops1 & A1 & P1).
    destruct (konamiPlayer sid clk (st, out) p) as [st1 out1].
    simpl in A1. subst st1.
    destruct (IH (applyOps ops1 st) out1) as (ops2 & A2 & P2).
    exists (ops1 ++ ops2). rewrite applyOps_app.
    split; [exact A2|apply Forall_app; auto].
Qed.

Lemma gameLoopCallback_ops clk s :
  exists ops,
    store (fst (gameLoopCallback clk s)) = applyOps ops (store s) /\ Forall plain ops.
Proof.
  unfold gameLoopCallback.
  destruct (GameState_eqb _ PLAYING); [|exists []; split; [reflexivity|constructor]].
  destruct (tickPlayers_ops clk (getPlatformRadius (store s))
              (getAlivePlayers (store s)) false (store s)
              [(ToAll, positionUpdate (getPositionSnapshot (tkPositions clk) (store s)))])
    as (ops1 & A1 & P1).
  destruct (fold_left _ _ _) as [[any st1] out1]. simpl in A1.
  assert (H2 : forall s2 out2 ops2,
             store s2 = applyOps ops2 (store s) -> Forall plain ops2 ->
             exists ops,
               store
                 (fst
                    (let warningState :=
                       getShrinkWarningState (tkWarning clk) PLATFORM.SHRINK_INTERVAL
                         PLATFORM.SHRINK_WARNING_TIME (store s2) in
                     let (s3, out3) :=
                       if warningChanged (previousWarningState s2) warningState then
                         (with_previousWarningState
                            {| isWarning := isWarning warningState;
                               warningProgress := warningProgress warningState |} s2,
                          out2 ++ [(ToAll, platformWarning (isWarning warningState)
                                             (warningProgress warningState)
                                             (getPlatformRadius (store s)))])
                       else (s2, out2) in
                     if Qlt_bool PLATFORM.MIN_RADIUS (getPlatformRadius (store s))
                        && shouldShrinkPlatform (tkShouldShrink clk)
                             PLATFORM.SHRINK_INTERVAL (store s3)
                     then
                       let newRadius :=
                         (getPlatformRadius (store s) - PLATFORM.SHRINK_AMOUNT)%Q in
                       let s4 :=
                         with_store (shrinkPlatform (tkShrink clk) newRadius (store s3)) s3 in
                       (s4, out3 ++ [(ToAll, platformShrink (getPlatformRadius (store s4)))])
                     else (s3, out3)))
               = applyOps ops (store s)
               /\ Forall plain ops).
  { intros s2 out2 ops2 A2 P2. cbv zeta.
    destruct (warningChanged _ _);
      destruct (Qlt_bool _ _ && shouldShrinkPlatform _ _ _); cbn [fst store with_store
        with_previousWarningState];
      try (exists ops2; split; [exact A2|exact P2]);
      (eexists (ops2 ++ [OpShrinkPlatform _ _]); rewrite applyOps_app, <- A2;
       split; [reflexivity|apply Forall_app; split; [exact P2|plain_ops]]). }
  destruct any.
  - destruct (List.length (getAlivePlayers (store (with_store st1 s))) <=? 1)%nat.
    + destruct (handleGameEnd_ops (hd_error (getAlivePlayers (store (with_store st1 s))))
                  (with_store st1 s)) as (ops3 & A3 & P3).
      destruct (handleGameEnd _ (with_store st1 s)) as [s2 o2]. simpl in A3.
      apply (H2 s2 _ (ops1 ++ ops3)).
      * rewrite applyOps_app, <- A1. exact A3.
      * apply Forall_app; auto.
    + apply (H2 _ _ ops1); assumption.
  - apply (H2 _ _ ops1); assumption.
Qed.

Lemma store_startGameLoop s : store (startGameLoop s) = store s.
Proof. unfold startGameLoop. destruct (gameLoopInterval s); reflexivity. Qed.

Lemma store_startScoreUpdates s : store (startScoreUpdates s) = store s.
Proof. unfold startScoreUpdates. destruct (scoreUpdateInterval s); reflexivity. Qed.

Lemma store_clearInterval h s : store (clearInterval h s) = store s.
Proof. destruct h; reflexivity. Qed.

Lemma step_ops e s :
  exists ops,
    store (fst (step e s)) = applyOps ops (store s) /\ Forall (permitted e) ops.
Proof.
  assert (Hnil : forall e', exists ops,
             store s = applyOps ops (store s) /\ Forall (permitted e') ops).
  { intros e'. exists []. split; [reflexivity|constructor]. }
  destruct e; cbn [step].
  - apply Hnil.
  - unfold onJoin. destruct (PLAYERS.MAX_PLAYERS <=? _)%nat; [apply Hnil|].
    exists [OpCreatePlayer now r1 r2 sid name]. split.
    + simpl. destruct (createPlayer now r1 r2 sid name (store s)) as [player st1].
      cbn [fst snd]. unfold startGameLoop.
      destruct (gameLoopInterval _); reflexivity.
    + constructor; [|constructor]. split; [discriminate|]. intros id H. exact H.
  - unfold onInput. destruct (negb _); [apply Hnil|].
    destruct (getPlayer _ _); [|apply Hnil]. destruct (negb _); [|apply Hnil].
    exists [OpUpdatePlayerPosition now sid position velocity].
    split; [reflexivity|apply plain_all_permitted; plain_ops].
  - unfold onCollision. destruct (negb _); [apply Hnil|].
    destruct (getPlayer sid _); [|apply Hnil].
    destruct (getPlayer otherPlayerId _); [|apply Hnil].
    destruct (negb _ && negb _); [|apply Hnil].
    exists [OpRecordCollision now otherPlayerId sid].
    split; [reflexivity|apply plain_all_permitted; plain_ops].
  - unfold onStartGame. destruct (negb (isHost _ _)); [apply Hnil|].
    destruct (negb _); [apply Hnil|].
    destruct (List.length _ <? 1)%nat; [apply Hnil|].
    exists [OpSetGameState 0 COUNTDOWN].
    split; [reflexivity|apply plain_all_permitted; plain_ops].
  - exists [OpSetPlayerReady sid ready].
    split; [reflexivity|apply plain_all_permitted; plain_ops].
  - unfold onKonamiCode. destruct (negb _); [apply Hnil|].
    destruct (getPlayer _ _) as [activator|]; [|apply Hnil].
    destruct (Player.isEliminated activator); [apply Hnil|].
    destruct (konamiPlayers_ops sid clk (getAlivePlayers (store s)) (store s) [])
      as (ops1 & A1 & P1).
    destruct (fold_left _ _ _) as [st1 out1]. simpl in A1.
    destruct (handleGameEnd_ops (Some activator) (with_store st1 s)) as (ops2 & A2 & P2).
    destruct (handleGameEnd _ _) as [s2 o2]. simpl in *.
    exists (ops1 ++ ops2). rewrite applyOps_app, <- A1.
    split; [exact A2|apply plain_all_permitted, Forall_app; auto].
  - unfold onPlayAgain. destruct (negb (isHost _ _)); [apply Hnil|].
    destruct (negb _); [apply Hnil|].
    exists [OpResetGame rand]. split; [reflexivity|].
    constructor; [|constructor]. split; [reflexivity|]. intros id H. discriminate H.
  - unfold onDisconnect.
    destruct (removePlayer sid (store s)) as [[player|] st1] eqn:E; [|apply Hnil].
    assert (A1 : st1 = applyOps [OpRemovePlayer sid] (store s))
      by (simpl; rewrite E; reflexivity).
    assert (P1 : Forall (permitted (Disconnect sid)) [OpRemovePlayer sid]).
    { constructor; [|constructor]. split; [discriminate|]. intros id H. exact H. }
    destruct (GameState_eqb _ PLAYING); [|exists [OpRemovePlayer sid]; auto].
    destruct (List.length _ <=? 1)%nat; [|exists [OpRemovePlayer sid]; auto].
    destruct (handleGameEnd_ops (hd_error (getAlivePlayers (store (with_store st1 s))))
                (with_store st1 s)) as (ops2 & A2 & P2).
    destruct (handleGameEnd _ _) as [s2 o2]. simpl in *.
    exists ([OpRemovePlayer sid] ++ ops2). rewrite applyOps_app.
    split; [rewrite A2, A1; reflexivity|].
    apply Forall_app. split; [exact P1|apply plain_all_permitted; exact P2].
  - destruct (callbackOf h (timers s)) as [[| |]|]; try apply Hnil.
    destruct (gameLoopCallback_ops clk s) as (ops & A & P).
    exists ops. split; [exact A|apply plain_all_permitted; exact P].
  - destruct (callbackOf h (timers s)) as [[| |]|]; try apply Hnil.
    unfold scoreCallback. destruct (GameState_eqb _ PLAYING); [|apply Hnil].
    exists [OpGetScoreSnapshot clk]. split; [|apply plain_all_permitted; plain_ops].
    simpl. destruct (getScoreSnapshot clk (store s)). reflexivity.
  - destruct (callbackOf h (timers s)) as [[| |count]|]; try apply Hnil.
    unfold countdownCallback. destruct (0 <? count - 1); [apply Hnil|].
    exists [OpSetGameState nowState PLAYING; OpInitializeGameTimes nowTimes].
    split; [|apply plain_all_permitted; plain_ops].
    cbn [fst]. rewrite store_startScoreUpdates, store_startGameLoop.
    cbn [store with_store with_countdownInterval].
    rewrite store_clearInterval. reflexivity.
Qed.

Lemma applyOps_terminal (ops : list StoreOp) (st : Store) (id : string) (p : Player.t) :
  Forall (fun op => isReset op = false /\ replacesRecord op id = false) ops ->
  JsMap.get id (players st) = Some p ->
  exists p', JsMap.get id (players (applyOps ops st)) = Some p' /\ terminal p p'.
Proof.
  intros Hops. revert st p. induction Hops as [|op ops [Hr Hp] _ IH]; intros st p Hget.
  - exists p. split; [exact Hget|apply terminal_refl].
  - destruct (applyOp_terminal op st id p Hget Hr Hp) as (p1 & G1 & T1).
    destruct (IH (applyOp op st) p1 G1) as (p2 & G2 & T2).
    exists p2. split; [exact G2|]. exact (terminal_trans _ _ _ T1 T2).
Qed.


























Lemma get_set_same {V} k (v : V) (m : JsMap.t V) : JsMap.get k (JsMap.set k v m) = Some v.
Proof.
  induction m as [|[k0 v0] m IH]; simpl.
  - rewrite String.eqb_refl. reflexivity.
  - destruct (String.eqb k0 k) eqn:E; simpl.
    + rewrite String.eqb_refl. reflexivity.
    + rewrite E. exact IH.
Qed.



(** *** The stored score is never negative *)

Definition scoreNonNegative (p : Player.t) : Prop := (0 <= Player.score p)%Q.

Definition scores_nonneg (st : Store) : Prop :=
  Forall scoreNonNegative (JsMap.values (players st)).

Lemma values_update_Forall (P : Player.t -> Prop) k f (m : JsMap.t Player.t) :
  Forall P (JsMap.values m) ->
  (forall v, JsMap.get k m = Some v -> P v -> P (f v)) ->
  Forall P (JsMap.values (JsMap.update k f m)).
Proof.
  induction m as [|[k' v] m IH]; simpl; intros H Hf; [constructor|].
  inversion H as [|? ? Hv Hm]; subst.
  destruct (String.eqb k' k) eqn:E; simpl.
  - constructor; [|exact Hm]. apply Hf; [reflexivity|exact Hv].
  - constructor; [exact Hv|]. apply IH; assumption.
Qed.

Lemma values_set_Forall (P : Player.t -> Prop) k v (m : JsMap.t Player.t) :
  Forall P (JsMap.values m) -> P v -> Forall P (JsMap.values (JsMap.set k v m)).
Proof.
  induction m as [|[k' v'] m IH]; simpl; intros H Hv; [repeat constructor; exact Hv|].
  inversion H as [|? ? Hv' Hm]; subst.
  destruct (String.eqb k' k); simpl; constructor; auto.
Qed.

Lemma values_delete_Forall (P : Player.t -> Prop) k (m : JsMap.t Player.t) :
  Forall P (JsMap.values m) -> Forall P (JsMap.values (JsMap.delete k m)).
Proof.
  induction m as [|[k' v'] m IH]; simpl; intros H; [constructor|].
  inversion H as [|? ? Hv' Hm]; subst.
  destruct (String.eqb k' k); simpl; [exact Hm|]. constructor; auto.
Qed.

Lemma values_forEach_Forall (P : Player.t -> Prop) f (m : JsMap.t Player.t) :
  Forall P (JsMap.values m) -> (forall v, P v -> P (f v)) ->
  Forall P (JsMap.values (JsMap.forEach f m)).
Proof.
  induction m as [|[k' v'] m IH]; simpl; intros H Hf; [constructor|].
  inversion H as [|? ? Hv' Hm]; subst. constructor; auto.
Qed.

Lemma values_resetPlayers_Forall rand i (m : JsMap.t Player.t) :
  Forall scoreNonNegative (JsMap.values (resetPlayers rand i m)).
Proof.
  revert i. induction m as [|[k v] m IH]; intros i; simpl; constructor; [|apply IH].
  unfold scoreNonNegative. simpl. apply Qle_refl.
Qed.

Lemma scores_nonneg_update k f st :
  scores_nonneg st ->
  (forall v, JsMap.get k (players st) = Some v ->
     scoreNonNegative v -> scoreNonNegative (f v)) ->
  scores_nonneg (with_players (JsMap.update k f) st).
Proof. intros H Hf. apply values_update_Forall; assumption. Qed.

Lemma score_boundaryTransition now out player :
  Player.score (snd (boundaryTransition now out player)) = Player.score player.
Proof.
  unfold boundaryTransition.
  destruct out, (Player.isOutOfBounds player); simpl; try reflexivity.
  - destruct (truthy _); [|reflexivity]. destruct (Qle_bool _ _); reflexivity.
  - destruct (truthy _); reflexivity.
Qed.

Lemma scores_nonneg_calculatePlayerScore now id st :
  scores_nonneg st -> scores_nonneg (calculatePlayerScore now id st).
Proof.
  intros H. unfold calculatePlayerScore.
  destruct (JsMap.get id (players st)) as [p|]; [|exact H].
  apply scores_nonneg_update; [exact H|].
  intros v _ _. unfold scoreNonNegative. simpl. apply Q.le_max_l.
Qed.

Lemma scores_nonneg_scoreEntries clk ks st :
  scores_nonneg st -> scores_nonneg (snd (scoreEntries clk ks st)).
Proof.
  revert st. induction ks as [|k ks IH]; intros st H; simpl; [exact H|].
  destruct (JsMap.get k (players st)) as [p|]; [|apply IH; exact H].
  specialize (IH (calculatePlayerScore (tCalc (clk k)) (Player.id p) st)
                (scores_nonneg_calculatePlayerScore _ _ _ H)).
  destruct (scoreEntries clk ks _) as [rest st2]. exact IH.
Qed.

Lemma scores_nonneg_applyOp op st : scores_nonneg st -> scores_nonneg (applyOp op st).
Proof.
  intros H.
  destruct op as [now r1 r2 id name | id | now id position velocity | now id
                 | now state | now newRadius | rand | id ready | now pid hid
                 | now id radius | clk id reason | now id | clk | now];
    cbn [applyOp].
  - (* createPlayer *)
    unfold scores_nonneg.
    destruct (createPlayer_store now r1 r2 id name st) as (q & Hq & _ & _ & -> & _).
    apply values_set_Forall; [exact H|]. subst q. unfold scoreNonNegative. simpl.
    apply Qle_refl.
  - (* removePlayer *)
    destruct (JsMap.get id (players st)) as [q|] eqn:E.
    + unfold scores_nonneg. destruct (removePlayer_host id st q E) as (_ & -> & _).
      apply values_delete_Forall. exact H.
    + rewrite removePlayer_absent by assumption. exact H.
  - unfold updatePlayerPosition.
    destruct (JsMap.get id (players st)) as [q|]; [|exact H].
    destruct (negb _); [|exact H].
    apply scores_nonneg_update; [exact H|]. intros v _ Hv.
    destruct velocity; exact Hv.
  - unfold eliminatePlayer.
    destruct (JsMap.get id (players st)) as [q|]; [|exact H].
    destruct (negb _); [|exact H].
    apply scores_nonneg_update; [exact H|]. intros v _ Hv. exact Hv.
  - unfold setGameState. destruct (GameState_eqb state PLAYING); exact H.
  - exact H.
  - apply values_resetPlayers_Forall.
  - unfold setPlayerReady. destruct (JsMap.get id (players st)); [|exact H].
    apply scores_nonneg_update; [exact H|]. intros v _ Hv. exact Hv.
  - unfold recordCollision.
    destruct (JsMap.get pid (players st)); [|exact H].
    destruct (JsMap.get hid (players st)); [|exact H].
    destruct (negb _ && negb _); [|exact H].
    apply scores_nonneg_update; [exact H|]. intros v _ Hv. exact Hv.
  - unfold updateBoundaryStatus.
    destruct (JsMap.get id (players st)) as [q|] eqn:E; [|exact H].
    destruct (Player.isEliminated q); [exact H|].
    pose proof (score_boundaryTransition now (isCurrentlyOutOfBounds q radius) q)
      as Hs.
    destruct (boundaryTransition now _ q) as [ret p1]. simpl in Hs.
    destruct ret; cbn [snd];
      (apply scores_nonneg_update; [exact H|]);
      intros v Hv Pv; assert (v = q) by congruence; subst v;
      unfold scoreNonNegative in *.
    + rewrite Hs. exact Pv.
    + destruct (negb _ && negb _ && truthy _); simpl; rewrite Hs; exact Pv.
  - unfold eliminatePlayerWithAttribution.
    destruct (JsMap.get id (players st)) as [q|]; [|exact H].
    destruct (Player.isEliminated q); [exact H|].
    set (st1 := with_players (JsMap.update id _) st).
    assert (H1 : scores_nonneg st1).
    { apply scores_nonneg_update; [exact H|]. intros v _ Hv. exact Hv. }
    destruct (attribute_cases (tSinceHit clk) reason q st1)
      as [(hit & hitter & _ & _ & _ & _ & _ & ->) | (-> & _)]; cbn [snd].
    + apply scores_nonneg_calculatePlayerScore.
      apply scores_nonneg_update; [exact H1|]. intros v _ Hv. exact Hv.
    + apply scores_nonneg_calculatePlayerScore. exact H1.
  - apply scores_nonneg_calculatePlayerScore. exact H.
  - unfold getScoreSnapshot.
    pose proof (scores_nonneg_scoreEntries clk (JsMap.keys (players st)) st H) as H1.
    destruct (scoreEntries clk _ st) as [scores st']. exact H1.
  - apply values_forEach_Forall; [exact H|]. intros v Hv.
    destruct (negb _); exact Hv.
Qed.

Lemma scores_nonneg_applyOps ops st : scores_nonneg st -> scores_nonneg (applyOps ops st).
Proof.
  revert st. induction ops as [|op ops IH]; intros st H; simpl; [exact H|].
  apply IH, scores_nonneg_applyOp, H.
Qed.

Lemma scores_nonneg_step e s :
  scores_nonneg (store s) -> scores_nonneg (store (fst (step e s))).
Proof.
  intros H. destruct (step_ops e s) as (ops & -> & _).
  apply scores_nonneg_applyOps. exact H.
Qed.

Lemma scores_nonneg_run es s :
  scores_nonneg (store s) -> scores_nonneg (store (fst (run es s))).
Proof.
  revert s. induction es as [|e es IH]; intros s H; simpl; [exact H|].
  pose proof (scores_nonneg_step e s H) as H1.
  destruct (step e s) as [s1 o1]. specialize (IH s1 H1).
  destruct (run es s1) as [s2 o2]. exact IH.
Qed.

(** *** Score formula (C2) *)

(** The score formula in the words of the specification.
    [survivalTimeSeconds]: for a participant that is not eliminated and not
    currently out of bounds, the seconds elapsed since the match started,
    at [matchStartedAt]; for any other, the stored [survivalTime].
    [outOfBoundsTimeSeconds]: the stored cumulative [outOfBoundsTime] plus,
    for a participant currently out of bounds, the seconds elapsed since
    its excursion started. *)
Definition elapsedSeconds (since now : Z) : Q := (now - since) # 1000.

Definition spec_survivalTimeSeconds (matchStartedAt now : Z) (p : Player.t) : Q :=
  if Player.isEliminated p || Player.isOutOfBounds p
  then Player.survivalTime p
  else elapsedSeconds matchStartedAt now.

Definition spec_outOfBoundsTimeSeconds (now : Z) (p : Player.t) : Q :=
  match Player.isOutOfBounds p, Player.outOfBoundsStartTime p with
  | true, Some excursionStart =>
      (Player.outOfBoundsTime p + elapsedSeconds excursionStart now)%Q
  | _, _ => Player.outOfBoundsTime p
  end.

Definition spec_score (matchStartedAt now : Z) (p : Player.t) : Q :=
  Qmax 0 (100 * inject_Z (Player.eliminations p)
          + spec_survivalTimeSeconds matchStartedAt now p
          - 10 * spec_outOfBoundsTimeSeconds now p)%Q.

(** The same without an interval of survival in progress. *)
Definition spec_score_stored (now : Z) (p : Player.t) : Q :=
  Qmax 0 (100 * inject_Z (Player.eliminations p)
          + Player.survivalTime p
          - 10 * spec_outOfBoundsTimeSeconds now p)%Q.

Lemma elapsedSeconds_ms (since now : Z) :
  (ms_to_seconds (now - since) == elapsedSeconds since now)%Q.
Proof.
  unfold ms_to_seconds, elapsedSeconds. rewrite (Qmake_Qdiv (now - since) 1000).
  reflexivity.
Qed.

Lemma truthy_nonzero (t : Z) : t <> 0 -> truthy (Some t) = true.
Proof. intros H. simpl. apply negb_true_iff. apply Z.eqb_neq. exact H. Qed.

(** The out-of-bounds seconds [calculatePlayerScore] counts are those of
    the specification, clock readings being other than [0]. *)
Lemma totalOutTime_spec (now : Z) (p : Player.t) :
  Player.outOfBoundsStartTime p <> Some 0 ->
  ((if Player.isOutOfBounds p && truthy (Player.outOfBoundsStartTime p)
    then Player.outOfBoundsTime p
         + ms_to_seconds (now - time_of (Player.outOfBoundsStartTime p))
    else Player.outOfBoundsTime p)
   == spec_outOfBoundsTimeSeconds now p)%Q.
Proof.
  intros Hm. unfold spec_outOfBoundsTimeSeconds.
  destruct (Player.isOutOfBounds p); [|reflexivity].
  destruct (Player.outOfBoundsStartTime p) as [m|]; [|reflexivity].
  rewrite truthy_nonzero by congruence. cbn [andb time_of].
  rewrite elapsedSeconds_ms. reflexivity.
Qed.

(** C2, as the code has it.  For a participant [p] stored under [id] whose
    copy of the match start, [gameStartTime], was stamped when the match
    started, [calculatePlayerScore] stores
    [max(0, eliminations*100 + survivalTimeSeconds - outOfBoundsTimeSeconds*10)]
    with both durations as the specification words them, the interval in
    progress included, and changes nothing else.  For a participant without
    that stamp, one who joined while the match was being played, it counts
    the stored [survivalTime] and no interval of survival in progress.
    Clock readings are other than [0], which JavaScript takes for unset.
    [initializeGameTimes], at the start of a match, stamps every
    participant that is not eliminated; [createPlayer] leaves the stamp
    unset.  The score stored is not negative, whatever the magnitudes, and
    so is the score of every participant in every reachable state of the
    server. *)
Theorem calculatePlayerScore_formula :
  (forall (now : Z) (id : string) (st : Store) (p : Player.t) (matchStartedAt : Z),
      JsMap.get id (players st) = Some p ->
      Player.gameStartTime p = Some matchStartedAt ->
      matchStartedAt <> 0 ->
      Player.outOfBoundsStartTime p <> Some 0 ->
      exists s : Q,
        calculatePlayerScore now id st
        = with_players (JsMap.update id (Player.set_score s)) st
        /\ (s == spec_score matchStartedAt now p)%Q
        /\ (0 <= s)%Q)
  /\ (forall (now : Z) (id : string) (st : Store) (p : Player.t),
        JsMap.get id (players st) = Some p ->
        Player.gameStartTime p = None ->
        Player.outOfBoundsStartTime p <> Some 0 ->
        exists s : Q,
          calculatePlayerScore now id st
          = with_players (JsMap.update id (Player.set_score s)) st
          /\ (s == spec_score_stored now p)%Q
          /\ (0 <= s)%Q)
  /\ (forall (now : Z) (id : string) (st : Store) (p : Player.t),
        JsMap.get id (players st) = Some p ->
        Player.isEliminated p = false ->
        exists p', JsMap.get id (players (initializeGameTimes now st)) = Some p'
                   /\ Player.gameStartTime p' = Some now)
  /\ (forall (now : Z) (r1 r2 : Q) (id : string) (name : option string) (st : Store),
        Player.gameStartTime (fst (createPlayer now r1 r2 id name st)) = None)
  /\ (forall (now : Z) (id : string) (st : Store) (p' : Player.t),
        JsMap.get id (players (calculatePlayerScore now id st)) = Some p' ->
        (0 <= Player.score p')%Q)
  /\ (forall (s : Server) (id : string) (p : Player.t),
        reachable s ->
        JsMap.get id (players (store s)) = Some p ->
        (0 <= Player.score p)%Q).
Proof.
  split; [|split; [|split; [|split; [|split]]]].
  - intros now id st p t0 Hget Hstart Ht0 Hm.
    unfold calculatePlayerScore. rewrite Hget.
    eexists. split; [reflexivity|]. split; [|apply Q.le_max_l].
    unfold spec_score. apply Q.max_compat; [reflexivity|].
    rewrite (totalOutTime_spec now p Hm).
    unfold spec_survivalTimeSeconds. rewrite Hstart, (truthy_nonzero t0 Ht0).
    cbn [time_of].
    destruct (Player.isEliminated p), (Player.isOutOfBounds p); cbn [negb andb orb];
      try rewrite elapsedSeconds_ms; ring.
  - intros now id st p Hget Hstart Hm.
    unfold calculatePlayerScore. rewrite Hget.
    eexists. split; [reflexivity|]. split; [|apply Q.le_max_l].
    unfold spec_score_stored. apply Q.max_compat; [reflexivity|].
    rewrite (totalOutTime_spec now p Hm). rewrite Hstart.
    cbn [truthy]. rewrite andb_false_r. cbn [andb]. ring.
  - intros now id st p Hget Halive. unfold initializeGameTimes.
    rewrite players_with_players, get_forEach, Hget. cbn [option_map].
    rewrite Halive. eexists. split; reflexivity.
  - reflexivity.
  - intros now id st p' Hget. unfold calculatePlayerScore in Hget.
    destruct (JsMap.get id (players st)) as [p|] eqn:E; [|congruence].
    rewrite players_with_players, get_update_same, E in Hget. simpl in Hget.
    inversion Hget. simpl. apply Q.le_max_l.
  - intros s id p [es <-] Hget.
    assert (H : scores_nonneg (store (fst (run es initialServer)))).
    { apply scores_nonneg_run. constructor. }
    unfold scores_nonneg in H. rewrite Forall_forall in H.
    apply (H p). apply get_In in Hget.
    unfold JsMap.values. apply in_map_iff. exists (id, p). auto.
Qed.

(** *** From the end of a match into the next one *)

Lemma countdown_tick h c nowState nowTimes nowSnapshot s :
  callbackOf h (timers s) = Some (CountdownCallback c) ->
  1 < c ->
  fst (step (CountdownFires h nowState nowTimes nowSnapshot) s) = setCount h (c - 1) s
  /\ callbackOf h (timers (setCount h (c - 1) s)) = Some (CountdownCallback (c - 1)).
Proof.
  intros Hcb Hc. cbn [step]. rewrite Hcb. unfold countdownCallback.
  assert (E : (0 <? c - 1) = true) by (apply Z.ltb_lt; lia).
  rewrite E. split; [reflexivity|].
  simpl. rewrite callbackOf_setCount, Nat.eqb_refl, Hcb. reflexivity.
Qed.

Lemma countdown_last h c nowState nowTimes nowSnapshot s :
  callbackOf h (timers s) = Some (CountdownCallback c) ->
  c <= 1 ->
  store (fst (step (CountdownFires h nowState nowTimes nowSnapshot) s))
  = initializeGameTimes nowTimes (setGameState nowState PLAYING (store s)).
Proof.
  intros Hcb Hc. cbn [step]. rewrite Hcb. unfold countdownCallback.
  assert (E : (0 <? c - 1) = false) by (apply Z.ltb_ge; lia).
  rewrite E. cbn [fst]. rewrite store_startScoreUpdates, store_startGameLoop.
  cbn [store with_store with_countdownInterval].
  rewrite store_clearInterval. reflexivity.
Qed.

Lemma length_resetPlayers rand i m :
  List.length (resetPlayers rand i m) = List.length m.
Proof.
  revert i. induction m as [|[k p] m IH]; intros i; simpl; [reflexivity|].
  f_equal. apply IH.
Qed.

(** The events of a restart: the host asks to play again and starts the
    game, and the countdown interval fires three times. *)
Definition restartEvents (sid : string) (rand : nat -> Q) (h : nat)
    (nowReset nowState nowTimes nowSnapshot : Z) : list Event :=
  [ PlayAgain sid rand nowReset;
    StartGame sid;
    CountdownFires h nowState nowTimes nowSnapshot;
    CountdownFires h nowState nowTimes nowSnapshot;
    CountdownFires h nowState nowTimes nowSnapshot ].

Lemma restart_store sid rand nowReset nowState nowTimes nowSnapshot s :
  reachable s ->
  phase s = ENDED ->
  isHost sid (store s) = true ->
  (1 <= getPlayerCount (store s))%nat ->
  store (fst (run (restartEvents sid rand (nextTimer s)
                     nowReset nowState nowTimes nowSnapshot) s))
  = enterPlaying nowState nowTimes (resetGame rand (store s)).
Proof.
  intros Hreach Hph Hhost Hcount.
  pose proof (timers_ok_reachable s Hreach) as (Hs & _ & _).
  pose proof (callbackOf_fresh _ _ _ _ _ _ Hs) as Hfresh.
  unfold restartEvents.
  (* play again *)
  assert (E1 : step (PlayAgain sid rand nowReset) s
               = (with_previousWarningState
                    {| isWarning := false; warningProgress := 0%Q |}
                    (with_store (resetGame rand (store s)) s),
                  [(ToAll, gameReset
                             (getStateSnapshot nowReset (resetGame rand (store s))))])).
  { cbn [step]. unfold onPlayAgain, getGameState. rewrite Hhost.
    unfold phase in Hph. rewrite Hph. reflexivity. }
  set (s1 := with_previousWarningState _ (with_store (resetGame rand (store s)) s)) in E1.
  (* start game *)
  assert (E2 : exists out, step (StartGame sid) s1 = startCountdown s1 /\ out = tt).
  { exists tt. split; [|reflexivity]. cbn [step]. unfold onStartGame, getGameState.
    assert (Hhost1 : isHost sid (store s1) = true) by exact Hhost.
    rewrite Hhost1. cbn [negb].
    assert (Hn : (List.length (getAllPlayers (store s1)) <? 1)%nat = false).
    { apply Nat.ltb_ge. unfold getAllPlayers, JsMap.values. rewrite length_map.
      unfold s1. simpl. rewrite length_resetPlayers. exact Hcount. }
    rewrite Hn. reflexivity. }
  destruct E2 as (_ & E2 & _).
  set (s2 := fst (startCountdown s1)).
  assert (T2 : callbackOf (nextTimer s) (timers s2)
               = Some (CountdownCallback COUNTDOWN_CFG.DURATION)).
  { unfold s2, startCountdown. simpl. rewrite callbackOf_app, Hfresh, Nat.eqb_refl.
    reflexivity. }
  assert (S2 : store s2 = setGameState_noclock COUNTDOWN (resetGame rand (store s)))
    by reflexivity.
  (* three ticks of the countdown *)
  destruct (countdown_tick (nextTimer s) 3 nowState nowTimes nowSnapshot s2 T2)
    as [E3 T3]; [lia|].
  set (s3 := setCount (nextTimer s) (3 - 1) s2) in *.
  destruct (countdown_tick (nextTimer s) (3 - 1) nowState nowTimes nowSnapshot s3 T3)
    as [E4 T4]; [lia|].
  set (s4 := setCount (nextTimer s) (3 - 1 - 1) s3) in *.
  assert (E5 := countdown_last (nextTimer s) (3 - 1 - 1) nowState nowTimes nowSnapshot
                  s4 T4 ltac:(lia)).
  assert (S4 : store s4 = store s2) by reflexivity.
  cbn [run]. rewrite E1. cbv beta iota.
  destruct (step (StartGame sid) s1) as [s2' o2] eqn:F2.
  assert (s2' = s2) by (unfold s2; rewrite <- E2; reflexivity). subst s2'.
  destruct (step (CountdownFires (nextTimer s) nowState nowTimes nowSnapshot) s2)
    as [s3' o3] eqn:F3.
  simpl in E3. subst s3'.
  destruct (step (CountdownFires (nextTimer s) nowState nowTimes nowSnapshot) s3)
    as [s4' o4] eqn:F4.
  simpl in E4. subst s4'.
  destruct (step (CountdownFires (nextTimer s) nowState nowTimes nowSnapshot) s4)
    as [s5 o5] eqn:F5.
  cbn [fst] in E5. cbn [fst]. rewrite E5, S4, S2. reflexivity.
Qed.

(** C8.  [resetGame] reverts the phase to [LOBBY] and restores the initial
    radius; after it and a fresh transition into [PLAYING] every participant
    has [eliminations], [survivalTime] and [outOfBoundsTime] zero, is not
    eliminated and has no [lastHitBy]; the participants are the same
    records under the same keys in the same order, with their identity
    fields kept.  On the server that transition is what the events of a
    restart make of the store: play again, start game, and the three ticks
    of the countdown. *)
Theorem reset_then_playing_clears_round :
  (forall (rand : nat -> Q) (nowState nowTimes : Z) (st : Store),
      let st1 := resetGame rand st in
      let st2 := enterPlaying nowState nowTimes st1 in
      gameState st1 = LOBBY
      /\ platformRadius st1 = PLATFORM.INITIAL_RADIUS
      /\ gameState st2 = PLAYING
      /\ platformRadius st2 = PLATFORM.INITIAL_RADIUS
      /\ JsMap.keys (players st2) = JsMap.keys (players st)
      /\ forall k,
           match JsMap.get k (players st), JsMap.get k (players st2) with
           | Some p, Some p2 => cleared_for_round p2 /\ same_participant p p2
           | None, None => True
           | _, _ => False
           end)
  /\ (forall (sid : string) (rand : nat -> Q)
             (nowReset nowState nowTimes nowSnapshot : Z) (s : Server),
        reachable s ->
        phase s = ENDED ->
        isHost sid (store s) = true ->
        (1 <= getPlayerCount (store s))%nat ->
        store (fst (run (restartEvents sid rand (nextTimer s)
                           nowReset nowState nowTimes nowSnapshot) s))
        = enterPlaying nowState nowTimes (resetGame rand (store s))).
Proof.
  split.
  - exact reset_then_enterPlaying.
  - intros sid rand nowReset nowState nowTimes nowSnapshot s.
    apply restart_store.
Qed.

(** ** Further properties of the store and the server *)

(** *** The roster: keys and identities of the participants, in map order *)

(** The fields that identify a participant: [id], [name], [color],
    [colorIndex] and [joinedAt]. *)
Definition Identity : Type := (string * string * string * nat * Z)%type.

Definition identity (p : Player.t) : Identity :=
  (Player.id p, Player.name p, Player.color p, Player.colorIndex p, Player.joinedAt p).

Definition identityId (i : Identity) : string := fst (fst (fst (fst i))).

Definition roster (m : JsMap.t Player.t) : list (string * Identity) :=
  List.map (fun kv => (fst kv, identity (snd kv))) m.

Lemma roster_update k f (m : JsMap.t Player.t) :
  (forall v, JsMap.get k m = Some v -> identity (f v) = identity v) ->
  roster (JsMap.update k f m) = roster m.
Proof.
  induction m as [|[k' v] m IH]; simpl; intros H; [reflexivity|].
  destruct (String.eqb k' k) eqn:E; simpl.
  - rewrite (H v eq_refl). reflexivity.
  - f_equal. apply IH. exact H.
Qed.

Lemma roster_forEach f (m : JsMap.t Player.t) :
  (forall v, identity (f v) = identity v) ->
  roster (JsMap.forEach f m) = roster m.
Proof.
  intros H. induction m as [|[k' v] m IH]; simpl; [reflexivity|].
  rewrite H. f_equal. exact IH.
Qed.

Lemma roster_resetPlayers rand i m : roster (resetPlayers rand i m) = roster m.
Proof.
  revert i. induction m as [|[k v] m IH]; intros i; simpl; [reflexivity|].
  rewrite IH. reflexivity.
Qed.

Lemma roster_keys m : List.map fst (roster m) = JsMap.keys m.
Proof. unfold roster, JsMap.keys. rewrite map_map. reflexivity. Qed.

Lemma roster_length m : List.length (roster m) = JsMap.size m.
Proof. unfold roster, JsMap.size. apply length_map. Qed.

Lemma identity_boundaryTransition now out player :
  identity (snd (boundaryTransition now out player)) = identity player.
Proof.
  unfold boundaryTransition.
  destruct out, (Player.isOutOfBounds player); simpl; try reflexivity.
  - destruct (truthy _); [|reflexivity]. destruct (Qle_bool _ _); reflexivity.
  - destruct (truthy _); reflexivity.
Qed.

Lemma roster_calculatePlayerScore now id st :
  roster (players (calculatePlayerScore now id st)) = roster (players st).
Proof.
  destruct (calculatePlayerScore_shape now id st) as [s ->].
  apply roster_update. reflexivity.
Qed.

Lemma roster_scoreEntries clk ks st :
  roster (players (snd (scoreEntries clk ks st))) = roster (players st).
Proof.
  revert st. induction ks as [|k ks IH]; intros st; simpl; [reflexivity|].
  destruct (JsMap.get k (players st)) as [p|]; [|apply IH].
  specialize (IH (calculatePlayerScore (tCalc (clk k)) (Player.id p) st)).
  destruct (scoreEntries clk ks _) as [rest st2]. simpl in *.
  rewrite IH. apply roster_calculatePlayerScore.
Qed.

(** The functions that assign fields keep the roster. *)
Lemma roster_applyOp op st :
  (forall id, replacesRecord op id = false) ->
  roster (players (applyOp op st)) = roster (players st).
Proof.
  intros Hrep.
  destruct op as [now r1 r2 id name | id | now id position velocity | now id
                 | now state | now newRadius | rand | id ready | now pid hid
                 | now id radius | clk id reason | now id | clk | now];
    cbn [applyOp].
  - specialize (Hrep id). simpl in Hrep. rewrite String.eqb_refl in Hrep. discriminate.
  - specialize (Hrep id). simpl in Hrep. rewrite String.eqb_refl in Hrep. discriminate.
  - unfold updatePlayerPosition.
    destruct (JsMap.get id (players st)); [|reflexivity].
    destruct (negb _); [|reflexivity].
    apply roster_update. intros v _. destruct velocity; reflexivity.
  - unfold eliminatePlayer.
    destruct (JsMap.get id (players st)); [|reflexivity].
    destruct (negb _); [|reflexivity].
    apply roster_update. reflexivity.
  - unfold setGameState. destruct (GameState_eqb state PLAYING); reflexivity.
  - reflexivity.
  - apply roster_resetPlayers.
  - unfold setPlayerReady. destruct (JsMap.get id (players st)); [|reflexivity].
    apply roster_update. reflexivity.
  - unfold recordCollision.
    destruct (JsMap.get pid (players st)); [|reflexivity].
    destruct (JsMap.get hid (players st)); [|reflexivity].
    destruct (negb _ && negb _); [|reflexivity].
    apply roster_update. reflexivity.
  - unfold updateBoundaryStatus.
    destruct (JsMap.get id (players st)) as [q|] eqn:E; [|reflexivity].
    destruct (Player.isEliminated q); [reflexivity|].
    pose proof (identity_boundaryTransition now (isCurrentlyOutOfBounds q radius) q) as Hs.
    destruct (boundaryTransition now _ q) as [ret p1]. simpl in Hs.
    destruct ret; cbn [snd]; apply roster_update;
      intros v Hv; assert (v = q) by congruence; subst v.
    + exact Hs.
    + destruct (negb _ && negb _ && truthy _); simpl; exact Hs.
  - unfold eliminatePlayerWithAttribution.
    destruct (JsMap.get id (players st)) as [q|]; [|reflexivity].
    destruct (Player.isEliminated q); [reflexivity|].
    set (st1 := with_players (JsMap.update id _) st).
    assert (H1 : roster (players st1) = roster (players st)).
    { apply roster_update. reflexivity. }
    destruct (attribute_cases (tSinceHit clk) reason q st1)
      as [(hit & hitter & _ & _ & _ & _ & _ & ->) | (-> & _)]; cbn [snd];
      rewrite roster_calculatePlayerScore; [|exact H1].
    rewrite <- H1. apply roster_update. reflexivity.
  - apply roster_calculatePlayerScore.
  - unfold getScoreSnapshot.
    pose proof (roster_scoreEntries clk (JsMap.keys (players st)) st) as H1.
    destruct (scoreEntries clk _ st) as [scores st']. exact H1.
  - apply roster_forEach. intros v. destruct (negb _); reflexivity.
Qed.

Lemma hostId_applyOp op st :
  (forall id, replacesRecord op id = false) ->
  hostId (applyOp op st) = hostId st.
Proof.
  intros Hrep.
  destruct op as [now r1 r2 id name | id | now id position velocity | now id
                 | now state | now newRadius | rand | id ready | now pid hid
                 | now id radius | clk id reason | now id | clk | now];
    cbn [applyOp].
  - specialize (Hrep id). simpl in Hrep. rewrite String.eqb_refl in Hrep. discriminate.
  - specialize (Hrep id). simpl in Hrep. rewrite String.eqb_refl in Hrep. discriminate.
  - pose proof (globals_updatePlayerPosition now id position velocity st) as G.
    unfold globals in G. congruence.
  - pose proof (globals_eliminatePlayer now id st) as G. unfold globals in G. congruence.
  - unfold setGameState. destruct (GameState_eqb state PLAYING); reflexivity.
  - reflexivity.
  - reflexivity.
  - pose proof (globals_setPlayerReady id ready st) as G. unfold globals in G. congruence.
  - pose proof (globals_recordCollision now pid hid st) as G. unfold globals in G.
    congruence.
  - pose proof (globals_updateBoundaryStatus now id radius st) as G.
    unfold globals in G. congruence.
  - pose proof (globals_eliminatePlayerWithAttribution clk id reason st) as G.
    unfold globals in G. congruence.
  - pose proof (globals_calculatePlayerScore now id st) as G. unfold globals in G.
    congruence.
  - pose proof (globals_getScoreSnapshot clk st) as G. unfold globals in G. congruence.
  - reflexivity.
Qed.

Lemma roster_applyOps ops st :
  Forall (fun op => forall id, replacesRecord op id = false) ops ->
  roster (players (applyOps ops st)) = roster (players st)
  /\ hostId (applyOps ops st) = hostId st.
Proof.
  intros H. revert st. induction H as [|op ops Hop _ IH]; intros st; simpl; [auto|].
  destruct (IH (applyOp op st)) as [-> ->].
  split; [apply roster_applyOp | apply hostId_applyOp]; exact Hop.
Qed.

Lemma plain_keeps_roster ops :
  Forall plain ops -> Forall (fun op => forall id, replacesRecord op id = false) ops.
Proof. apply Forall_impl. intros op [_ H]. exact H. Qed.

(** What an event does to the roster and to [hostId]: nothing, or what
    [createPlayer] does (an accepted join), or what [removePlayer] does (the
    disconnect of a participant). *)
Lemma step_roster e s :
  (roster (players (store (fst (step e s)))) = roster (players (store s))
   /\ hostId (store (fst (step e s))) = hostId (store s))
  \/ (exists sid name now r1 r2 nowSnapshot,
        e = Join sid name now r1 r2 nowSnapshot
        /\ (getPlayerCount (store s) < PLAYERS.MAX_PLAYERS)%nat
        /\ store (fst (step e s)) = snd (createPlayer now r1 r2 sid name (store s)))
  \/ (exists sid p,
        e = Disconnect sid
        /\ JsMap.get sid (players (store s)) = Some p
        /\ roster (players (store (fst (step e s))))
           = roster (players (snd (removePlayer sid (store s))))
        /\ hostId (store (fst (step e s))) = hostId (snd (removePlayer sid (store s)))).
Proof.
  assert (Hdefault :
            (forall id, eventReplaces e id = false) ->
            roster (players (store (fst (step e s)))) = roster (players (store s))
            /\ hostId (store (fst (step e s))) = hostId (store s)).
  { intros He. destruct (step_ops e s) as (ops & -> & Hperm).
    apply roster_applyOps. revert Hperm. apply Forall_impl.
    intros op [_ P] id. destruct (replacesRecord op id) eqn:E; [|reflexivity].
    specialize (P id E). rewrite He in P. discriminate. }
  destruct e; try (left; apply Hdefault; intros id0; reflexivity).
  - (* join *)
    cbn [step]. unfold onJoin.
    destruct (PLAYERS.MAX_PLAYERS <=? getPlayerCount (store s))%nat eqn:E.
    + left. split; reflexivity.
    + right. left. exists sid, name, now, r1, r2, nowSnapshot.
      split; [reflexivity|]. split; [apply Nat.leb_gt; exact E|].
      destruct (createPlayer now r1 r2 sid name (store s)) as [player st1].
      cbn [fst snd]. apply store_startGameLoop.
  - (* disconnect *)
    cbn [step]. unfold onDisconnect.
    destruct (JsMap.get sid (players (store s))) as [p|] eqn:Eg.
    + right. right. exists sid, p. split; [reflexivity|]. split; [exact Eg|].
      destruct (removePlayer_host sid (store s) p Eg) as (Hfst & _).
      destruct (removePlayer sid (store s)) as [[player|] st1]; [|discriminate].
      cbn [snd].
      destruct (GameState_eqb _ PLAYING); [|split; reflexivity].
      destruct (List.length _ <=? 1)%nat; [|split; reflexivity].
      destruct (handleGameEnd_ops (hd_error (getAlivePlayers (store (with_store st1 s))))
                  (with_store st1 s)) as (ops2 & A2 & P2).
      destruct (handleGameEnd _ _) as [s2 o2]. simpl in *.
      rewrite A2. apply roster_applyOps, plain_keeps_roster. exact P2.
    + left. rewrite removePlayer_absent by assumption. split; reflexivity.
Qed.


(** Induction over the runs of the event loop. *)
Lemma reachable_invariant (P : Server -> Prop) :
  P initialServer ->
  (forall e s, reachable s -> P s -> P (fst (step e s))) ->
  forall s, reachable s -> P s.
Proof.
  intros H0 Hstep s [es <-].
  assert (G : forall es s0, reachable s0 -> P s0 -> P (fst (run es s0))).
  { clear es. induction es as [|e es IH]; intros s0 Hr Hp; simpl; [exact Hp|].
    pose proof (Hstep e s0 Hr Hp) as H1.
    pose proof (reachable_run [e] s0 Hr) as Hr1. simpl in Hr1.
    destruct (step e s0) as [s1 o1]. simpl in Hr1, H1.
    specialize (IH s1 Hr1 H1). destruct (run es s1) as [s2 o2]. exact IH. }
  apply G; [exists []; reflexivity | exact H0].
Qed.

(** *** Keys of the [Map] under [set] and [delete] *)

Lemma keys_set_In {V} k (v : V) m k' :
  In k' (JsMap.keys (JsMap.set k v m)) <-> k' = k \/ In k' (JsMap.keys m).
Proof.
  induction m as [|[k0 v0] m IH]; simpl.
  - intuition.
  - destruct (String.eqb k0 k) eqn:E; simpl.
    + apply String.eqb_eq in E. subst k0. intuition.
    + unfold JsMap.keys in IH. rewrite IH. intuition.
Qed.

Lemma NoDup_keys_set {V} k (v : V) m :
  NoDup (JsMap.keys m) -> NoDup (JsMap.keys (JsMap.set k v m)).
Proof.
  induction m as [|[k0 v0] m IH]; simpl; intros H.
  - constructor; [intros []|constructor].
  - inversion H as [|? ? Hn Hd]; subst.
    destruct (String.eqb k0 k) eqn:E; simpl.
    + apply String.eqb_eq in E. subst k0. constructor; assumption.
    + constructor; [|apply IH; exact Hd].
      intros Hin. apply (keys_set_In k v m k0) in Hin. destruct Hin as [->|Hin].
      * rewrite String.eqb_refl in E. discriminate.
      * exact (Hn Hin).
Qed.

Lemma length_set {V} k (v : V) m :
  (List.length (JsMap.set k v m) <= S (List.length m))%nat.
Proof.
  induction m as [|[k0 v0] m IH]; simpl; [lia|].
  destruct (String.eqb k0 k); simpl; lia.
Qed.

Lemma keys_delete_In {V} k (m : JsMap.t V) k' :
  NoDup (JsMap.keys m) ->
  (In k' (JsMap.keys (JsMap.delete k m)) <-> k' <> k /\ In k' (JsMap.keys m)).
Proof.
  induction m as [|[k0 v0] m IH]; simpl; intros H.
  - intuition.
  - inversion H as [|? ? Hn Hd]; subst.
    destruct (String.eqb k0 k) eqn:E; simpl.
    + apply String.eqb_eq in E. subst k0. split.
      * intros Hin. split; [|right; exact Hin]. intros ->. exact (Hn Hin).
      * intros [Hne [Heq|Hin]]; [congruence|exact Hin].
    + apply String.eqb_neq in E. unfold JsMap.keys in IH. rewrite (IH Hd). split.
      * intros [<-|[Hne Hin]]; [split; [exact E|left; reflexivity]|].
        split; [exact Hne|right; exact Hin].
      * intros [Hne [Heq|Hin]]; [left; exact Heq|right; split; assumption].
Qed.

Lemma NoDup_keys_delete {V} k (m : JsMap.t V) :
  NoDup (JsMap.keys m) -> NoDup (JsMap.keys (JsMap.delete k m)).
Proof.
  induction m as [|[k0 v0] m IH]; simpl; intros H; [constructor|].
  inversion H as [|? ? Hn Hd]; subst.
  destruct (String.eqb k0 k) eqn:E; simpl; [exact Hd|].
  constructor; [|apply IH; exact Hd].
  intros Hin. apply (keys_delete_In k m k0 Hd) in Hin. exact (Hn (proj2 Hin)).
Qed.

Lemma length_delete {V} k (m : JsMap.t V) :
  (List.length (JsMap.delete k m) <= List.length m)%nat.
Proof.
  induction m as [|[k0 v0] m IH]; simpl; [lia|].
  destruct (String.eqb k0 k); simpl; lia.
Qed.

Lemma In_delete {V} k (m : JsMap.t V) e : In e (JsMap.delete k m) -> In e m.
Proof.
  induction m as [|[k0 v0] m IH]; simpl; [tauto|].
  destruct (String.eqb k0 k); simpl; intuition.
Qed.

Lemma roster_set k v m :
  roster (JsMap.set k v m) = JsMap.set k (identity v) (roster m).
Proof.
  induction m as [|[k0 v0] m IH]; simpl; [reflexivity|].
  destruct (String.eqb k0 k); simpl; [reflexivity|]. f_equal. exact IH.
Qed.

Lemma roster_delete k m : roster (JsMap.delete k m) = JsMap.delete k (roster m).
Proof.
  induction m as [|[k0 v0] m IH]; simpl; [reflexivity|].
  destruct (String.eqb k0 k); simpl; [reflexivity|]. f_equal. exact IH.
Qed.

Lemma get_roster k m :
  JsMap.get k (roster m) = option_map identity (JsMap.get k m).
Proof.
  induction m as [|[k0 v0] m IH]; simpl; [reflexivity|].
  destruct (String.eqb k0 k); [reflexivity|exact IH].
Qed.

Lemma In_keys_get {V} k (m : JsMap.t V) :
  In k (JsMap.keys m) <-> exists v, JsMap.get k m = Some v.
Proof.
  induction m as [|[k0 v0] m IH]; simpl.
  - split; [intros []|intros [v H]; discriminate].
  - destruct (String.eqb k0 k) eqn:E.
    + apply String.eqb_eq in E. split; [intros _; eauto|intros _; left; exact E].
    + apply String.eqb_neq in E. unfold JsMap.keys in IH. rewrite <- IH.
      split; [intros [H|H]; [contradiction|exact H]|intros H; right; exact H].
Qed.

Lemma In_get_NoDup {V} k (v : V) (m : JsMap.t V) :
  NoDup (JsMap.keys m) -> In (k, v) m -> JsMap.get k m = Some v.
Proof.
  induction m as [|[k0 v0] m IH]; simpl; intros Hnd Hin; [contradiction|].
  inversion Hnd as [|? ? Hn Hd]; subst.
  destruct Hin as [Heq|Hin].
  - inversion Heq; subst. rewrite String.eqb_refl. reflexivity.
  - destruct (String.eqb k0 k) eqn:E; [|exact (IH Hd Hin)].
    apply String.eqb_eq in E. subst k0. exfalso. apply Hn.
    unfold JsMap.keys. apply in_map_iff. exists (k, v). split; [reflexivity|exact Hin].
Qed.

(** *** The roster in every reachable state *)

(** A color of the palette, at the index the record names. *)
Definition paletteColor (i : Identity) : Prop :=
  let '(_, _, color, colorIndex, _) := i in
  (colorIndex < List.length PLAYER_COLORS)%nat
  /\ List.nth_error PLAYER_COLORS colorIndex = Some color.

(** Every record sits under its own id, no id occurs twice, there is a host
    exactly when there are participants, the host is a participant, the
    session is not over capacity, and every color is a palette color. *)
Definition roster_inv (r : list (string * Identity)) (h : option string) : Prop :=
  NoDup (List.map fst r)
  /\ Forall (fun e => identityId (snd e) = fst e) r
  /\ (h = None <-> r = [])
  /\ (forall x, h = Some x -> In x (List.map fst r))
  /\ (List.length r <= PLAYERS.MAX_PLAYERS)%nat
  /\ Forall (fun e => paletteColor (snd e)) r.

Definition roster_ok (st : Store) : Prop := roster_inv (roster (players st)) (hostId st).

Lemma Forall_set {V} (P : string * V -> Prop) k v (m : JsMap.t V) :
  Forall P m -> P (k, v) -> Forall P (JsMap.set k v m).
Proof.
  induction m as [|[k0 v0] m IH]; simpl; intros H Hv; [repeat constructor; exact Hv|].
  inversion H; subst. destruct (String.eqb k0 k); constructor; auto.
Qed.

Lemma Forall_delete {V} (P : string * V -> Prop) k (m : JsMap.t V) :
  Forall P m -> Forall P (JsMap.delete k m).
Proof.
  rewrite !Forall_forall. intros H e He. apply H. exact (In_delete k m e He).
Qed.

Lemma createPlayer_palette now r1 r2 id name st :
  paletteColor (identity (fst (createPlayer now r1 r2 id name st))).
Proof.
  unfold createPlayer, identity, paletteColor. cbv zeta. cbn [fst Player.color Player.colorIndex].
  set (n := JsMap.size (players st)).
  assert (Hlt : (n mod List.length PLAYER_COLORS < List.length PLAYER_COLORS)%nat).
  { apply Nat.mod_upper_bound. discriminate. }
  split; [exact Hlt|].
  apply nth_error_nth'. exact Hlt.
Qed.

Lemma roster_ok_createPlayer now r1 r2 id name st :
  roster_ok st ->
  (getPlayerCount st < PLAYERS.MAX_PLAYERS)%nat ->
  roster_ok (snd (createPlayer now r1 r2 id name st)).
Proof.
  intros (Hnd & Hco & Hnone & Hhost & Hlen & Hpal) Hcount.
  pose proof (createPlayer_palette now r1 r2 id name st) as Hp.
  destruct (createPlayer_store now r1 r2 id name st) as (p & Hfst & Hid & _ & Hpl & Hh).
  rewrite Hfst in Hp.
  unfold roster_ok. rewrite Hpl, Hh, roster_set. clear Hpl Hh Hfst.
  assert (Hidp : identityId (identity p) = id) by exact Hid.
  unfold getPlayerCount in Hcount. rewrite <- roster_length in Hcount.
  set (r := roster (players st)) in *. clearbody r.
  set (i := identity p) in *. clearbody i.
  assert (Hin : In id (List.map fst (JsMap.set id i r))).
  { apply (keys_set_In id i r id). left. reflexivity. }
  assert (Hne : JsMap.set id i r <> []).
  { intros E. rewrite E in Hin. exact Hin. }
  split; [apply (NoDup_keys_set id i r); exact Hnd|].
  split; [apply Forall_set; assumption|].
  split.
  { split; [|intros E; contradiction].
    destruct (hostId st) as [h0|]; [|simpl; discriminate].
    destruct (truthy_str (Some h0)); discriminate. }
  split.
  { intros x Hx. apply (keys_set_In id i r x).
    destruct (truthy_str (hostId st)).
    - right. apply Hhost. exact Hx.
    - left. congruence. }
  split; [pose proof (length_set id i r); lia|].
  apply Forall_set; assumption.
Qed.

Lemma roster_ok_removePlayer id st :
  roster_ok st -> roster_ok (snd (removePlayer id st)).
Proof.
  intros Hok.
  destruct (JsMap.get id (players st)) as [p|] eqn:Eg;
    [|rewrite removePlayer_absent by assumption; exact Hok].
  destruct Hok as (Hnd & Hco & Hnone & Hhost & Hlen & Hpal).
  destruct (removePlayer_host id st p Eg) as (_ & Hpl & Hsucc & Hkeep).
  unfold roster_ok. set (st' := snd (removePlayer id st)) in *.
  rewrite Hpl, roster_delete. rewrite Hpl in Hsucc.
  assert (Hval : forall q, In q (JsMap.values (JsMap.delete id (players st))) ->
                           In (Player.id q) (List.map fst (JsMap.delete id (roster (players st))))).
  { intros q Hq. rewrite <- roster_delete.
    unfold JsMap.values in Hq. apply in_map_iff in Hq. destruct Hq as ([k v] & <- & Hin).
    assert (Hr : In (k, identity v) (roster (JsMap.delete id (players st)))).
    { unfold roster. apply in_map_iff. exists (k, v). split; [reflexivity|exact Hin]. }
    assert (Hkv : Player.id v = k).
    { rewrite roster_delete in Hr. apply In_delete in Hr.
      rewrite Forall_forall in Hco. exact (Hco _ Hr). }
    simpl. rewrite Hkv. apply in_map_iff. exists (k, identity v). split; [reflexivity|exact Hr]. }
  assert (Hempty : JsMap.values (JsMap.delete id (players st)) = []
                   <-> JsMap.delete id (roster (players st)) = []).
  { rewrite <- roster_delete. unfold JsMap.values, roster.
    destruct (JsMap.delete id (players st)); simpl; split; congruence. }
  set (r := roster (players st)) in *.
  split; [apply (NoDup_keys_delete id r); exact Hnd|].
  split; [apply Forall_delete; exact Hco|].
  assert (Hl : (List.length (JsMap.delete id r) <= PLAYERS.MAX_PLAYERS)%nat).
  { pose proof (length_delete id r). lia. }
  assert (Hp : Forall (fun e => paletteColor (snd e)) (JsMap.delete id r)).
  { apply Forall_delete. exact Hpal. }
  assert (Hcases : hostId st = Some id \/ hostId st <> Some id).
  { destruct (hostId st) as [h|]; [|right; discriminate].
    destruct (String.eqb h id) eqn:E.
    - apply String.eqb_eq in E. left. congruence.
    - apply String.eqb_neq in E. right. congruence. }
  destruct Hcases as [Hh|Hh].
  - destruct (Hsucc Hh) as [Hnil Hcons].
    destruct (JsMap.values (JsMap.delete id (players st))) as [|q0 rest] eqn:Ev.
    + rewrite (Hnil eq_refl). split; [split; [intros _; apply Hempty; reflexivity|reflexivity]|].
      split; [discriminate|]. split; assumption.
    + destruct Hcons as (q & Hq & Hhq & _); [discriminate|]. rewrite Hhq.
      split.
      { split; [discriminate|]. intros E. apply Hempty in E. discriminate. }
      split; [intros x [= <-]; apply Hval; exact Hq|].
      split; assumption.
  - rewrite (Hkeep Hh).
    destruct (hostId st) as [h|] eqn:Eh.
    + assert (Hin : In h (List.map fst (JsMap.delete id r))).
      { apply (keys_delete_In id r h Hnd). split; [congruence|].
        apply Hhost. reflexivity. }
      split.
      { split; [discriminate|]. intros E. rewrite E in Hin. contradiction. }
      split; [intros x [= <-]; exact Hin|].
      split; assumption.
    + exfalso. assert (E : r = []) by (apply Hnone; reflexivity).
      assert (Hk : In id (JsMap.keys (players st))).
      { apply In_keys_get. eauto. }
      rewrite <- roster_keys in Hk. fold r in Hk. rewrite E in Hk. exact Hk.
Qed.

Lemma roster_ok_initial : roster_ok (store initialServer).
Proof.
  unfold roster_ok, roster_inv. simpl.
  split; [constructor|]. split; [constructor|].
  split; [split; reflexivity|]. split; [discriminate|].
  split; [unfold PLAYERS.MAX_PLAYERS; lia|constructor].
Qed.

Lemma roster_ok_step e s : roster_ok (store s) -> roster_ok (store (fst (step e s))).
Proof.
  intros Hok.
  destruct (step_roster e s)
    as [[Hr Hh] | [(sid & name & now & r1 & r2 & ns & _ & Hc & Hst)
                  | (sid & p & _ & _ & Hr & Hh)]].
  - unfold roster_ok. rewrite Hr, Hh. exact Hok.
  - rewrite Hst. apply roster_ok_createPlayer; assumption.
  - unfold roster_ok. rewrite Hr, Hh. apply roster_ok_removePlayer. exact Hok.
Qed.

Lemma roster_ok_reachable s : reachable s -> roster_ok (store s).
Proof.
  apply (reachable_invariant (fun s => roster_ok (store s))).
  - exact roster_ok_initial.
  - intros e s0 _. apply roster_ok_step.
Qed.

Lemma roster_ok_id st k p :
  roster_ok st -> JsMap.get k (players st) = Some p -> Player.id p = k.
Proof.
  intros (_ & Hco & _) Hg. apply get_In in Hg.
  rewrite Forall_forall in Hco. apply (Hco (k, identity p)).
  unfold roster. apply in_map_iff. exists (k, p). split; [reflexivity|exact Hg].
Qed.

Lemma roster_ok_NoDup st : roster_ok st -> NoDup (JsMap.keys (players st)).
Proof. intros (Hnd & _). rewrite <- roster_keys. exact Hnd. Qed.

Lemma roster_ok_In_id st k p :
  roster_ok st -> In (k, p) (players st) -> Player.id p = k.
Proof.
  intros Hok Hin. apply (roster_ok_id st k p Hok).
  apply In_get_NoDup; [apply roster_ok_NoDup; exact Hok|exact Hin].
Qed.

(** X1.  In every reachable state of the server a record found under an id
    carries that id, and no two participants share an id. *)
Theorem participants_stored_under_own_id s :
  reachable s ->
  (forall id p, getPlayer id (store s) = Some p -> Player.id p = id)
  /\ NoDup (List.map Player.id (getAllPlayers (store s))).
Proof.
  intros Hr. pose proof (roster_ok_reachable s Hr) as Hok.
  split; [intros id p; apply roster_ok_id; exact Hok|].
  assert (Hids : List.map Player.id (getAllPlayers (store s))
                 = JsMap.keys (players (store s))).
  { unfold getAllPlayers, JsMap.values, JsMap.keys. rewrite map_map.
    apply map_ext_in. intros [k v] Hin. simpl. exact (roster_ok_In_id _ k v Hok Hin). }
  rewrite Hids. apply roster_ok_NoDup. exact Hok.
Qed.

(** X2.  In every reachable state there is a host exactly when there is a
    participant, and the host id is the id of a participant. *)
Theorem host_is_a_participant s :
  reachable s ->
  (getHostId (store s) = None <-> getPlayerCount (store s) = 0%nat)
  /\ (forall h, getHostId (store s) = Some h ->
        exists p, getPlayer h (store s) = Some p /\ Player.id p = h).
Proof.
  intros Hr. pose proof (roster_ok_reachable s Hr) as Hok.
  destruct Hok as (Hnd & Hco & Hnone & Hhost & _).
  split.
  - unfold getHostId, getPlayerCount. rewrite Hnone, <- roster_length.
    destruct (roster (players (store s))); simpl; split; congruence.
  - intros h Hh. unfold getHostId in Hh. apply Hhost in Hh.
    rewrite roster_keys in Hh. apply In_keys_get in Hh. destruct Hh as [p Hp].
    exists p. split; [exact Hp|].
    exact (roster_ok_id _ h p (roster_ok_reachable s Hr) Hp).
Qed.

(** X3.  The session never holds more than [MAX_PLAYERS] participants. *)
Theorem player_count_within_capacity s :
  reachable s -> (getPlayerCount (store s) <= PLAYERS.MAX_PLAYERS)%nat.
Proof.
  intros Hr. destruct (roster_ok_reachable s Hr) as (_ & _ & _ & _ & Hlen & _).
  unfold getPlayerCount. rewrite <- roster_length. exact Hlen.
Qed.

(** X4.  The server never reassigns the identity of a participant.  Across
    any event other than a join or a disconnect under the same id, the
    participant stays in the session with the same [id], [name], [color],
    [colorIndex] and [joinedAt]. *)
Theorem identity_is_stable e s id p :
  getPlayer id (store s) = Some p ->
  eventReplaces e id = false ->
  exists p',
    getPlayer id (store (fst (step e s))) = Some p' /\ same_participant p p'.
Proof.
  unfold getPlayer. intros Hg He.
  assert (Hfrom : forall m',
             JsMap.get id (roster m') = JsMap.get id (roster (players (store s))) ->
             exists p', JsMap.get id m' = Some p' /\ same_participant p p').
  { intros m' Hm. rewrite !get_roster, Hg in Hm.
    destruct (JsMap.get id m') as [p'|]; [|discriminate].
    exists p'. split; [reflexivity|]. simpl in Hm. inversion Hm as [[H1 H2 H3 H4 H5]].
    unfold same_participant. auto. }
  destruct (step_roster e s)
    as [[Hr _] | [(sid & name & now & r1 & r2 & ns & -> & _ & Hst)
                  | (sid & q & -> & _ & Hr & _)]].
  - apply Hfrom. rewrite Hr. reflexivity.
  - apply Hfrom. rewrite Hst.
    destruct (createPlayer_store now r1 r2 sid name (store s)) as (q & _ & _ & _ & -> & _).
    simpl in He. apply String.eqb_neq in He.
    rewrite roster_set. apply get_set_other. exact He.
  - apply Hfrom. rewrite Hr.
    simpl in He. apply String.eqb_neq in He.
    destruct (JsMap.get sid (players (store s))) as [q0|] eqn:Eq.
    + destruct (removePlayer_host sid (store s) q0 Eq) as (_ & -> & _).
      rewrite roster_delete. apply get_delete_other. exact He.
    + rewrite removePlayer_absent by assumption. reflexivity.
Qed.

(** X5.  Every participant wears a palette color: in every reachable state
    [colorIndex] is an index into [PLAYER_COLORS] and [color] is the entry
    at that index. *)
Theorem colors_come_from_palette s id p :
  reachable s ->
  getPlayer id (store s) = Some p ->
  (Player.colorIndex p < List.length PLAYER_COLORS)%nat
  /\ List.nth_error PLAYER_COLORS (Player.colorIndex p) = Some (Player.color p)
  /\ In (Player.color p) PLAYER_COLORS.
Proof.
  intros Hr Hg. destruct (roster_ok_reachable s Hr) as (_ & _ & _ & _ & _ & Hpal).
  unfold getPlayer in Hg. apply get_In in Hg.
  rewrite Forall_forall in Hpal.
  assert (H : paletteColor (identity p)).
  { apply (Hpal (id, identity p)). unfold roster. apply in_map_iff.
    exists (id, p). split; [reflexivity|exact Hg]. }
  destruct H as [H1 H2]. split; [exact H1|]. split; [exact H2|].
  exact (nth_error_In _ _ H2).
Qed.

(** *** Phases of a match and the end of a match *)

Definition winnerOf (p : Player.t) : string * string * string :=
  (Player.id p, Player.name p, Player.color p).

(** The winners announced by the [gameEnd] messages of an output. *)
Definition gameEnds (out : Emitted) : list (option (string * string * string)) :=
  List.flat_map (fun m => match snd m with gameEnd w => [w] | _ => [] end) out.

(** The events whose handlers call [handleGameEnd]. *)
Definition endsMatch (e : Event) : bool :=
  match e with
  | KonamiCode _ _ | Disconnect _ | GameLoopFires _ _ => true
  | _ => false
  end.

Lemma gameEnds_app a b : gameEnds (a ++ b) = gameEnds a ++ gameEnds b.
Proof. apply flat_map_app. Qed.

Lemma gameEnds_notices l : Forall isEliminationNotice l -> gameEnds l = [].
Proof.
  induction 1 as [|[t m] l Hm _ IH]; [reflexivity|].
  unfold gameEnds in *. simpl. rewrite IH.
  unfold isEliminationNotice in Hm. simpl in Hm. destruct m; try contradiction. reflexivity.
Qed.

Lemma handleGameEnd_result w s :
  gameState (store s) <> ENDED ->
  store (fst (handleGameEnd w s)) = setGameState_noclock ENDED (store s)
  /\ snd (handleGameEnd w s) = [(ToAll, gameEnd (option_map winnerOf w))].
Proof.
  intros H. unfold handleGameEnd, getGameState.
  destruct (GameState_eqb (gameState (store s)) ENDED) eqn:E.
  - apply GameState_eqb_eq in E. contradiction.
  - destruct (scoreUpdateInterval _); destruct w; split; reflexivity.
Qed.

Lemma getAlivePlayers_same_players st st' :
  players st' = players st -> getAlivePlayers st' = getAlivePlayers st.
Proof. unfold getAlivePlayers. intros ->. reflexivity. Qed.

(** The outcome of ending a match in [server.js]: the phase after, the
    survivors after, the winner announced. *)
Definition matchEnds (s s' : Server) (out : Emitted) : Prop :=
  phase s = PLAYING
  /\ phase s' = ENDED
  /\ (List.length (getAlivePlayers (store s')) <= 1)%nat
  /\ gameEnds out = [option_map winnerOf (List.hd_error (getAlivePlayers (store s')))].

Lemma gameLoopCallback_phase clk s :
  (phase (fst (gameLoopCallback clk s)) = phase s
   /\ gameEnds (snd (gameLoopCallback clk s)) = [])
  \/ matchEnds s (fst (gameLoopCallback clk s)) (snd (gameLoopCallback clk s)).
Proof.
  unfold gameLoopCallback, getGameState.
  destruct (GameState_eqb (gameState (store s)) PLAYING) eqn:Eph;
    [|left; split; reflexivity].
  apply GameState_eqb_eq in Eph.
  destruct (tickPlayers_frame clk (getPlatformRadius (store s))
              (getAlivePlayers (store s)) false (store s)
              [(ToAll, positionUpdate (getPositionSnapshot (tkPositions clk) (store s)))])
    as (extra & Hout & F & G).
  destruct (fold_left _ _ _) as [[any st1] out1]. cbn [fst snd] in Hout, G.
  apply globals_gameState in G. apply gameEnds_notices in F.
  assert (Ho1 : gameEnds out1 = []).
  { rewrite Hout, gameEnds_app, F. reflexivity. }
  clear Hout F extra.
  assert (Hstay : forall s2 out2,
             gameState (store s2) = PLAYING -> gameEnds out2 = [] ->
             let r :=
               let warningState :=
                 getShrinkWarningState (tkWarning clk) PLATFORM.SHRINK_INTERVAL
                   PLATFORM.SHRINK_WARNING_TIME (store s2) in
               let (s3, out3) :=
                 if warningChanged (previousWarningState s2) warningState then
                   (with_previousWarningState
                      {| isWarning := isWarning warningState;
                         warningProgress := warningProgress warningState |} s2,
                    out2 ++ [(ToAll, platformWarning (isWarning warningState)
                                       (warningProgress warningState)
                                       (getPlatformRadius (store s)))])
                 else (s2, out2) in
               if Qlt_bool PLATFORM.MIN_RADIUS (getPlatformRadius (store s))
                  && shouldShrinkPlatform (tkShouldShrink clk) PLATFORM.SHRINK_INTERVAL
                       (store s3)
               then
                 let newRadius := (getPlatformRadius (store s) - PLATFORM.SHRINK_AMOUNT)%Q in
                 let s4 := with_store (shrinkPlatform (tkShrink clk) newRadius (store s3)) s3 in
                 (s4, out3 ++ [(ToAll, platformShrink (getPlatformRadius (store s4)))])
               else (s3, out3) in
             phase (fst r) = phase s /\ gameEnds (snd r) = []).
  { intros s2 out2 Hp Ho. cbv zeta. unfold phase. rewrite Eph.
    destruct (warningChanged _ _);
      destruct (Qlt_bool _ _ && shouldShrinkPlatform _ _ _); cbn [fst snd];
      rewrite ?gameEnds_app, Ho; split; try reflexivity; exact Hp. }
  assert (Hend : forall s2 out2 w,
             gameState (store s2) = ENDED ->
             (List.length (getAlivePlayers (store s2)) <= 1)%nat ->
             w = option_map winnerOf (List.hd_error (getAlivePlayers (store s2))) ->
             gameEnds out2 = [w] ->
             let r :=
               let warningState :=
                 getShrinkWarningState (tkWarning clk) PLATFORM.SHRINK_INTERVAL
                   PLATFORM.SHRINK_WARNING_TIME (store s2) in
               let (s3, out3) :=
                 if warningChanged (previousWarningState s2) warningState then
                   (with_previousWarningState
                      {| isWarning := isWarning warningState;
                         warningProgress := warningProgress warningState |} s2,
                    out2 ++ [(ToAll, platformWarning (isWarning warningState)
                                       (warningProgress warningState)
                                       (getPlatformRadius (store s)))])
                 else (s2, out2) in
               if Qlt_bool PLATFORM.MIN_RADIUS (getPlatformRadius (store s))
                  && shouldShrinkPlatform (tkShouldShrink clk) PLATFORM.SHRINK_INTERVAL
                       (store s3)
               then
                 let newRadius := (getPlatformRadius (store s) - PLATFORM.SHRINK_AMOUNT)%Q in
                 let s4 := with_store (shrinkPlatform (tkShrink clk) newRadius (store s3)) s3 in
                 (s4, out3 ++ [(ToAll, platformShrink (getPlatformRadius (store s4)))])
               else (s3, out3) in
             matchEnds s (fst r) (snd r)).
  { intros s2 out2 w Hp Hlen Hw Ho. cbv zeta. unfold matchEnds, phase.
    split; [exact Eph|].
    destruct (warningChanged _ _);
      destruct (Qlt_bool _ _ && shouldShrinkPlatform _ _ _); cbn [fst snd];
      rewrite ?gameEnds_app, Ho;
      (split; [exact Hp|]); (split; [exact Hlen|]); rewrite Hw; reflexivity. }
  destruct any.
  - destruct (List.length (getAlivePlayers (store (with_store st1 s))) <=? 1)%nat eqn:El.
    + right.
      destruct (handleGameEnd_result
                  (hd_error (getAlivePlayers (store (with_store st1 s))))
                  (with_store st1 s)) as [Hst Hout].
      { simpl. congruence. }
      destruct (handleGameEnd _ _) as [s2 o2]. cbn [fst snd] in Hst, Hout.
      assert (Ha : getAlivePlayers (store s2) = getAlivePlayers st1).
      { apply getAlivePlayers_same_players. rewrite Hst. reflexivity. }
      apply Hend with (w := option_map winnerOf (hd_error (getAlivePlayers st1))).
      * rewrite Hst. reflexivity.
      * rewrite Ha. apply Nat.leb_le. exact El.
      * rewrite Ha. reflexivity.
      * rewrite gameEnds_app, Ho1, Hout. reflexivity.
    + left. apply Hstay; [simpl; congruence|exact Ho1].
  - left. apply Hstay; [simpl; congruence|exact Ho1].
Qed.


Lemma eliminatePlayer_get now id st k p :
  JsMap.get k (players st) = Some p ->
  exists p',
    JsMap.get k (players (snd (eliminatePlayer now id st))) = Some p'
    /\ (k <> id -> p' = p)
    /\ (k = id -> Player.isEliminated p' = true)
    /\ (Player.isEliminated p = true -> Player.isEliminated p' = true)
    /\ Player.eliminations p' = Player.eliminations p.
Proof.
  intros Hk. unfold eliminatePlayer.
  destruct (JsMap.get id (players st)) as [q|] eqn:Eq.
  - destruct (Player.isEliminated q) eqn:Ee; cbn [negb snd].
    + exists p. split; [exact Hk|]. split; [reflexivity|].
      split; [intros ->; congruence|auto].
    + destruct (String.eqb id k) eqn:E.
      * apply String.eqb_eq in E. subst k.
        rewrite players_with_players, get_update_same, Hk. cbn [option_map].
        eexists. split; [reflexivity|]. split; [congruence|].
        split; [reflexivity|]. split; reflexivity.
      * apply String.eqb_neq in E.
        rewrite players_with_players, get_update_other by exact E.
        exists p. split; [exact Hk|]. split; [reflexivity|]. split; [congruence|auto].
  - exists p. split; [exact Hk|]. split; [reflexivity|].
    split; [intros ->; congruence|auto].
Qed.

Lemma roster_eliminatePlayer now id st :
  roster (players (snd (eliminatePlayer now id st))) = roster (players st).
Proof. apply (roster_applyOp (OpEliminatePlayer now id)). reflexivity. Qed.

Lemma konamiPlayer_eq sid clk st out a :
  konamiPlayer sid clk (st, out) a
  = if negb (Player.id a =? sid)%string then
      (snd (eliminatePlayer (clk (Player.id a)) (Player.id a) st),
       out ++ [(ToAll, playerEliminated (Player.id a) (Player.name a) None None)])
    else (st, out).
Proof.
  unfold konamiPlayer. destruct (negb _); [|reflexivity].
  destruct (eliminatePlayer _ _ st); reflexivity.
Qed.

(** The [forEach] of the Konami handler: the activator's record is left
    alone, every other listed participant ends up eliminated. *)
Lemma konamiPlayers_get sid clk l st out :
  roster (players (fst (fold_left (konamiPlayer sid clk) l (st, out)))) = roster (players st)
  /\ forall k p, JsMap.get k (players st) = Some p ->
       exists p',
         JsMap.get k (players (fst (fold_left (konamiPlayer sid clk) l (st, out)))) = Some p'
         /\ (k = sid -> p' = p)
         /\ (Player.isEliminated p = true -> Player.isEliminated p' = true)
         /\ (In k (List.map Player.id l) -> k <> sid -> Player.isEliminated p' = true)
         /\ Player.eliminations p' = Player.eliminations p.
Proof.
  revert st out. induction l as [|a l IH]; intros st out; cbn [fold_left].
  - split; [reflexivity|]. intros k p Hk. exists p. split; [exact Hk|].
    split; [reflexivity|]. split; [auto|]. split; [intros []|reflexivity].
  - rewrite konamiPlayer_eq.
    destruct (negb (Player.id a =? sid)%string) eqn:Ea; cbv iota.
    + pose proof (roster_eliminatePlayer (clk (Player.id a)) (Player.id a) st) as Hr.
      pose proof (eliminatePlayer_get (clk (Player.id a)) (Player.id a) st) as Hg.
      set (st1 := snd (eliminatePlayer (clk (Player.id a)) (Player.id a) st)) in *.
      clearbody st1.
      destruct (IH st1 (out ++ [(ToAll, playerEliminated (Player.id a) (Player.name a)
                                          None None)])) as [IHr IHg].
      split; [exact (eq_trans IHr Hr)|].
      intros k p Hk. destruct (Hg k p Hk) as (p1 & G1 & Hne & Heq & Hmono & Hel).
      destruct (IHg k p1 G1) as (p2 & G2 & Hsid & Hmono2 & Hin2 & Hel2).
      exists p2. split; [exact G2|].
      apply negb_true_iff, String.eqb_neq in Ea.
      split; [intros ->; rewrite (Hsid eq_refl); apply Hne; congruence|].
      split; [auto|].
      split; [|congruence].
      intros [Hin|Hin] Hks.
      * apply Hmono2, Heq. congruence.
      * apply Hin2; assumption.
    + destruct (IH st out) as [IHr IHg]. split; [exact IHr|].
      intros k p Hk. destruct (IHg k p Hk) as (p2 & G2 & Hsid & Hmono2 & Hin2 & Hel2).
      exists p2. split; [exact G2|]. split; [exact Hsid|]. split; [exact Hmono2|].
      split; [|exact Hel2].
      apply negb_false_iff, String.eqb_eq in Ea.
      intros [Hin|Hin] Hks; [congruence|apply Hin2; assumption].
Qed.

Lemma none_alive (m : JsMap.t Player.t) :
  (forall k v, In (k, v) m -> Player.isEliminated v = true) ->
  List.filter (fun p => negb (Player.isEliminated p)) (JsMap.values m) = [].
Proof.
  induction m as [|[k0 v0] m IH]; simpl; intros H; [reflexivity|].
  rewrite (H k0 v0 (or_introl eq_refl)). simpl. apply IH.
  intros k v Hin. apply (H k v). right. exact Hin.
Qed.

Lemma alive_only (m : JsMap.t Player.t) sid a :
  NoDup (JsMap.keys m) ->
  JsMap.get sid m = Some a ->
  Player.isEliminated a = false ->
  (forall k v, In (k, v) m -> k <> sid -> Player.isEliminated v = true) ->
  List.filter (fun p => negb (Player.isEliminated p)) (JsMap.values m) = [a].
Proof.
  induction m as [|[k0 v0] m IH]; simpl; intros Hnd Hg Ha Hrest; [discriminate|].
  inversion Hnd as [|? ? Hn Hd]; subst.
  destruct (String.eqb k0 sid) eqn:E.
  - apply String.eqb_eq in E. subst k0. inversion Hg; subst v0. rewrite Ha. simpl.
    f_equal. apply none_alive. intros k v Hin. apply (Hrest k v); [right; exact Hin|].
    intros ->. apply Hn. unfold JsMap.keys. apply in_map_iff.
    exists (sid, v). split; [reflexivity|exact Hin].
  - apply String.eqb_neq in E.
    rewrite (Hrest k0 v0 (or_introl eq_refl) E). simpl.
    apply IH; try assumption. intros k v Hin. apply Hrest. right. exact Hin.
Qed.

Lemma konami_leaves_activator sid clk st a :
  roster_ok st ->
  JsMap.get sid (players st) = Some a ->
  Player.isEliminated a = false ->
  getAlivePlayers (fst (fold_left (konamiPlayer sid clk) (getAlivePlayers st) (st, [])))
  = [a].
Proof.
  intros Hok Hg Ha. pose proof Hok as (Hnd & _).
  destruct (konamiPlayers_get sid clk (getAlivePlayers st) st []) as [Hr Hget].
  set (st1 := fst (fold_left _ _ _)) in *. clearbody st1.
  unfold getAlivePlayers at 1.
  assert (Hnd1 : NoDup (JsMap.keys (players st1))).
  { rewrite <- roster_keys, Hr. exact Hnd. }
  apply alive_only with (sid := sid); [exact Hnd1| | exact Ha|].
  - destruct (Hget sid a Hg) as (p' & G & Hsid & _). rewrite G, (Hsid eq_refl). reflexivity.
  - intros k v Hin Hk.
    assert (Hkin : In k (JsMap.keys (players st))).
    { rewrite <- roster_keys, <- Hr, roster_keys. unfold JsMap.keys.
      apply in_map_iff. exists (k, v). split; [reflexivity|exact Hin]. }
    apply In_keys_get in Hkin. destruct Hkin as [p Hp].
    destruct (Hget k p Hp) as (p' & G & _ & Hmono & Hl & _).
    rewrite (In_get_NoDup k v _ Hnd1 Hin) in G. inversion G; subst p'.
    destruct (Player.isEliminated p) eqn:Ep; [apply Hmono; reflexivity|].
    apply Hl; [|exact Hk].
    assert (Hid : Player.id p = k) by exact (roster_ok_id st k p Hok Hp).
    rewrite <- Hid. apply in_map. unfold getAlivePlayers. apply filter_In.
    split; [|rewrite Ep; reflexivity].
    unfold JsMap.values. apply in_map_iff. exists (k, p). split; [reflexivity|].
    apply get_In. exact Hp.
Qed.

(** The Konami handler when the sender is an alive participant of a match
    in play. *)
Lemma onKonamiCode_result sid clk s a :
  roster_ok (store s) ->
  phase s = PLAYING ->
  getPlayer sid (store s) = Some a ->
  Player.isEliminated a = false ->
  phase (fst (onKonamiCode sid clk s)) = ENDED
  /\ getAlivePlayers (store (fst (onKonamiCode sid clk s))) = [a]
  /\ gameEnds (snd (onKonamiCode sid clk s)) = [Some (winnerOf a)]
  /\ In (ToAll, konamiActivated (Player.id a) (Player.name a) (Player.color a))
        (snd (onKonamiCode sid clk s))
  /\ (forall k p, getPlayer k (store s) = Some p ->
        exists p', getPlayer k (store (fst (onKonamiCode sid clk s))) = Some p'
                   /\ Player.eliminations p' = Player.eliminations p).
Proof.
  intros Hok Eph Eg Ea. unfold onKonamiCode, getGameState.
  unfold phase in Eph. rewrite Eph. cbn [GameState_eqb negb]. rewrite Eg, Ea.
  unfold getPlayer in Eg.
  pose proof (konami_leaves_activator sid clk (store s) a Hok Eg Ea) as Halive.
  destruct (konamiPlayers_get sid clk (getAlivePlayers (store s)) (store s) [])
    as [_ Hget].
  destruct (konamiPlayers_frame sid clk (getAlivePlayers (store s)) (store s) [])
    as (extra & Hout & F & G).
  destruct (fold_left _ _ _) as [st1 out1]. cbn [fst snd] in Hout, G, Halive.
  apply globals_gameState in G. apply gameEnds_notices in F.
  destruct (handleGameEnd_result (Some a) (with_store st1 s)) as [Hst Ho].
  { simpl. congruence. }
  destruct (handleGameEnd _ _) as [s2 o2]. cbn [fst snd] in Hst, Ho |- *.
  assert (Hal : getAlivePlayers (store s2) = [a]).
  { rewrite <- Halive. apply getAlivePlayers_same_players. rewrite Hst. reflexivity. }
  unfold phase. rewrite Hal, Hst.
  split; [reflexivity|]. split; [reflexivity|].
  split; [rewrite !gameEnds_app, Hout, gameEnds_app, F, Ho; reflexivity|].
  split; [apply in_or_app; left; apply in_or_app; right; left; reflexivity|].
  intros k p Hk. destruct (Hget k p Hk) as (p' & G' & _ & _ & _ & Hel).
  exists p'. split; [exact G'|exact Hel].
Qed.

Lemma onKonamiCode_phase sid clk s :
  roster_ok (store s) ->
  (phase (fst (onKonamiCode sid clk s)) = phase s
   /\ gameEnds (snd (onKonamiCode sid clk s)) = [])
  \/ matchEnds s (fst (onKonamiCode sid clk s)) (snd (onKonamiCode sid clk s)).
Proof.
  intros Hok.
  destruct (GameState_eqb (gameState (store s)) PLAYING) eqn:Eph.
  - apply GameState_eqb_eq in Eph.
    destruct (getPlayer sid (store s)) as [a|] eqn:Eg.
    + destruct (Player.isEliminated a) eqn:Ea.
      * left. unfold onKonamiCode, getGameState. rewrite Eph, Eg, Ea. split; reflexivity.
      * right. destruct (onKonamiCode_result sid clk s a Hok Eph Eg Ea) as (H1 & H2 & H3 & _).
        unfold matchEnds. rewrite H2. split; [exact Eph|]. split; [exact H1|].
        split; [simpl; lia|exact H3].
    + left. unfold onKonamiCode, getGameState. rewrite Eph, Eg. split; reflexivity.
  - left. unfold onKonamiCode, getGameState. rewrite Eph. split; reflexivity.
Qed.

Lemma onDisconnect_phase sid s :
  (phase (fst (onDisconnect sid s)) = phase s
   /\ gameEnds (snd (onDisconnect sid s)) = [])
  \/ matchEnds s (fst (onDisconnect sid s)) (snd (onDisconnect sid s)).
Proof.
  unfold onDisconnect, getGameState.
  pose proof (gameState_removePlayer sid (store s)) as G.
  destruct (removePlayer sid (store s)) as [[player|] st1]; [|left; split; reflexivity].
  cbn [snd] in G.
  destruct (GameState_eqb (gameState (store (with_store st1 s))) PLAYING) eqn:Eph;
    [|left; split; [unfold phase; exact G|reflexivity]].
  apply GameState_eqb_eq in Eph.
  destruct (List.length (getAlivePlayers (store (with_store st1 s))) <=? 1)%nat eqn:El;
    [|left; split; [unfold phase; exact G|reflexivity]].
  right.
  destruct (handleGameEnd_result (hd_error (getAlivePlayers (store (with_store st1 s))))
              (with_store st1 s)) as [Hst Ho].
  { rewrite Eph. discriminate. }
  destruct (handleGameEnd _ _) as [s2 o2]. cbn [fst snd] in Hst, Ho |- *.
  assert (Hal : getAlivePlayers (store s2) = getAlivePlayers st1).
  { apply getAlivePlayers_same_players. rewrite Hst. reflexivity. }
  unfold matchEnds, phase. rewrite Hal, Hst.
  split; [simpl in Eph; congruence|]. split; [reflexivity|].
  split; [apply Nat.leb_le; exact El|].
  rewrite gameEnds_app, Ho. reflexivity.
Qed.


Lemma isHost_hostId sid st : isHost sid st = true -> hostId st = Some sid.
Proof.
  unfold isHost, strict_eq. destruct (hostId st) as [h|]; [|discriminate].
  intros E. apply String.eqb_eq in E. congruence.
Qed.

(** What one event does to the phase, and which [gameEnd] it broadcasts. *)
Lemma step_phase e s :
  timers_ok s -> roster_ok (store s) ->
  (phase (fst (step e s)) = phase s /\ gameEnds (snd (step e s)) = [])
  \/ (phase s = LOBBY /\ phase (fst (step e s)) = COUNTDOWN
      /\ gameEnds (snd (step e s)) = []
      /\ exists sid, e = StartGame sid /\ hostId (store s) = Some sid)
  \/ (phase s = COUNTDOWN /\ phase (fst (step e s)) = PLAYING
      /\ gameEnds (snd (step e s)) = []
      /\ exists h nowState nowTimes nowSnapshot,
           e = CountdownFires h nowState nowTimes nowSnapshot)
  \/ (matchEnds s (fst (step e s)) (snd (step e s)) /\ endsMatch e = true)
  \/ (phase s = ENDED /\ phase (fst (step e s)) = LOBBY
      /\ gameEnds (snd (step e s)) = []
      /\ exists sid rand nowSnapshot,
           e = PlayAgain sid rand nowSnapshot /\ hostId (store s) = Some sid).
Proof.
  intros Ht Hok. destruct e; cbn [step].
  - left. split; reflexivity.
  - left. unfold onJoin. destruct (PLAYERS.MAX_PLAYERS <=? _)%nat; [split; reflexivity|].
    pose proof (gameState_createPlayer now r1 r2 sid name (store s)) as G.
    destruct (createPlayer now r1 r2 sid name (store s)) as [player st1].
    cbn [fst snd] in G |- *. split; [|reflexivity].
    unfold phase. rewrite store_startGameLoop. exact G.
  - left. unfold onInput. destruct (negb _); [split; reflexivity|].
    destruct (getPlayer sid (store s)) as [p|]; [|split; reflexivity].
    destruct (negb _); [|split; reflexivity]. cbn [fst snd]. split; [|reflexivity].
    unfold phase. cbn [store with_store].
    apply globals_gameState, globals_updatePlayerPosition.
  - left. unfold onCollision. destruct (negb _); [split; reflexivity|].
    destruct (getPlayer sid (store s)) as [p|]; [|split; reflexivity].
    destruct (getPlayer otherPlayerId (store s)) as [q|]; [|split; reflexivity].
    destruct (negb _ && negb _); [|split; reflexivity]. cbn [fst snd]. split; [|reflexivity].
    unfold phase. cbn [store with_store].
    apply globals_gameState, globals_recordCollision.
  - unfold onStartGame.
    destruct (isHost sid (store s)) eqn:Eh; cbn [negb]; [|left; split; reflexivity].
    destruct (GameState_eqb (getGameState (store s)) LOBBY) eqn:Eph; cbn [negb];
      [|left; split; reflexivity].
    destruct (List.length (getAllPlayers (store s)) <? 1)%nat; [left; split; reflexivity|].
    right. left. apply GameState_eqb_eq in Eph.
    split; [exact Eph|]. split; [reflexivity|]. split; [reflexivity|].
    exists sid. split; [reflexivity|]. apply isHost_hostId. exact Eh.
  - left. unfold onReady. cbn [fst snd]. split; [|reflexivity].
    unfold phase. cbn [store with_store].
    apply globals_gameState, globals_setPlayerReady.
  - destruct (onKonamiCode_phase sid clk s Hok) as [H|H]; [left; exact H|].
    right. right. right. left. split; [exact H|reflexivity].
  - unfold onPlayAgain.
    destruct (isHost sid (store s)) eqn:Eh; cbn [negb]; [|left; split; reflexivity].
    destruct (GameState_eqb (getGameState (store s)) ENDED) eqn:Eph; cbn [negb];
      [|left; split; reflexivity].
    right. right. right. right. apply GameState_eqb_eq in Eph.
    split; [exact Eph|]. split; [reflexivity|]. split; [reflexivity|].
    exists sid, rand, nowSnapshot. split; [reflexivity|]. apply isHost_hostId. exact Eh.
  - destruct (onDisconnect_phase sid s) as [H|H]; [left; exact H|].
    right. right. right. left. split; [exact H|reflexivity].
  - destruct (callbackOf h (timers s)) as [[| |]|]; try (left; split; reflexivity).
    destruct (gameLoopCallback_phase clk s) as [H|H]; [left; exact H|].
    right. right. right. left. split; [exact H|reflexivity].
  - left. destruct (callbackOf h (timers s)) as [[| |]|]; try (split; reflexivity).
    unfold scoreCallback. destruct (GameState_eqb _ PLAYING); [|split; reflexivity].
    pose proof (globals_getScoreSnapshot clk (store s)) as G.
    destruct (getScoreSnapshot clk (store s)) as [scores st1]. cbn [fst snd] in G |- *.
    split; [|reflexivity]. unfold phase. cbn [store with_store].
    apply globals_gameState. exact G.
  - destruct (callbackOf h (timers s)) as [[| |count]|] eqn:E;
      try (left; split; reflexivity).
    destruct Ht as (Hs & Hc & _).
    assert (Hph : phase s = COUNTDOWN).
    { apply Hc. assert (Hcd : countdownInterval s = Some h).
      { apply (ok_countdown _ _ _ _ _ _ Hs). exists count. exact E. }
      rewrite Hcd. discriminate. }
    unfold countdownCallback. cbv zeta.
    destruct (0 <? count - 1); [left; split; reflexivity|].
    right. right. left. split; [exact Hph|]. cbn [fst snd].
    split; [|split; [reflexivity|eauto]].
    unfold phase. rewrite store_startScoreUpdates, store_startGameLoop. reflexivity.
Qed.

(** X6.  The phases of a match follow one cycle.  An event of the server
    leaves the phase alone or moves it one step along
    lobby -> countdown -> playing -> ended -> lobby: into the countdown
    only on [startGame] from the host, into play only when the countdown
    interval fires, to the end only from play (game loop, disconnect or
    Konami code), and back to the lobby only on [playAgain] from the host. *)
Theorem phase_cycle e s :
  reachable s ->
  phase (fst (step e s)) = phase s
  \/ (phase s = LOBBY /\ phase (fst (step e s)) = COUNTDOWN
      /\ exists sid, e = StartGame sid /\ getHostId (store s) = Some sid)
  \/ (phase s = COUNTDOWN /\ phase (fst (step e s)) = PLAYING
      /\ exists h nowState nowTimes nowSnapshot,
           e = CountdownFires h nowState nowTimes nowSnapshot)
  \/ (phase s = PLAYING /\ phase (fst (step e s)) = ENDED /\ endsMatch e = true)
  \/ (phase s = ENDED /\ phase (fst (step e s)) = LOBBY
      /\ exists sid rand nowSnapshot,
           e = PlayAgain sid rand nowSnapshot /\ getHostId (store s) = Some sid).
Proof.
  intros Hr.
  destruct (step_phase e s (timers_ok_reachable s Hr) (roster_ok_reachable s Hr))
    as [[H _] | [(H1 & H2 & _ & H3) | [(H1 & H2 & _ & H3)
       | [[(H1 & H2 & _) H3] | (H1 & H2 & _ & H3)]]]].
  - left. exact H.
  - right. left. auto.
  - right. right. left. auto.
  - right. right. right. left. auto.
  - right. right. right. right. auto.
Qed.

(** X7.  A match ends with at most one survivor, who is announced.  When
    an event moves the server into phase [ENDED], at most one participant
    is not eliminated afterwards and the event broadcasts exactly one
    [gameEnd], naming that participant (or nobody when none is left); an
    event that does not end the match broadcasts no [gameEnd]. *)
Theorem match_end_announces_survivor e s :
  reachable s ->
  let s' := fst (step e s) in
  let out := snd (step e s) in
  (phase s <> ENDED -> phase s' = ENDED ->
   (List.length (getAlivePlayers (store s')) <= 1)%nat
   /\ gameEnds out
      = [option_map winnerOf (List.hd_error (getAlivePlayers (store s')))])
  /\ (phase s = ENDED \/ phase s' <> ENDED -> gameEnds out = []).
Proof.
  intros Hr. cbv zeta.
  destruct (step_phase e s (timers_ok_reachable s Hr) (roster_ok_reachable s Hr))
    as [[H1 H2] | [(H1 & H2 & H3 & _) | [(H1 & H2 & H3 & _)
       | [[(H1 & H2 & H3 & H4) _] | (H1 & H2 & H3 & _)]]]].
  - split; [intros Hne He; congruence|intros _; exact H2].
  - split; [intros _ He; congruence|intros _; exact H3].
  - split; [intros _ He; congruence|intros _; exact H3].
  - split; [intros _ _; split; assumption|].
    intros [He|He]; [congruence|contradiction].
  - split; [intros _ He; congruence|intros _; exact H3].
Qed.

(** *** The radius of the arena *)

Lemma platformRadius_createPlayer now r1 r2 id name st :
  platformRadius (snd (createPlayer now r1 r2 id name st)) = platformRadius st.
Proof.
  unfold createPlayer. cbv zeta. cbn [snd].
  match goal with |- context [if ?c then _ else _] => destruct c end; reflexivity.
Qed.

Lemma platformRadius_removePlayer id st :
  platformRadius (snd (removePlayer id st)) = platformRadius st.
Proof.
  unfold removePlayer. destruct (JsMap.get id (players st)); [|reflexivity].
  cbv zeta. cbn [snd].
  destruct (strict_eq _ id); [|reflexivity].
  destruct (0 <? _)%nat; [|reflexivity].
  destruct (sort_by_joinedAt _); reflexivity.
Qed.

(** A shrink of the arena by the game loop at the state [s]. *)
Definition shrinks (clk : TickClock) (s s' : Server) (out : Emitted) : Prop :=
  phase s = PLAYING
  /\ Qlt_bool PLATFORM.MIN_RADIUS (platformRadius (store s)) = true
  /\ (exists t, lastShrinkTime (store s) = Some t /\ t <> 0
                /\ PLATFORM.SHRINK_INTERVAL <= tkShouldShrink clk - t)
  /\ platformRadius (store s')
     = Qmax (platformRadius (store s) - PLATFORM.SHRINK_AMOUNT) PLATFORM.MIN_RADIUS
  /\ lastShrinkTime (store s') = Some (tkShrink clk)
  /\ In (ToAll, platformShrink (platformRadius (store s'))) out.

Lemma shouldShrinkPlatform_true now interval st :
  shouldShrinkPlatform now interval st = true ->
  exists t, lastShrinkTime st = Some t /\ t <> 0 /\ interval <= now - t.
Proof.
  unfold shouldShrinkPlatform, truthy, time_of.
  destruct (lastShrinkTime st) as [t|]; [|discriminate].
  destruct (t =? 0) eqn:E; cbn [negb]; [discriminate|].
  intros H. exists t. split; [reflexivity|]. split; [apply Z.eqb_neq; exact E|].
  apply Z.leb_le. exact H.
Qed.

Lemma gameLoopCallback_radius clk s :
  (platformRadius (store (fst (gameLoopCallback clk s))) = platformRadius (store s)
   /\ lastShrinkTime (store (fst (gameLoopCallback clk s))) = lastShrinkTime (store s))
  \/ shrinks clk s (fst (gameLoopCallback clk s)) (snd (gameLoopCallback clk s)).
Proof.
  unfold gameLoopCallback, getGameState.
  destruct (GameState_eqb (gameState (store s)) PLAYING) eqn:Eph;
    [|left; split; reflexivity].
  apply GameState_eqb_eq in Eph.
  destruct (tickPlayers_frame clk (getPlatformRadius (store s))
              (getAlivePlayers (store s)) false (store s)
              [(ToAll, positionUpdate (getPositionSnapshot (tkPositions clk) (store s)))])
    as (extra & _ & _ & G).
  destruct (fold_left _ _ _) as [[any st1] out1]. cbn [fst snd] in G.
  assert (Hafter : forall s2 out2,
             globals (store s2) = globals (store s) \/
             (platformRadius (store s2) = platformRadius (store s)
              /\ lastShrinkTime (store s2) = lastShrinkTime (store s)) ->
             let r :=
               let warningState :=
                 getShrinkWarningState (tkWarning clk) PLATFORM.SHRINK_INTERVAL
                   PLATFORM.SHRINK_WARNING_TIME (store s2) in
               let (s3, out3) :=
                 if warningChanged (previousWarningState s2) warningState then
                   (with_previousWarningState
                      {| isWarning := isWarning warningState;
                         warningProgress := warningProgress warningState |} s2,
                    out2 ++ [(ToAll, platformWarning (isWarning warningState)
                                       (warningProgress warningState)
                                       (getPlatformRadius (store s)))])
                 else (s2, out2) in
               if Qlt_bool PLATFORM.MIN_RADIUS (getPlatformRadius (store s))
                  && shouldShrinkPlatform (tkShouldShrink clk) PLATFORM.SHRINK_INTERVAL
                       (store s3)
               then
                 let newRadius := (getPlatformRadius (store s) - PLATFORM.SHRINK_AMOUNT)%Q in
                 let s4 := with_store (shrinkPlatform (tkShrink clk) newRadius (store s3)) s3 in
                 (s4, out3 ++ [(ToAll, platformShrink (getPlatformRadius (store s4)))])
               else (s3, out3) in
             (platformRadius (store (fst r)) = platformRadius (store s)
              /\ lastShrinkTime (store (fst r)) = lastShrinkTime (store s))
             \/ shrinks clk s (fst r) (snd r)).
  { intros s2 out2 H2. cbv zeta.
    assert (Hr : platformRadius (store s2) = platformRadius (store s)
                 /\ lastShrinkTime (store s2) = lastShrinkTime (store s)).
    { destruct H2 as [H2|H2]; [|exact H2].
      split; [apply globals_platformRadius|apply globals_lastShrinkTime]; exact H2. }
    clear H2. destruct Hr as [Hr Hl].
    assert (Hshould : forall s3, store s3 = store s2 ->
               shouldShrinkPlatform (tkShouldShrink clk) PLATFORM.SHRINK_INTERVAL (store s3)
               = true ->
               exists t, lastShrinkTime (store s) = Some t /\ t <> 0
                         /\ PLATFORM.SHRINK_INTERVAL <= tkShouldShrink clk - t).
    { intros s3 E3 H. rewrite E3 in H. apply shouldShrinkPlatform_true in H.
      rewrite Hl in H. exact H. }
    destruct (warningChanged _ _);
      (destruct (Qlt_bool PLATFORM.MIN_RADIUS (getPlatformRadius (store s))) eqn:Emin;
       cbn [andb]; [|left; split; assumption]);
      match goal with
      | |- context [shouldShrinkPlatform ?a ?b (store ?s3)] =>
          destruct (shouldShrinkPlatform a b (store s3)) eqn:Esh;
          [pose proof (Hshould s3 eq_refl Esh) as Ht|left; split; assumption]
      end;
      right; unfold shrinks, phase; cbn [fst snd];
      (split; [exact Eph|]); (split; [exact Emin|]); (split; [exact Ht|]);
      (split; [reflexivity|]); (split; [reflexivity|]);
      apply in_or_app; right; left; reflexivity. }
  destruct any.
  - destruct (List.length (getAlivePlayers (store (with_store st1 s))) <=? 1)%nat.
    + destruct (handleGameEnd_result
                  (hd_error (getAlivePlayers (store (with_store st1 s))))
                  (with_store st1 s)) as [Hst _].
      { simpl. apply globals_gameState in G. congruence. }
      destruct (handleGameEnd _ _) as [s2 o2]. cbn [fst] in Hst.
      apply Hafter. right. rewrite Hst. cbn.
      split; [apply globals_platformRadius|apply globals_lastShrinkTime]; exact G.
    + apply Hafter. left. exact G.
  - apply Hafter. left. exact G.
Qed.

(** What one event does to the radius of the arena. *)
Lemma step_radius e s :
  platformRadius (store (fst (step e s))) = platformRadius (store s)
  \/ (phase s = ENDED /\ eventResets e = true
      /\ platformRadius (store (fst (step e s))) = PLATFORM.INITIAL_RADIUS)
  \/ (exists h clk, e = GameLoopFires h clk
                    /\ shrinks clk s (fst (step e s)) (snd (step e s))).
Proof.
  destruct e; cbn [step].
  - left. reflexivity.
  - left. unfold onJoin. destruct (PLAYERS.MAX_PLAYERS <=? _)%nat; [reflexivity|].
    pose proof (platformRadius_createPlayer now r1 r2 sid name (store s)) as G.
    destruct (createPlayer now r1 r2 sid name (store s)) as [player st1].
    cbn [fst snd] in G |- *. rewrite store_startGameLoop. exact G.
  - left. unfold onInput. destruct (negb _); [reflexivity|].
    destruct (getPlayer sid (store s)) as [p|]; [|reflexivity].
    destruct (negb _); [|reflexivity]. cbn [fst store with_store].
    apply globals_platformRadius, globals_updatePlayerPosition.
  - left. unfold onCollision. destruct (negb _); [reflexivity|].
    destruct (getPlayer sid (store s)) as [p|]; [|reflexivity].
    destruct (getPlayer otherPlayerId (store s)) as [q|]; [|reflexivity].
    destruct (negb _ && negb _); [|reflexivity]. cbn [fst store with_store].
    apply globals_platformRadius, globals_recordCollision.
  - left. unfold onStartGame.
    destruct (negb (isHost sid (store s))); [reflexivity|].
    destruct (negb (GameState_eqb _ LOBBY)); [reflexivity|].
    destruct (List.length _ <? 1)%nat; reflexivity.
  - left. unfold onReady. cbn [fst store with_store].
    apply globals_platformRadius, globals_setPlayerReady.
  - left. unfold onKonamiCode. destruct (negb _); [reflexivity|].
    destruct (getPlayer sid (store s)) as [a|]; [|reflexivity].
    destruct (Player.isEliminated a); [reflexivity|].
    destruct (konamiPlayers_frame sid clk (getAlivePlayers (store s)) (store s) [])
      as (extra & _ & _ & G).
    destruct (fold_left _ _ _) as [st1 out1]. cbn [fst snd] in G.
    destruct (handleGameEnd_quiet (Some a) (with_store st1 s)) as [_ Hq].
    destruct (handleGameEnd _ _) as [s2 o2]. cbn [fst] in Hq |- *.
    rewrite Hq. cbn [store with_store]. apply globals_platformRadius. exact G.
  - unfold onPlayAgain.
    destruct (negb (isHost sid (store s))); [left; reflexivity|].
    destruct (GameState_eqb (getGameState (store s)) ENDED) eqn:Eph; cbn [negb];
      [|left; reflexivity].
    right. left. apply GameState_eqb_eq in Eph. split; [exact Eph|]. split; reflexivity.
  - left. unfold onDisconnect.
    pose proof (platformRadius_removePlayer sid (store s)) as G.
    destruct (removePlayer sid (store s)) as [[player|] st1]; [|reflexivity].
    cbn [snd] in G.
    destruct (GameState_eqb _ PLAYING); [|exact G].
    destruct (List.length _ <=? 1)%nat; [|exact G].
    destruct (handleGameEnd_quiet (hd_error (getAlivePlayers (store (with_store st1 s))))
                (with_store st1 s)) as [_ Hq].
    destruct (handleGameEnd _ _) as [s2 o2]. cbn [fst] in Hq |- *.
    rewrite Hq. exact G.
  - destruct (callbackOf h (timers s)) as [[| |]|]; try (left; reflexivity).
    destruct (gameLoopCallback_radius clk s) as [[H _]|H]; [left; exact H|].
    right. right. exists h, clk. split; [reflexivity|exact H].
  - left. destruct (callbackOf h (timers s)) as [[| |]|]; try reflexivity.
    unfold scoreCallback. destruct (GameState_eqb _ PLAYING); [|reflexivity].
    pose proof (globals_getScoreSnapshot clk (store s)) as G.
    destruct (getScoreSnapshot clk (store s)) as [scores st1]. cbn [fst snd] in G |- *.
    cbn [store with_store]. apply globals_platformRadius. exact G.
  - left. destruct (callbackOf h (timers s)) as [[| |count]|]; try reflexivity.
    unfold countdownCallback. cbv zeta.
    destruct (0 <? count - 1); [reflexivity|]. cbn [fst].
    rewrite store_startScoreUpdates, store_startGameLoop.
    cbn [countdownInterval setCount]. destruct (countdownInterval s); reflexivity.
Qed.

(** The radii the arena takes. *)
Definition radiusLevels : list Q := [10; 8; 6; 4]%Q.

Lemma radius_level_shrinks r :
  In r radiusLevels -> Qlt_bool PLATFORM.MIN_RADIUS r = true ->
  Qmax (r - PLATFORM.SHRINK_AMOUNT) PLATFORM.MIN_RADIUS = (r - PLATFORM.SHRINK_AMOUNT)%Q
  /\ In (r - PLATFORM.SHRINK_AMOUNT)%Q radiusLevels.
Proof.
  unfold radiusLevels. intros [<-|[<-|[<-|[<-|[]]]]] H;
    try (split; [reflexivity|simpl; auto 6]).
  discriminate.
Qed.

Lemma radius_levels_reachable s : reachable s -> In (platformRadius (store s)) radiusLevels.
Proof.
  apply (reachable_invariant (fun s => In (platformRadius (store s)) radiusLevels)).
  - left. reflexivity.
  - intros e s0 _ H.
    destruct (step_radius e s0) as [-> | [(_ & _ & ->) | (h & clk & _ & Hs)]].
    + exact H.
    + left. reflexivity.
    + destruct Hs as (_ & Hmin & _ & -> & _).
      destruct (radius_level_shrinks _ H Hmin) as [-> Hin]. exact Hin.
Qed.

(** X8.  The arena radius is always one of 10, 8, 6 and 4; in particular
    it stays between [MIN_RADIUS] and [INITIAL_RADIUS]. *)
Theorem arena_radius_levels s :
  reachable s ->
  In (getPlatformRadius (store s)) radiusLevels
  /\ (PLATFORM.MIN_RADIUS <= getPlatformRadius (store s) <= PLATFORM.INITIAL_RADIUS)%Q.
Proof.
  intros Hr. pose proof (radius_levels_reachable s Hr) as H.
  split; [exact H|]. unfold getPlatformRadius.
  destruct H as [<-|[<-|[<-|[<-|[]]]]]; split; discriminate.
Qed.

(** X9.  The arena changes size in two ways only.  An event leaves the
    radius alone, or it is the host's [playAgain] after a match, which
    restores the initial radius, or it is a run of the game loop during
    play, at least [SHRINK_INTERVAL] ms after the last shrink (or the start
    of the match), with the radius above the minimum: then the radius goes
    down by exactly [SHRINK_AMOUNT], the shrink clock restarts and the new
    radius is broadcast. *)
Theorem arena_resizes e s :
  reachable s ->
  let r := getPlatformRadius (store s) in
  let r' := getPlatformRadius (store (fst (step e s))) in
  r' = r
  \/ (phase s = ENDED /\ eventResets e = true /\ r' = PLATFORM.INITIAL_RADIUS)
  \/ (exists h clk t,
        e = GameLoopFires h clk
        /\ phase s = PLAYING
        /\ (PLATFORM.MIN_RADIUS < r)%Q
        /\ lastShrinkTime (store s) = Some t
        /\ PLATFORM.SHRINK_INTERVAL <= tkShouldShrink clk - t
        /\ r' = (r - PLATFORM.SHRINK_AMOUNT)%Q
        /\ lastShrinkTime (store (fst (step e s))) = Some (tkShrink clk)
        /\ In (ToAll, platformShrink r') (snd (step e s))).
Proof.
  intros Hr. cbv zeta. unfold getPlatformRadius.
  pose proof (radius_levels_reachable s Hr) as Hlev.
  destruct (step_radius e s) as [H | [H | (h & clk & He & Hs)]].
  - left. exact H.
  - right. left. exact H.
  - right. right.
    destruct Hs as (Hph & Hmin & (t & Ht & _ & Hdue) & Hrad & Hlast & Hout).
    destruct (radius_level_shrinks _ Hlev Hmin) as [Hmax _].
    exists h, clk, t. split; [exact He|]. split; [exact Hph|].
    split; [apply Qlt_bool_iff; exact Hmin|].
    split; [exact Ht|]. split; [exact Hdue|].
    rewrite Hmax in Hrad. split; [exact Hrad|]. split; [exact Hlast|exact Hout].
Qed.

(** *** The shrink clock and the shrink warning *)

Lemma shrink_due_iff now interval st :
  shouldShrinkPlatform now interval st = true
  <-> getTimeUntilNextShrink now interval st = 0.
Proof.
  unfold shouldShrinkPlatform, getTimeUntilNextShrink.
  destruct (truthy (lastShrinkTime st)); cbn [negb].
  - rewrite Z.leb_le. lia.
  - split; [discriminate|lia].
Qed.

(** X10.  The three readings of the shrink clock agree.  A shrink is due
    exactly when the time until the next shrink is 0; the time until the
    next shrink is -1 exactly when no match has started the clock; and
    while a shrink is not yet due, the time since the last shrink and the
    time until the next one add up to the interval. *)
Theorem shrink_clock_readings now interval st :
  (shouldShrinkPlatform now interval st = true
   <-> getTimeUntilNextShrink now interval st = 0)
  /\ (getTimeUntilNextShrink now interval st = -1
      <-> truthy (lastShrinkTime st) = false)
  /\ (truthy (lastShrinkTime st) = true ->
      shouldShrinkPlatform now interval st = false ->
      getTimeSinceLastShrink now st + getTimeUntilNextShrink now interval st = interval).
Proof.
  split; [apply shrink_due_iff|].
  unfold shouldShrinkPlatform, getTimeUntilNextShrink, getTimeSinceLastShrink.
  destruct (truthy (lastShrinkTime st)); cbn [negb].
  - split; [split; [lia|discriminate]|].
    intros _ H. apply Z.leb_gt in H. lia.
  - split; [split; reflexivity|discriminate].
Qed.

Lemma warning_progress_bounds (u w : Z) :
  0 < u -> u <= w ->
  (0 <= 1 - inject_Z u / inject_Z w)%Q /\ (1 - inject_Z u / inject_Z w < 1)%Q.
Proof.
  intros Hu Hw.
  assert (Hw0 : (0 < inject_Z w)%Q).
  { change (inject_Z 0 < inject_Z w)%Q. rewrite <- Zlt_Qlt. lia. }
  assert (H1 : (0 < inject_Z u / inject_Z w)%Q).
  { apply Qlt_shift_div_l; [exact Hw0|]. rewrite Qmult_0_l.
    change (inject_Z 0 < inject_Z u)%Q. rewrite <- Zlt_Qlt. exact Hu. }
  assert (H2 : (inject_Z u / inject_Z w <= 1)%Q).
  { apply Qle_shift_div_r; [exact Hw0|]. rewrite Qmult_1_l.
    rewrite <- Zle_Qle. exact Hw. }
  set (x := (inject_Z u / inject_Z w)%Q) in *. clearbody x.
  split.
  - apply (Qle_minus_iff x 1). exact H2.
  - apply Qlt_minus_iff.
    setoid_replace (1 + - (1 - x))%Q with x by ring. exact H1.
Qed.

(** X11.  The shrink warning.  The warning is on exactly when the shrink
    clock runs, the radius is above the minimum and the time until the next
    shrink is positive and at most the warning time; then the progress is
    [1 - timeUntilShrink / warningTime], a number in [0, 1), and no shrink
    is due at that reading of the clock.  When the warning is off the
    progress is 0. *)
Theorem shrink_warning_window now interval warningTime st :
  0 < warningTime ->
  let w := getShrinkWarningState now interval warningTime st in
  let untilShrink := getTimeUntilNextShrink now interval st in
  (isWarning w = true
   <-> truthy (lastShrinkTime st) = true
       /\ (PLATFORM.MIN_RADIUS < platformRadius st)%Q
       /\ 0 < untilShrink <= warningTime)
  /\ (isWarning w = true ->
      warningProgress w = (1 - inject_Z untilShrink / inject_Z warningTime)%Q
      /\ (0 <= warningProgress w)%Q /\ (warningProgress w < 1)%Q
      /\ shouldShrinkPlatform now interval st = false)
  /\ (isWarning w = false -> warningProgress w = 0%Q).
Proof.
  intros HW. cbv zeta. unfold getShrinkWarningState.
  destruct (truthy (lastShrinkTime st)) eqn:Et; cbn [negb orb].
  - destruct (Qle_bool (platformRadius st) PLATFORM.MIN_RADIUS) eqn:Er.
    + cbn [isWarning warningProgress].
      split; [|split; [discriminate|reflexivity]].
      split; [discriminate|]. intros (_ & Hlt & _).
      apply Qle_bool_iff in Er. exfalso. exact (Qlt_not_le _ _ Hlt Er).
    + assert (Hlt : (PLATFORM.MIN_RADIUS < platformRadius st)%Q).
      { apply Qnot_le_lt. intros H. apply Qle_bool_iff in H. congruence. }
      set (u := getTimeUntilNextShrink now interval st).
      destruct ((u <=? warningTime) && (0 <? u)) eqn:Ew;
        cbn [isWarning warningProgress].
      * apply andb_true_iff in Ew. destruct Ew as [E1 E2].
        apply Z.leb_le in E1. apply Z.ltb_lt in E2.
        split; [split; [intros _; repeat split; assumption|reflexivity]|].
        split; [|discriminate]. intros _. split; [reflexivity|].
        destruct (warning_progress_bounds u warningTime E2 E1) as [B1 B2].
        split; [exact B1|]. split; [exact B2|].
        destruct (shouldShrinkPlatform now interval st) eqn:Es; [|reflexivity].
        apply shrink_due_iff in Es.
        fold u in Es. lia.
      * split; [|split; [discriminate|reflexivity]].
        split; [discriminate|]. intros (_ & _ & H1 & H2).
        apply andb_false_iff in Ew. destruct Ew as [E|E].
        -- apply Z.leb_gt in E. lia.
        -- apply Z.ltb_ge in E. lia.
  - cbn [isWarning warningProgress].
    split; [|split; [discriminate|reflexivity]].
    split; [discriminate|]. intros (H & _). discriminate.
Qed.

(** *** The Konami code *)

(** X12.  The Konami code makes its sender the winner.  Sent during play by
    a participant who is not eliminated, it ends the match with the sender
    as the only survivor and the announced winner, and credits nobody with
    an elimination; sent in any other situation it does nothing. *)
Theorem konami_code_wins sid clk s :
  reachable s ->
  (forall a,
      phase s = PLAYING ->
      getPlayer sid (store s) = Some a ->
      Player.isEliminated a = false ->
      let s' := fst (step (KonamiCode sid clk) s) in
      let out := snd (step (KonamiCode sid clk) s) in
      phase s' = ENDED
      /\ getAlivePlayers (store s') = [a]
      /\ gameEnds out = [Some (winnerOf a)]
      /\ In (ToAll, konamiActivated (Player.id a) (Player.name a) (Player.color a)) out
      /\ (forall k p, getPlayer k (store s) = Some p ->
            exists p', getPlayer k (store s') = Some p'
                       /\ Player.eliminations p' = Player.eliminations p))
  /\ (phase s <> PLAYING
      \/ getPlayer sid (store s) = None
      \/ (exists a, getPlayer sid (store s) = Some a /\ Player.isEliminated a = true) ->
      step (KonamiCode sid clk) s = (s, [])).
Proof.
  intros Hr. split.
  - intros a Hph Hg Ha. cbv zeta. cbn [step].
    exact (onKonamiCode_result sid clk s a (roster_ok_reachable s Hr) Hph Hg Ha).
  - cbn [step]. unfold onKonamiCode, getGameState, phase.
    intros [H | [H | (a & Hg & Ha)]].
    + destruct (GameState_eqb (gameState (store s)) PLAYING) eqn:E; [|reflexivity].
      apply GameState_eqb_eq in E. contradiction.
    + rewrite H. destruct (negb _); reflexivity.
    + rewrite Hg, Ha. destruct (negb _); reflexivity.
Qed.

(** *** The game loop eliminates who fell *)

(** What the per-player part of the game loop keeps of a record: where the
    participant is, that an eliminated participant stays eliminated, and
    that an elimination count does not go down. *)
Definition settled (p p' : Player.t) : Prop :=
  Player.position p' = Player.position p
  /\ (Player.isEliminated p = true -> Player.isEliminated p' = true)
  /\ Player.eliminations p <= Player.eliminations p'.

Lemma settled_refl p : settled p p.
Proof. split; [reflexivity|]. split; [auto|lia]. Qed.

Lemma settled_trans a b c : settled a b -> settled b c -> settled a c.
Proof.
  intros (H1 & H2 & H3) (H4 & H5 & H6). split; [congruence|]. split; [auto|lia].
Qed.

Ltac settled_fields := split; [reflexivity|]; split; [simpl; auto|simpl; lia].

Lemma position_boundaryTransition now out player :
  settled player (snd (boundaryTransition now out player)).
Proof.
  unfold boundaryTransition.
  destruct out, (Player.isOutOfBounds player); cbn [andb negb snd];
    try settled_fields.
  - destruct (truthy _); [|settled_fields]. destruct (Qle_bool _ _); settled_fields.
  - destruct (truthy _); settled_fields.
Qed.

Lemma updateBoundaryStatus_settled now id radius st :
  maps_to settled st (snd (updateBoundaryStatus now id radius st)).
Proof.
  unfold updateBoundaryStatus.
  destruct (JsMap.get id (players st)) as [q|] eqn:E;
    [|apply maps_to_refl, settled_refl].
  destruct (Player.isEliminated q); [apply maps_to_refl, settled_refl|].
  pose proof (position_boundaryTransition now (isCurrentlyOutOfBounds q radius) q) as Hs.
  destruct (boundaryTransition now _ q) as [ret p1]. cbn [snd] in Hs.
  destruct ret; cbn [snd]; (apply maps_to_update; [apply settled_refl|]);
    intros v Hv; assert (v = q) by congruence; subst v.
  - exact Hs.
  - destruct (negb _ && negb _ && truthy _); [|exact Hs].
    destruct Hs as (H1 & H2 & H3). split; [exact H1|]. split; [exact H2|exact H3].
Qed.

Lemma eliminatePlayerWithAttribution_settled clk id reason st :
  maps_to settled st (snd (eliminatePlayerWithAttribution clk id reason st)).
Proof.
  unfold eliminatePlayerWithAttribution.
  destruct (JsMap.get id (players st)) as [q|] eqn:E;
    [|apply maps_to_refl, settled_refl].
  destruct (Player.isEliminated q); [apply maps_to_refl, settled_refl|].
  set (st1 := with_players (JsMap.update id _) st).
  assert (H1 : maps_to settled st st1).
  { apply maps_to_update; [apply settled_refl|]. intros v _. settled_fields. }
  pose proof (attribute_maps_to settled (tSinceHit clk) reason q st1 settled_refl) as H2.
  destruct (attribute (tSinceHit clk) reason q st1) as [by_ st2]. cbn [snd] in H2 |- *.
  apply (maps_to_trans settled st st1 _ settled_trans H1).
  apply (maps_to_trans settled st1 st2 _ settled_trans).
  - apply H2. intros v. settled_fields.
  - apply calculatePlayerScore_maps_to; [apply settled_refl|].
    intros v sc. settled_fields.
Qed.

(** The store after the body of the loop has run for [player]. *)
Lemma tickPlayer_store clk radius any st out player :
  snd (fst (tickPlayer clk radius (any, st, out) player))
  = let id := Player.id player in
    let st1 := snd (updateBoundaryStatus (tkBoundary clk id) id radius st) in
    let st2 :=
      if fst (updateBoundaryStatus (tkBoundary clk id) id radius st)
      then snd (eliminatePlayerWithAttribution (tkElimBoundary clk id) id "boundary" st1)
      else st1 in
    if Qlt_bool (y (Player.position player)) SERVER.FALL_THRESHOLD
    then snd (eliminatePlayerWithAttribution (tkElimPushed clk id) id "pushed" st2)
    else st2.
Proof.
  unfold tickPlayer. cbv zeta.
  destruct (updateBoundaryStatus _ _ radius st) as [should st1]. cbn [fst snd].
  destruct should.
  - destruct (eliminatePlayerWithAttribution (tkElimBoundary clk (Player.id player)) _ _ st1)
      as [[info|] st2]; cbn [snd];
      (destruct (Qlt_bool _ _); [|reflexivity]);
      destruct (eliminatePlayerWithAttribution _ _ "pushed" st2) as [[info'|] st3];
      reflexivity.
  - destruct (Qlt_bool _ _); [|reflexivity].
    destruct (eliminatePlayerWithAttribution _ _ "pushed" st1) as [[info'|] st3];
      reflexivity.
Qed.

Lemma tickPlayer_settled clk radius any st out player :
  maps_to settled st (snd (fst (tickPlayer clk radius (any, st, out) player)))
  /\ (Qlt_bool (y (Player.position player)) SERVER.FALL_THRESHOLD = true ->
      forall q, JsMap.get (Player.id player)
                  (players (snd (fst (tickPlayer clk radius (any, st, out) player))))
                = Some q ->
                Player.isEliminated q = true).
Proof.
  rewrite tickPlayer_store. cbv zeta.
  set (id := Player.id player).
  pose proof (updateBoundaryStatus_settled (tkBoundary clk id) id radius st) as H1.
  set (st1 := snd (updateBoundaryStatus (tkBoundary clk id) id radius st)) in *.
  assert (H2 : maps_to settled st
                 (if fst (updateBoundaryStatus (tkBoundary clk id) id radius st)
                  then snd (eliminatePlayerWithAttribution (tkElimBoundary clk id) id
                              "boundary" st1)
                  else st1)).
  { destruct (fst _); [|exact H1].
    apply (maps_to_trans settled st st1 _ settled_trans H1).
    apply eliminatePlayerWithAttribution_settled. }
  match type of H2 with maps_to _ _ ?t => set (st2 := t) in * end. clearbody st2.
  destruct (Qlt_bool _ _).
  - split.
    + apply (maps_to_trans settled st st2 _ settled_trans H2).
      apply eliminatePlayerWithAttribution_settled.
    + intros _ q Hq.
      exact (eliminatePlayerWithAttribution_eliminates _ _ _ _ _ Hq).
  - split; [exact H2|discriminate].
Qed.

Lemma tickPlayers_settled clk radius l any st out :
  maps_to settled st (snd (fst (fold_left (tickPlayer clk radius) l (any, st, out))))
  /\ (forall p, In p l ->
        Qlt_bool (y (Player.position p)) SERVER.FALL_THRESHOLD = true ->
        forall q, JsMap.get (Player.id p)
                    (players (snd (fst (fold_left (tickPlayer clk radius) l
                                          (any, st, out)))))
                  = Some q ->
                  Player.isEliminated q = true).
Proof.
  revert any st out. induction l as [|a l IH]; intros any st out; cbn [fold_left].
  - split; [apply maps_to_refl, settled_refl|intros p []].
  - destruct (tickPlayer_settled clk radius any st out a) as [H1 F1].
    destruct (tickPlayer clk radius (any, st, out) a) as [[any1 st1] out1].
    cbn [fst snd] in H1, F1.
    destruct (IH any1 st1 out1) as [H2 F2].
    split; [exact (maps_to_trans settled st st1 _ settled_trans H1 H2)|].
    intros p [<-|Hin] Hfall q Hq; [|exact (F2 p Hin Hfall q Hq)].
    destruct (JsMap.get (Player.id a) (players st1)) as [q1|] eqn:E1.
    + destruct (H2 _ _ E1) as (q' & Hq' & _ & Hmono & _).
      rewrite Hq in Hq'. inversion Hq'; subst q'.
      apply Hmono. exact (F1 Hfall q1 eq_refl).
    + exfalso.
      destruct (tickPlayers_ops clk radius l any1 st1 out1) as (ops & A & P).
      destruct (roster_applyOps ops st1 (plain_keeps_roster ops P)) as [Hr _].
      rewrite <- A in Hr.
      assert (Hk : JsMap.get (Player.id a) (roster (players st1)) = None).
      { rewrite get_roster, E1. reflexivity. }
      rewrite <- Hr, get_roster, Hq in Hk. discriminate.
Qed.

Lemma handleGameEnd_players w s :
  players (store (fst (handleGameEnd w s))) = players (store s).
Proof.
  unfold handleGameEnd. destruct (GameState_eqb _ ENDED); [reflexivity|].
  destruct (scoreUpdateInterval _); destruct w; reflexivity.
Qed.

(** After the per-player part the game loop leaves the participants alone. *)
Lemma gameLoopCallback_players clk s :
  phase s = PLAYING ->
  players (store (fst (gameLoopCallback clk s)))
  = players (snd (fst (fold_left (tickPlayer clk (getPlatformRadius (store s)))
                         (getAlivePlayers (store s))
                         (false, store s,
                          [(ToAll, positionUpdate
                                     (getPositionSnapshot (tkPositions clk)
                                        (store s)))])))).
Proof.
  intros Hph. unfold gameLoopCallback, getGameState. unfold phase in Hph. rewrite Hph.
  cbn [GameState_eqb].
  destruct (fold_left _ _ _) as [[any st1] out1]. cbn [fst snd].
  destruct any.
  - destruct (List.length _ <=? 1)%nat.
    + pose proof (handleGameEnd_players
                    (hd_error (getAlivePlayers (store (with_store st1 s))))
                    (with_store st1 s)) as Hend.
      destruct (handleGameEnd _ _) as [s2 o2]. cbn [fst] in Hend.
      destruct (warningChanged _ _);
        destruct (Qlt_bool _ _ && shouldShrinkPlatform _ _ _); exact Hend.
    + destruct (warningChanged _ _);
        destruct (Qlt_bool _ _ && shouldShrinkPlatform _ _ _); reflexivity.
  - destruct (warningChanged _ _);
      destruct (Qlt_bool _ _ && shouldShrinkPlatform _ _ _); reflexivity.
Qed.

(** X13.  After a run of the game loop during play nobody who is still in
    the match is below the fall threshold: every participant that was not
    eliminated and had [y < FALL_THRESHOLD] when the loop ran is eliminated,
    and the loop moves nobody. *)
Theorem game_loop_eliminates_the_fallen h clk s :
  reachable s ->
  phase s = PLAYING ->
  callbackOf h (timers s) = Some GameLoopCallback ->
  let s' := fst (step (GameLoopFires h clk) s) in
  (forall k p, getPlayer k (store s) = Some p ->
     exists p', getPlayer k (store s') = Some p'
                /\ Player.position p' = Player.position p
                /\ (Player.isEliminated p = true -> Player.isEliminated p' = true)
                /\ ((y (Player.position p) < SERVER.FALL_THRESHOLD)%Q ->
                    Player.isEliminated p' = true))
  /\ (forall p', In p' (getAlivePlayers (store s')) ->
        (SERVER.FALL_THRESHOLD <= y (Player.position p'))%Q).
Proof.
  intros Hr Hph Hcb. cbv zeta. cbn [step]. rewrite Hcb.
  pose proof (roster_ok_reachable s Hr) as Hok.
  pose proof (gameLoopCallback_players clk s Hph) as Hplayers.
  destruct (tickPlayers_settled clk (getPlatformRadius (store s))
              (getAlivePlayers (store s)) false (store s)
              [(ToAll, positionUpdate (getPositionSnapshot (tkPositions clk) (store s)))])
    as [Hmap Hfall].
  assert (Hros : roster (players (snd (fst (fold_left
                    (tickPlayer clk (getPlatformRadius (store s)))
                    (getAlivePlayers (store s))
                    (false, store s,
                     [(ToAll, positionUpdate (getPositionSnapshot (tkPositions clk)
                                                (store s)))])))))
                 = roster (players (store s))).
  { destruct (tickPlayers_ops clk (getPlatformRadius (store s))
                (getAlivePlayers (store s)) false (store s)
                [(ToAll, positionUpdate (getPositionSnapshot (tkPositions clk) (store s)))])
      as (ops & A & P).
    destruct (roster_applyOps ops (store s) (plain_keeps_roster ops P)) as [Hr0 _].
    exact (eq_trans (f_equal (fun st => roster (players st)) A) Hr0). }
  set (st1 := snd (fst (fold_left _ _ _))) in *. clearbody st1.
  unfold getPlayer. rewrite Hplayers.
  assert (Hkeep : forall k p, JsMap.get k (players (store s)) = Some p ->
            exists p', JsMap.get k (players st1) = Some p'
                       /\ Player.position p' = Player.position p
                       /\ (Player.isEliminated p = true -> Player.isEliminated p' = true)
                       /\ ((y (Player.position p) < SERVER.FALL_THRESHOLD)%Q ->
                           Player.isEliminated p' = true)).
  { intros k p Hk. destruct (Hmap k p Hk) as (p' & Hp' & Hpos & Hmono & _).
    exists p'. split; [exact Hp'|]. split; [exact Hpos|]. split; [exact Hmono|].
    intros Hlt. destruct (Player.isEliminated p) eqn:Ep; [apply Hmono; reflexivity|].
    assert (Hid : Player.id p = k) by exact (roster_ok_id _ k p Hok Hk).
    apply (Hfall p).
    - unfold getAlivePlayers. apply filter_In. split; [|rewrite Ep; reflexivity].
      unfold JsMap.values. apply in_map_iff. exists (k, p). split; [reflexivity|].
      apply get_In. exact Hk.
    - apply Qlt_bool_iff. exact Hlt.
    - rewrite Hid. exact Hp'. }
  split; [exact Hkeep|].
  intros p' Hin. unfold getAlivePlayers in Hin. rewrite Hplayers in Hin.
  apply filter_In in Hin. destruct Hin as [Hin Halive].
  unfold JsMap.values in Hin. apply in_map_iff in Hin. destruct Hin as ([k v] & <- & Hkv).
  cbn [snd] in Halive |- *.
  assert (Hnd1 : NoDup (JsMap.keys (players st1))).
  { rewrite <- roster_keys, Hros, roster_keys. apply roster_ok_NoDup. exact Hok. }
  assert (Hkin : In k (JsMap.keys (players (store s)))).
  { rewrite <- roster_keys, <- Hros, roster_keys. unfold JsMap.keys.
    apply in_map_iff. exists (k, v). split; [reflexivity|exact Hkv]. }
  apply In_keys_get in Hkin. destruct Hkin as [p Hp].
  destruct (Hkeep k p Hp) as (p' & Hp' & Hpos & _ & Hf).
  rewrite (In_get_NoDup k v _ Hnd1 Hkv) in Hp'. inversion Hp'; subst p'.
  rewrite Hpos. apply Qnot_lt_le. intros Hlt.
  rewrite (Hf Hlt) in Halive. discriminate.
Qed.

(** *** What a client can change *)

(** [p'] is [p] but for where the participant is, how it moves, and when
    it last reported. *)
Definition moved (p p' : Player.t) : Prop :=
  Player.set_position (Player.position p)
    (Player.set_velocity (Player.velocity p)
       (Player.set_lastUpdate (Player.lastUpdate p) p')) = p.

(** X14.  An [input] message moves the sender and nothing else.  It emits
    nothing and leaves the phase, the host, the arena and every other
    participant as they were.  During play, for a sender who is not
    eliminated, the sender's record takes the reported position, the
    reported velocity when there is one, and the time of the report, all
    other fields staying as they were; in every other situation the server
    state is unchanged. *)
Theorem input_moves_only_the_sender sid position velocity now s :
  let s' := fst (step (Input sid position velocity now) s) in
  snd (step (Input sid position velocity now) s) = []
  /\ globals (store s') = globals (store s)
  /\ (forall k, k <> sid -> getPlayer k (store s') = getPlayer k (store s))
  /\ (forall p,
        phase s = PLAYING ->
        getPlayer sid (store s) = Some p ->
        Player.isEliminated p = false ->
        exists p',
          getPlayer sid (store s') = Some p'
          /\ Player.position p' = position
          /\ Player.velocity p' = match velocity with
                                  | Some v => v
                                  | None => Player.velocity p
                                  end
          /\ Player.lastUpdate p' = Some now
          /\ moved p p')
  /\ (phase s <> PLAYING
      \/ getPlayer sid (store s) = None
      \/ (exists p, getPlayer sid (store s) = Some p /\ Player.isEliminated p = true) ->
      s' = s).
Proof.
  cbv zeta. cbn [step]. unfold onInput, getGameState, phase, getPlayer.
  destruct (GameState_eqb (gameState (store s)) PLAYING) eqn:Eph; cbn [negb].
  - apply GameState_eqb_eq in Eph.
    destruct (JsMap.get sid (players (store s))) as [p|] eqn:Eg.
    + destruct (Player.isEliminated p) eqn:Ep; cbn [negb fst snd].
      * split; [reflexivity|]. split; [reflexivity|]. split; [reflexivity|].
        split; [intros p0 _ [= <-] H; congruence|reflexivity].
      * cbn [store with_store]. split; [reflexivity|].
        split; [apply globals_updatePlayerPosition|].
        unfold updatePlayerPosition. rewrite Eg, Ep. cbn [negb].
        rewrite players_with_players.
        split; [intros k Hk; apply get_update_other; congruence|].
        split.
        -- intros p0 _ [= <-] _. rewrite get_update_same, Eg. cbn [option_map].
           eexists. split; [reflexivity|].
           destruct velocity; destruct p; repeat split; reflexivity.
        -- intros [H | [H | (p0 & [= <-] & H)]]; [contradiction|discriminate|congruence].
    + cbn [fst snd]. split; [reflexivity|]. split; [reflexivity|]. split; [reflexivity|].
      split; [intros p0 _ H; discriminate|reflexivity].
  - cbn [fst snd]. split; [reflexivity|]. split; [reflexivity|]. split; [reflexivity|].
    split; [|reflexivity].
    intros p0 H. rewrite H in Eph. discriminate.
Qed.

(** X15.  A [collision] message can only name its sender as the hitter.
    It emits nothing and leaves the phase, the host, the arena and every
    participant other than the one named as they were.  During play, when
    sender and named participant are both in the session and not
    eliminated, the named participant's [lastHitBy] becomes the sender's id
    and name with the time of the report, its other fields staying as they
    were; in every other situation the server state is unchanged. *)
Theorem collision_names_the_sender sid other now s :
  reachable s ->
  let s' := fst (step (Collision sid other now) s) in
  snd (step (Collision sid other now) s) = []
  /\ globals (store s') = globals (store s)
  /\ (forall k, k <> other -> getPlayer k (store s') = getPlayer k (store s))
  /\ (forall p q,
        phase s = PLAYING ->
        getPlayer sid (store s) = Some p ->
        getPlayer other (store s) = Some q ->
        Player.isEliminated p = false ->
        Player.isEliminated q = false ->
        exists q',
          getPlayer other (store s') = Some q'
          /\ Player.lastHitBy q'
             = Some {| Hit.id := sid; Hit.name := Player.name p; Hit.timestamp := now |}
          /\ Player.set_lastHitBy (Player.lastHitBy q) q' = q)
  /\ (phase s <> PLAYING
      \/ getPlayer sid (store s) = None
      \/ getPlayer other (store s) = None
      \/ (exists p, getPlayer sid (store s) = Some p /\ Player.isEliminated p = true)
      \/ (exists q, getPlayer other (store s) = Some q /\ Player.isEliminated q = true) ->
      s' = s).
Proof.
  intros Hr. pose proof (roster_ok_reachable s Hr) as Hok.
  cbv zeta. cbn [step]. unfold onCollision, getGameState, phase, getPlayer.
  destruct (GameState_eqb (gameState (store s)) PLAYING) eqn:Eph; cbn [negb].
  - apply GameState_eqb_eq in Eph.
    destruct (JsMap.get sid (players (store s))) as [p|] eqn:Egp.
    + destruct (JsMap.get other (players (store s))) as [q|] eqn:Egq.
      * destruct (Player.isEliminated p) eqn:Ep; cbn [negb andb fst snd].
        { split; [reflexivity|]. split; [reflexivity|]. split; [reflexivity|].
          split; [intros p0 q0 _ [= <-] _ H; congruence|reflexivity]. }
        destruct (Player.isEliminated q) eqn:Eq; cbn [negb andb fst snd].
        { split; [reflexivity|]. split; [reflexivity|]. split; [reflexivity|].
          split; [intros p0 q0 _ _ [= <-] _ H; congruence|reflexivity]. }
        cbn [store with_store]. split; [reflexivity|].
        split; [apply globals_recordCollision|].
        unfold recordCollision. rewrite Egp, Egq, Ep, Eq. cbn [negb andb].
        rewrite players_with_players.
        split; [intros k Hk; apply get_update_other; congruence|].
        split.
        -- intros p0 q0 _ [= <-] [= <-] _ _. rewrite get_update_same, Egq.
           cbn [option_map]. eexists. split; [reflexivity|].
           rewrite (roster_ok_id _ sid p Hok Egp).
           split; [reflexivity|]. destruct q; reflexivity.
        -- intros [H | [H | [H | [(p0 & [= <-] & H) | (q0 & [= <-] & H)]]]];
             try contradiction; try discriminate; congruence.
      * cbn [fst snd]. split; [reflexivity|]. split; [reflexivity|]. split; [reflexivity|].
        split; [intros p0 q0 _ _ H; discriminate|reflexivity].
    + cbn [fst snd]. split; [reflexivity|]. split; [reflexivity|]. split; [reflexivity|].
      split; [intros p0 q0 _ H; discriminate|reflexivity].
  - cbn [fst snd]. split; [reflexivity|]. split; [reflexivity|]. split; [reflexivity|].
    split; [|reflexivity].
    intros p0 q0 H. rewrite H in Eph. discriminate.
Qed.

(** *** The leaderboard *)

Definition higherFirst (a b : ScoreEntry) : Prop := se_score b <= se_score a.

Lemma insert_by_score_perm e l : Permutation (insert_by_score e l) (e :: l).
Proof.
  induction l as [|q l IH]; simpl; [apply Permutation_refl|].
  destruct (se_score q <=? se_score e); [apply Permutation_refl|].
  apply perm_trans with (q :: e :: l); [apply perm_skip; exact IH|apply perm_swap].
Qed.

Lemma sort_by_score_perm l : Permutation (List.fold_right insert_by_score [] l) l.
Proof.
  induction l as [|e l IH]; simpl; [apply perm_nil|].
  apply perm_trans with (e :: List.fold_right insert_by_score [] l).
  - apply insert_by_score_perm.
  - apply perm_skip. exact IH.
Qed.

Lemma insert_by_score_sorted e l :
  StronglySorted higherFirst l -> StronglySorted higherFirst (insert_by_score e l).
Proof.
  induction l as [|q l IH]; simpl; intros H.
  - constructor; constructor.
  - inversion H as [|? ? Hs Hf]; subst.
    destruct (se_score q <=? se_score e) eqn:E.
    + apply Z.leb_le in E. constructor; [exact H|].
      constructor; [exact E|].
      revert Hf. apply Forall_impl. unfold higherFirst. intros x Hx. lia.
    + apply Z.leb_gt in E. constructor; [apply IH; exact Hs|].
      rewrite Forall_forall in *. intros x Hx.
      apply (Permutation_in x (insert_by_score_perm e l)) in Hx.
      destruct Hx as [<-|Hx]; [unfold higherFirst; lia|exact (Hf x Hx)].
Qed.

Lemma sort_by_score_sorted l :
  StronglySorted higherFirst (List.fold_right insert_by_score [] l).
Proof.
  induction l as [|e l IH]; simpl; [constructor|].
  apply insert_by_score_sorted. exact IH.
Qed.

Lemma Math_round_nonneg q : (0 <= q)%Q -> 0 <= Math_round q.
Proof.
  intros H. unfold Math_round.
  change 0 with (Qfloor 0). apply Qfloor_resp_le.
  apply Qle_trans with q; [exact H|].
  rewrite <- (Qplus_0_r q) at 1. apply Qplus_le_r. discriminate.
Qed.

Lemma roster_get_identity m m' k p :
  roster m' = roster m -> JsMap.get k m = Some p ->
  exists p', JsMap.get k m' = Some p' /\ identity p' = identity p.
Proof.
  intros Hr Hg. assert (H : JsMap.get k (roster m') = JsMap.get k (roster m)) by congruence.
  rewrite !get_roster, Hg in H. destruct (JsMap.get k m') as [p'|]; [|discriminate].
  exists p'. split; [reflexivity|]. simpl in H. congruence.
Qed.

(** The entries [getScoreSnapshot] collects, before they are sorted: one for
    each key, in map order. *)
Lemma scoreEntries_entries clk ks st :
  (forall k, In k ks ->
     exists p, JsMap.get k (players st) = Some p /\ Player.id p = k) ->
  scores_nonneg st ->
  List.map se_id (fst (scoreEntries clk ks st)) = ks
  /\ Forall (fun e => 0 <= se_score e) (fst (scoreEntries clk ks st)).
Proof.
  revert st. induction ks as [|k ks IH]; intros st Hks Hnn; cbn [scoreEntries].
  - split; [reflexivity|constructor].
  - destruct (Hks k (or_introl eq_refl)) as (player & Hg & Hid). rewrite Hg, Hid.
    pose proof (scores_nonneg_calculatePlayerScore (tCalc (clk k)) k st Hnn) as Hnn1.
    pose proof (roster_calculatePlayerScore (tCalc (clk k)) k st) as Hr1.
    set (st1 := calculatePlayerScore (tCalc (clk k)) k st) in *. clearbody st1.
    destruct (roster_get_identity _ _ k player Hr1 Hg) as (p1 & Hg1 & Hi1).
    rewrite Hg1.
    destruct (IH st1) as [IH1 IH2]; [|exact Hnn1|].
    { intros k' Hk'. destruct (Hks k' (or_intror Hk')) as (p & Hp & Hpid).
      destruct (roster_get_identity _ _ k' p Hr1 Hp) as (p' & Hp' & Hi').
      exists p'. split; [exact Hp'|]. inversion Hi'. congruence. }
    destruct (scoreEntries clk ks st1) as [rest st2]. cbn [fst] in IH1, IH2 |- *.
    split.
    + cbn [List.map]. rewrite IH1. f_equal. cbn [scoreEntry se_id].
      inversion Hi1. congruence.
    + constructor; [|exact IH2]. cbn [scoreEntry se_score].
      apply Math_round_nonneg.
      unfold scores_nonneg in Hnn1. rewrite Forall_forall in Hnn1.
      apply (Hnn1 p1). unfold JsMap.values. apply in_map_iff.
      exists (k, p1). split; [reflexivity|apply get_In; exact Hg1].
Qed.

Lemma scores_nonneg_reachable s : reachable s -> scores_nonneg (store s).
Proof.
  intros [es <-]. apply scores_nonneg_run. constructor.
Qed.

(** [calculatePlayerScore] for [k] reads and writes the record under [k]
    only. *)
Lemma calculatePlayerScore_get_other now k k' st :
  k <> k' ->
  JsMap.get k' (players (calculatePlayerScore now k st)) = JsMap.get k' (players st).
Proof.
  intros Hne. destruct (calculatePlayerScore_shape now k st) as [q ->].
  rewrite players_with_players. apply get_update_other. exact Hne.
Qed.

Lemma calculatePlayerScore_get_own now k st st' :
  JsMap.get k (players st') = JsMap.get k (players st) ->
  JsMap.get k (players (calculatePlayerScore now k st'))
  = JsMap.get k (players (calculatePlayerScore now k st)).
Proof.
  intros H. unfold calculatePlayerScore. rewrite H.
  destruct (JsMap.get k (players st)) as [p|] eqn:E; [|congruence].
  rewrite !players_with_players, !get_update_same, H, E. reflexivity.
Qed.

Lemma calculatePlayerScore_ids now k st :
  (forall k' p, JsMap.get k' (players st) = Some p -> Player.id p = k') ->
  forall k' p, JsMap.get k' (players (calculatePlayerScore now k st)) = Some p ->
    Player.id p = k'.
Proof.
  intros Hco k' p Hg.
  pose proof (roster_calculatePlayerScore now k st) as Hr.
  assert (H : JsMap.get k' (roster (players (calculatePlayerScore now k st)))
              = JsMap.get k' (roster (players st))) by congruence.
  rewrite !get_roster, Hg in H.
  destruct (JsMap.get k' (players st)) as [p0|] eqn:E; [|discriminate].
  simpl in H. inversion H. rewrite (Hco k' p0 E) in *. congruence.
Qed.

Lemma scoreEntries_get_other clk ks st k :
  (forall k' p, JsMap.get k' (players st) = Some p -> Player.id p = k') ->
  ~ In k ks ->
  JsMap.get k (players (snd (scoreEntries clk ks st))) = JsMap.get k (players st).
Proof.
  revert st. induction ks as [|k0 ks IH]; intros st Hco Hin; cbn [scoreEntries];
    [reflexivity|].
  assert (Hne : k0 <> k) by (intros ->; apply Hin; left; reflexivity).
  assert (Hin' : ~ In k ks) by (intros H; apply Hin; right; exact H).
  destruct (JsMap.get k0 (players st)) as [player|] eqn:Hg; [|exact (IH st Hco Hin')].
  rewrite (Hco k0 player Hg).
  pose proof (IH (calculatePlayerScore (tCalc (clk k0)) k0 st)
                (calculatePlayerScore_ids _ k0 st Hco) Hin') as IH1.
  destruct (scoreEntries clk ks (calculatePlayerScore (tCalc (clk k0)) k0 st))
    as [rest st2]. cbn [snd] in IH1 |- *.
  rewrite IH1. apply calculatePlayerScore_get_other. exact Hne.
Qed.

(** Each entry [getScoreSnapshot] collects is the entry of the participant
    under its id, made after [calculatePlayerScore] has stored that
    participant's score at the entry's own clock reading; the participant
    is found like that in the store returned. *)
Definition entryOf (clk : string -> ScoreClock) (st st' : Store) (e : ScoreEntry) : Prop :=
  exists p1,
    getPlayer (se_id e) (calculatePlayerScore (tCalc (clk (se_id e))) (se_id e) st)
    = Some p1
    /\ getPlayer (se_id e) st' = Some p1
    /\ e = scoreEntry (clk (se_id e)) p1
    /\ se_score e = Math_round (Player.score p1).

Lemma scoreEntries_each clk ks st :
  NoDup ks ->
  (forall k p, JsMap.get k (players st) = Some p -> Player.id p = k) ->
  Forall (fun e => In (se_id e) ks /\ entryOf clk st (snd (scoreEntries clk ks st)) e)
    (fst (scoreEntries clk ks st)).
Proof.
  revert st. induction ks as [|k ks IH]; intros st Hnd Hco; cbn [scoreEntries];
    [constructor|].
  inversion Hnd as [|? ? Hk Hnd']; subst.
  destruct (JsMap.get k (players st)) as [player|] eqn:Hg.
  - rewrite (Hco k player Hg).
    pose proof (calculatePlayerScore_ids (tCalc (clk k)) k st Hco) as Hco1.
    assert (Hg1 : exists p1,
               JsMap.get k (players (calculatePlayerScore (tCalc (clk k)) k st)) = Some p1).
    { destruct (calculatePlayerScore_shape (tCalc (clk k)) k st) as [q ->].
      rewrite players_with_players, get_update_same, Hg. simpl. eauto. }
    destruct Hg1 as [p1 Hg1].
    pose proof (IH (calculatePlayerScore (tCalc (clk k)) k st) Hnd' Hco1) as IH1.
    pose proof (scoreEntries_get_other clk ks
                  (calculatePlayerScore (tCalc (clk k)) k st) k Hco1 Hk) as Hlast.
    rewrite Hg1.
    destruct (scoreEntries clk ks (calculatePlayerScore (tCalc (clk k)) k st))
      as [rest st2]. cbn [fst snd] in IH1, Hlast |- *.
    assert (Hid1 : Player.id p1 = k) by exact (Hco1 k p1 Hg1).
    constructor.
    + cbn [scoreEntry se_id]. rewrite Hid1. split; [left; reflexivity|].
      exists p1. cbn [scoreEntry se_id]. rewrite Hid1. unfold getPlayer.
      split; [exact Hg1|]. split; [rewrite Hlast; exact Hg1|].
      split; reflexivity.
    + rewrite Forall_forall in *. intros e He.
      destruct (IH1 e He) as (Hin & p1' & Ha & Hb & Hc & Hd).
      split; [right; exact Hin|].
      exists p1'. split; [|auto]. unfold getPlayer in *.
      rewrite <- Ha. symmetry. apply calculatePlayerScore_get_own.
      apply calculatePlayerScore_get_other. intros ->. contradiction.
  - pose proof (IH st Hnd' Hco) as IH1.
    rewrite Forall_forall in *. intros e He.
    destruct (IH1 e He) as (Hin & H). split; [right; exact Hin|exact H].
Qed.

(** X16.  The score snapshot is a leaderboard.  In every reachable state
    [getScoreSnapshot] returns one entry for each participant; each entry is
    made from its participant after [calculatePlayerScore] has stored the
    participant's score, and shows that stored score rounded to the nearest
    integer; the entries are ordered by these rounded scores with the
    highest first, and none of them is negative. *)
Theorem score_snapshot_is_a_leaderboard clk s :
  reachable s ->
  let scores := fst (getScoreSnapshot clk (store s)) in
  let st' := snd (getScoreSnapshot clk (store s)) in
  StronglySorted higherFirst scores
  /\ Permutation (List.map se_id scores) (List.map Player.id (getAllPlayers (store s)))
  /\ Forall (fun e => 0 <= se_score e) scores
  /\ Forall (entryOf clk (store s) st') scores.
Proof.
  intros Hr. cbv zeta. pose proof (roster_ok_reachable s Hr) as Hok.
  unfold getScoreSnapshot.
  destruct (scoreEntries_entries clk (JsMap.keys (players (store s))) (store s))
    as [Hids Hnn].
  { intros k Hk. apply In_keys_get in Hk. destruct Hk as [p Hp].
    exists p. split; [exact Hp|]. exact (roster_ok_id _ k p Hok Hp). }
  { apply scores_nonneg_reachable. exact Hr. }
  pose proof (scoreEntries_each clk (JsMap.keys (players (store s))) (store s)
                (roster_ok_NoDup _ Hok) (fun k p => roster_ok_id _ k p Hok)) as Heach.
  destruct (scoreEntries clk _ (store s)) as [entries st'].
  cbn [fst snd] in Hids, Hnn, Heach |- *.
  assert (Hkeys : List.map Player.id (getAllPlayers (store s))
                  = JsMap.keys (players (store s))).
  { unfold getAllPlayers, JsMap.values, JsMap.keys. rewrite map_map.
    apply map_ext_in. intros [k v] Hin. simpl. exact (roster_ok_In_id _ k v Hok Hin). }
  split; [apply sort_by_score_sorted|].
  split; [|split].
  - rewrite Hkeys, <- Hids. apply Permutation_map. apply sort_by_score_perm.
  - rewrite Forall_forall in *. intros x Hx. apply Hnn.
    exact (Permutation_in x (sort_by_score_perm entries) Hx).
  - rewrite Forall_forall in *. intros x Hx.
    exact (proj2 (Heach x (Permutation_in x (sort_by_score_perm entries) Hx))).
Qed.

(** *** The position snapshot *)

Lemma NoDup_keys_filter {V} (f : string * V -> bool) (m : JsMap.t V) :
  NoDup (JsMap.keys m) -> NoDup (JsMap.keys (List.filter f m)).
Proof.
  unfold JsMap.keys. induction m as [|[k v] m IH]; simpl; intros H; [constructor|].
  inversion H as [|? ? Hn Hd]; subst.
  destruct (f (k, v)); [|exact (IH Hd)].
  simpl. constructor; [|exact (IH Hd)].
  intros Hin. apply Hn. apply in_map_iff in Hin. destruct Hin as (e & He & Hin).
  apply filter_In in Hin. apply in_map_iff. exists e. split; [exact He|exact (proj1 Hin)].
Qed.

(** X17.  The position snapshot lists exactly the participants still in
    the match.  In every reachable state it has one entry for each
    participant that is not eliminated, under the participant's id, with
    the stored position and velocity, and no entry for anyone else. *)
Theorem position_snapshot_lists_the_alive now s :
  reachable s ->
  let entries := positions (getPositionSnapshot now (store s)) in
  Permutation (List.map fst entries) (List.map Player.id (getAlivePlayers (store s)))
  /\ NoDup (List.map fst entries)
  /\ (forall id pv,
        In (id, pv) entries
        <-> exists p, getPlayer id (store s) = Some p
                      /\ Player.isEliminated p = false
                      /\ pv = (Player.position p, Player.velocity p)).
Proof.
  intros Hr. cbv zeta. pose proof (roster_ok_reachable s Hr) as Hok.
  pose proof (roster_ok_NoDup _ Hok) as Hnd.
  unfold getPositionSnapshot, getAlivePlayers, getPlayer. cbn [positions].
  set (m := players (store s)) in *.
  assert (Hid : forall k v, In (k, v) m -> Player.id v = k).
  { intros k v Hin. exact (roster_ok_In_id _ k v Hok Hin). }
  split; [|split].
  - match goal with |- Permutation ?a ?b => assert (Heq : a = b) end;
      [|rewrite Heq; apply Permutation_refl].
    rewrite map_map. cbn [fst]. clear Hnd. unfold JsMap.values.
    induction m as [|[k v] m IH]; [reflexivity|]. cbn [List.map List.filter snd].
    destruct (negb (Player.isEliminated v)).
    + cbn [List.map fst]. rewrite (Hid k v (or_introl eq_refl)).
      f_equal. apply IH. intros k' v' H. apply Hid. right. exact H.
    + apply IH. intros k' v' H. apply Hid. right. exact H.
  - rewrite map_map. cbn [fst].
    exact (NoDup_keys_filter (fun kv => negb (Player.isEliminated (snd kv))) m Hnd).
  - intros id pv. split.
    + intros Hin. apply in_map_iff in Hin. destruct Hin as ([k v] & He & Hin).
      apply filter_In in Hin. destruct Hin as [Hin Halive]. cbn [fst snd] in He, Halive.
      inversion He; subst. exists v.
      split; [apply In_get_NoDup; assumption|].
      split; [apply negb_true_iff; exact Halive|reflexivity].
    + intros (p & Hg & He & ->). apply in_map_iff. exists (id, p).
      split; [reflexivity|]. apply filter_In.
      split; [apply get_In; exact Hg|]. cbn [snd]. rewrite He. reflexivity.
Qed.

(** *** The countdown *)

Lemma countdown_tick_out h c nowState nowTimes nowSnapshot s :
  callbackOf h (timers s) = Some (CountdownCallback c) ->
  1 < c ->
  step (CountdownFires h nowState nowTimes nowSnapshot) s
  = (setCount h (c - 1) s, [(ToAll, countdown (c - 1))]).
Proof.
  intros Hcb Hc. cbn [step]. rewrite Hcb. unfold countdownCallback.
  assert (E : (0 <? c - 1) = true) by (apply Z.ltb_lt; lia).
  rewrite E. reflexivity.
Qed.

Lemma countdown_last_out h c nowState nowTimes nowSnapshot s :
  callbackOf h (timers s) = Some (CountdownCallback c) ->
  c <= 1 ->
  phase (fst (step (CountdownFires h nowState nowTimes nowSnapshot) s)) = PLAYING
  /\ snd (step (CountdownFires h nowState nowTimes nowSnapshot) s)
     = [(ToAll, gameStart
                  (getStateSnapshot nowSnapshot
                     (store (fst (step (CountdownFires h nowState nowTimes nowSnapshot)
                                    s)))))].
Proof.
  intros Hcb Hc. cbn [step]. rewrite Hcb. unfold countdownCallback.
  assert (E : (0 <? c - 1) = false) by (apply Z.ltb_ge; lia).
  rewrite E. cbn [fst snd]. unfold phase.
  rewrite store_startScoreUpdates, store_startGameLoop. split; reflexivity.
Qed.

(** X18.  The countdown counts 3, 2, 1 and starts the match.  When the
    host starts the game from the lobby with at least one participant, the
    server broadcasts [countdown 3]; the three following runs of the
    countdown interval broadcast [countdown 2], [countdown 1] and then
    [gameStart] with the state of the match, now in play. *)
Theorem countdown_counts_down sid nowState nowTimes nowSnapshot s :
  reachable s ->
  phase s = LOBBY ->
  isHost sid (store s) = true ->
  (1 <= getPlayerCount (store s))%nat ->
  let tick := CountdownFires (nextTimer s) nowState nowTimes nowSnapshot in
  let r := run [StartGame sid; tick; tick; tick] s in
  phase (fst r) = PLAYING
  /\ snd r
     = [ (ToAll, countdown 3); (ToAll, countdown 2); (ToAll, countdown 1);
         (ToAll, gameStart (getStateSnapshot nowSnapshot (store (fst r)))) ].
Proof.
  intros Hreach Hph Hhost Hcount. cbv zeta.
  pose proof (timers_ok_reachable s Hreach) as (Hs & _ & _).
  pose proof (callbackOf_fresh _ _ _ _ _ _ Hs) as Hfresh.
  assert (E1 : step (StartGame sid) s = startCountdown s).
  { cbn [step]. unfold onStartGame, getGameState. rewrite Hhost. cbn [negb].
    unfold phase in Hph. rewrite Hph. cbn [GameState_eqb negb].
    assert (Hn : (List.length (getAllPlayers (store s)) <? 1)%nat = false).
    { apply Nat.ltb_ge. unfold getAllPlayers, JsMap.values. rewrite length_map.
      exact Hcount. }
    rewrite Hn. reflexivity. }
  set (s1 := fst (startCountdown s)).
  assert (T1 : callbackOf (nextTimer s) (timers s1)
               = Some (CountdownCallback COUNTDOWN_CFG.DURATION)).
  { unfold s1, startCountdown. simpl. rewrite callbackOf_app, Hfresh, Nat.eqb_refl.
    reflexivity. }
  pose proof (countdown_tick_out (nextTimer s) 3 nowState nowTimes nowSnapshot s1 T1
                ltac:(lia)) as E2.
  set (s2 := setCount (nextTimer s) (3 - 1) s1) in *.
  assert (T2 : callbackOf (nextTimer s) (timers s2) = Some (CountdownCallback (3 - 1))).
  { unfold s2. cbn [timers setCount].
    rewrite callbackOf_setCount, Nat.eqb_refl, T1. reflexivity. }
  pose proof (countdown_tick_out (nextTimer s) (3 - 1) nowState nowTimes nowSnapshot s2 T2
                ltac:(lia)) as E3.
  set (s3 := setCount (nextTimer s) (3 - 1 - 1) s2) in *.
  assert (T3 : callbackOf (nextTimer s) (timers s3)
               = Some (CountdownCallback (3 - 1 - 1))).
  { unfold s3. cbn [timers setCount].
    rewrite callbackOf_setCount, Nat.eqb_refl, T2. reflexivity. }
  destruct (countdown_last_out (nextTimer s) (3 - 1 - 1) nowState nowTimes nowSnapshot
              s3 T3 ltac:(lia)) as [P4 O4].
  cbn [run]. rewrite E1.
  change (startCountdown s) with (s1, [(ToAll, countdown 3)]). cbv iota.
  rewrite E2, E3.
  destruct (step (CountdownFires (nextTimer s) nowState nowTimes nowSnapshot) s3)
    as [s4 o4]. cbn [fst snd] in P4, O4 |- *.
  split; [exact P4|]. rewrite O4. reflexivity.
Qed.

(** *** Joining and leaving *)

Lemma delete_set_absent {V} k (v : V) (m : JsMap.t V) :
  JsMap.get k m = None -> JsMap.delete k (JsMap.set k v m) = m.
Proof.
  induction m as [|[k0 v0] m IH]; simpl; intros H.
  - rewrite String.eqb_refl. reflexivity.
  - destruct (String.eqb k0 k) eqn:E; [discriminate|].
    simpl. rewrite E. f_equal. exact (IH H).
Qed.

Lemma size_set_absent {V} k (v : V) (m : JsMap.t V) :
  JsMap.get k m = None -> JsMap.size (JsMap.set k v m) = S (JsMap.size m).
Proof.
  unfold JsMap.size. induction m as [|[k0 v0] m IH]; simpl; intros H; [reflexivity|].
  destruct (String.eqb k0 k) eqn:E; [discriminate|]. simpl. rewrite (IH H). reflexivity.
Qed.

Lemma size_set_present {V} k (v : V) (m : JsMap.t V) :
  JsMap.get k m <> None -> JsMap.size (JsMap.set k v m) = JsMap.size m.
Proof.
  unfold JsMap.size. induction m as [|[k0 v0] m IH]; simpl; intros H; [congruence|].
  destruct (String.eqb k0 k) eqn:E; [reflexivity|]. simpl. rewrite (IH H). reflexivity.
Qed.

(** X19.  Joining, looking up and leaving.  [createPlayer] stores the
    record it returns under the given id and leaves every other participant
    alone; the count grows by one for a new id and stays for an id already
    present, whose record is replaced.  In a reachable state whose host id
    is not the empty string, removing a participant right after it was
    created under a new id gives back the record and restores the store. *)
Theorem createPlayer_round_trip now r1 r2 id name s :
  reachable s ->
  let st := store s in
  let player := fst (createPlayer now r1 r2 id name st) in
  let st' := snd (createPlayer now r1 r2 id name st) in
  getPlayer id st' = Some player
  /\ Player.id player = id
  /\ Player.isEliminated player = false
  /\ (forall k, k <> id -> getPlayer k st' = getPlayer k st)
  /\ (getPlayer id st <> None -> getPlayerCount st' = getPlayerCount st)
  /\ (getPlayer id st = None ->
      getPlayerCount st' = S (getPlayerCount st)
      /\ fst (removePlayer id st') = Some player
      /\ players (snd (removePlayer id st')) = players st
      /\ (getHostId st <> Some ""%string -> snd (removePlayer id st') = st)).
Proof.
  intros Hr. cbv zeta. pose proof (roster_ok_reachable s Hr) as Hok.
  set (st := store s) in *. clearbody st.
  destruct (createPlayer_store now r1 r2 id name st) as (p & Hfst & Hid & _ & Hpl & Hh).
  rewrite Hfst. unfold getPlayer, getPlayerCount, getHostId. rewrite Hpl.
  split; [apply get_set_same|]. split; [exact Hid|].
  split; [rewrite <- Hfst; reflexivity|].
  split; [intros k Hk; apply get_set_other; congruence|].
  split; [apply size_set_present|].
  intros Habs. split; [apply size_set_absent; exact Habs|].
  set (st' := snd (createPlayer now r1 r2 id name st)) in *.
  assert (Hg' : JsMap.get id (players st') = Some p).
  { rewrite Hpl. apply get_set_same. }
  destruct (removePlayer_host id st' p Hg') as (H1 & H2 & H3 & H4).
  cbv zeta in H2, H3, H4.
  assert (Hdel : players (snd (removePlayer id st')) = players st).
  { rewrite H2, Hpl. apply delete_set_absent. exact Habs. }
  split; [exact H1|]. split; [exact Hdel|].
  intros Hhost. apply store_eq; [|exact Hdel].
  assert (Hrest : gameState (snd (removePlayer id st')) = gameState st
                  /\ platformRadius (snd (removePlayer id st')) = platformRadius st
                  /\ gameStartTime (snd (removePlayer id st')) = gameStartTime st
                  /\ lastShrinkTime (snd (removePlayer id st')) = lastShrinkTime st).
  { unfold removePlayer. rewrite Hg'. cbv zeta. cbn [snd].
    assert (Hc : gameState st' = gameState st /\ platformRadius st' = platformRadius st
                 /\ gameStartTime st' = gameStartTime st
                 /\ lastShrinkTime st' = lastShrinkTime st).
    { unfold st', createPlayer. cbv zeta. cbn [snd].
      match goal with |- context [if ?c then _ else _] => destruct c end;
        repeat split; reflexivity. }
    destruct (strict_eq _ id); [|exact Hc].
    destruct (0 <? _)%nat; [|exact Hc].
    destruct (sort_by_joinedAt _); exact Hc. }
  destruct Hrest as (R1 & R2 & R3 & R4).
  assert (Hhid : hostId (snd (removePlayer id st')) = hostId st).
  { destruct Hok as (_ & _ & Hnone & Hin & _).
    destruct (hostId st) as [h|] eqn:Eh.
    - assert (Hne : h <> id).
      { intros ->. specialize (Hin id eq_refl). rewrite roster_keys in Hin.
        apply In_keys_get in Hin. destruct Hin as [q Hq]. congruence. }
      assert (Ht : truthy_str (Some h) = true).
      { simpl. apply negb_true_iff, String.eqb_neq. intros ->. apply Hhost. reflexivity. }
      rewrite Ht in Hh. rewrite H4; [exact Hh|]. rewrite Hh. congruence.
    - simpl in Hh. destruct (H3 Hh) as [Hnil _]. apply Hnil.
      rewrite Hdel. assert (E : roster (players st) = []) by (apply Hnone; reflexivity).
      unfold roster, JsMap.values in *. destruct (players st); [reflexivity|discriminate]. }
  unfold globals. rewrite R1, R2, R3, R4, Hhid. reflexivity.
Qed.

(** *** Credit for eliminations *)

Definition keepsCount (p p' : Player.t) : Prop :=
  Player.eliminations p' = Player.eliminations p.

Lemma keepsCount_refl p : keepsCount p p.
Proof. reflexivity. Qed.

Lemma keepsCount_trans a b c : keepsCount a b -> keepsCount b c -> keepsCount a c.
Proof. unfold keepsCount. congruence. Qed.

Lemma scoreEntries_keepsCount clk ks st :
  maps_to keepsCount st (snd (scoreEntries clk ks st)).
Proof.
  revert st. induction ks as [|k ks IH]; intros st; cbn [scoreEntries].
  - apply maps_to_refl, keepsCount_refl.
  - destruct (JsMap.get k (players st)) as [player|]; [|apply IH].
    specialize (IH (calculatePlayerScore (tCalc (clk k)) (Player.id player) st)).
    destruct (scoreEntries clk ks _) as [rest st2]. cbn [snd] in IH |- *.
    apply (maps_to_trans keepsCount st
             (calculatePlayerScore (tCalc (clk k)) (Player.id player) st) st2
             keepsCount_trans); [|exact IH].
    apply calculatePlayerScore_maps_to; [apply keepsCount_refl|]. intros q sc. reflexivity.
Qed.

(** X20.  Credit for an elimination is only given by the game loop.  For
    a participant of a reachable state and an event that is neither the
    reset of the round nor a join or disconnect under the participant's id,
    the participant's [eliminations] count does not go down, and it is
    unchanged unless the event is a run of the game loop. *)
Theorem elimination_credit_comes_from_the_game_loop e s id p :
  reachable s ->
  getPlayer id (store s) = Some p ->
  eventReplaces e id = false ->
  eventResets e = false ->
  exists p',
    getPlayer id (store (fst (step e s))) = Some p'
    /\ Player.eliminations p <= Player.eliminations p'
    /\ ((forall h clk, e <> GameLoopFires h clk) ->
        Player.eliminations p' = Player.eliminations p).
Proof.
  intros Hr Hg Hrep Hres. unfold getPlayer in *.
  pose proof (roster_ok_reachable s Hr) as Hok.
  assert (Hsame : forall st', players st' = players (store s) ->
            exists p', JsMap.get id (players st') = Some p'
                       /\ Player.eliminations p <= Player.eliminations p'
                       /\ ((forall h clk, e <> GameLoopFires h clk) ->
                           Player.eliminations p' = Player.eliminations p)).
  { intros st' ->. exists p. split; [exact Hg|]. split; [lia|reflexivity]. }
  assert (Hkeep : forall st', maps_to keepsCount (store s) st' ->
            exists p', JsMap.get id (players st') = Some p'
                       /\ Player.eliminations p <= Player.eliminations p'
                       /\ ((forall h clk, e <> GameLoopFires h clk) ->
                           Player.eliminations p' = Player.eliminations p)).
  { intros st' Hm. destruct (Hm id p Hg) as (p' & Hp' & Hk). unfold keepsCount in Hk.
    exists p'. split; [exact Hp'|]. split; [lia|intros _; exact Hk]. }
  destruct e; cbn [step]; cbn [eventReplaces eventResets] in Hrep, Hres.
  - apply Hsame. reflexivity.
  - (* join under another id *)
    unfold onJoin. destruct (PLAYERS.MAX_PLAYERS <=? _)%nat; [apply Hsame; reflexivity|].
    apply String.eqb_neq in Hrep.
    destruct (createPlayer_store now r1 r2 sid name (store s)) as (q & _ & _ & _ & Hpl & _).
    destruct (createPlayer now r1 r2 sid name (store s)) as [player st1].
    cbn [fst snd] in Hpl |- *. rewrite store_startGameLoop. cbn [store with_store].
    rewrite Hpl, get_set_other by exact Hrep.
    exists p. split; [exact Hg|]. split; [lia|reflexivity].
  - unfold onInput. destruct (negb _); [apply Hsame; reflexivity|].
    destruct (getPlayer sid (store s)) as [q|]; [|apply Hsame; reflexivity].
    destruct (negb _); [|apply Hsame; reflexivity]. cbn [fst store with_store].
    apply Hkeep. unfold updatePlayerPosition.
    destruct (JsMap.get sid (players (store s))); [|apply maps_to_refl, keepsCount_refl].
    destruct (negb _); [|apply maps_to_refl, keepsCount_refl].
    apply maps_to_update; [apply keepsCount_refl|]. intros v _. destruct velocity; reflexivity.
  - unfold onCollision. destruct (negb _); [apply Hsame; reflexivity|].
    destruct (getPlayer sid (store s)) as [q|]; [|apply Hsame; reflexivity].
    destruct (getPlayer otherPlayerId (store s)) as [q'|]; [|apply Hsame; reflexivity].
    destruct (negb _ && negb _); [|apply Hsame; reflexivity]. cbn [fst store with_store].
    apply Hkeep. unfold recordCollision.
    destruct (JsMap.get otherPlayerId (players (store s)));
      [|apply maps_to_refl, keepsCount_refl].
    destruct (JsMap.get sid (players (store s))); [|apply maps_to_refl, keepsCount_refl].
    destruct (negb _ && negb _); [|apply maps_to_refl, keepsCount_refl].
    apply maps_to_update; [apply keepsCount_refl|]. intros v _. reflexivity.
  - apply Hsame. unfold onStartGame.
    destruct (negb (isHost sid (store s))); [reflexivity|].
    destruct (negb (GameState_eqb _ LOBBY)); [reflexivity|].
    destruct (List.length _ <? 1)%nat; reflexivity.
  - unfold onReady. cbn [fst store with_store]. apply Hkeep. unfold setPlayerReady.
    destruct (JsMap.get sid (players (store s))); [|apply maps_to_refl, keepsCount_refl].
    apply maps_to_update; [apply keepsCount_refl|]. intros v _. reflexivity.
  - (* Konami code *)
    destruct (GameState_eqb (gameState (store s)) PLAYING) eqn:Eph.
    + apply GameState_eqb_eq in Eph.
      destruct (getPlayer sid (store s)) as [a|] eqn:Ea.
      * destruct (Player.isEliminated a) eqn:Ee.
        -- apply Hsame. unfold onKonamiCode, getGameState. rewrite Eph, Ea, Ee. reflexivity.
        -- destruct (onKonamiCode_result sid clk s a Hok Eph Ea Ee)
             as (_ & _ & _ & _ & Hel).
           destruct (Hel id p Hg) as (p' & Hp' & Hk).
           exists p'. split; [exact Hp'|]. split; [lia|intros _; exact Hk].
      * apply Hsame. unfold onKonamiCode, getGameState. rewrite Eph, Ea. reflexivity.
    + apply Hsame. unfold onKonamiCode, getGameState. rewrite Eph. reflexivity.
  - discriminate.
  - (* disconnect under another id *)
    apply String.eqb_neq in Hrep. unfold onDisconnect.
    assert (Hdel : JsMap.get id (players (snd (removePlayer sid (store s)))) = Some p).
    { destruct (JsMap.get sid (players (store s))) as [q|] eqn:Eq.
      - destruct (removePlayer_host sid (store s) q Eq) as (_ & -> & _).
        rewrite get_delete_other by exact Hrep. exact Hg.
      - rewrite removePlayer_absent by assumption. exact Hg. }
    destruct (removePlayer sid (store s)) as [[player|] st1];
      [|apply Hsame; reflexivity].
    cbn [snd] in Hdel.
    assert (Hst1 : forall s2, players (store s2) = players st1 ->
              exists p', JsMap.get id (players (store s2)) = Some p'
                         /\ Player.eliminations p <= Player.eliminations p'
                         /\ ((forall h clk, Disconnect sid <> GameLoopFires h clk) ->
                             Player.eliminations p' = Player.eliminations p)).
    { intros s2 ->. exists p. split; [exact Hdel|]. split; [lia|reflexivity]. }
    destruct (GameState_eqb _ PLAYING); [|apply Hst1; reflexivity].
    destruct (List.length _ <=? 1)%nat; [|apply Hst1; reflexivity].
    pose proof (handleGameEnd_players
                  (hd_error (getAlivePlayers (store (with_store st1 s))))
                  (with_store st1 s)) as Hend.
    destruct (handleGameEnd _ _) as [s2 o2]. cbn [fst] in Hend |- *.
    apply Hst1. exact Hend.
  - (* the game loop *)
    destruct (callbackOf h (timers s)) as [[| |]|]; try (apply Hsame; reflexivity).
    destruct (GameState_eqb (gameState (store s)) PLAYING) eqn:Eph.
    + apply GameState_eqb_eq in Eph.
      rewrite (gameLoopCallback_players clk s Eph).
      destruct (tickPlayers_settled clk (getPlatformRadius (store s))
                  (getAlivePlayers (store s)) false (store s)
                  [(ToAll, positionUpdate (getPositionSnapshot (tkPositions clk)
                                             (store s)))]) as [Hmap _].
      destruct (Hmap id p Hg) as (p' & Hp' & _ & _ & Hle).
      exists p'. split; [exact Hp'|]. split; [exact Hle|].
      intros Hne. exfalso. exact (Hne h clk eq_refl).
    + apply Hsame. unfold gameLoopCallback, getGameState. rewrite Eph. reflexivity.
  - (* the score interval *)
    destruct (callbackOf h (timers s)) as [[| |]|]; try (apply Hsame; reflexivity).
    unfold scoreCallback. destruct (GameState_eqb _ PLAYING); [|apply Hsame; reflexivity].
    pose proof (scoreEntries_keepsCount clk (JsMap.keys (players (store s))) (store s)) as Hm.
    unfold getScoreSnapshot.
    destruct (scoreEntries clk _ (store s)) as [scores st1]. cbn [fst snd] in Hm |- *.
    cbn [store with_store]. apply Hkeep. exact Hm.
  - (* the countdown interval *)
    destruct (callbackOf h (timers s)) as [[| |count]|]; try (apply Hsame; reflexivity).
    unfold countdownCallback. cbv zeta.
    destruct (0 <? count - 1); [apply Hsame; reflexivity|]. cbn [fst].
    rewrite store_startScoreUpdates, store_startGameLoop.
    cbn [store with_store with_countdownInterval countdownInterval setCount].
    apply Hkeep.
    assert (E : store (clearInterval (countdownInterval s) (setCount h (count - 1) s))
                = store s) by (rewrite store_clearInterval; reflexivity).
    rewrite E.
    apply (maps_to_trans keepsCount (store s) (setGameState nowState PLAYING (store s)) _
             keepsCount_trans).
    + apply maps_to_same_players; [apply keepsCount_refl|reflexivity].
    + apply maps_to_forEach. intros v. destruct (negb _); reflexivity.
Qed.

(** *** Before a match *)

Definition notEliminated (p : Player.t) : Prop := Player.isEliminated p = false.

(** Nobody is eliminated and the arena has its initial radius. *)
Definition fresh_round (st : Store) : Prop :=
  Forall notEliminated (JsMap.values (players st))
  /\ platformRadius st = PLATFORM.INITIAL_RADIUS.

Lemma values_resetPlayers_alive rand i m :
  Forall notEliminated (JsMap.values (resetPlayers rand i m)).
Proof.
  revert i. induction m as [|[k v] m IH]; intros i; simpl; constructor.
  - reflexivity.
  - apply IH.
Qed.

Lemma fresh_round_step e s :
  (phase s = LOBBY \/ phase s = COUNTDOWN -> fresh_round (store s)) ->
  phase (fst (step e s)) = LOBBY \/ phase (fst (step e s)) = COUNTDOWN ->
  fresh_round (store (fst (step e s))).
Proof.
  intros Hinv Hafter.
  assert (Hgate : forall g, GameState_eqb (gameState (store s)) g = true -> phase s = g).
  { intros g H. apply GameState_eqb_eq in H. exact H. }
  destruct e; cbn [step] in Hafter |- *.
  - apply Hinv. exact Hafter.
  - (* join *)
    unfold onJoin in *. destruct (PLAYERS.MAX_PLAYERS <=? _)%nat; [apply Hinv; exact Hafter|].
    pose proof (gameState_createPlayer now r1 r2 sid name (store s)) as G.
    pose proof (platformRadius_createPlayer now r1 r2 sid name (store s)) as Gr.
    destruct (createPlayer_store now r1 r2 sid name (store s)) as (q & Hq & _ & _ & Hpl & _).
    assert (Hqa : notEliminated q) by (rewrite <- Hq; reflexivity).
    destruct (createPlayer now r1 r2 sid name (store s)) as [player st1].
    cbn [fst snd] in G, Gr, Hpl, Hafter |- *.
    unfold phase in Hafter. rewrite store_startGameLoop in *. cbn [store with_store] in *.
    rewrite G in Hafter. destruct (Hinv Hafter) as [Ha Hr].
    split; [|congruence]. rewrite Hpl. apply values_set_Forall; assumption.
  - (* input *)
    unfold onInput in *.
    destruct (GameState_eqb (getGameState (store s)) PLAYING) eqn:E; cbn [negb] in *;
      [|apply Hinv; exact Hafter].
    exfalso. destruct (getPlayer sid (store s)) as [p|].
    + destruct (negb _); cbn [fst] in Hafter; unfold phase in Hafter;
        cbn [store with_store] in Hafter;
        rewrite ?(globals_gameState _ _ (globals_updatePlayerPosition _ _ _ _ _)) in Hafter;
        apply Hgate in E; unfold phase in E; destruct Hafter; congruence.
    + apply Hgate in E. unfold phase in *. cbn [fst] in Hafter. destruct Hafter; congruence.
  - (* collision *)
    unfold onCollision in *.
    destruct (GameState_eqb (getGameState (store s)) PLAYING) eqn:E; cbn [negb] in *;
      [|apply Hinv; exact Hafter].
    exfalso. apply Hgate in E. unfold phase in *.
    destruct (getPlayer sid (store s)) as [p|];
      [destruct (getPlayer otherPlayerId (store s)) as [q|];
       [destruct (negb _ && negb _)|]|];
      cbn [fst store with_store] in Hafter;
      rewrite ?(globals_gameState _ _ (globals_recordCollision _ _ _ _)) in Hafter;
      destruct Hafter; congruence.
  - (* start game *)
    unfold onStartGame in *.
    destruct (negb (isHost sid (store s))); [apply Hinv; exact Hafter|].
    destruct (GameState_eqb (getGameState (store s)) LOBBY) eqn:E; cbn [negb] in *;
      [|apply Hinv; exact Hafter].
    destruct (List.length _ <? 1)%nat; [apply Hinv; exact Hafter|].
    apply Hgate in E. destruct (Hinv (or_introl E)) as [Ha Hr].
    split; [exact Ha|exact Hr].
  - (* ready *)
    unfold onReady in *. cbn [fst] in *. unfold phase in Hafter. cbn [store with_store] in *.
    rewrite (globals_gameState _ _ (globals_setPlayerReady sid ready (store s))) in Hafter.
    destruct (Hinv Hafter) as [Ha Hr].
    split; [|rewrite (globals_platformRadius _ _ (globals_setPlayerReady sid ready (store s)));
             exact Hr].
    unfold setPlayerReady. destruct (JsMap.get sid (players (store s))); [|exact Ha].
    rewrite players_with_players. apply values_update_Forall; [exact Ha|].
    intros v _ Hv. exact Hv.
  - (* Konami code *)
    unfold onKonamiCode in *.
    destruct (GameState_eqb (getGameState (store s)) PLAYING) eqn:E; cbn [negb] in *;
      [|apply Hinv; exact Hafter].
    apply Hgate in E.
    destruct (getPlayer sid (store s)) as [a|];
      [|exfalso; cbn [fst] in Hafter; destruct Hafter; congruence].
    destruct (Player.isEliminated a);
      [exfalso; cbn [fst] in Hafter; destruct Hafter; congruence|].
    exfalso.
    destruct (konamiPlayers_frame sid clk (getAlivePlayers (store s)) (store s) [])
      as (extra & _ & _ & G).
    destruct (fold_left _ _ _) as [st1 out1]. cbn [fst snd] in G.
    destruct (handleGameEnd_result (Some a) (with_store st1 s)) as [Hst _].
    { cbn [store with_store]. rewrite (globals_gameState _ _ G).
      unfold phase in E. congruence. }
    destruct (handleGameEnd _ _) as [s2 o2]. cbn [fst] in Hst, Hafter.
    unfold phase in Hafter. rewrite Hst in Hafter. cbn in Hafter.
    destruct Hafter; discriminate.
  - (* play again *)
    unfold onPlayAgain in *.
    destruct (negb (isHost sid (store s))); [apply Hinv; exact Hafter|].
    destruct (GameState_eqb (getGameState (store s)) ENDED); cbn [negb] in *;
      [|apply Hinv; exact Hafter].
    cbn [fst store with_store with_previousWarningState].
    split; [apply values_resetPlayers_alive|reflexivity].
  - (* disconnect *)
    unfold onDisconnect in *.
    pose proof (gameState_removePlayer sid (store s)) as G.
    pose proof (platformRadius_removePlayer sid (store s)) as Gr.
    assert (Hpl : forall q, JsMap.get sid (players (store s)) = Some q ->
                            players (snd (removePlayer sid (store s)))
                            = JsMap.delete sid (players (store s))).
    { intros q Hq. destruct (removePlayer_host sid (store s) q Hq) as (_ & H & _). exact H. }
    destruct (JsMap.get sid (players (store s))) as [q|] eqn:Eq.
    + specialize (Hpl q eq_refl).
      destruct (removePlayer sid (store s)) as [[player|] st1];
        [|apply Hinv; exact Hafter].
      cbn [snd] in G, Gr, Hpl.
      destruct (GameState_eqb (getGameState (store (with_store st1 s))) PLAYING) eqn:E.
      * exfalso. apply GameState_eqb_eq in E. unfold getGameState in E.
        destruct (List.length _ <=? 1)%nat.
        -- destruct (handleGameEnd_result
                       (hd_error (getAlivePlayers (store (with_store st1 s))))
                       (with_store st1 s)) as [Hst _]; [congruence|].
           destruct (handleGameEnd _ _) as [s2 o2]. cbn [fst] in Hst, Hafter.
           unfold phase in Hafter. rewrite Hst in Hafter. cbn in Hafter.
           destruct Hafter; discriminate.
        -- cbn [fst] in Hafter. unfold phase in Hafter. destruct Hafter; congruence.
      * cbn [fst] in Hafter |- *. unfold phase in Hafter. cbn [store with_store] in *.
        rewrite G in Hafter. destruct (Hinv Hafter) as [Ha Hr].
        split; [|congruence]. rewrite Hpl. apply values_delete_Forall. exact Ha.
    + rewrite removePlayer_absent in * by assumption. apply Hinv. exact Hafter.
  - (* game loop *)
    destruct (callbackOf h (timers s)) as [[| |]|]; try (apply Hinv; exact Hafter).
    destruct (gameLoopCallback_phase clk s) as [[Hp _]|(Hp1 & Hp2 & _)].
    + unfold gameLoopCallback, getGameState in *.
      destruct (GameState_eqb (gameState (store s)) PLAYING) eqn:E;
        [|apply Hinv; exact Hafter].
      exfalso. apply Hgate in E. rewrite Hp in Hafter. destruct Hafter; congruence.
    + exfalso. rewrite Hp2 in Hafter. destruct Hafter; discriminate.
  - (* score interval *)
    destruct (callbackOf h (timers s)) as [[| |]|]; try (apply Hinv; exact Hafter).
    unfold scoreCallback in *.
    destruct (GameState_eqb (getGameState (store s)) PLAYING) eqn:E;
      [|apply Hinv; exact Hafter].
    exfalso. apply Hgate in E.
    pose proof (globals_getScoreSnapshot clk (store s)) as G.
    destruct (getScoreSnapshot clk (store s)) as [scores st1]. cbn [fst snd] in G, Hafter.
    unfold phase in *. cbn [store with_store] in Hafter.
    rewrite (globals_gameState _ _ G) in Hafter. destruct Hafter; congruence.
  - (* countdown interval *)
    destruct (callbackOf h (timers s)) as [[| |count]|] eqn:Ecb;
      try (apply Hinv; exact Hafter).
    unfold countdownCallback in *. cbv zeta in *.
    destruct (0 <? count - 1); [apply Hinv; exact Hafter|].
    exfalso. cbn [fst] in Hafter. unfold phase in Hafter.
    rewrite store_startScoreUpdates, store_startGameLoop in Hafter.
    cbn in Hafter. destruct Hafter; discriminate.
Qed.

(** X22.  Every match starts from a fresh round.  In every reachable
    state whose phase is the lobby or the countdown, no participant is
    eliminated and the arena has its initial radius. *)
Theorem lobby_is_a_fresh_round s :
  reachable s ->
  phase s = LOBBY \/ phase s = COUNTDOWN ->
  (forall id p, getPlayer id (store s) = Some p -> Player.isEliminated p = false)
  /\ getAlivePlayers (store s) = getAllPlayers (store s)
  /\ getPlatformRadius (store s) = PLATFORM.INITIAL_RADIUS.
Proof.
  intros Hr Hph.
  assert (H : fresh_round (store s)).
  { revert Hph. revert s Hr.
    apply (reachable_invariant
             (fun s => phase s = LOBBY \/ phase s = COUNTDOWN -> fresh_round (store s))).
    - intros _. split; [constructor|reflexivity].
    - intros e s Hr Hinv Hafter.
      exact (fresh_round_step e s Hinv Hafter). }
  destruct H as [Ha Hrad]. split; [|split; [|exact Hrad]].
  - intros id p Hg. unfold getPlayer in Hg. rewrite Forall_forall in Ha. apply Ha.
    unfold JsMap.values. apply in_map_iff. exists (id, p).
    split; [reflexivity|apply get_In; exact Hg].
  - unfold getAlivePlayers, getAllPlayers.
    induction Ha as [|v l Hv _ IH]; [reflexivity|].
    simpl. rewrite Hv. simpl. f_equal. exact IH.
Qed.

(** *** Joining and leaving the session *)

Lemma get_delete_same {V} k (m : JsMap.t V) :
  NoDup (JsMap.keys m) -> JsMap.get k (JsMap.delete k m) = None.
Proof.
  intros Hnd. destruct (JsMap.get k (JsMap.delete k m)) as [v|] eqn:E; [|reflexivity].
  exfalso. assert (Hin : In k (JsMap.keys (JsMap.delete k m))).
  { apply In_keys_get. eauto. }
  apply (keys_delete_In k m k Hnd) in Hin. destruct Hin as [Hne _]. congruence.
Qed.

Lemma size_delete_present {V} k (m : JsMap.t V) v :
  JsMap.get k m = Some v -> S (JsMap.size (JsMap.delete k m)) = JsMap.size m.
Proof.
  unfold JsMap.size. induction m as [|[k0 v0] m IH]; simpl; [discriminate|].
  destruct (String.eqb k0 k); [reflexivity|].
  intros H. simpl. rewrite (IH H). reflexivity.
Qed.

(** X23.  A join below capacity is accepted.  The server stores a new
    record under the socket id, not eliminated and stamped with the time of
    the join, leaves the phase as it is, and has the game loop running
    afterwards; it answers [joined] to the sender, [playerJoined] to the
    others and the new [playerCount] to all.  The first participant of an
    empty session becomes host, and a join does not change a host whose id
    is not the empty string. *)
Theorem join_below_capacity_is_accepted sid name now r1 r2 nowSnapshot s :
  reachable s ->
  (getPlayerCount (store s) < PLAYERS.MAX_PLAYERS)%nat ->
  let s' := fst (step (Join sid name now r1 r2 nowSnapshot) s) in
  let out := snd (step (Join sid name now r1 r2 nowSnapshot) s) in
  exists player,
    getPlayer sid (store s') = Some player
    /\ Player.id player = sid
    /\ Player.isEliminated player = false
    /\ Player.joinedAt player = now
    /\ out = [ (ToSocket sid,
                joined player (isHost sid (store s')) (getPlayerCount (store s'))
                  PLAYERS.MAX_PLAYERS (getStateSnapshot nowSnapshot (store s')));
               (ToOthers sid, playerJoined player (getHostId (store s')));
               (ToAll, playerCount (getPlayerCount (store s')) PLAYERS.MAX_PLAYERS) ]
    /\ phase s' = phase s
    /\ gameLoopInterval s' <> None
    /\ (forall k, k <> sid -> getPlayer k (store s') = getPlayer k (store s))
    /\ (getPlayerCount (store s) = 0%nat -> getHostId (store s') = Some sid)
    /\ (forall h, getHostId (store s) = Some h -> h <> ""%string ->
          getHostId (store s') = Some h).
Proof.
  intros Hr Hc. cbv zeta. pose proof (roster_ok_reachable s Hr) as Hok.
  cbn [step]. unfold onJoin.
  assert (E : (PLAYERS.MAX_PLAYERS <=? getPlayerCount (store s))%nat = false).
  { apply Nat.leb_gt. exact Hc. }
  rewrite E.
  pose proof (gameState_createPlayer now r1 r2 sid name (store s)) as G.
  destruct (createPlayer_store now r1 r2 sid name (store s))
    as (p & Hfst & Hid & Hat & Hpl & Hh).
  assert (Ha : Player.isEliminated p = false) by (rewrite <- Hfst; reflexivity).
  destruct (createPlayer now r1 r2 sid name (store s)) as [player st1].
  cbn [fst snd] in G, Hfst, Hpl, Hh |- *. subst player.
  rewrite store_startGameLoop. cbn [store with_store].
  exists p. unfold getPlayer, getHostId. rewrite Hpl.
  split; [apply get_set_same|]. split; [exact Hid|]. split; [exact Ha|].
  split; [exact Hat|]. split; [reflexivity|].
  split; [unfold phase; rewrite store_startGameLoop; exact G|].
  split.
  { unfold startGameLoop. destruct (gameLoopInterval (with_store st1 s)) eqn:Eg.
    - rewrite Eg. discriminate.
    - cbn. discriminate. }
  split; [intros k Hk; apply get_set_other; congruence|].
  rewrite Hh. split.
  - intros Hz. destruct Hok as (_ & _ & Hnone & _).
    assert (Hn : hostId (store s) = None).
    { apply Hnone. unfold getPlayerCount in Hz. rewrite <- roster_length in Hz.
      destruct (roster (players (store s))); [reflexivity|discriminate]. }
    rewrite Hn. reflexivity.
  - intros h Hhost Hne. rewrite Hhost. cbn [truthy_str].
    assert (Et : negb (h =? "")%string = true).
    { apply negb_true_iff, String.eqb_neq. exact Hne. }
    rewrite Et. reflexivity.
Qed.

(** X24.  A disconnect takes the participant out of the session.  For a
    participant of a reachable state, after the disconnect nobody is stored
    under the socket id, the count is one less and everybody else is left
    alone; the server broadcasts [playerLeft] with the host id that now
    holds and the new [playerCount], followed by at most one [gameEnd].  A
    disconnect of a socket that never joined does nothing. *)
Theorem disconnect_removes_the_participant sid s :
  reachable s ->
  let s' := fst (step (Disconnect sid) s) in
  let out := snd (step (Disconnect sid) s) in
  (forall p,
      getPlayer sid (store s) = Some p ->
      getPlayer sid (store s') = None
      /\ S (getPlayerCount (store s')) = getPlayerCount (store s)
      /\ (forall k, k <> sid -> getPlayer k (store s') = getPlayer k (store s))
      /\ exists rest,
           out = (ToAll, playerLeft sid (Player.name p) (getHostId (store s')))
                 :: (ToAll, playerCount (getPlayerCount (store s')) PLAYERS.MAX_PLAYERS)
                 :: rest
           /\ (rest = [] \/ exists w, rest = [(ToAll, gameEnd w)]))
  /\ (getPlayer sid (store s) = None -> step (Disconnect sid) s = (s, [])).
Proof.
  intros Hr. cbv zeta. pose proof (roster_ok_reachable s Hr) as Hok.
  pose proof (roster_ok_NoDup _ Hok) as Hnd.
  cbn [step]. unfold onDisconnect, getPlayer, getPlayerCount, getHostId. split.
  - intros p Hg.
    destruct (removePlayer_host sid (store s) p Hg) as (Hfst & Hpl & _).
    cbv zeta in Hpl.
    destruct (removePlayer sid (store s)) as [[player|] st1]; [|discriminate].
    cbn [fst snd] in Hfst, Hpl. inversion Hfst; subst player.
    assert (Hfacts : forall s2,
              players (store s2) = players st1 -> hostId (store s2) = hostId st1 ->
              JsMap.get sid (players (store s2)) = None
              /\ S (JsMap.size (players (store s2))) = JsMap.size (players (store s))
              /\ (forall k, k <> sid ->
                    JsMap.get k (players (store s2)) = JsMap.get k (players (store s)))).
    { intros s2 -> _. rewrite Hpl.
      split; [apply get_delete_same; exact Hnd|].
      split; [exact (size_delete_present sid _ p Hg)|].
      intros k Hk. apply get_delete_other. congruence. }
    destruct (GameState_eqb (getGameState (store (with_store st1 s))) PLAYING) eqn:Eph.
    + destruct (List.length _ <=? 1)%nat.
      * apply GameState_eqb_eq in Eph.
        destruct (handleGameEnd_result
                    (hd_error (getAlivePlayers (store (with_store st1 s))))
                    (with_store st1 s)) as [Hst Hout].
        { unfold getGameState in Eph. rewrite Eph. discriminate. }
        destruct (handleGameEnd _ _) as [s2 o2]. cbn [fst snd] in Hst, Hout |- *.
        assert (Hp2 : players (store s2) = players st1) by (rewrite Hst; reflexivity).
        assert (Hh2 : hostId (store s2) = hostId st1) by (rewrite Hst; reflexivity).
        destruct (Hfacts s2 Hp2 Hh2) as (F1 & F2 & F3).
        split; [exact F1|]. split; [exact F2|]. split; [exact F3|].
        exists o2. split.
        -- cbn [app store with_store]. rewrite Hh2. unfold JsMap.size in *.
           rewrite Hp2. reflexivity.
        -- right. eexists. exact Hout.
      * cbn [fst snd]. destruct (Hfacts (with_store st1 s) eq_refl eq_refl) as (F1 & F2 & F3).
        split; [exact F1|]. split; [exact F2|]. split; [exact F3|].
        exists []. split; [reflexivity|left; reflexivity].
    + cbn [fst snd]. destruct (Hfacts (with_store st1 s) eq_refl eq_refl) as (F1 & F2 & F3).
      split; [exact F1|]. split; [exact F2|]. split; [exact F3|].
      exists []. split; [reflexivity|left; reflexivity].
  - intros Hg. rewrite removePlayer_absent by exact Hg. reflexivity.
Qed.

(** *** Elimination notices of the game loop *)

(** The ids named by the [playerEliminated] messages of an output. *)
Definition eliminatedIds (out : Emitted) : list string :=
  List.flat_map
    (fun m => match snd m with playerEliminated id _ _ _ => [id] | _ => [] end) out.

Lemma eliminatedIds_app a b : eliminatedIds (a ++ b) = eliminatedIds a ++ eliminatedIds b.
Proof. apply flat_map_app. Qed.

Lemma eliminatePlayerWithAttribution_playerId clk id reason st info st' :
  eliminatePlayerWithAttribution clk id reason st = (Some info, st') ->
  playerId info = id.
Proof.
  unfold eliminatePlayerWithAttribution.
  destruct (JsMap.get id (players st)) as [p|]; [|discriminate].
  destruct (Player.isEliminated p); [discriminate|].
  destruct (attribute _ _ _ _) as [by_ st2]. intros H. inversion H. reflexivity.
Qed.

(** The body of the loop sends at most one notice, for the player it is
    run for, who is eliminated afterwards. *)
Lemma tickPlayer_notices clk radius any st out player :
  exists extra,
    snd (tickPlayer clk radius (any, st, out) player) = out ++ extra
    /\ (eliminatedIds extra = [] \/ eliminatedIds extra = [Player.id player])
    /\ (eliminatedIds extra <> [] ->
        forall q, JsMap.get (Player.id player)
                    (players (snd (fst (tickPlayer clk radius (any, st, out) player))))
                  = Some q ->
                  Player.isEliminated q = true).
Proof.
  unfold tickPlayer. set (id := Player.id player).
  destruct (updateBoundaryStatus (tkBoundary clk id) id radius st) as [should st1].
  assert (Hpushed : forall any1 st2 out1 e1,
            out1 = out ++ e1 ->
            (eliminatedIds e1 = []
             \/ (eliminatedIds e1 = [id]
                 /\ forall q, JsMap.get id (players st2) = Some q ->
                              Player.isEliminated q = true)) ->
            exists extra,
              snd (if Qlt_bool (y (Player.position player)) SERVER.FALL_THRESHOLD
                   then
                     match eliminatePlayerWithAttribution (tkElimPushed clk id) id
                             "pushed" st2 with
                     | (Some info, st3) => (true, st3, out1 ++ [eliminationMessage info])
                     | (None, st3) => (any1, st3, out1)
                     end
                   else (any1, st2, out1)) = out ++ extra
              /\ (eliminatedIds extra = [] \/ eliminatedIds extra = [id])
              /\ (eliminatedIds extra <> [] ->
                  forall q,
                    JsMap.get id
                      (players
                         (snd (fst (if Qlt_bool (y (Player.position player))
                                         SERVER.FALL_THRESHOLD
                                    then
                                      match eliminatePlayerWithAttribution
                                              (tkElimPushed clk id) id "pushed" st2 with
                                      | (Some info, st3) =>
                                          (true, st3, out1 ++ [eliminationMessage info])
                                      | (None, st3) => (any1, st3, out1)
                                      end
                                    else (any1, st2, out1)))))
                    = Some q ->
                    Player.isEliminated q = true)).
  { intros any1 st2 out1 e1 -> He1.
    destruct (Qlt_bool _ _).
    - destruct He1 as [He1 | [He1 Helim]].
      + pose proof (eliminatePlayerWithAttribution_eliminates (tkElimPushed clk id) id
                      "pushed" st2) as Hafter.
        destruct (eliminatePlayerWithAttribution (tkElimPushed clk id) id "pushed" st2)
          as [[info|] st3] eqn:E; cbn [fst snd] in Hafter |- *.
        * exists (e1 ++ [eliminationMessage info]). rewrite app_assoc.
          split; [reflexivity|]. rewrite eliminatedIds_app, He1. cbn.
          rewrite (eliminatePlayerWithAttribution_playerId _ _ _ _ _ _ E).
          split; [right; reflexivity|]. intros _ q Hq. exact (Hafter q Hq).
        * exists e1. split; [reflexivity|]. split; [left; exact He1|].
          intros Hne. contradiction.
      + rewrite (eliminatePlayerWithAttribution_noop (tkElimPushed clk id) id "pushed" st2
                   Helim). cbn [fst snd].
        exists e1. split; [reflexivity|]. split; [right; exact He1|].
        intros _ q Hq. exact (Helim q Hq).
    - cbn [fst snd]. exists e1. split; [reflexivity|].
      destruct He1 as [He1 | [He1 Helim]].
      + split; [left; exact He1|]. intros Hne. contradiction.
      + split; [right; exact He1|]. intros _ q Hq. exact (Helim q Hq). }
  destruct should.
  - pose proof (eliminatePlayerWithAttribution_eliminates (tkElimBoundary clk id) id
                  "boundary" st1) as Hafter.
    destruct (eliminatePlayerWithAttribution (tkElimBoundary clk id) id "boundary" st1)
      as [[info|] st2] eqn:E; cbn [fst snd] in Hafter.
    + apply (Hpushed true st2 _ [eliminationMessage info] eq_refl).
      right. cbn. rewrite (eliminatePlayerWithAttribution_playerId _ _ _ _ _ _ E).
      split; [reflexivity|exact Hafter].
    + apply (Hpushed any st2 _ []); [rewrite app_nil_r; reflexivity|left; reflexivity].
  - apply (Hpushed any st1 _ []); [rewrite app_nil_r; reflexivity|left; reflexivity].
Qed.

Lemma tickPlayers_notices clk radius l any st out :
  NoDup (List.map Player.id l) ->
  exists extra,
    snd (fold_left (tickPlayer clk radius) l (any, st, out)) = out ++ extra
    /\ NoDup (eliminatedIds extra)
    /\ incl (eliminatedIds extra) (List.map Player.id l)
    /\ (forall id, In id (eliminatedIds extra) ->
          forall q, JsMap.get id
                      (players (snd (fst (fold_left (tickPlayer clk radius) l
                                            (any, st, out)))))
                    = Some q ->
                    Player.isEliminated q = true).
Proof.
  revert any st out. induction l as [|a l IH]; intros any st out Hnd; cbn [fold_left].
  - exists []. rewrite app_nil_r. split; [reflexivity|]. split; [constructor|].
    split; [intros x []|intros id []].
  - cbn [List.map] in Hnd. inversion Hnd as [|? ? Hna Hnd']; subst.
    destruct (tickPlayer_notices clk radius any st out a) as (e1 & H1 & Hids & Helim).
    destruct (tickPlayer clk radius (any, st, out) a) as [[any1 st1] out1].
    cbn [fst snd] in H1, Helim. subst out1.
    destruct (IH any1 st1 (out ++ e1) Hnd') as (e2 & H2 & Hnd2 & Hincl & Helim2).
    destruct (tickPlayers_settled clk radius l any1 st1 (out ++ e1)) as [Hmap _].
    destruct (tickPlayers_ops clk radius l any1 st1 (out ++ e1)) as (ops & A & P).
    destruct (roster_applyOps ops st1 (plain_keeps_roster ops P)) as [Hros _].
    rewrite <- A in Hros.
    set (final := snd (fst (fold_left (tickPlayer clk radius) l (any1, st1, out ++ e1))))
      in *.
    assert (Hros' : roster (players final) = roster (players st1)) by exact Hros.
    assert (Hmap' : maps_to settled st1 final) by exact Hmap.
    assert (Helim2' : forall id, In id (eliminatedIds e2) ->
                        forall q, JsMap.get id (players final) = Some q ->
                                  Player.isEliminated q = true) by exact Helim2.
    clear Hros Hmap Helim2 A.
    exists (e1 ++ e2). rewrite app_assoc. split; [exact H2|].
    rewrite eliminatedIds_app.
    assert (Hhere : forall q, eliminatedIds e1 <> [] ->
                      JsMap.get (Player.id a) (players final) = Some q ->
                      Player.isEliminated q = true).
    { intros q Hne Hq.
      destruct (roster_get_identity (players final) (players st1) (Player.id a) q)
        as (q1 & Hq1 & _); [symmetry; exact Hros'|exact Hq|].
      destruct (Hmap' _ _ Hq1) as (q' & Hq' & _ & Hmono & _).
      rewrite Hq in Hq'. inversion Hq'; subst q'.
      apply Hmono. exact (Helim Hne q1 Hq1). }
    destruct Hids as [E1|E1]; rewrite E1; cbn [app].
    + split; [exact Hnd2|]. split; [intros x Hx; right; exact (Hincl x Hx)|exact Helim2'].
    + split.
      { constructor; [|exact Hnd2]. intros Hin. apply Hna. exact (Hincl _ Hin). }
      split.
      { intros x [<-|Hx]; [left; reflexivity|right; exact (Hincl x Hx)]. }
      intros id [<-|Hin] q Hq; [|exact (Helim2' id Hin q Hq)].
      apply Hhere; [rewrite E1; discriminate|exact Hq].
Qed.

Lemma alive_ids_are_keys (m : JsMap.t Player.t) :
  (forall k v, In (k, v) m -> Player.id v = k) ->
  List.map Player.id
    (List.filter (fun p => negb (Player.isEliminated p)) (List.map snd m))
  = JsMap.keys (List.filter (fun kv => negb (Player.isEliminated (snd kv))) m).
Proof.
  unfold JsMap.keys. induction m as [|[k v] m IH]; intros Hid; [reflexivity|].
  cbn [List.map List.filter snd].
  destruct (negb (Player.isEliminated v)).
  - cbn [List.map fst]. rewrite (Hid k v (or_introl eq_refl)). f_equal.
    apply IH. intros k' v' Hin. apply Hid. right. exact Hin.
  - apply IH. intros k' v' Hin. apply Hid. right. exact Hin.
Qed.

(** X25.  A run of the game loop announces an elimination once.  The
    [playerEliminated] messages of one run name distinct participants; each
    of them was in the match and not eliminated before the run, and is
    eliminated after it. *)
Theorem game_loop_announces_each_elimination_once h clk s :
  reachable s ->
  callbackOf h (timers s) = Some GameLoopCallback ->
  let s' := fst (step (GameLoopFires h clk) s) in
  let out := snd (step (GameLoopFires h clk) s) in
  NoDup (eliminatedIds out)
  /\ forall id, In id (eliminatedIds out) ->
       exists p p',
         getPlayer id (store s) = Some p
         /\ Player.isEliminated p = false
         /\ getPlayer id (store s') = Some p'
         /\ Player.isEliminated p' = true.
Proof.
  intros Hr Hcb. cbv zeta. cbn [step]. rewrite Hcb.
  pose proof (roster_ok_reachable s Hr) as Hok.
  destruct (GameState_eqb (gameState (store s)) PLAYING) eqn:Eph.
  2:{ unfold gameLoopCallback, getGameState. rewrite Eph. cbn [fst snd].
      split; [constructor|intros id []]. }
  apply GameState_eqb_eq in Eph.
  pose proof (gameLoopCallback_players clk s Eph) as Hplayers.
  assert (Hnd : NoDup (List.map Player.id (getAlivePlayers (store s)))).
  { unfold getAlivePlayers, JsMap.values.
    pose proof (NoDup_keys_filter (fun kv => negb (Player.isEliminated (snd kv)))
                  (players (store s)) (roster_ok_NoDup _ Hok)) as H.
    assert (E : List.map Player.id
                  (List.filter (fun p => negb (Player.isEliminated p))
                     (List.map snd (players (store s))))
                = JsMap.keys (List.filter (fun kv => negb (Player.isEliminated (snd kv)))
                                (players (store s)))).
    { apply alive_ids_are_keys. intros k v Hin. exact (roster_ok_In_id _ k v Hok Hin). }
    rewrite E. exact H. }
  destruct (tickPlayers_notices clk (getPlatformRadius (store s))
              (getAlivePlayers (store s)) false (store s)
              [(ToAll, positionUpdate (getPositionSnapshot (tkPositions clk) (store s)))]
              Hnd) as (extra & Hout & Hnd' & Hincl & Helim).
  assert (Hids : eliminatedIds (snd (gameLoopCallback clk s)) = eliminatedIds extra).
  { unfold gameLoopCallback, getGameState. rewrite Eph. cbn [GameState_eqb].
    destruct (fold_left _ _ _) as [[any st1] out1]. cbn [fst snd] in Hout |- *.
    assert (Ho1 : eliminatedIds out1 = eliminatedIds extra).
    { rewrite Hout, eliminatedIds_app. reflexivity. }
    assert (Hend : forall w s0, eliminatedIds (snd (handleGameEnd w s0)) = []).
    { intros w s0. unfold handleGameEnd. destruct (GameState_eqb _ ENDED); [reflexivity|].
      destruct (scoreUpdateInterval _); destruct w; reflexivity. }
    destruct any.
    - destruct (List.length _ <=? 1)%nat.
      + specialize (Hend (hd_error (getAlivePlayers (store (with_store st1 s))))
                      (with_store st1 s)).
        destruct (handleGameEnd _ _) as [s2 o2]. cbn [snd] in Hend.
        destruct (warningChanged _ _);
          destruct (Qlt_bool _ _ && shouldShrinkPlatform _ _ _); cbn [snd];
          rewrite ?eliminatedIds_app, Ho1, Hend; cbn; rewrite ?app_nil_r; reflexivity.
      + destruct (warningChanged _ _);
          destruct (Qlt_bool _ _ && shouldShrinkPlatform _ _ _); cbn [snd];
          rewrite ?eliminatedIds_app, Ho1; cbn; rewrite ?app_nil_r; reflexivity.
    - destruct (warningChanged _ _);
        destruct (Qlt_bool _ _ && shouldShrinkPlatform _ _ _); cbn [snd];
        rewrite ?eliminatedIds_app, Ho1; cbn; rewrite ?app_nil_r; reflexivity. }
  rewrite Hids. split; [exact Hnd'|].
  intros id Hin. unfold getPlayer. rewrite Hplayers.
  pose proof (Hincl id Hin) as Ha. apply in_map_iff in Ha. destruct Ha as (p & Hpid & Hp).
  unfold getAlivePlayers in Hp. apply filter_In in Hp. destruct Hp as [Hp Halive].
  unfold JsMap.values in Hp. apply in_map_iff in Hp. destruct Hp as ([k v] & Hv & Hkv).
  cbn [snd] in Hv. subst v.
  assert (Hk : k = id).
  { rewrite <- Hpid. symmetry. exact (roster_ok_In_id _ k p Hok Hkv). }
  subst k.
  assert (Hg : JsMap.get id (players (store s)) = Some p).
  { apply In_get_NoDup; [apply roster_ok_NoDup; exact Hok|exact Hkv]. }
  destruct (tickPlayers_settled clk (getPlatformRadius (store s))
              (getAlivePlayers (store s)) false (store s)
              [(ToAll, positionUpdate (getPositionSnapshot (tkPositions clk) (store s)))])
    as [Hmap _].
  destruct (Hmap id p Hg) as (p' & Hp' & _).
  exists p, p'. split; [exact Hg|]. split; [apply negb_true_iff; exact Halive|].
  split; [exact Hp'|]. exact (Helim id Hin p' Hp').
Qed.

End GameStateJs.

(** ** Concrete sessions *)

(** Values for [Math.cos], [Math.sin] and [Math.PI] at which the sessions
    below are run; every draw of [Math.random] in them is [0], so every
    spawn angle is [0]. *)
Definition cosAtZero (_ : Q) : Q := 1%Q.
Definition sinAtZero (_ : Q) : Q := 0%Q.
Definition approxPI : Q := (355 # 113)%Q.

Definition join (sid name : string) (now : Z) : Event :=
  Join sid (Some name) now 0%Q 0%Q now.

Definition runEvents (es : list Event) (s : Server) : Server :=
  fst (run cosAtZero sinAtZero approxPI es s).

Definition constElimClock (t : Z) : ElimClock :=
  {| tEliminatedAt := t; tSinceHit := t; tScore := t |}.

Definition constTickClock (t : Z) : TickClock :=
  {| tkPositions := t;
     tkBoundary := fun _ => t;
     tkElimBoundary := fun _ => constElimClock t;
     tkElimPushed := fun _ => constElimClock t;
     tkWarning := t;
     tkShouldShrink := t;
     tkShrink := t |}.

Definition vec (a b c : Q) : Vec3 := {| x := a; y := b; z := c |}.

(** Alice and Bob join, Alice starts the match, and the countdown runs
    out: the match is being played from time 4000 on. *)
Definition matchStartEvents : list Event :=
  [ join "a" "Alice" 100; join "b" "Bob" 200; StartGame "a";
    CountdownFires 2 2000 2000 2000; CountdownFires 2 3000 3000 3000;
    CountdownFires 2 4000 4000 4000 ].

Definition matchStarted : Server := runEvents matchStartEvents initialServer.

(** Bob falls below the fall threshold and the next tick ends the match. *)
Definition matchEnded : Server :=
  runEvents
    [ Input "b" (vec 0 (-6) 0) None 5000; GameLoopFires 1 (constTickClock 5050) ]
    matchStarted.

(** Alice asks to play again. *)
Definition roundReset : Server :=
  runEvents [ PlayAgain "a" (fun _ => 0%Q) 6000 ] matchEnded.

Definition playerOf (sid : string) (st : Store) : Player.t :=
  match JsMap.get sid (players st) with
  | Some p => p
  | None => fst (createPlayer cosAtZero sinAtZero approxPI 0 0 0 sid None st)
  end.

Definition tickAt (t : Z) : Event := GameLoopFires 1 (constTickClock t).

Definition scoreClockAt (t : Z) (_ : string) : ScoreClock :=
  {| tCalc := t; tOut := t; tSurv := t |}.

(** Four participants play from time 4000 on.  The tick at 24000 finds all
    of them in bounds, 20 s into the match.  Bob hits Dave, Dave reports a
    position below the fall threshold, and the tick at 24050 flags him out
    of bounds, sets his excursion marker and eliminates him, pushed off by
    Bob; three participants play on. *)
Definition fourStartEvents : list Event :=
  [ join "a" "Alice" 100; join "b" "Bob" 200; join "c" "Carol" 300;
    join "d" "Dave" 400; StartGame "a";
    CountdownFires 2 2000 2000 2000; CountdownFires 2 3000 3000 3000;
    CountdownFires 2 4000 4000 4000 ].

Definition daveFallen : Server :=
  runEvents
    (fourStartEvents
     ++ [ tickAt 24000; Collision "b" "d" 24010;
          Input "d" (vec 0 (-6) 0) None 24020; tickAt 24050 ])
    initialServer.

(** Bob then walks 20 units from the centre and is flagged at 24100. *)
Definition bobWalkedOut : Server :=
  runEvents [ Input "b" (vec 20 1 0) None 24060; tickAt 24100 ] daveFallen.

(** The tick at 34100, ten seconds later, eliminates him: his excursion is
    closed.  Alice and Carol play on. *)
Definition bobTimedOut : Server := runEvents [ tickAt 34100 ] bobWalkedOut.

(** Carol joins the match of Alice and Bob one second after it started. *)
Definition carolJoinedLate : Server :=
  runEvents [ join "c" "Carol" 5000 ] matchStarted.

Definition bobWalking : Player.t := Eval vm_compute in playerOf "b" (store bobWalkedOut).
Definition carolLate : Player.t :=
  Eval vm_compute in playerOf "c" (store carolJoinedLate).

Lemma daveFallen_reachable : reachable cosAtZero sinAtZero approxPI daveFallen.
Proof. eexists. unfold daveFallen, runEvents. reflexivity. Qed.

Lemma bobWalkedOut_reachable : reachable cosAtZero sinAtZero approxPI bobWalkedOut.
Proof.
  unfold bobWalkedOut, runEvents. apply reachable_run. exact daveFallen_reachable.
Qed.

Lemma bobTimedOut_reachable : reachable cosAtZero sinAtZero approxPI bobTimedOut.
Proof.
  unfold bobTimedOut, runEvents. apply reachable_run. exact bobWalkedOut_reachable.
Qed.

Lemma carolJoinedLate_reachable : reachable cosAtZero sinAtZero approxPI carolJoinedLate.
Proof.
  exists (matchStartEvents ++ [join "c" "Carol" 5000]).
  unfold carolJoinedLate, matchStarted, runEvents. apply run_app.
Qed.

(** Bob hits Alice at time 5000. *)
Definition aliceHit : Store :=
  recordCollision 5000 "a" "b" (store matchStarted).

Definition aliceWhenHit : Player.t := Eval vm_compute in playerOf "a" aliceHit.
Definition bobWhenHitting : Player.t := Eval vm_compute in playerOf "b" aliceHit.

Definition bobsHit : Hit.t :=
  {| Hit.id := "b"; Hit.name := "Bob"; Hit.timestamp := 5000 |}.

Example matchStarted_phase :
  phase matchStarted = PLAYING
  /\ timers matchStarted = [(1%nat, GameLoopCallback); (3%nat, ScoreCallback)]
  /\ cleared matchStarted = [2%nat].
Proof. vm_compute. auto. Qed.

Example credited_at_2999 :
  option_map eliminatedBy
    (fst (eliminatePlayerWithAttribution (constElimClock 7999) "a" "pushed" aliceHit))
  = Some (Some ("b", "Bob")%string).
Proof. vm_compute. reflexivity. Qed.

Example not_credited_at_3000 :
  option_map eliminatedBy
    (fst (eliminatePlayerWithAttribution (constElimClock 8000) "a" "pushed" aliceHit))
  = Some None.
Proof. vm_compute. reflexivity. Qed.

Example not_credited_at_3001 :
  option_map eliminatedBy
    (fst (eliminatePlayerWithAttribution (constElimClock 8001) "a" "pushed" aliceHit))
  = Some None.
Proof. vm_compute. reflexivity. Qed.

Example boundary_never_credited :
  option_map eliminatedBy
    (fst (eliminatePlayerWithAttribution (constElimClock 5001) "a" "boundary" aliceHit))
  = Some None.
Proof. vm_compute. reflexivity. Qed.

Example shouldShrink_at_interval :
  shouldShrinkPlatform (4000 + 29999) 30000 (store matchStarted) = false
  /\ shouldShrinkPlatform (4000 + 30000) 30000 (store matchStarted) = true.
Proof. vm_compute. auto. Qed.

(** Witness of C1: the hit is 2999 ms old when Alice is pushed off. *)
Lemma eliminatePlayerWithAttribution_attribution_witness :
  JsMap.get "a" (players aliceHit) = Some aliceWhenHit
  /\ Player.isEliminated aliceWhenHit = false
  /\ attribution_due (constElimClock 7999) "a" "pushed" aliceWhenHit aliceHit
       bobsHit bobWhenHitting
  /\ exists info st',
       eliminatePlayerWithAttribution (constElimClock 7999) "a" "pushed" aliceHit
       = (Some info, st')
       /\ eliminatedBy info = Some ("b", "Bob")%string
       /\ exists h', JsMap.get "b" (players st') = Some h'
                     /\ Player.eliminations h' = 1.
Proof.
  assert (Hget : JsMap.get "a" (players aliceHit) = Some aliceWhenHit)
    by (vm_compute; reflexivity).
  assert (Halive : Player.isEliminated aliceWhenHit = false) by reflexivity.
  assert (Hdue : attribution_due (constElimClock 7999) "a" "pushed" aliceWhenHit
                   aliceHit bobsHit bobWhenHitting).
  { unfold attribution_due. repeat split; try (vm_compute; reflexivity).
    intros H. discriminate H. }
  split; [exact Hget|]. split; [exact Halive|]. split; [exact Hdue|].
  destruct (eliminatePlayerWithAttribution_attribution
              (constElimClock 7999) "a" "pushed" aliceHit aliceWhenHit Hget Halive)
    as (info & st' & Hrun & _ & Hcredit & _).
  destruct (Hcredit bobsHit bobWhenHitting Hdue) as (Hby & Hcount & _).
  exists info, st'. split; [exact Hrun|]. split; [exact Hby|]. exact Hcount.
Defined.

(** Eliminating Alice a second time credits nobody again. *)
Example second_elimination_changes_nothing :
  let st1 :=
    snd (eliminatePlayerWithAttribution (constElimClock 7000) "a" "pushed" aliceHit) in
  option_map Player.eliminations (JsMap.get "b" (players st1)) = Some 1
  /\ eliminatePlayerWithAttribution (constElimClock 7001) "a" "pushed" st1 = (None, st1)
  /\ eliminatePlayer 7002 "a" st1 = (false, st1).
Proof. vm_compute. auto. Qed.

(** Counterexample to C2 as stated.  Carol joined the match one second
    after it started, at 4000; at 9000 she is not eliminated and in bounds,
    so her [survivalTimeSeconds] should include the interval in progress:
    5 s since the match started, and the score 5.  [calculatePlayerScore]
    stores 0: [createPlayer] leaves her [gameStartTime] unset and only the
    start of a match stamps it.  Since whatever instant the interval is
    counted the score would be positive.  The score update of the server
    at 9000 shows Alice and Bob with 5 and Carol with 0. *)
Lemma late_joiner_score_counterexample :
  reachable cosAtZero sinAtZero approxPI carolJoinedLate
  /\ gameState (store carolJoinedLate) = PLAYING
  /\ gameStartTime (store carolJoinedLate) = Some 4000
  /\ JsMap.get "c" (players (store carolJoinedLate)) = Some carolLate
  /\ Player.isEliminated carolLate = false
  /\ Player.isOutOfBounds carolLate = false
  /\ Player.joinedAt carolLate = 5000
  /\ (spec_score 4000 9000 carolLate == 5)%Q
  /\ (exists p',
        JsMap.get "c" (players (calculatePlayerScore 9000 "c" (store carolJoinedLate)))
        = Some p'
        /\ (Player.score p' == 0)%Q
        /\ ~ (Player.score p' == spec_score 4000 9000 carolLate)%Q
        /\ forall since, since < 9000 ->
             ~ (Player.score p' == spec_score since 9000 carolLate)%Q)
  /\ List.map (fun e => (se_id e, se_score e))
       (fst (getScoreSnapshot (scoreClockAt 9000) (store carolJoinedLate)))
     = [("a", 5); ("b", 5); ("c", 0)]%string.
Proof.
  split; [exact carolJoinedLate_reachable|].
  split; [vm_compute; reflexivity|]. split; [vm_compute; reflexivity|].
  split; [vm_compute; reflexivity|].
  split; [reflexivity|]. split; [reflexivity|]. split; [reflexivity|].
  split; [vm_compute; reflexivity|].
  split; [|vm_compute; reflexivity].
  eexists. split; [vm_compute; reflexivity|].
  split; [vm_compute; reflexivity|].
  split; [vm_compute; discriminate|].
  intros since Hsince H.
  assert (Hpos : (0 < elapsedSeconds since 9000)%Q).
  { unfold elapsedSeconds, Qlt. cbn [Qnum Qden]. lia. }
  assert (Hle : (elapsedSeconds since 9000 <= spec_score since 9000 carolLate)%Q).
  { unfold spec_score, spec_survivalTimeSeconds, spec_outOfBoundsTimeSeconds.
    cbn [carolLate Player.isEliminated Player.isOutOfBounds Player.eliminations
         Player.outOfBoundsTime orb].
    eapply Qle_trans; [|apply Q.le_max_r].
    apply Qle_lteq. right. ring. }
  cbn [Player.score] in H. rewrite <- H in Hle.
  apply (Qlt_irrefl 0). eapply Qlt_le_trans; [exact Hpos|]. exact Hle.
Qed.

(** Witness of C2 as amended.  Bob has pushed Dave off (one elimination),
    survived 20.05 s in bounds and has been out of bounds since 24100: at
    26100 his score is 100 + 20.05 - 10 * 2 = 100.05.  Carol, who joined
    late, has no interval of survival in progress: her score at 9000 is 0. *)
Lemma calculatePlayerScore_formula_witness :
  JsMap.get "b" (players (store bobWalkedOut)) = Some bobWalking
  /\ Player.gameStartTime bobWalking = Some 4000
  /\ Player.outOfBoundsStartTime bobWalking = Some 24100
  /\ (spec_survivalTimeSeconds 4000 26100 bobWalking == 401 # 20)%Q
  /\ (spec_outOfBoundsTimeSeconds 26100 bobWalking == 2)%Q
  /\ (spec_score 4000 26100 bobWalking == 2001 # 20)%Q
  /\ (exists s : Q,
        calculatePlayerScore 26100 "b" (store bobWalkedOut)
        = with_players (JsMap.update "b" (Player.set_score s)) (store bobWalkedOut)
        /\ (s == 2001 # 20)%Q
        /\ (0 <= s)%Q)
  /\ JsMap.get "c" (players (store carolJoinedLate)) = Some carolLate
  /\ Player.gameStartTime carolLate = None
  /\ (exists s : Q,
        calculatePlayerScore 9000 "c" (store carolJoinedLate)
        = with_players (JsMap.update "c" (Player.set_score s)) (store carolJoinedLate)
        /\ (s == 0)%Q)
  /\ (exists p',
        JsMap.get "c" (players (initializeGameTimes 60000 (store carolJoinedLate)))
        = Some p'
        /\ Player.gameStartTime p' = Some 60000)
  /\ reachable cosAtZero sinAtZero approxPI bobWalkedOut
  /\ (0 <= Player.score bobWalking)%Q.
Proof.
  assert (Hget : JsMap.get "b" (players (store bobWalkedOut)) = Some bobWalking)
    by (vm_compute; reflexivity).
  assert (Hstart : Player.gameStartTime bobWalking = Some 4000) by reflexivity.
  assert (Hmark : Player.outOfBoundsStartTime bobWalking = Some 24100) by reflexivity.
  assert (Hcarol : JsMap.get "c" (players (store carolJoinedLate)) = Some carolLate)
    by (vm_compute; reflexivity).
  assert (Hnone : Player.gameStartTime carolLate = None) by reflexivity.
  assert (Hvalue : (spec_score 4000 26100 bobWalking == 2001 # 20)%Q)
    by (vm_compute; reflexivity).
  destruct (calculatePlayerScore_formula cosAtZero sinAtZero approxPI)
    as (Hformula & Hstored & Hstamp & Hjoin & _ & Hnonneg).
  split; [exact Hget|]. split; [exact Hstart|]. split; [exact Hmark|].
  split; [vm_compute; reflexivity|]. split; [vm_compute; reflexivity|].
  split; [exact Hvalue|].
  split.
  { destruct (Hformula 26100 "b"%string (store bobWalkedOut) bobWalking 4000 Hget Hstart)
      as (s & Hs & Hq & H0); [discriminate|discriminate|].
    exists s. split; [exact Hs|]. split; [|exact H0].
    rewrite Hq. exact Hvalue. }
  split; [exact Hcarol|]. split; [exact Hnone|].
  split.
  { destruct (Hstored 9000 "c"%string (store carolJoinedLate) carolLate Hcarol Hnone)
      as (s & Hs & Hq & _); [discriminate|].
    exists s. split; [exact Hs|]. rewrite Hq. vm_compute. reflexivity. }
  split; [exact (Hstamp 60000 "c"%string (store carolJoinedLate) carolLate Hcarol eq_refl)|].
  split; [exact bobWalkedOut_reachable|].
  exact (Hnonneg bobWalkedOut "b"%string bobWalking bobWalkedOut_reachable Hget).
Defined.

(** Two eliminations, 45.3 s survived, 3.0 s out of bounds: 215.3, shown
    as 215; and a player long out of bounds scores zero, not less. *)
Definition scoredPlayer (eliminations : Z) (survived outside : Q) : Player.t :=
  Player.set_isEliminated true
    (Player.set_outOfBoundsTime outside
       (Player.set_survivalTime survived
          (Player.set_eliminations eliminations aliceWhenHit))).

Definition scoredStore (eliminations : Z) (survived outside : Q) : Store :=
  calculatePlayerScore 9000 "a"
    (with_players (JsMap.set "a" (scoredPlayer eliminations survived outside)) aliceHit).

Example score_of_example :
  (spec_score 4000 9000 (scoredPlayer 2 (453 # 10) 3) == 2153 # 10)%Q
  /\ (Player.score (playerOf "a" (scoredStore 2 (453 # 10) 3)) == 2153 # 10)%Q
  /\ Math_round (Player.score (playerOf "a" (scoredStore 2 (453 # 10) 3))) = 215
  /\ (Player.score (playerOf "a" (scoredStore 0 1 100)) == 0)%Q.
Proof. vm_compute. auto. Qed.

(** *** The boundary check in double precision *)

Definition vec64 (a b c : float) : Binary64.Vec3 :=
  {| Binary64.x := a; Binary64.y := b; Binary64.z := c |}.

(** Alice at the start of a match that began at 4000, at [position]. *)
Definition alice64 (position : Binary64.Vec3) : JsMap.t Binary64.Player :=
  [ ("a"%string,
     {| Binary64.position := position;
        Binary64.isEliminated := false;
        Binary64.isOutOfBounds := false;
        Binary64.outOfBoundsStartTime := None;
        Binary64.outOfBoundsTime := 0%float;
        Binary64.gameStartTime := Some 4000;
        Binary64.survivalTime := 0%float |}) ].

(** One tick for Alice in an arena of radius 10, after she has reported
    [position]. *)
Definition tick64 (now : Z) (position : Binary64.Vec3) (players : JsMap.t Binary64.Player)
    : bool * JsMap.t Binary64.Player :=
  Binary64.updateBoundaryStatus now "a" 10%float
    (Binary64.updatePlayerPosition "a" position players).

Definition outside64 : Binary64.Vec3 := vec64 11.5%float 1%float 0%float.
Definition inside64 : Binary64.Vec3 := vec64 0%float 1%float 0%float.

Definition player64 (players : JsMap.t Binary64.Player) : Binary64.Player :=
  match JsMap.get "a" players with
  | Some p => p
  | None => {| Binary64.position := inside64; Binary64.isEliminated := false;
               Binary64.isOutOfBounds := false; Binary64.outOfBoundsStartTime := None;
               Binary64.outOfBoundsTime := 0%float; Binary64.gameStartTime := None;
               Binary64.survivalTime := 0%float |}
  end.

(** Alice is 11.5 units from the centre when the tick at 6000 flags her
    out of bounds; the tick at 15950 finds her 9.95 s outside; she then
    reports a position at the centre. *)
Definition aliceOutside : JsMap.t Binary64.Player :=
  snd (tick64 6000 outside64 (alice64 outside64)).

Definition aliceStillOutside : JsMap.t Binary64.Player :=
  snd (tick64 15950 outside64 aliceOutside).

Definition aliceBackInside : JsMap.t Binary64.Player :=
  Binary64.updatePlayerPosition "a" inside64 aliceStillOutside.

Definition aliceOut : Binary64.Player := Eval vm_compute in player64 aliceOutside.
Definition aliceBack : Binary64.Player := Eval vm_compute in player64 aliceBackInside.

(** Counterexample to C3 as stated: at the tick at 16050 the stored
    out-of-bounds time plus the current excursion is 10.05 s, which is not
    below 10, yet [updateBoundaryStatus] returns [false], because Alice is
    back in bounds; the excursion is added to [outOfBoundsTime], the marker
    is cleared and she plays on. *)
Lemma updateBoundaryStatus_cumulative_counterexample :
  JsMap.get "a" aliceBackInside = Some aliceBack
  /\ Binary64.isEliminated aliceBack = false
  /\ Binary64.outOfBoundsTime aliceBack = 0%float
  /\ Binary64.outOfBoundsStartTime aliceBack = Some 6000
  /\ (Binary64.outOfBoundsTime aliceBack + Binary64.of_Z (16050 - 6000) / 1000
      = Binary64.of_Z 1005 / 100)%float
  /\ (10 <=? Binary64.outOfBoundsTime aliceBack + Binary64.of_Z (16050 - 6000) / 1000)%float
     = true
  /\ fst (Binary64.updateBoundaryStatus 16050 "a" 10%float aliceBackInside) = false
  /\ option_map
       (fun p => (Binary64.isOutOfBounds p, Binary64.outOfBoundsStartTime p,
                  Binary64.outOfBoundsTime p))
       (JsMap.get "a"
          (snd (Binary64.updateBoundaryStatus 16050 "a" 10%float aliceBackInside)))
     = Some (false, None, (Binary64.of_Z 1005 / 100)%float)
  /\ ~ (fst (Binary64.updateBoundaryStatus 16050 "a" 10%float aliceBackInside) = true
        <-> (10 <=? Binary64.outOfBoundsTime aliceBack
                    + Binary64.of_Z (16050 - 6000) / 1000)%float = true).
Proof.
  split; [vm_compute; reflexivity|]. split; [reflexivity|].
  split; [reflexivity|]. split; [reflexivity|].
  split; [vm_compute; reflexivity|]. split; [vm_compute; reflexivity|].
  split; [vm_compute; reflexivity|]. split; [vm_compute; reflexivity|].
  intros [_ H].
  assert (H10 : (10 <=? Binary64.outOfBoundsTime aliceBack
                        + Binary64.of_Z (16050 - 6000) / 1000)%float = true)
    by (vm_compute; reflexivity).
  apply H in H10. vm_compute in H10. discriminate H10.
Qed.

(** Witness of C3 as amended: at distance [radius + 1.5] for ten seconds
    in an arena of radius 10, Alice is still outside at 16000 and is to be
    eliminated; her ten seconds become [outOfBoundsTime]. *)
Lemma updateBoundaryStatus_spec_witness :
  JsMap.get "a" aliceOutside = Some aliceOut
  /\ Binary64.isEliminated aliceOut = false
  /\ Binary64.isOutOfBounds aliceOut = true
  /\ Binary64.outOfBoundsStartTime aliceOut = Some 6000
  /\ fst (Binary64.updateBoundaryStatus 15999 "a" 10%float aliceOutside) = false
  /\ fst (Binary64.updateBoundaryStatus 16000 "a" 10%float aliceOutside) = true
  /\ exists p',
       JsMap.get "a" (snd (Binary64.updateBoundaryStatus 16000 "a" 10%float aliceOutside))
       = Some p'
       /\ Binary64.outOfBoundsTime p' = 10%float
       /\ Binary64.outOfBoundsStartTime p' = None.
Proof.
  assert (Hget : JsMap.get "a" aliceOutside = Some aliceOut)
    by (vm_compute; reflexivity).
  assert (Halive : Binary64.isEliminated aliceOut = false) by reflexivity.
  split; [exact Hget|]. split; [exact Halive|].
  split; [reflexivity|]. split; [reflexivity|].
  destruct (updateBoundaryStatus_spec 15999 "a" 10%float aliceOutside aliceOut Hget Halive)
    as (_ & Hiff0 & _).
  destruct (updateBoundaryStatus_spec 16000 "a" 10%float aliceOutside aliceOut Hget Halive)
    as (_ & Hiff & Hfinal & _).
  assert (Hfalse : fst (Binary64.updateBoundaryStatus 15999 "a" 10%float aliceOutside)
                   = false).
  { destruct (fst (Binary64.updateBoundaryStatus 15999 "a" 10%float aliceOutside));
      [|reflexivity].
    destruct (proj1 Hiff0 eq_refl) as (_ & _ & _ & H). vm_compute in H. discriminate H. }
  assert (Htrue : fst (Binary64.updateBoundaryStatus 16000 "a" 10%float aliceOutside)
                  = true).
  { apply Hiff. repeat split; vm_compute; reflexivity. }
  split; [exact Hfalse|]. split; [exact Htrue|].
  destruct (Hfinal Htrue) as (p' & Hp' & Htime & Hmark).
  exists p'. split; [exact Hp'|]. split; [|exact Hmark].
  rewrite Htime. vm_compute. reflexivity.
Defined.

(** Rounding decides.  At [x = 11], [z = 2^-30] the distance from the
    centre exceeds 11, the radius 10 plus 1, but the sum of the squares
    rounds to 121 and its root is 11: Alice is classified in bounds. *)
Example rounded_distance_in_bounds :
  Binary64.isCurrentlyOutOfBounds
    (player64 (alice64 (vec64 11%float 1%float 0x1p-30%float))) 10%float = false
  /\ (11 * 11 + 0x1p-30 * 0x1p-30 = 121)%float
  /\ Binary64.isCurrentlyOutOfBounds
       (player64 (alice64 (vec64 11%float 1%float 0x1p-20%float))) 10%float = true.
Proof. vm_compute. auto. Qed.

(** Excursions of 0.1 s and 8.2 s are stored as 8.299999999999999 s; with
    1.7 s of a third one the cumulative time the code computes is
    9.999999999999998 s, and the tick does not eliminate Alice, ten seconds
    out of bounds all told; 50 ms later it does. *)
Definition aliceThreeExcursions : JsMap.t Binary64.Player :=
  snd (tick64 16000 outside64
         (snd (tick64 10200 inside64
                 (snd (tick64 2000 outside64
                         (snd (tick64 1100 inside64
                                 (snd (tick64 1000 outside64 (alice64 outside64)))))))))).

Example rounded_cumulative_time :
  option_map
    (fun p => (Binary64.isOutOfBounds p, Binary64.outOfBoundsStartTime p))
    (JsMap.get "a" aliceThreeExcursions)
  = Some (true, Some 16000)
  /\ (Binary64.outOfBoundsTime (player64 aliceThreeExcursions)
      = Binary64.of_Z 100 / 1000 + Binary64.of_Z 8200 / 1000)%float
  /\ (Binary64.outOfBoundsTime (player64 aliceThreeExcursions)
      + Binary64.of_Z 1700 / 1000 <? 10)%float = true
  /\ fst (tick64 17700 outside64 aliceThreeExcursions) = false
  /\ fst (tick64 17750 outside64 aliceThreeExcursions) = true.
Proof. vm_compute. auto 10. Qed.

(** Three participants join in the order A, B, C. *)
Definition threeJoined : Store :=
  store (runEvents [ join "a" "Alice" 100; join "b" "Bob" 200; join "c" "Carol" 300 ]
           initialServer).

Definition aliceJoined : Player.t := Eval vm_compute in playerOf "a" threeJoined.

(** Witness of C4. *)
Lemma removePlayer_host_succession_witness :
  JsMap.get "a" (players threeJoined) = Some aliceJoined
  /\ hostId threeJoined = Some "a"%string
  /\ fst (removePlayer "a" threeJoined) = Some aliceJoined
  /\ (exists q,
        In q (JsMap.values (players (snd (removePlayer "a" threeJoined))))
        /\ hostId (snd (removePlayer "a" threeJoined)) = Some (Player.id q)
        /\ forall r,
             In r (JsMap.values (players (snd (removePlayer "a" threeJoined)))) ->
             Player.joinedAt q <= Player.joinedAt r)
  /\ hostId (snd (removePlayer "a" threeJoined)) = Some "b"%string
  /\ hostId (snd (removePlayer "b" (snd (removePlayer "a" threeJoined))))
     = Some "c"%string.
Proof.
  assert (Hget : JsMap.get "a" (players threeJoined) = Some aliceJoined)
    by (vm_compute; reflexivity).
  assert (Hhost : hostId threeJoined = Some "a"%string) by (vm_compute; reflexivity).
  destruct (removePlayer_host_succession cosAtZero sinAtZero approxPI)
    as [Hgeneral Hthree].
  destruct (Hgeneral "a"%string threeJoined aliceJoined Hget)
    as (Hret & _ & Hpromote & _).
  destruct (Hpromote Hhost) as [_ Hmin].
  assert (Hne : JsMap.values (players (snd (removePlayer "a" threeJoined))) <> [])
    by (vm_compute; discriminate).
  destruct (Hthree 100 200 300 0%Q 0%Q 0%Q 0%Q 0%Q 0%Q "a"%string "b"%string "c"%string
              (Some "Alice"%string) (Some "Bob"%string) (Some "Carol"%string))
    as [Hb Hc]; try discriminate; try lia.
  repeat split; try assumption.
  exact (Hmin Hne).
Defined.



(** Forty participants have joined. *)
Definition fullServer : Server :=
  runEvents
    (List.map (fun i => Join (string_of_nat i) None (Z.of_nat i) 0%Q 0%Q (Z.of_nat i))
       (List.seq 0 40))
    initialServer.

(** Witness of C7. *)
Lemma join_rejected_at_capacity_witness :
  (PLAYERS.MAX_PLAYERS <= getPlayerCount (store fullServer))%nat
  /\ step cosAtZero sinAtZero approxPI (Join "late" (Some "Zed") 5000 0 0 5000)%string
       fullServer
     = (fullServer, [(ToSocket "late", joinError "Server is full")])
  /\ PLAYERS.MAX_PLAYERS = 40%nat.
Proof.
  assert (Hfull : (PLAYERS.MAX_PLAYERS <= getPlayerCount (store fullServer))%nat).
  { apply Nat.leb_le. vm_compute. reflexivity. }
  split; [exact Hfull|].
  exact (join_rejected_at_capacity cosAtZero sinAtZero approxPI
           "late" (Some "Zed"%string) 5000 0 0 5000 fullServer Hfull).
Defined.

Example forty_first_join_accepted_below_capacity :
  getPlayerCount (store fullServer) = 40%nat
  /\ getPlayerCount (store (runEvents [Disconnect "7"; join "late" "Zed" 5000] fullServer))
     = 40%nat.
Proof. vm_compute. auto. Qed.

Lemma matchStarted_reachable : reachable cosAtZero sinAtZero approxPI matchStarted.
Proof. exists matchStartEvents. unfold matchStarted, runEvents. reflexivity. Qed.

Lemma matchEnded_reachable : reachable cosAtZero sinAtZero approxPI matchEnded.
Proof.
  unfold matchEnded, runEvents. apply reachable_run. exact matchStarted_reachable.
Qed.

Lemma roundReset_reachable : reachable cosAtZero sinAtZero approxPI roundReset.
Proof.
  unfold roundReset, runEvents. apply reachable_run. exact matchEnded_reachable.
Qed.

(** Witness of C8: the match that has ended is restarted by Alice. *)
Lemma reset_then_playing_clears_round_witness :
  reachable cosAtZero sinAtZero approxPI matchEnded
  /\ phase matchEnded = ENDED
  /\ isHost "a" (store matchEnded) = true
  /\ (1 <= getPlayerCount (store matchEnded))%nat
  /\ store (fst (run cosAtZero sinAtZero approxPI
                   (restartEvents "a" (fun _ => 0%Q) (nextTimer matchEnded)
                      6000 9000 9000 9000)
                   matchEnded))
     = enterPlaying 9000 9000
         (resetGame cosAtZero sinAtZero approxPI (fun _ => 0%Q) (store matchEnded))
  /\ forall k,
       match JsMap.get k (players (store matchEnded)),
             JsMap.get k
               (players
                  (enterPlaying 9000 9000
                     (resetGame cosAtZero sinAtZero approxPI (fun _ => 0%Q)
                        (store matchEnded))))
       with
       | Some p, Some p2 => cleared_for_round p2 /\ same_participant p p2
       | None, None => True
       | _, _ => False
       end.
Proof.
  assert (Hph : phase matchEnded = ENDED) by (vm_compute; reflexivity).
  assert (Hhost : isHost "a" (store matchEnded) = true) by (vm_compute; reflexivity).
  assert (Hcount : (1 <= getPlayerCount (store matchEnded))%nat).
  { apply Nat.leb_le. vm_compute. reflexivity. }
  destruct (reset_then_playing_clears_round cosAtZero sinAtZero approxPI)
    as [Hstore Hserver].
  split; [exact matchEnded_reachable|]. split; [exact Hph|]. split; [exact Hhost|].
  split; [exact Hcount|]. split.
  - exact (Hserver "a"%string (fun _ => 0%Q) 6000 9000 9000 9000 matchEnded
             matchEnded_reachable Hph Hhost Hcount).
  - exact (proj2 (proj2 (proj2 (proj2 (proj2
             (Hstore (fun _ => 0%Q) 9000 9000 (store matchEnded))))))).
Defined.

(** Counterexample to C9 as stated: the game-loop interval, handle 1,
    started when Alice joined, is still active and was never cleared after
    the match has ended, and after the round was reset. *)
Lemma game_loop_interval_outlives_match :
  reachable cosAtZero sinAtZero approxPI matchEnded
  /\ phase matchEnded = ENDED
  /\ timers matchEnded = [(1%nat, GameLoopCallback)]
  /\ ~ In 1%nat (cleared matchEnded)
  /\ reachable cosAtZero sinAtZero approxPI roundReset
  /\ phase roundReset = LOBBY
  /\ timers roundReset = [(1%nat, GameLoopCallback)]
  /\ ~ In 1%nat (cleared roundReset).
Proof.
  split; [exact matchEnded_reachable|]. split; [vm_compute; reflexivity|].
  split; [vm_compute; reflexivity|].
  split; [vm_compute; intros [H | [H | []]]; discriminate H|].
  split; [exact roundReset_reachable|]. split; [vm_compute; reflexivity|].
  split; [vm_compute; reflexivity|].
  vm_compute. intros [H | [H | []]]; discriminate H.
Qed.

(** Witness of C9 as amended, in the match being played. *)
Lemma timers_discipline_witness :
  reachable cosAtZero sinAtZero approxPI matchStarted
  /\ NoDup (cleared matchStarted)
  /\ phase matchStarted = PLAYING
  /\ (forall winner,
        let s' := fst (handleGameEnd winner matchStarted) in
        phase s' = ENDED
        /\ scoreUpdateInterval s' = None
        /\ forall h, callbackOf h (timers s') <> Some ScoreCallback)
  /\ (forall es,
        let s' := fst (run cosAtZero sinAtZero approxPI es matchStarted) in
        gameLoopInterval s' = Some 1%nat
        /\ callbackOf 1 (timers s') = Some GameLoopCallback
        /\ ~ In 1%nat (cleared s')).
Proof.
  pose proof matchStarted_reachable as Hreach.
  destruct (timers_discipline cosAtZero sinAtZero approxPI matchStarted Hreach)
    as (Honce & _ & _ & _ & Hend & Hloop & _).
  assert (Hph : phase matchStarted = PLAYING) by (vm_compute; reflexivity).
  split; [exact Hreach|]. split; [exact Honce|]. split; [exact Hph|].
  split.
  - intros winner. exact (Hend winner Hph).
  - intros es. apply Hloop. vm_compute. reflexivity.
Defined.

(** The arena at its minimum radius, the third shrink made at 94000. *)
Definition arenaAtMinimum : Server :=
  runEvents
    [ GameLoopFires 1 (constTickClock 34000);
      GameLoopFires 1 (constTickClock 64000);
      GameLoopFires 1 (constTickClock 94000) ]
    matchStarted.

Example arenaAtMinimum_radius :
  (platformRadius (store arenaAtMinimum) == 4)%Q
  /\ lastShrinkTime (store arenaAtMinimum) = Some 94000.
Proof. vm_compute. auto. Qed.

(** Witness of C10: one second before the fourth shrink interval has
    elapsed there is no warning, and the tick broadcasts none. *)
Lemma shrink_warning_silent_at_minimum_witness :
  (platformRadius (store arenaAtMinimum) <= PLATFORM.MIN_RADIUS)%Q
  /\ getShrinkWarningState 123000 PLATFORM.SHRINK_INTERVAL PLATFORM.SHRINK_WARNING_TIME
       (store arenaAtMinimum)
     = {| isWarning := false; warningProgress := 0%Q |}
  /\ forall t w progress radius,
       In (t, platformWarning w progress radius)
         (snd (step cosAtZero sinAtZero approxPI
                 (GameLoopFires 1 (constTickClock 123000)) arenaAtMinimum)) ->
       w = false.
Proof.
  assert (Hmin : (platformRadius (store arenaAtMinimum) <= PLATFORM.MIN_RADIUS)%Q)
    by (vm_compute; discriminate).
  destruct (shrink_warning_silent_at_minimum cosAtZero sinAtZero approxPI)
    as (Hstate & Hquiet & _).
  split; [exact Hmin|]. split.
  - apply Hstate. right. exact Hmin.
  - intros t w progress radius. apply Hquiet. exact Hmin.
Defined.

(** Above the minimum radius the same instant in the interval does warn. *)
Example warning_above_minimum :
  isWarning
    (getShrinkWarningState 33000 PLATFORM.SHRINK_INTERVAL PLATFORM.SHRINK_WARNING_TIME
       (store matchStarted)) = true.
Proof. vm_compute. reflexivity. Qed.

(** ** Concrete sessions for the further properties *)

Definition aliceAtStart : Player.t := Eval vm_compute in playerOf "a" (store matchStarted).
Definition bobAtStart : Player.t := Eval vm_compute in playerOf "b" (store matchStarted).

Definition konamiByAlice : Event := KonamiCode "a" (fun _ => 5000).

(** Bob has reported a position below the fall threshold. *)
Definition bobFalling : Server :=
  runEvents [ Input "b" (vec 0 (-6) 0) None 5000 ] matchStarted.

Lemma fullServer_reachable : reachable cosAtZero sinAtZero approxPI fullServer.
Proof.
  exists (List.map (fun i => Join (string_of_nat i) None (Z.of_nat i) 0%Q 0%Q (Z.of_nat i))
            (List.seq 0 40)).
  unfold fullServer, runEvents. reflexivity.
Qed.

Lemma arenaAtMinimum_reachable : reachable cosAtZero sinAtZero approxPI arenaAtMinimum.
Proof.
  unfold arenaAtMinimum, runEvents. apply reachable_run. exact matchStarted_reachable.
Qed.

Lemma bobFalling_reachable : reachable cosAtZero sinAtZero approxPI bobFalling.
Proof.
  unfold bobFalling, runEvents. apply reachable_run. exact matchStarted_reachable.
Qed.

(** Witness of X1. *)
Lemma participants_stored_under_own_id_witness :
  reachable cosAtZero sinAtZero approxPI matchStarted
  /\ getPlayer "b" (store matchStarted) = Some bobAtStart
  /\ Player.id bobAtStart = "b"%string
  /\ NoDup (List.map Player.id (getAllPlayers (store matchStarted))).
Proof.
  pose proof matchStarted_reachable as Hreach.
  destruct (participants_stored_under_own_id cosAtZero sinAtZero approxPI matchStarted
              Hreach) as [Hid Hnd].
  assert (Hg : getPlayer "b" (store matchStarted) = Some bobAtStart)
    by (vm_compute; reflexivity).
  split; [exact Hreach|]. split; [exact Hg|]. split; [exact (Hid _ _ Hg)|exact Hnd].
Defined.

(** Witness of X2. *)
Lemma host_is_a_participant_witness :
  reachable cosAtZero sinAtZero approxPI matchStarted
  /\ getHostId (store matchStarted) = Some "a"%string
  /\ exists p, getPlayer "a" (store matchStarted) = Some p /\ Player.id p = "a"%string.
Proof.
  pose proof matchStarted_reachable as Hreach.
  destruct (host_is_a_participant cosAtZero sinAtZero approxPI matchStarted Hreach)
    as [_ Hhost].
  assert (Hh : getHostId (store matchStarted) = Some "a"%string)
    by (vm_compute; reflexivity).
  split; [exact Hreach|]. split; [exact Hh|exact (Hhost _ Hh)].
Defined.

(** Witness of X3: forty participants, and not one more. *)
Lemma player_count_within_capacity_witness :
  reachable cosAtZero sinAtZero approxPI fullServer
  /\ getPlayerCount (store fullServer) = 40%nat
  /\ (getPlayerCount (store fullServer) <= PLAYERS.MAX_PLAYERS)%nat.
Proof.
  pose proof fullServer_reachable as Hreach.
  split; [exact Hreach|]. split; [vm_compute; reflexivity|].
  exact (player_count_within_capacity cosAtZero sinAtZero approxPI fullServer Hreach).
Defined.

(** Witness of X4. *)
Lemma identity_is_stable_witness :
  getPlayer "a" (store matchStarted) = Some aliceAtStart
  /\ eventReplaces (tickAt 5000) "a" = false
  /\ exists p',
       getPlayer "a"
         (store (fst (step cosAtZero sinAtZero approxPI (tickAt 5000) matchStarted)))
       = Some p'
       /\ same_participant aliceAtStart p'.
Proof.
  assert (Hg : getPlayer "a" (store matchStarted) = Some aliceAtStart)
    by (vm_compute; reflexivity).
  split; [exact Hg|]. split; [reflexivity|].
  exact (identity_is_stable cosAtZero sinAtZero approxPI (tickAt 5000) matchStarted
           "a" aliceAtStart Hg eq_refl).
Defined.

(** Witness of X5. *)
Lemma colors_come_from_palette_witness :
  reachable cosAtZero sinAtZero approxPI matchStarted
  /\ getPlayer "b" (store matchStarted) = Some bobAtStart
  /\ (Player.colorIndex bobAtStart < List.length PLAYER_COLORS)%nat
  /\ List.nth_error PLAYER_COLORS (Player.colorIndex bobAtStart)
     = Some (Player.color bobAtStart)
  /\ In (Player.color bobAtStart) PLAYER_COLORS.
Proof.
  pose proof matchStarted_reachable as Hreach.
  assert (Hg : getPlayer "b" (store matchStarted) = Some bobAtStart)
    by (vm_compute; reflexivity).
  split; [exact Hreach|]. split; [exact Hg|].
  exact (colors_come_from_palette cosAtZero sinAtZero approxPI matchStarted "b"
           bobAtStart Hreach Hg).
Defined.

(** Witness of X6: the Konami code takes the match from play to its end. *)
Lemma phase_cycle_witness :
  reachable cosAtZero sinAtZero approxPI matchStarted
  /\ phase matchStarted = PLAYING
  /\ phase (fst (step cosAtZero sinAtZero approxPI konamiByAlice matchStarted)) = ENDED
  /\ endsMatch konamiByAlice = true.
Proof.
  pose proof matchStarted_reachable as Hreach.
  assert (Hph : phase matchStarted = PLAYING) by (vm_compute; reflexivity).
  split; [exact Hreach|]. split; [exact Hph|].
  destruct (phase_cycle cosAtZero sinAtZero approxPI konamiByAlice matchStarted Hreach)
    as [H | [(H & _) | [(H & _) | [(_ & H1 & H2) | (H & _)]]]].
  - exfalso. revert H. vm_compute. discriminate.
  - exfalso. rewrite Hph in H. discriminate.
  - exfalso. rewrite Hph in H. discriminate.
  - split; [exact H1|exact H2].
  - exfalso. rewrite Hph in H. discriminate.
Defined.

(** Witness of X7. *)
Lemma match_end_announces_survivor_witness :
  reachable cosAtZero sinAtZero approxPI matchStarted
  /\ phase matchStarted <> ENDED
  /\ phase (fst (step cosAtZero sinAtZero approxPI konamiByAlice matchStarted)) = ENDED
  /\ (List.length
        (getAlivePlayers
           (store (fst (step cosAtZero sinAtZero approxPI konamiByAlice matchStarted))))
      <= 1)%nat
  /\ gameEnds (snd (step cosAtZero sinAtZero approxPI konamiByAlice matchStarted))
     = [option_map winnerOf
          (List.hd_error
             (getAlivePlayers
                (store (fst (step cosAtZero sinAtZero approxPI konamiByAlice
                               matchStarted)))))].
Proof.
  pose proof matchStarted_reachable as Hreach.
  assert (H1 : phase matchStarted <> ENDED) by (vm_compute; discriminate).
  assert (H2 : phase (fst (step cosAtZero sinAtZero approxPI konamiByAlice matchStarted))
               = ENDED) by (vm_compute; reflexivity).
  destruct (match_end_announces_survivor cosAtZero sinAtZero approxPI konamiByAlice
              matchStarted Hreach) as [H _].
  split; [exact Hreach|]. split; [exact H1|]. split; [exact H2|]. exact (H H1 H2).
Defined.

(** Witness of X8. *)
Lemma arena_radius_levels_witness :
  reachable cosAtZero sinAtZero approxPI arenaAtMinimum
  /\ In (getPlatformRadius (store arenaAtMinimum)) radiusLevels
  /\ (PLATFORM.MIN_RADIUS <= getPlatformRadius (store arenaAtMinimum)
      <= PLATFORM.INITIAL_RADIUS)%Q.
Proof.
  pose proof arenaAtMinimum_reachable as Hreach.
  split; [exact Hreach|].
  exact (arena_radius_levels cosAtZero sinAtZero approxPI arenaAtMinimum Hreach).
Defined.

(** Witness of X9: thirty seconds into the match the arena goes from 10
    to 8. *)
Lemma arena_resizes_witness :
  reachable cosAtZero sinAtZero approxPI matchStarted
  /\ getPlatformRadius (store matchStarted) = 10%Q
  /\ getPlatformRadius
       (store (fst (step cosAtZero sinAtZero approxPI (tickAt 34000) matchStarted)))
     = (10 - PLATFORM.SHRINK_AMOUNT)%Q
  /\ lastShrinkTime
       (store (fst (step cosAtZero sinAtZero approxPI (tickAt 34000) matchStarted)))
     = Some 34000.
Proof.
  pose proof matchStarted_reachable as Hreach.
  assert (Hr : getPlatformRadius (store matchStarted) = 10%Q) by (vm_compute; reflexivity).
  split; [exact Hreach|]. split; [exact Hr|].
  destruct (arena_resizes cosAtZero sinAtZero approxPI (tickAt 34000) matchStarted Hreach)
    as [H | [(H & _) | (h & clk & t & He & _ & _ & _ & _ & Hr' & Hl & _)]].
  - exfalso. revert H. vm_compute. discriminate.
  - exfalso. revert H. vm_compute. discriminate.
  - inversion He; subst clk. rewrite Hr in Hr'. split; [exact Hr'|exact Hl].
Defined.

(** Witness of X10: sixteen seconds after the start of the match. *)
Lemma shrink_clock_readings_witness :
  truthy (lastShrinkTime (store matchStarted)) = true
  /\ shouldShrinkPlatform 20000 PLATFORM.SHRINK_INTERVAL (store matchStarted) = false
  /\ getTimeSinceLastShrink 20000 (store matchStarted)
     + getTimeUntilNextShrink 20000 PLATFORM.SHRINK_INTERVAL (store matchStarted)
     = PLATFORM.SHRINK_INTERVAL.
Proof.
  assert (H1 : truthy (lastShrinkTime (store matchStarted)) = true)
    by (vm_compute; reflexivity).
  assert (H2 : shouldShrinkPlatform 20000 PLATFORM.SHRINK_INTERVAL (store matchStarted)
               = false) by (vm_compute; reflexivity).
  destruct (shrink_clock_readings 20000 PLATFORM.SHRINK_INTERVAL (store matchStarted))
    as (_ & _ & H).
  split; [exact H1|]. split; [exact H2|exact (H H1 H2)].
Defined.

(** Witness of X11: four seconds before the first shrink. *)
Lemma shrink_warning_window_witness :
  0 < PLATFORM.SHRINK_WARNING_TIME
  /\ isWarning
       (getShrinkWarningState 30000 PLATFORM.SHRINK_INTERVAL PLATFORM.SHRINK_WARNING_TIME
          (store matchStarted)) = true
  /\ (0 <= warningProgress
             (getShrinkWarningState 30000 PLATFORM.SHRINK_INTERVAL
                PLATFORM.SHRINK_WARNING_TIME (store matchStarted)))%Q
  /\ (warningProgress
        (getShrinkWarningState 30000 PLATFORM.SHRINK_INTERVAL
           PLATFORM.SHRINK_WARNING_TIME (store matchStarted)) < 1)%Q
  /\ shouldShrinkPlatform 30000 PLATFORM.SHRINK_INTERVAL (store matchStarted) = false.
Proof.
  assert (H0 : 0 < PLATFORM.SHRINK_WARNING_TIME) by (vm_compute; reflexivity).
  assert (Hw : isWarning
                 (getShrinkWarningState 30000 PLATFORM.SHRINK_INTERVAL
                    PLATFORM.SHRINK_WARNING_TIME (store matchStarted)) = true)
    by (vm_compute; reflexivity).
  destruct (shrink_warning_window 30000 PLATFORM.SHRINK_INTERVAL
              PLATFORM.SHRINK_WARNING_TIME (store matchStarted) H0) as (_ & H & _).
  destruct (H Hw) as (_ & B1 & B2 & B3).
  split; [exact H0|]. split; [exact Hw|]. split; [exact B1|]. split; [exact B2|exact B3].
Defined.

(** Witness of X12. *)
Lemma konami_code_wins_witness :
  reachable cosAtZero sinAtZero approxPI matchStarted
  /\ phase matchStarted = PLAYING
  /\ getPlayer "a" (store matchStarted) = Some aliceAtStart
  /\ Player.isEliminated aliceAtStart = false
  /\ phase (fst (step cosAtZero sinAtZero approxPI konamiByAlice matchStarted)) = ENDED
  /\ getAlivePlayers
       (store (fst (step cosAtZero sinAtZero approxPI konamiByAlice matchStarted)))
     = [aliceAtStart]
  /\ gameEnds (snd (step cosAtZero sinAtZero approxPI konamiByAlice matchStarted))
     = [Some (winnerOf aliceAtStart)].
Proof.
  pose proof matchStarted_reachable as Hreach.
  assert (Hph : phase matchStarted = PLAYING) by (vm_compute; reflexivity).
  assert (Hg : getPlayer "a" (store matchStarted) = Some aliceAtStart)
    by (vm_compute; reflexivity).
  assert (Ha : Player.isEliminated aliceAtStart = false) by reflexivity.
  destruct (konami_code_wins cosAtZero sinAtZero approxPI "a" (fun _ => 5000)
              matchStarted Hreach) as [H _].
  destruct (H aliceAtStart Hph Hg Ha) as (H1 & H2 & H3 & _).
  split; [exact Hreach|]. split; [exact Hph|]. split; [exact Hg|]. split; [exact Ha|].
  split; [exact H1|]. split; [exact H2|exact H3].
Defined.

(** Witness of X13: Bob is below the threshold when the loop runs. *)
Lemma game_loop_eliminates_the_fallen_witness :
  reachable cosAtZero sinAtZero approxPI bobFalling
  /\ phase bobFalling = PLAYING
  /\ callbackOf 1 (timers bobFalling) = Some GameLoopCallback
  /\ forall p',
       In p' (getAlivePlayers
                (store (fst (step cosAtZero sinAtZero approxPI (tickAt 5050)
                               bobFalling)))) ->
       (SERVER.FALL_THRESHOLD <= y (Player.position p'))%Q.
Proof.
  pose proof bobFalling_reachable as Hreach.
  assert (Hph : phase bobFalling = PLAYING) by (vm_compute; reflexivity).
  assert (Hcb : callbackOf 1 (timers bobFalling) = Some GameLoopCallback)
    by (vm_compute; reflexivity).
  destruct (game_loop_eliminates_the_fallen cosAtZero sinAtZero approxPI 1
              (constTickClock 5050) bobFalling Hreach Hph Hcb) as [_ H].
  split; [exact Hreach|]. split; [exact Hph|]. split; [exact Hcb|exact H].
Defined.

(** Witness of X14. *)
Lemma input_moves_only_the_sender_witness :
  phase matchStarted = PLAYING
  /\ getPlayer "b" (store matchStarted) = Some bobAtStart
  /\ Player.isEliminated bobAtStart = false
  /\ getPlayer "a"
       (store (fst (step cosAtZero sinAtZero approxPI
                      (Input "b" (vec 1 1 2) None 5000) matchStarted)))
     = getPlayer "a" (store matchStarted)
  /\ exists p',
       getPlayer "b"
         (store (fst (step cosAtZero sinAtZero approxPI
                        (Input "b" (vec 1 1 2) None 5000) matchStarted)))
       = Some p'
       /\ Player.position p' = vec 1 1 2
       /\ Player.velocity p' = Player.velocity bobAtStart
       /\ Player.lastUpdate p' = Some 5000
       /\ moved bobAtStart p'.
Proof.
  assert (Hph : phase matchStarted = PLAYING) by (vm_compute; reflexivity).
  assert (Hg : getPlayer "b" (store matchStarted) = Some bobAtStart)
    by (vm_compute; reflexivity).
  assert (Ha : Player.isEliminated bobAtStart = false) by reflexivity.
  destruct (input_moves_only_the_sender cosAtZero sinAtZero approxPI "b" (vec 1 1 2)
              None 5000 matchStarted) as (_ & _ & Hothers & Hsender & _).
  split; [exact Hph|]. split; [exact Hg|]. split; [exact Ha|].
  split; [apply Hothers; discriminate|exact (Hsender bobAtStart Hph Hg Ha)].
Defined.

(** Witness of X15: Bob reports that he hit Alice. *)
Lemma collision_names_the_sender_witness :
  reachable cosAtZero sinAtZero approxPI matchStarted
  /\ phase matchStarted = PLAYING
  /\ getPlayer "b" (store matchStarted) = Some bobAtStart
  /\ getPlayer "a" (store matchStarted) = Some aliceAtStart
  /\ exists q',
       getPlayer "a"
         (store (fst (step cosAtZero sinAtZero approxPI (Collision "b" "a" 5000)
                        matchStarted)))
       = Some q'
       /\ Player.lastHitBy q'
          = Some {| Hit.id := "b"; Hit.name := Player.name bobAtStart;
                    Hit.timestamp := 5000 |}
       /\ Player.set_lastHitBy (Player.lastHitBy aliceAtStart) q' = aliceAtStart.
Proof.
  pose proof matchStarted_reachable as Hreach.
  assert (Hph : phase matchStarted = PLAYING) by (vm_compute; reflexivity).
  assert (Hb : getPlayer "b" (store matchStarted) = Some bobAtStart)
    by (vm_compute; reflexivity).
  assert (Ha : getPlayer "a" (store matchStarted) = Some aliceAtStart)
    by (vm_compute; reflexivity).
  destruct (collision_names_the_sender cosAtZero sinAtZero approxPI "b" "a" 5000
              matchStarted Hreach) as (_ & _ & _ & H & _).
  split; [exact Hreach|]. split; [exact Hph|]. split; [exact Hb|]. split; [exact Ha|].
  exact (H bobAtStart aliceAtStart Hph Hb Ha eq_refl eq_refl).
Defined.

(** Bob has walked 20 units from the centre and the tick at 5050 has
    flagged him out of bounds. *)
Definition bobWandering : Server :=
  runEvents [ Input "b" (vec 20 1 0) None 5000; tickAt 5050 ] matchStarted.

Lemma bobWandering_reachable : reachable cosAtZero sinAtZero approxPI bobWandering.
Proof.
  unfold bobWandering, runEvents. apply reachable_run. exact matchStarted_reachable.
Qed.

(** Witness of X16: at 9000 Alice has survived 5 s in bounds and scores 5;
    Bob, 3.95 s out of bounds, scores 0. *)
Lemma score_snapshot_is_a_leaderboard_witness :
  reachable cosAtZero sinAtZero approxPI bobWandering
  /\ List.map (fun e => (se_id e, se_score e))
       (fst (getScoreSnapshot (scoreClockAt 9000) (store bobWandering)))
     = [("a", 5); ("b", 0)]%string
  /\ StronglySorted higherFirst
       (fst (getScoreSnapshot (scoreClockAt 9000) (store bobWandering)))
  /\ Permutation
       (List.map se_id (fst (getScoreSnapshot (scoreClockAt 9000) (store bobWandering))))
       (List.map Player.id (getAllPlayers (store bobWandering)))
  /\ Forall (fun e => 0 <= se_score e)
       (fst (getScoreSnapshot (scoreClockAt 9000) (store bobWandering)))
  /\ Forall (entryOf (scoreClockAt 9000) (store bobWandering)
               (snd (getScoreSnapshot (scoreClockAt 9000) (store bobWandering))))
       (fst (getScoreSnapshot (scoreClockAt 9000) (store bobWandering))).
Proof.
  pose proof bobWandering_reachable as Hreach.
  split; [exact Hreach|]. split; [vm_compute; reflexivity|].
  exact (score_snapshot_is_a_leaderboard cosAtZero sinAtZero approxPI (scoreClockAt 9000)
           bobWandering Hreach).
Defined.

(** Witness of X17: Bob is eliminated, and the snapshot lists Alice only. *)
Lemma position_snapshot_lists_the_alive_witness :
  reachable cosAtZero sinAtZero approxPI matchEnded
  /\ Permutation
       (List.map fst (positions (getPositionSnapshot 6000 (store matchEnded))))
       (List.map Player.id (getAlivePlayers (store matchEnded)))
  /\ List.map Player.id (getAlivePlayers (store matchEnded)) = ["a"%string].
Proof.
  pose proof matchEnded_reachable as Hreach.
  destruct (position_snapshot_lists_the_alive cosAtZero sinAtZero approxPI 6000
              matchEnded Hreach) as (H & _ & _).
  split; [exact Hreach|]. split; [exact H|]. vm_compute. reflexivity.
Defined.

(** Witness of X18: the second round, started by Alice after the reset. *)
Lemma countdown_counts_down_witness :
  reachable cosAtZero sinAtZero approxPI roundReset
  /\ phase roundReset = LOBBY
  /\ isHost "a" (store roundReset) = true
  /\ (1 <= getPlayerCount (store roundReset))%nat
  /\ let tick := CountdownFires (nextTimer roundReset) 9000 9000 9000 in
     let r := run cosAtZero sinAtZero approxPI [StartGame "a"; tick; tick; tick]
                roundReset in
     phase (fst r) = PLAYING
     /\ snd r
        = [ (ToAll, countdown 3); (ToAll, countdown 2); (ToAll, countdown 1);
            (ToAll, gameStart (getStateSnapshot 9000 (store (fst r)))) ].
Proof.
  pose proof roundReset_reachable as Hreach.
  assert (Hph : phase roundReset = LOBBY) by (vm_compute; reflexivity).
  assert (Hh : isHost "a" (store roundReset) = true) by (vm_compute; reflexivity).
  assert (Hc : (1 <= getPlayerCount (store roundReset))%nat) by (vm_compute; lia).
  split; [exact Hreach|]. split; [exact Hph|]. split; [exact Hh|]. split; [exact Hc|].
  exact (countdown_counts_down cosAtZero sinAtZero approxPI "a" 9000 9000 9000
           roundReset Hreach Hph Hh Hc).
Defined.

(** Witness of X19: Carol joins the match and leaves again. *)
Lemma createPlayer_round_trip_witness :
  reachable cosAtZero sinAtZero approxPI matchStarted
  /\ getPlayer "c" (store matchStarted) = None
  /\ getHostId (store matchStarted) <> Some ""%string
  /\ let st' := snd (createPlayer cosAtZero sinAtZero approxPI 5000 0 0 "c"
                       (Some "Carol"%string) (store matchStarted)) in
     getPlayerCount st' = S (getPlayerCount (store matchStarted))
     /\ snd (removePlayer "c" st') = store matchStarted.
Proof.
  pose proof matchStarted_reachable as Hreach.
  assert (Hn : getPlayer "c" (store matchStarted) = None) by (vm_compute; reflexivity).
  assert (Hh : getHostId (store matchStarted) <> Some ""%string)
    by (vm_compute; discriminate).
  destruct (createPlayer_round_trip cosAtZero sinAtZero approxPI 5000 0 0 "c"
              (Some "Carol"%string) matchStarted Hreach) as (_ & _ & _ & _ & _ & H).
  destruct (H Hn) as (H1 & _ & _ & H2).
  split; [exact Hreach|]. split; [exact Hn|]. split; [exact Hh|].
  split; [exact H1|exact (H2 Hh)].
Defined.

(** Witness of X20. *)
Lemma elimination_credit_comes_from_the_game_loop_witness :
  reachable cosAtZero sinAtZero approxPI matchStarted
  /\ getPlayer "a" (store matchStarted) = Some aliceAtStart
  /\ exists p',
       getPlayer "a"
         (store (fst (step cosAtZero sinAtZero approxPI (Collision "b" "a" 5000)
                        matchStarted)))
       = Some p'
       /\ Player.eliminations aliceAtStart <= Player.eliminations p'
       /\ Player.eliminations p' = Player.eliminations aliceAtStart.
Proof.
  pose proof matchStarted_reachable as Hreach.
  assert (Hg : getPlayer "a" (store matchStarted) = Some aliceAtStart)
    by (vm_compute; reflexivity).
  destruct (elimination_credit_comes_from_the_game_loop cosAtZero sinAtZero approxPI
              (Collision "b" "a" 5000) matchStarted "a" aliceAtStart Hreach Hg
              eq_refl eq_refl) as (p' & H1 & H2 & H3).
  split; [exact Hreach|]. split; [exact Hg|].
  exists p'. split; [exact H1|]. split; [exact H2|].
  apply H3. intros h clk. discriminate.
Defined.

(** Witness of X22: the lobby after the reset. *)
Lemma lobby_is_a_fresh_round_witness :
  reachable cosAtZero sinAtZero approxPI roundReset
  /\ phase roundReset = LOBBY
  /\ getAlivePlayers (store roundReset) = getAllPlayers (store roundReset)
  /\ getPlatformRadius (store roundReset) = PLATFORM.INITIAL_RADIUS.
Proof.
  pose proof roundReset_reachable as Hreach.
  assert (Hph : phase roundReset = LOBBY) by (vm_compute; reflexivity).
  destruct (lobby_is_a_fresh_round cosAtZero sinAtZero approxPI roundReset Hreach
              (or_introl Hph)) as (_ & H1 & H2).
  split; [exact Hreach|]. split; [exact Hph|]. split; [exact H1|exact H2].
Defined.

(** Witness of X23: Carol joins the match in play. *)
Lemma join_below_capacity_is_accepted_witness :
  reachable cosAtZero sinAtZero approxPI matchStarted
  /\ (getPlayerCount (store matchStarted) < PLAYERS.MAX_PLAYERS)%nat
  /\ exists player,
       getPlayer "c"
         (store (fst (step cosAtZero sinAtZero approxPI (join "c" "Carol" 5000)
                        matchStarted)))
       = Some player
       /\ Player.id player = "c"%string
       /\ Player.isEliminated player = false
       /\ getHostId
            (store (fst (step cosAtZero sinAtZero approxPI (join "c" "Carol" 5000)
                           matchStarted)))
          = Some "a"%string.
Proof.
  pose proof matchStarted_reachable as Hreach.
  assert (Hc : (getPlayerCount (store matchStarted) < PLAYERS.MAX_PLAYERS)%nat)
    by (vm_compute; lia).
  destruct (join_below_capacity_is_accepted cosAtZero sinAtZero approxPI "c"
              (Some "Carol"%string) 5000 0 0 5000 matchStarted Hreach Hc)
    as (player & H1 & H2 & H3 & _ & _ & _ & _ & _ & _ & H4).
  split; [exact Hreach|]. split; [exact Hc|].
  exists player. split; [exact H1|]. split; [exact H2|]. split; [exact H3|].
  apply H4; [vm_compute; reflexivity|discriminate].
Defined.

(** Witness of X24: Bob disconnects during the match. *)
Lemma disconnect_removes_the_participant_witness :
  reachable cosAtZero sinAtZero approxPI matchStarted
  /\ getPlayer "b" (store matchStarted) = Some bobAtStart
  /\ getPlayer "b"
       (store (fst (step cosAtZero sinAtZero approxPI (Disconnect "b") matchStarted)))
     = None
  /\ S (getPlayerCount
          (store (fst (step cosAtZero sinAtZero approxPI (Disconnect "b") matchStarted))))
     = getPlayerCount (store matchStarted).
Proof.
  pose proof matchStarted_reachable as Hreach.
  assert (Hg : getPlayer "b" (store matchStarted) = Some bobAtStart)
    by (vm_compute; reflexivity).
  destruct (disconnect_removes_the_participant cosAtZero sinAtZero approxPI "b"
              matchStarted Hreach) as [H _].
  destruct (H bobAtStart Hg) as (H1 & H2 & _).
  split; [exact Hreach|]. split; [exact Hg|]. split; [exact H1|exact H2].
Defined.

(** Witness of X25: the run of the loop that finds Bob below the threshold
    announces his elimination, and nobody else's. *)
Lemma game_loop_announces_each_elimination_once_witness :
  reachable cosAtZero sinAtZero approxPI bobFalling
  /\ callbackOf 1 (timers bobFalling) = Some GameLoopCallback
  /\ eliminatedIds (snd (step cosAtZero sinAtZero approxPI (tickAt 5050) bobFalling))
     = ["b"%string]
  /\ NoDup (eliminatedIds
              (snd (step cosAtZero sinAtZero approxPI (tickAt 5050) bobFalling)))
  /\ exists p p',
       getPlayer "b" (store bobFalling) = Some p
       /\ Player.isEliminated p = false
       /\ getPlayer "b"
            (store (fst (step cosAtZero sinAtZero approxPI (tickAt 5050) bobFalling)))
          = Some p'
       /\ Player.isEliminated p' = true.
Proof.
  pose proof bobFalling_reachable as Hreach.
  assert (Hcb : callbackOf 1 (timers bobFalling) = Some GameLoopCallback)
    by (vm_compute; reflexivity).
  assert (Hids : eliminatedIds
                   (snd (step cosAtZero sinAtZero approxPI (tickAt 5050) bobFalling))
                 = ["b"%string]) by (vm_compute; reflexivity).
  destruct (game_loop_announces_each_elimination_once cosAtZero sinAtZero approxPI 1
              (constTickClock 5050) bobFalling Hreach Hcb) as [Hnd H].
  split; [exact Hreach|]. split; [exact Hcb|]. split; [exact Hids|]. split; [exact Hnd|].
  apply H. unfold tickAt in Hids. rewrite Hids. left. reflexivity.
Defined.
